(* ===== verification/_CoqProject ===== *)
-Q . S2P
Prelude.v
Types.v
OS.v
CJson.v
CommandSanity.v
IssueType.v
Archive.v
Cache.v
CacheThreads.v
Config.v
SysInfo.v
Load.v
Upload.v
RunCmd.v
Profile.v
Dynamic.v
Queue.v
MsgPack.v
EventProcess.v
Iarm.v
Interface.v
Main.v
HeapSafety.v
Heap.v
CacheMem.v
ProfileMem.v
EventMem.v
DecoderMem.v
ThreadMem.v
QueueMem.v
DaemonMem.v
UnitTests.v
UnitTestsBus.v
UnitTestsUpload.v
