(* ===== verification/Prelude.v ===== *)
(** * The remote debugger daemon, a verification library

    The daemon (src/src/) waits for requests to debug an issue of the device.
    A request names issue types, a list such as Device.Info,Wifi.Stats.  For
    each of them the daemon looks up shell commands in a JSON profile, checks
    them against a list of forbidden texts, runs them as transient services,
    packs their output in a tar archive and uploads it.  An issue no profile
    knows is asked for at the download manager, remembered in a cache, and
    handled when its package arrives.

    ** The parts and how they interact

    Callbacks of the buses (RBUS, IARM) put messages in a queue; the event
    thread takes them one by one; both share the cache of pending requests.

    - Types: the messages of the queue (rrdCommon.h) and the build options.
    - OS: the state-and-effects monad.  A computation maps a world to a result,
      an exit or a fault (null dereference, use after free, out of bounds, ...).
      The world is the history of the calls that act on the outside; what the
      operating system and the libraries answer is the class [OS], a function of
      that history, so every theorem holds for every behaviour of the system.
      [wp], [returns], [yields] and [faults] are the program logics.
    - CJson: the interface of cJSON and its laws; a concrete instance.
    - CommandSanity: rrdCommandSanity.c and removeQuotes (rrdRunCmdThread.c).
    - IssueType: the functions that take issue texts apart (rrdEventProcess.c,
      rrdJsonParser.c, rrdInterface.c, rrdExecuteScript.c, rrd_logproc.c).
    - Archive: the tar writer (rrd_archive.c) and a reader as its inverse.
    - Cache: the doubly linked cache (rrdRunCmdThread.c) on an explicit heap.
    - CacheThreads: the cache under its mutex, shared by threads that interleave
      statement by statement.
    - Load: processor load and priority (rrd_archive.c), with IEEE singles.
    - Config: rrd_config.c.  SysInfo: rrd_sysinfo.c and rrd_logproc.c.
    - Upload: rrd_upload.c, uploadRRDLogs.c, uploadDebugoutput.
    - RunCmd: executeCommands and copyDebugLogDestFile (rrdRunCmdThread.c).
    - Profile: rrdJsonParser.c, from the profile file to the report.
    - Dynamic: rrdDynamic.c, the requests to the download manager.
    - Queue: the event handlers of rrdInterface.c that fill the queue.  The
      buffer of a web configuration has no room for the NUL; what a read past it
      meets is a parameter ([os_beyond]), a fault if that leaves the memory.
    - MsgPack: rrdMsgPackDecoder.c; msgpack-c and base64 are a class with laws.
    - EventProcess: rrdEventProcess.c, what the event thread does with issues.
    - Iarm: rrdIarmEvents.c.  Interface: the rest of rrdInterface.c.
    - Main: rrdMain.c, and the daemon as a transition system.

    These files model functions under their C names.  A pointer that may be
    [NULL] is an option, a buffer written through a pointer is a result, a
    global (cache, category) is passed as a state, a third-party library is a
    class.  Structures and strings are values here; only the nodes of the cache
    are in a heap, of their own.

    The functions that allocate and free messages, issues and cache nodes are
    modelled a second time, on a memory of blocks, with every [malloc], [free] and access
    through a pointer.  A function [f] on values is [f_mem] on memory.

    - Heap: the memory, the separation logic of its blocks and the simulation
      [simwp] between a computation on memory and one on values.
    - HeapSafety: the functions on values make no heap fault in the cache.
    - CacheMem: the cache with its nodes and strings in that memory, and the
      assertion of the doubly linked list (rrdRunCmdThread.c).
    - ProfileMem: from an issue to its commands (rrdJsonParser.c,
      rrdRunCmdThread.c).
    - EventMem: requests of packages and the events of one issue (rrdDynamic.c,
      rrdEventProcess.c).
    - DecoderMem: the documents and requests of the web configuration decoder
      (rrdMsgPackDecoder.c).
    - ThreadMem: issue lists, web configurations, deep sleep events and the loop
      of the event thread (rrdEventProcess.c, rrdDynamic.c, rrdInterface.c,
      rrdMain.c).
    - QueueMem: the handlers that fill the queue (rrdInterface.c,
      rrdIarmEvents.c, rrdMsgPackDecoder.c).
    - DaemonMem: the daemon on memory, one step for each event, request, access
      to a property or message of the event thread.

    The theorems of the first group of files hold of the memory as well: the
    simulations give the same calls, results, exits and faults.

    - UnitTests, UnitTestsBus, UnitTestsUpload: the unit tests of the repository
      (unittest/rrdUnitTestRunner.cpp) as computations on the model, on concrete
      instances of the classes.  They compare the definitions with what the
      authors of the code expect of it; all of them evaluate to [true].

    ** What the theorems show

    - End to end (Main): whatever interleaving of callbacks and event thread,
      the queue holds exactly the messages sent and not yet taken, each of a
      shape the event thread is written for, with a profile path only after the
      download manager accepted a request; the cache is a well-formed list of
      accepted requests.  An issue without profile leads to the message with
      its downloaded profile.
    - Safety: outside append mode only commands that the sanity list accepted
      are run, and what is run holds none of the texts the list can keep out
      (CommandSanity, Profile, EventProcess), also when two are joined; which
      texts it cannot keep out is stated ([sanity_bypass]), and so is that
      without a list every command is accepted.  A report is uploaded at most
      once, directly after a test of the lock, and after it was written
      completely (Upload).  The decoder of web configurations stays in its
      buffers (MsgPack).
    - Refinement: the daemon on memory reaches only states of the transition
      system on values, and its memory is exactly what such a state describes:
      the cache, the queued messages, the requests, the remains of handled
      messages (DaemonMem, from the theorems on the event thread in ThreadMem and
      on the handlers in QueueMem); the cache behaves as a list of pairs (Cache).
    - Threads (CacheThreads): the operations of the cache are atomic however the
      threads interleave, as long as no two handlers work on the same package,
      and the mutex is then always released.  (A build has one handler that looks
      packages up.)
    - Memory: callbacks and messages handled one at a time, the daemon uses and
      frees no block that is not allocated, whatever it receives and whichever
      allocations fail (DaemonMem; for the event thread on any messages,
      ThreadMem).  The
      handlers leave nothing allocated but the message they queue, and a web
      configuration nothing but the request, which is freed whole (QueueMem).
      The log calls after sending read the message; when the event thread has
      handled it before, it may have been freed; for which messages, is stated
      there.
    - Round trips: archive and tar header, the web configuration from document
      to message, the category file, unquoting.
    - Functional behaviour, error statuses, termination and bounds of the single
      operations, with the inputs on which the code fails (overflows, missing
      pointers, wrong names) stated as such.

    ** Fuel and bounds

    Loops over strings and lists are structural where the code advances by one.
    The loops that advance by more (replacing and unquoting in a command,
    counting dots, copying output, writing zeros) have the length of their text
    as fuel, the search in the cache the number of nodes (a list without cycle
    visits each once).  The recursion into directories has 8193 levels for the
    archive, where the path of a deeper level is refused before
    ([archive_never_out_of_fuel]), and an argument for the size, with the
    directory on which that recursion does not end.
    Machine-width integers wrap where the code computes with them: the size of a
    replaced command, directory sizes, the size of an issue list, the version
    and transaction of a document.  Texts are shorter than 2 GB.

    ** What is not modelled

    - Logging, telemetry and tracing calls, but for the log calls of QueueMem
      that read a message after it was sent.
    - The blocks of cJSON, the buffers of profile files and of uploads, and
      memory the buses own: they are values in the files on memory too, and
      their leaks are not counted.  The handlers of the two properties are on
      values in DaemonMem, too.
    - In the transition system of the daemon threads are interleaved callback by
      callback and message by message; only the cache is modelled statement by
      statement.
    - The insides of cJSON, msgpack-c, base64, RBUS, IARM, the web configuration
      framework and the upload library.
    - Other builds: the branches of the sources for the unit tests
      (GTEST_ENABLE) and the level-two test support.

    ** This file

    The type [cstr] of C strings (the characters before the terminating NUL)
    with a literal notation, the character classes of the C locale, the
    <string.h> functions the sources use ([strstr], [strchr], [strtok], bounded
    copies), and the generic lemmas and tactics the components share. *)

From Stdlib Require Export Strings.String.
From Stdlib Require Export Ascii.
From Stdlib Require Export ZifyBool.
From stdpp Require Export base sets strings list list_numbers numbers option.

Abbreviation cstr := (list ascii).

Declare Scope cstr_scope.
Delimit Scope cstr_scope with cstr.
Notation "# s" := (list_ascii_of_string s%string)
  (at level 1, s at level 0, format "# s") : cstr_scope.
#[global] Open Scope cstr_scope.
#[global] Arguments list_ascii_of_string _ : simpl never.

#[export] Instance ascii_eq_dec : EqDecision ascii := ascii_dec.

(** ** Character classes (C locale) *)

Definition code (c : ascii) : nat := nat_of_ascii c.

Definition in_range (lo hi : ascii) (c : ascii) : bool :=
  (code lo <=? code c)%nat && (code c <=? code hi)%nat.

Definition islower := in_range "a" "z".
Definition isupper := in_range "A" "Z".
Definition isdigit := in_range "0" "9".
Definition isalnum (c : ascii) : bool := islower c || isupper c || isdigit c.

Definition toupper (c : ascii) : ascii :=
  if islower c then ascii_of_nat (code c - 32) else c.

(** [isspace]: space, \t, \n, \v, \f, \r. *)
Definition isspace (c : ascii) : bool :=
  bool_decide (code c = 32%nat) || ((9 <=? code c)%nat && (code c <=? 13)%nat).

Definition DQUOTE : ascii := ascii_of_nat 34.
Definition BACKSLASH : ascii := ascii_of_nat 92.
Definition NEWLINE : ascii := ascii_of_nat 10.
Definition CR : ascii := ascii_of_nat 13.
Definition TAB : ascii := ascii_of_nat 9.

#[global] Arguments DQUOTE : simpl never.
#[global] Arguments BACKSLASH : simpl never.
#[global] Arguments NEWLINE : simpl never.

Definition chareq (a b : ascii) : bool := bool_decide (a = b).

(** ** Equality tests: [strcmp(a,b) == 0] *)

Definition streq (a b : cstr) : bool := bool_decide (a = b).

(** [strncmp(s, p, strlen(p)) == 0]: [p] is a prefix of [s]. *)
Fixpoint starts_with (p s : cstr) : bool :=
  match p, s with
  | [], _ => true
  | _ :: _, [] => false
  | a :: p', b :: s' => chareq a b && starts_with p' s'
  end.

(** [strstr]: offset of the first occurrence of [p] in [s]. *)
Fixpoint strstr (s p : cstr) : option nat :=
  if starts_with p s then Some 0%nat
  else match s with
       | [] => None
       | _ :: s' => S <$> strstr s' p
       end.

(** [strchr]: offset of the first occurrence of the character [c]. *)
Fixpoint strchr (s : cstr) (c : ascii) : option nat :=
  match s with
  | [] => None
  | a :: s' => if chareq a c then Some 0%nat else S <$> strchr s' c
  end.

(** A bounded copy into a buffer of [n] bytes that is NUL terminated at the
    end: [snprintf(buf, n, "%s", s)], or [strncpy(buf, s, n-1); buf[n-1]=0]. *)
Definition bounded_copy (n : nat) (s : cstr) : cstr := take (n - 1) s.

(** [strncat(dst, src, n)] *)
Definition strncat (dst src : cstr) (n : nat) : cstr := dst ++ take n src.

(** The tokens successive calls of [strtok(s, [c])] return: maximal non-empty
    runs of characters other than [c]. *)
Fixpoint tok_loop (c : ascii) (cur s : cstr) : list cstr :=
  match s with
  | [] => match cur with [] => [] | _ => [cur] end
  | a :: s' =>
      if chareq a c
      then match cur with [] => tok_loop c [] s' | _ => cur :: tok_loop c [] s' end
      else tok_loop c (cur ++ [a]) s'
  end.
Definition strtok_all (c : ascii) (s : cstr) : list cstr := tok_loop c [] s.

(** ** Occurrence of a substring *)

Definition occurs (p s : cstr) : Prop := exists a b, s = a ++ p ++ b.

(** ** Automation *)

Create HintDb cstr discriminated.
Create Rewrite HintDb cstr.

(** Boolean equality tests of the model to propositions. *)
Ltac breq :=
  unfold chareq, streq in *;
  repeat match goal with
  | H : bool_decide _ = true |- _ => apply bool_decide_eq_true in H
  | H : bool_decide _ = false |- _ => apply bool_decide_eq_false in H
  | H : (_ && _)%bool = true |- _ => apply andb_true_iff in H; destruct H
  | H : (_ || _)%bool = false |- _ => apply orb_false_iff in H; destruct H
  end.

Tactic Notation "case_char" constr(a) constr(b) :=
  unfold chareq; destruct (bool_decide_reflect (a = b)); simplify_eq/=.

(** Lengths of concatenations. *)
Ltac lengths := repeat first [rewrite length_app | progress cbn [length app]]; lia.

(** Break every match and conditional of the goal, keeping equations. *)
Ltac case_all := repeat (case_match; simplify_eq/=).

(** ** Lemmas on the string functions *)

Lemma chareq_refl a : chareq a a = true.
Proof. unfold chareq. by apply bool_decide_eq_true. Qed.

Lemma chareq_true a b : chareq a b = true <-> a = b.
Proof. unfold chareq. apply bool_decide_eq_true. Qed.

Lemma chareq_false a b : chareq a b = false <-> a <> b.
Proof. unfold chareq. apply bool_decide_eq_false. Qed.

Lemma streq_true a b : streq a b = true <-> a = b.
Proof. unfold streq. apply bool_decide_eq_true. Qed.

Lemma streq_false a b : streq a b = false <-> a <> b.
Proof. unfold streq. apply bool_decide_eq_false. Qed.

Lemma starts_with_spec p s : starts_with p s = true <-> exists t, s = p ++ t.
Proof.
  revert s. induction p as [|a p IH]; intros s; simpl; [naive_solver|].
  destruct s as [|b s]; simpl.
  - split; [done | intros [t Ht]; discriminate].
  - rewrite andb_true_iff, IH, chareq_true. split.
    + intros [-> [t ->]]. by exists t.
    + intros [t [= -> ->]]. eauto.
Qed.

Lemma starts_with_app p t : starts_with p (p ++ t) = true.
Proof. apply starts_with_spec. eauto. Qed.

Lemma strstr_unfold s p :
  strstr s p = if starts_with p s then Some 0%nat
               else match s with [] => None | _ :: s' => S <$> strstr s' p end.
Proof. by destruct s. Qed.

Lemma strstr_some s p n :
  strstr s p = Some n -> exists t, s = take n s ++ p ++ t /\ length (take n s) = n.
Proof.
  revert n. induction s as [|b s IH]; intros n; rewrite strstr_unfold;
    destruct (starts_with p _) eqn:E; intros H; simplify_eq/=.
  - apply starts_with_spec in E as [t ->]. by exists t.
  - apply starts_with_spec in E as [t ->]. by exists t.
  - apply fmap_Some in H as (m & Hm & ->).
    destruct (IH _ Hm) as (t & Ht & Hl). exists t. simpl. by rewrite <- Ht, Hl.
Qed.

Lemma strstr_split s p n :
  strstr s p = Some n -> exists a t, s = a ++ p ++ t /\ n = length a.
Proof. intros (t & Hs & Hn)%strstr_some. by exists (take n s), t. Qed.

Lemma strstr_none s p : strstr s p = None <-> ~ occurs p s.
Proof.
  induction s as [|b s IH]; rewrite strstr_unfold;
    destruct (starts_with p _) eqn:E.
  - split; [done|]. intros H. exfalso. apply H.
    apply starts_with_spec in E as [t ->]. by exists [], t.
  - split; [|done]. intros _ (x & y & H).
    symmetry in H. apply app_nil in H as [-> H]. apply app_nil in H as [-> _]. done.
  - split; [done|]. intros H. exfalso. apply H.
    apply starts_with_spec in E as [t ->]. by exists [], t.
  - rewrite fmap_None, IH. split; intros Hn (x & y & H); apply Hn.
    + destruct x as [|c x]; simplify_eq/=.
      * rewrite H, starts_with_app in E. done.
      * by exists x, y.
    + exists (b :: x), y. by rewrite H.
Qed.

Lemma strstr_is_some s p : is_Some (strstr s p) <-> occurs p s.
Proof.
  destruct (strstr s p) as [n|] eqn:E.
  - split; [intros _|by eauto].
    apply strstr_some in E as (t & H & _). by exists (take n s), t.
  - apply strstr_none in E. split; [by intros []|done].
Qed.

#[export] Instance occurs_dec p s : Decision (occurs p s).
Proof.
  destruct (strstr s p) eqn:E.
  - left. apply strstr_is_some. by rewrite E.
  - right. by apply strstr_none.
Defined.

Lemma occurs_nil s : occurs [] s.
Proof. by exists [], s. Qed.

Lemma occurs_refl s : occurs s s.
Proof. exists [], []. by rewrite app_nil_r. Qed.

Lemma occurs_app_l p s t : occurs p s -> occurs p (t ++ s).
Proof. intros (a & b & ->). exists (t ++ a), b. by rewrite <- app_assoc. Qed.

Lemma occurs_app_r p s t : occurs p s -> occurs p (s ++ t).
Proof. intros (a & b & ->). exists a, (b ++ t). by rewrite <- !app_assoc. Qed.

Lemma occurs_cons p c s : occurs p s -> occurs p (c :: s).
Proof. apply (occurs_app_l p s [c]). Qed.

#[export] Hint Resolve occurs_nil occurs_refl occurs_app_l occurs_app_r occurs_cons : cstr.
#[export] Hint Rewrite @chareq_refl starts_with_app : cstr.

Lemma strchr_none s c : strchr s c = None <-> c ∉ s.
Proof.
  induction s as [|a s IH]; simpl; [set_solver|].
  case_char a c; [set_solver|]. rewrite fmap_None, IH. set_solver.
Qed.

Lemma strchr_some s c n :
  strchr s c = Some n ->
  s = take n s ++ c :: drop (S n) s /\ c ∉ take n s /\ (n < length s)%nat.
Proof.
  revert n. induction s as [|a s IH]; intros n; simpl; [done|].
  case_char a c.
  - intros [= <-]. rewrite drop_0. simpl. split_and!; [done|set_solver|lia].
  - intros (m & Hm & ->)%fmap_Some. destruct (IH _ Hm) as (H & Hn & Hl).
    simpl. split_and!; [by f_equal | set_solver | lia].
Qed.

(** [strstr] finds the first occurrence. *)
Lemma strstr_min p a b : exists m, strstr (a ++ p ++ b) p = Some m /\ (m <= length a)%nat.
Proof.
  induction a as [|c a (m & Hm & Hl)]; rewrite strstr_unfold; simpl.
  - rewrite starts_with_app. eauto.
  - destruct (starts_with p _); [eauto with lia|].
    rewrite Hm. exists (S m). simpl. split; [done|lia].
Qed.

Lemma strstr_first s p n : p <> [] -> strstr s p = Some n -> ~ occurs p (take n s).
Proof.
  intros Hp Hs (a & b & Ht).
  assert (Hn : length (take n s) = n) by (by apply strstr_some in Hs as (? & _ & ?)).
  rewrite <- (take_drop n s), Ht, <- !app_assoc in Hs.
  destruct (strstr_min p a (b ++ drop n s)) as (m & Hm & Hl).
  rewrite Hm in Hs. injection Hs as ->.
  rewrite Ht, !length_app in Hn. destruct p; [done|]. simpl in Hn. lia.
Qed.

(** Joining with a separator. *)
Fixpoint join (sep : cstr) (l : list cstr) : cstr :=
  match l with
  | [] => []
  | x :: l' => match l' with [] => x | _ :: _ => x ++ sep ++ join sep l' end
  end.

Lemma join_cons sep x l : l <> [] -> join sep (x :: l) = x ++ sep ++ join sep l.
Proof. by destruct l. Qed.

(** What occurs in a part occurs in the joined text. *)
Lemma occurs_join p sep g l : g ∈ l -> occurs p g -> occurs p (join sep l).
Proof.
  induction l as [|x l IH]; [set_solver|]. intros [->|Hg]%elem_of_cons Hocc.
  - destruct l as [|y l]; [done|]. rewrite join_cons by done. by apply occurs_app_r.
  - destruct l as [|y l]; [set_solver|]. rewrite join_cons by done. apply occurs_app_l, occurs_app_l, IH; done.
Qed.

(** A text without the delimiter is in one of the parts. *)
Lemma occurs_delim p a c b : c ∉ p -> occurs p (a ++ c :: b) -> occurs p a \/ occurs p b.
Proof.
  intros Hc (x & y & E). revert x E. induction a as [|z a IH]; intros x E.
  - destruct x as [|x0 x].
    + destruct p as [|p0 p]; [left; apply occurs_nil|]. exfalso. cbn in E. injection E as -> _. set_solver.
    + right. cbn in E. injection E as _ ->. by exists x, y.
  - destruct x as [|x0 x]; cbn in E.
    + left. assert (length p <= length (z :: a))%nat as Hl.
      { destruct (Nat.le_gt_cases (length p) (length (z :: a))) as [|Hgt]; [done|]. exfalso. apply Hc.
        assert (((z :: a) ++ c :: b) !! length (z :: a) = Some c) as Hlk
          by (by rewrite lookup_app_r, Nat.sub_diag by done).
        change (z :: a ++ c :: b) with ((z :: a) ++ c :: b) in E. rewrite E, lookup_app_l in Hlk by done.
        by apply list_elem_of_lookup_2 in Hlk. }
      change (z :: a ++ c :: b) with ((z :: a) ++ c :: b) in E. apply (f_equal (take (length p))) in E.
      rewrite take_app_le, take_app_length in E by done. exists [], (drop (length p) (z :: a)). cbn [app].
      rewrite <- E at 1. by rewrite take_drop.
    + injection E as _ E. destruct (IH x E) as [Ho|Ho]; [left; by apply occurs_cons|by right].
Qed.

(** The single occurrence of a character fixes what follows it. *)
Lemma follows_single (c : ascii) u v z r : c ∉ u -> c ∉ v -> u ++ c :: v = z ++ c :: r -> v = r.
Proof.
  revert z. induction u as [|x u IH]; intros z Hu Hv E; destruct z as [|y z]; cbn in E.
  - by injection E.
  - exfalso. injection E as _ ->. set_solver.
  - exfalso. injection E as -> _. set_solver.
  - injection E as _ E. apply (IH z); [set_solver|done|done].
Qed.

(** *** strtok *)

Lemma tok_loop_nonempty c cur s t : t ∈ tok_loop c cur s -> t <> [].
Proof.
  revert cur. induction s as [|a s IH]; intros cur; simpl.
  - destruct cur; [set_solver|]. by intros ->%list_elem_of_singleton.
  - destruct (chareq a c); [|apply IH]. destruct cur; [apply IH|].
    intros [->|H]%elem_of_cons; [done|]. by eapply IH.
Qed.

Lemma tok_loop_no_sep c cur s t : c ∉ cur -> t ∈ tok_loop c cur s -> c ∉ t.
Proof.
  revert cur. induction s as [|a s IH]; intros cur Hc; simpl.
  - destruct cur; [set_solver|]. by intros ->%list_elem_of_singleton.
  - case_char a c.
    + destruct cur; [apply IH; set_solver|].
      intros [->|H]%elem_of_cons; [done|]. eapply IH; [|exact H]. set_solver.
    + apply IH. intros Hin%elem_of_app. set_solver.
Qed.

Lemma tok_loop_run c cur s : c ∉ s ->
  tok_loop c cur s = match cur ++ s with [] => [] | t => [t] end.
Proof.
  revert cur. induction s as [|a s IH]; intros cur Hs; simpl.
  - rewrite app_nil_r. by destruct cur.
  - case_char a c; [set_solver|]. rewrite IH by set_solver.
    by rewrite <- app_assoc.
Qed.

Lemma strtok_all_single c s : c ∉ s -> s <> [] -> strtok_all c s = [s].
Proof. intros Hc Hn. unfold strtok_all. rewrite tok_loop_run by done. by destruct s. Qed.

Lemma bounded_copy_length n s : (0 < n -> length (bounded_copy n s) < n)%nat.
Proof. unfold bounded_copy. rewrite length_take. lia. Qed.

Lemma bounded_copy_id n s : (length s < n)%nat -> bounded_copy n s = s.
Proof. intros. unfold bounded_copy. apply take_ge. lia. Qed.

(** *** Filtering with a boolean test *)

Lemma elem_of_bfilter {A} (f : A -> bool) (l : list A) x :
  x ∈ List.filter f l <-> x ∈ l /\ f x = true.
Proof. rewrite !list_elem_of_In. apply filter_In. Qed.

Lemma bfilter_length {A} (f : A -> bool) (l : list A) :
  (length (List.filter f l) <= length l)%nat.
Proof. induction l as [|a l IH]; simpl; [lia|]. destruct (f a); simpl; lia. Qed.

Lemma bfilter_id {A} (f : A -> bool) (l : list A) :
  (forall x, x ∈ l -> f x = true) -> List.filter f l = l.
Proof.
  induction l as [|a l IH]; intros H; simpl; [done|].
  rewrite (H a) by set_solver. f_equal. apply IH. set_solver.
Qed.

#[export] Hint Resolve bounded_copy_length : cstr.

Lemma elem_of_take_in {A} (x : A) n l : x ∈ take n l -> x ∈ l.
Proof. intros H. rewrite <- (take_drop n l). apply elem_of_app. by left. Qed.

(** The first occurrence of a character splits a string in one way. *)
Lemma first_char_unique (c : ascii) pre tail pre' tail' :
  c ∉ pre -> c ∉ pre' -> pre ++ c :: tail = pre' ++ c :: tail' -> pre' = pre /\ tail' = tail.
Proof.
  revert pre'. induction pre as [|a pre IH]; intros [|a' pre'] Hn Hn'; cbn [app]; intros Heq.
  - by injection Heq as ->.
  - injection Heq as -> _. by destruct Hn'; left.
  - injection Heq as -> _. by destruct Hn; left.
  - injection Heq as -> Heq. apply not_elem_of_cons in Hn as [_ Hn], Hn' as [_ Hn']. by destruct (IH pre' Hn Hn' Heq) as [-> ->].
Qed.

(** *** Deciding a property of characters by checking all of them *)

Definition all_ascii : list ascii := ascii_of_nat <$> seq 0 256.

Lemma elem_of_all_ascii c : c ∈ all_ascii.
Proof.
  unfold all_ascii. rewrite <- (ascii_nat_embedding c).
  apply list_elem_of_fmap_2, elem_of_seq. split; [lia|]. apply nat_ascii_bounded.
Qed.

Lemma forall_ascii (P : ascii -> bool) : forallb P all_ascii = true -> forall c, P c = true.
Proof.
  intros H c. rewrite forallb_forall in H. apply H, list_elem_of_In, elem_of_all_ascii.
Qed.
