(* ===== verification/Types.v ===== *)
(** * Types: the messages of the event thread (src/rrdCommon.h)

    The message queue carries pointers to [data_buf]; a [NULL] string is
    [None].  The trace context that is only compiled with OTLP support is left
    out. *)

From S2P Require Import Prelude.

(** [message_type_et] *)
Inductive message_type_et := DEFAULT | EVENT_MSG | EVENT_WEBCFG_MSG | DEEPSLEEP_EVENT_MSG.

(** [deepsleep_event_et] *)
Inductive deepsleep_event_et :=
| RRD_DEEPSLEEP_INVALID_DEFAULT
| RRD_DEEPSLEEP_RDM_DOWNLOAD_PKG_INITIATE
| RRD_DEEPSLEEP_RDM_PKG_INSTALL_COMPLETE.

#[export] Instance message_type_eq_dec : EqDecision message_type_et.
Proof. solve_decision. Defined.

#[export] Instance deepsleep_event_eq_dec : EqDecision deepsleep_event_et.
Proof. solve_decision. Defined.

(** [data_buf] *)
Record data_buf := DataBuf {
  mtype : message_type_et; buf_mdata : option cstr; jsonPath : option cstr; inDynamic : bool;
  appendMode : bool; dsEvent : deepsleep_event_et; suffix : option cstr }.

(** [free(buff->mdata); free(buff->jsonPath); free(buff->suffix)] and the three
    assignments of [NULL]. *)
Definition clear_buffer (b : data_buf) : data_buf :=
  DataBuf (mtype b) None None (inDynamic b) (appendMode b) (dsEvent b) None.

Definition set_mdata (s : option cstr) (b : data_buf) : data_buf :=
  DataBuf (mtype b) s (jsonPath b) (inDynamic b) (appendMode b) (dsEvent b) (suffix b).
Definition set_jsonPath (s : option cstr) (b : data_buf) : data_buf :=
  DataBuf (mtype b) (buf_mdata b) s (inDynamic b) (appendMode b) (dsEvent b) (suffix b).
Definition set_inDynamic (v : bool) (b : data_buf) : data_buf :=
  DataBuf (mtype b) (buf_mdata b) (jsonPath b) v (appendMode b) (dsEvent b) (suffix b).
Definition set_appendMode (v : bool) (b : data_buf) : data_buf :=
  DataBuf (mtype b) (buf_mdata b) (jsonPath b) (inDynamic b) v (dsEvent b) (suffix b).
Definition set_suffix (s : option cstr) (b : data_buf) : data_buf :=
  DataBuf (mtype b) (buf_mdata b) (jsonPath b) (inDynamic b) (appendMode b) (dsEvent b) s.

Definition DEEP_SLEEP_STR : cstr := #"DEEPSLEEP".
Definition RRD_JSON_FILE : cstr := #"/etc/rrd/remote_debugger.json".
Definition RRD_DEVICE_PROP_FILE : cstr := #"/etc/device.properties".
Definition RFC_DELIM : cstr := #".".
Definition RRD_MEDIA_APPS : cstr := #"/media/apps/".
Definition RRD_TMP_DIR : cstr := #"/tmp/".
Definition RDM_PKG_PREFIX : cstr := #"RDK-RRD-".
Definition RDM_PKG_SUFFIX : cstr := #":1.0".
Definition RDM_MGR_PKG_INST : cstr := #"Device.DeviceInfo.X_RDKCENTRAL-COM_RDKDownloadManager.InstallPackage".
Definition RRD_DYNAMIC_PROFILE_MAX_LENGTH : nat := 34.

(** The build and the device: the preprocessor symbol [IARMBUS_SUPPORT], the
    configured list of profiles, and the field of the global [devPropData],
    which [main] fills before the event thread starts. *)
Class Device := {
  IARMBUS_SUPPORT : bool; RRD_DEVICE_PROFILE : cstr; deviceType : option cstr }.
