(* ===== verification/OS.v ===== *)
(** * OS: the world a run of the program acts on

    The state-and-effects monad of the development.  A computation maps a
    [world] to an [outcome]: it returns, it calls [exit], or it commits a
    memory fault.  The world records the history of the system calls made so
    far (the [trace]); what the operating system and the third-party libraries
    answer is the parameter [OS], whose functions see the whole history, so a
    theorem quantified over [OS] holds for every behaviour of the system,
    including files that change between two calls.  Logging calls are not
    part of the model. *)

From S2P Require Import Prelude Types.

Local Open Scope Z_scope.

(** ** Data the system calls exchange *)

Abbreviation bytes := (list Z).

Definition byte_of (c : ascii) : Z := Z.of_nat (code c).
Definition bytes_of (s : cstr) : bytes := byte_of <$> s.
Definition char_of (b : Z) : ascii := ascii_of_nat (Z.to_nat b).

(** [struct stat], the fields the sources read. *)
Record stat := Stat {
  st_mode : Z; st_uid : Z; st_gid : Z; st_size : Z; st_mtime : Z }.

Definition S_IFMT : Z := 0xF000.
Definition S_ISDIR (st : stat) : bool := Z.land (st_mode st) S_IFMT =? 0x4000.
Definition S_ISREG (st : stat) : bool := Z.land (st_mode st) S_IFMT =? 0x8000.

(** [struct tm], the fields the sources read. *)
Record tm := Tm {
  tm_year : Z; tm_mon : Z; tm_mday : Z; tm_hour : Z; tm_min : Z; tm_sec : Z }.

(** [rename]: success, [ENOENT], or another error. *)
Inductive rename_result := RenameOk | RenameENOENT | RenameError.

(** [flock(fd, LOCK_SH | LOCK_NB)] on the upload lock file: the file does not
    open; the shared lock is granted; it would block; another error. *)
Inductive lock_result := LockOpenFailed | LockGranted | LockWouldBlock | LockError.

(** [UploadSTBLogsParams], the fields [rrd_upload_execute] sets. *)
Record upload_params := UploadParams {
  up_flag : Z; up_dcm_flag : Z; up_on_reboot : bool; up_protocol : cstr;
  up_http_link : cstr; up_ondemand : bool; up_rrd_flag : bool; up_rrd_file : cstr }.

(** The calls of the RBUS client library that change something; each answers a
    status, 0 for success. *)
Inductive rbus_call :=
| RbusOpen (name : cstr)
| RbusSet (name value : cstr)
| RbusSubscribeEx (events : list cstr) (timeout : Z)
| RbusUnsubscribeEx (events : list (option cstr))
| RbusRegDataElements (names : list cstr)
| RbusUnregDataElements (names : list cstr)
| RbusClose.

(** The calls of the IARM bus library and of the power controller. *)
Inductive iarm_call :=
| IarmInit (name : cstr)
| IarmConnect
| IarmRegisterEventHandler (owner : cstr) (eventId : Z)
| IarmUnRegisterEventHandler (owner : cstr) (eventId : Z)
| IarmDisconnect
| IarmTerm
| PwrInit
| PwrConnect
| PwrRegisterCallback
| PwrUnRegisterCallback
| PwrTerm.

(** ** The history: calls that act on the outside, with their answers *)

Inductive event :=
| EvSystem (cmd : cstr) (status : Z)
| EvPopen (cmd : cstr)
| EvSleep (seconds : Z)
| EvRename (from to : cstr) (r : rename_result)
| EvRemove (path : cstr) (ok : bool)
| EvFlock (r : lock_result)
| EvFunlock
| EvCloseLock
| EvGzopen (path : cstr) (ok : bool)
| EvGzwrite (data : bytes) (written : Z)
| EvGzclose
| EvUpload (p : upload_params) (result : Z)
| EvMkdir (path : cstr) (ok : bool)
| EvChdir (path : cstr) (ok : bool)
| EvFopenW (path : cstr) (ok : bool)
| EvFwrite (path data : cstr)
| EvSecurePopen (format : cstr) (args : list cstr) (ok : bool)
| EvSecureSystem (format : cstr) (args : list cstr) (status : Z)
| EvRbus (call : rbus_call) (status : Z)
| EvIarm (call : iarm_call) (status : Z)
| EvMsgsnd (msg : data_buf) (ok : bool)
| EvOpenW (path : cstr) (ok : bool)
| EvFprintf (path data : cstr) (result : Z)
| EvRegisterSubDocs (name : cstr)
| EvUsleep (microseconds : Z)
| EvSetpriority (prio : Z) (ok : bool).

Abbreviation trace := (list event).

(** ** The operating system and the third-party libraries *)

Class OS := {
  os_malloc : nat -> bool;                       (* does the k-th allocation succeed *)
  os_stat : trace -> cstr -> option stat;        (* stat *)
  os_lstat : trace -> cstr -> option stat;       (* lstat *)
  os_access : trace -> cstr -> bool;             (* access(path, F_OK) == 0 *)
  os_readdir : trace -> cstr -> option (list cstr); (* opendir, then the names readdir returns *)
  os_fopen : trace -> cstr -> option cstr;       (* fopen for reading: the text of the file *)
  os_open : trace -> cstr -> option (list bytes * bool); (* open O_RDONLY: what the successive reads deliver; is the last result 0 *)
  os_getpwuid : Z -> option cstr;
  os_getgrgid : Z -> option cstr;
  os_popen : trace -> cstr -> option (cstr * Z); (* output of the command and its exit status *)
  os_system : trace -> cstr -> Z;
  os_rename : trace -> cstr -> cstr -> rename_result;
  os_remove : trace -> cstr -> bool;
  os_flock : trace -> lock_result;
  os_gzopen : trace -> cstr -> bool;
  os_gzwrite : trace -> bytes -> Z;              (* zlib: number of bytes written *)
  os_estb_mac : trace -> nat -> cstr;            (* GetEstbMac: text, "" when it copies nothing *)
  os_localtime : trace -> option tm;
  os_uploadstblogs_run : trace -> upload_params -> Z;
  os_mkdir : trace -> cstr -> bool;              (* mkdir(path, 0777) == 0 *)
  os_chdir : trace -> cstr -> bool;
  os_getcwd : trace -> option cstr;
  os_time : trace -> Z;
  os_pthread_self : Z;
  os_fopen_write : trace -> cstr -> bool;
  os_secure_popen : trace -> cstr -> list cstr -> option cstr; (* v_secure_popen: the output *)
  os_secure_system : trace -> cstr -> list cstr -> Z;          (* v_secure_system *)
  os_rbus : trace -> rbus_call -> Z;
  os_rbus_get : trace -> cstr -> option cstr;    (* rbus_get of a string *)
  os_iarm : trace -> iarm_call -> Z;
  os_msgsnd : trace -> data_buf -> bool;         (* msgsnd(..) >= 0 *)
  os_open_write : trace -> cstr -> bool;         (* open(O_WRONLY | O_CREAT | O_TRUNC | O_NOFOLLOW) >= 0 *)
  os_fdopen : trace -> cstr -> bool;             (* fdopen of this file *)
  os_fprintf : trace -> cstr -> cstr -> Z;
  os_setpriority : trace -> Z -> bool;           (* setpriority(PRIO_PROCESS, 0, prio) == 0 *)
  os_beyond : trace -> cstr -> option cstr;      (* what a read past the end of a heap buffer with these characters meets up to the next NUL; None: it leaves the memory *)
}.

(** ** The monad *)

Record world := World { w_trace : trace; w_allocs : nat }.

(** Undefined behaviours a run can commit. *)
Inductive fault := NullDeref | UseAfterFree | DoubleFree | UninitRead | OutOfBounds | WrongMember | OutOfFuel.

Inductive outcome (A : Type) :=
| Ret (a : A) (w : world)
| Exit (status : Z) (w : world)
| Fault (f : fault).
Arguments Ret {A} a w.
Arguments Exit {A} status w.
Arguments Fault {A} f.

Definition M (A : Type) : Type := world -> outcome A.

#[export] Instance M_ret : MRet M := fun A a w => Ret a w.
#[export] Instance M_bind : MBind M := fun A B k m w =>
  match m w with
  | Ret a w' => k a w'
  | Exit s w' => Exit s w'
  | Fault f => Fault f
  end.

Definition mfault {A} (f : fault) : M A := fun _ => Fault f.
Definition mexit {A} (s : Z) : M A := fun w => Exit s w.

(** The value of a pointer that the code dereferences. *)
Definition deref {A} (p : option A) : M A :=
  match p with Some a => mret a | None => mfault NullDeref end.

Definition emit (e : event) (w : world) : world := World (w_trace w ++ [e]) (w_allocs w).

Section Calls.
Context `{OS}.

(** Queries: they do not appear in the history. *)
Definition ask {A} (f : trace -> A) : M A := fun w => Ret (f (w_trace w)) w.

Definition malloc : M bool := fun w => Ret (os_malloc (w_allocs w)) (World (w_trace w) (S (w_allocs w))).

Definition sys_stat (p : cstr) : M (option stat) := ask (fun t => os_stat t p).
Definition sys_lstat (p : cstr) : M (option stat) := ask (fun t => os_lstat t p).
Definition sys_access (p : cstr) : M bool := ask (fun t => os_access t p).
Definition sys_readdir (p : cstr) : M (option (list cstr)) := ask (fun t => os_readdir t p).
Definition sys_fopen (p : cstr) : M (option cstr) := ask (fun t => os_fopen t p).
Definition sys_open (p : cstr) : M (option (list bytes * bool)) := ask (fun t => os_open t p).
Definition sys_localtime : M (option tm) := ask os_localtime.
Definition sys_estb_mac (n : nat) : M cstr := ask (fun t => os_estb_mac t n).

Definition sys_getcwd : M (option cstr) := ask os_getcwd.
Definition sys_time : M Z := ask os_time.

(** [strdup]: a copy, or [NULL]. *)
Definition strdup (s : cstr) : M (option cstr) :=
  ok ← malloc; mret (if (ok : bool) then Some s else None).

(** [snprintf] of the text [s] with the given size, where [buf] has [room] bytes. *)
Definition snprintf (room size : nat) (s : cstr) : M cstr :=
  if (room <? Nat.min size (length s + 1))%nat then mfault OutOfBounds else mret (bounded_copy size s).

(** Actions: each appends its event. *)
Definition act {A} (f : trace -> A) (e : A -> event) : M A := fun w =>
  let a := f (w_trace w) in Ret a (emit (e a) w).

Definition sys_system (c : cstr) : M Z := act (fun t => os_system t c) (EvSystem c).
Definition sys_popen (c : cstr) : M (option (cstr * Z)) := act (fun t => os_popen t c) (fun _ => EvPopen c).
Definition sys_sleep (n : Z) : M unit := act (fun _ => tt) (fun _ => EvSleep n).
Definition sys_rename (a b : cstr) : M rename_result := act (fun t => os_rename t a b) (EvRename a b).
Definition sys_remove (p : cstr) : M bool := act (fun t => os_remove t p) (EvRemove p).
Definition sys_flock : M lock_result := act os_flock EvFlock.
Definition sys_funlock : M unit := act (fun _ => tt) (fun _ => EvFunlock).
Definition sys_close_lock : M unit := act (fun _ => tt) (fun _ => EvCloseLock).
Definition sys_gzopen (p : cstr) : M bool := act (fun t => os_gzopen t p) (EvGzopen p).
Definition sys_gzwrite (d : bytes) : M Z := act (fun t => os_gzwrite t d) (EvGzwrite d).
Definition sys_gzclose : M unit := act (fun _ => tt) (fun _ => EvGzclose).
Definition sys_mkdir (p : cstr) : M bool := act (fun t => os_mkdir t p) (EvMkdir p).
Definition sys_chdir (p : cstr) : M bool := act (fun t => os_chdir t p) (EvChdir p).
Definition sys_fopen_write (p : cstr) : M bool := act (fun t => os_fopen_write t p) (EvFopenW p).
Definition sys_fwrite (p data : cstr) : M unit := act (fun _ => tt) (fun _ => EvFwrite p data).
Definition sys_secure_popen (fmt : cstr) (args : list cstr) : M (option cstr) :=
  act (fun t => os_secure_popen t fmt args) (fun r => EvSecurePopen fmt args (bool_decide (is_Some r))).
Definition sys_secure_system (fmt : cstr) (args : list cstr) : M Z :=
  act (fun t => os_secure_system t fmt args) (EvSecureSystem fmt args).
Definition sys_rbus (c : rbus_call) : M Z := act (fun t => os_rbus t c) (EvRbus c).
Definition sys_rbus_get (name : cstr) : M (option cstr) := ask (fun t => os_rbus_get t name).
Definition sys_iarm (c : iarm_call) : M Z := act (fun t => os_iarm t c) (EvIarm c).
Definition sys_msgsnd (b : data_buf) : M bool := act (fun t => os_msgsnd t b) (EvMsgsnd b).
Definition sys_open_write (p : cstr) : M bool := act (fun t => os_open_write t p) (EvOpenW p).
Definition sys_fdopen (p : cstr) : M bool := ask (fun t => os_fdopen t p).
Definition sys_fprintf (p data : cstr) : M Z := act (fun t => os_fprintf t p data) (EvFprintf p data).
Definition sys_register_sub_docs (name : cstr) : M unit := act (fun _ => tt) (fun _ => EvRegisterSubDocs name).
Definition sys_usleep (n : Z) : M unit := act (fun _ => tt) (fun _ => EvUsleep n).
Definition sys_setpriority (prio : Z) : M bool := act (fun t => os_setpriority t prio) (EvSetpriority prio).
(** A query of the memory, not a call: the text behind a buffer stays the same
    while the buffer exists. *)
Definition sys_beyond (buffer : cstr) : M (option cstr) := ask (fun t => os_beyond t buffer).

Definition sys_upload (p : upload_params) : M Z := act (fun t => os_uploadstblogs_run t p) (EvUpload p).
End Calls.

(** ** A concrete system, for witnesses: allocations and writes succeed, the
    files, directories, commands and the lock are given. *)

Record demo := Demo {
  demo_stat : cstr -> option stat;
  demo_dir : cstr -> option (list cstr);
  demo_file : cstr -> option cstr;
  demo_popen : cstr -> option (cstr * Z);
  demo_lock : trace -> lock_result;
  demo_upload : Z;
}.

Definition empty_demo : demo := {|
  demo_stat := fun _ => None; demo_dir := fun _ => None; demo_file := fun _ => None;
  demo_popen := fun _ => None; demo_lock := fun _ => LockGranted; demo_upload := 0 |}.

Definition demo_os_beyond (beyond : option cstr) (d : demo) : OS := {|
  os_malloc := fun _ => true;
  os_stat := fun _ => demo_stat d;
  os_lstat := fun _ => demo_stat d;
  os_access := fun _ p => match demo_stat d p with Some _ => true | None => false end;
  os_readdir := fun _ => demo_dir d;
  os_fopen := fun _ => demo_file d;
  os_open := fun _ p => (fun s => (match s with [] => [] | _ => [bytes_of s] end, true)) <$> demo_file d p;
  os_getpwuid := fun _ => Some #"root";
  os_getgrgid := fun _ => Some #"root";
  os_popen := fun _ => demo_popen d;
  os_system := fun _ _ => 0;
  os_rename := fun _ _ _ => RenameENOENT;
  os_remove := fun _ _ => true;
  os_flock := demo_lock d;
  os_gzopen := fun _ _ => true;
  os_gzwrite := fun _ b => Z.of_nat (length b);
  os_estb_mac := fun _ n => take (n - 1) #"D4:52:EE:58:F6:AE";
  os_localtime := fun _ => Some (Tm 124 1 29 13 5 9);
  os_uploadstblogs_run := fun _ _ => demo_upload d;
  os_mkdir := fun _ _ => true;
  os_chdir := fun _ _ => true;
  os_getcwd := fun _ => Some #"/tmp/rrd/x";
  os_time := fun _ => 1709212509;
  os_pthread_self := 7;
  os_fopen_write := fun _ _ => true;
  os_secure_popen := fun _ _ _ => Some #"output";
  os_secure_system := fun _ _ _ => 0;
  os_rbus := fun _ _ => 0;
  os_rbus_get := fun _ _ => None;
  os_iarm := fun _ _ => 0;
  os_msgsnd := fun _ _ => true;
  os_open_write := fun _ _ => true;
  os_fdopen := fun _ _ => true;
  os_fprintf := fun _ _ d => Z.of_nat (length d);
  os_setpriority := fun _ _ => true;
  os_beyond := fun _ _ => beyond |}.

(** Behind every buffer is a NUL. *)
Definition demo_os : demo -> OS := demo_os_beyond (Some []).

(** The same system with other buses and another queue. *)
Definition with_bus (rbus : trace -> rbus_call -> Z) (get : trace -> cstr -> option cstr) (iarm : trace -> iarm_call -> Z)
    (msgsnd : trace -> data_buf -> bool) (o : OS) : OS := {|
  os_malloc := @os_malloc o;
  os_stat := @os_stat o;
  os_lstat := @os_lstat o;
  os_access := @os_access o;
  os_readdir := @os_readdir o;
  os_fopen := @os_fopen o;
  os_open := @os_open o;
  os_getpwuid := @os_getpwuid o;
  os_getgrgid := @os_getgrgid o;
  os_popen := @os_popen o;
  os_system := @os_system o;
  os_rename := @os_rename o;
  os_remove := @os_remove o;
  os_flock := @os_flock o;
  os_gzopen := @os_gzopen o;
  os_gzwrite := @os_gzwrite o;
  os_estb_mac := @os_estb_mac o;
  os_localtime := @os_localtime o;
  os_uploadstblogs_run := @os_uploadstblogs_run o;
  os_mkdir := @os_mkdir o;
  os_chdir := @os_chdir o;
  os_getcwd := @os_getcwd o;
  os_time := @os_time o;
  os_pthread_self := @os_pthread_self o;
  os_fopen_write := @os_fopen_write o;
  os_secure_popen := @os_secure_popen o;
  os_secure_system := @os_secure_system o;
  os_rbus := rbus;
  os_rbus_get := get;
  os_iarm := iarm;
  os_msgsnd := msgsnd;
  os_open_write := @os_open_write o;
  os_fdopen := @os_fdopen o;
  os_fprintf := @os_fprintf o;
  os_setpriority := @os_setpriority o;
  os_beyond := @os_beyond o |}.

Definition with_rbus_get (get : trace -> cstr -> option cstr) (o : OS) : OS :=
  with_bus (@os_rbus o) get (@os_iarm o) (@os_msgsnd o) o.

(** ** Reasoning about computations

    [wp m Q w]: run from [w], [m] commits no fault, and if it returns, [Q]
    holds of its result and the final world. *)

Definition wp {A} (m : M A) (Q : A -> world -> Prop) (w : world) : Prop :=
  match m w with
  | Ret a w' => Q a w'
  | Exit _ _ => True
  | Fault _ => False
  end.

Create HintDb wp discriminated.

Lemma wp_ret {A} (a : A) Q w : Q a w -> wp (mret a) Q w.
Proof. done. Qed.

Lemma wp_bind {A B} (m : M A) (k : A -> M B) Q w :
  wp m (fun a w' => wp (k a) Q w') w -> wp (m ≫= k) Q w.
Proof. unfold wp, mbind, M_bind. by destruct (m w). Qed.

Lemma wp_mono {A} (m : M A) (Q R : A -> world -> Prop) w :
  wp m Q w -> (forall a w', Q a w' -> R a w') -> wp m R w.
Proof. unfold wp. destruct (m w); auto. Qed.

Lemma wp_ask {A} (f : trace -> A) Q w : Q (f (w_trace w)) w -> wp (ask f) Q w.
Proof. done. Qed.

Lemma wp_act {A} (f : trace -> A) e Q w :
  Q (f (w_trace w)) (emit (e (f (w_trace w))) w) -> wp (act f e) Q w.
Proof. done. Qed.

Lemma wp_deref {A} (p : option A) Q w :
  (exists a, p = Some a /\ Q a w) -> wp (deref p) Q w.
Proof. by intros (a & -> & HQ). Qed.

#[export] Hint Resolve wp_ret wp_ask wp_act : wp.

Lemma bind_ret_l {A B} (a : A) (k : A -> M B) w : (mret a ≫= k) w = k a w.
Proof. done. Qed.

Lemma bind_ret_r {A} (m : M A) w : (m ≫= mret) w = m w.
Proof. unfold mbind, M_bind. by destruct (m w). Qed.

Lemma bind_assoc {A B C} (m : M A) (f : A -> M B) (g : B -> M C) w :
  ((m ≫= f) ≫= g) w = (m ≫= (fun a => f a ≫= g)) w.
Proof. unfold mbind, M_bind. by destruct (m w). Qed.

(** [returns m Q]: from every world [m] returns, and [Q] holds of its result
    and of the events it added to the history. *)
Definition returns {A} (m : M A) (Q : A -> trace -> Prop) : Prop :=
  forall w, exists a w' evs, m w = Ret a w' /\ w_trace w' = w_trace w ++ evs /\ Q a evs.

Lemma returns_ret {A} (a : A) (Q : A -> trace -> Prop) : Q a [] -> returns (mret a) Q.
Proof. intros HQ w. exists a, w, []. by rewrite app_nil_r. Qed.

Lemma returns_bind {A B} (m : M A) (k : A -> M B) Q R :
  returns m Q -> (forall a evs, Q a evs -> returns (k a) (fun b evs' => R b (evs ++ evs'))) -> returns (m ≫= k) R.
Proof.
  intros Hm Hk w. destruct (Hm w) as (a & w1 & e1 & E1 & T1 & HQ). destruct (Hk a e1 HQ w1) as (b & w2 & e2 & E2 & T2 & HR).
  exists b, w2, (e1 ++ e2). unfold mbind, M_bind. by rewrite E1, T2, T1, app_assoc.
Qed.

Lemma returns_mono {A} (m : M A) (Q R : A -> trace -> Prop) :
  returns m Q -> (forall a evs, Q a evs -> R a evs) -> returns m R.
Proof. intros Hm HQR w. destruct (Hm w) as (a & w' & evs & E & T & HQ). exists a, w', evs. auto. Qed.

(** A query adds nothing to the history. *)
Lemma returns_ask {A B} (f : trace -> A) (k : A -> M B) R :
  (forall a, returns (k a) R) -> returns (ask f ≫= k) R.
Proof. intros Hk. intros w. apply (Hk (f (w_trace w)) w). Qed.

Lemma returns_act {A B} (f : trace -> A) e (k : A -> M B) R :
  (forall a, returns (k a) (fun b evs => R b (e a :: evs))) -> returns (act f e ≫= k) R.
Proof.
  intros Hk w. set (a := f (w_trace w)). destruct (Hk a (emit (e a) w)) as (b & w' & evs & E & T & HR).
  exists b, w', (e a :: evs). split; [exact E|]. rewrite T. cbn. by rewrite <- app_assoc.
Qed.

(** When no allocation fails. *)
Lemma returns_malloc_ok `{OS} {B} (k : bool -> M B) R :
  (forall n, os_malloc n = true) -> returns (k true) R -> returns (malloc ≫= k) R.
Proof.
  intros Hm Hk w. unfold malloc, mbind, M_bind. rewrite Hm.
  destruct (Hk (World (w_trace w) (S (w_allocs w)))) as (b & w' & evs & E & T & HR). by exists b, w', evs.
Qed.

Lemma returns_strdup_ok `{OS} {B} s (k : option cstr -> M B) R :
  (forall n, os_malloc n = true) -> returns (k (Some s)) R -> returns (strdup s ≫= k) R.
Proof.
  intros Hm Hk w. unfold strdup, malloc, mbind, M_bind. rewrite Hm.
  destruct (Hk (World (w_trace w) (S (w_allocs w)))) as (b & w' & evs & E & T & HR). by exists b, w', evs.
Qed.

Lemma returns_snprintf {B} room size s (k : cstr -> M B) R :
  (size <= room)%nat -> returns (k (bounded_copy size s)) R -> returns (snprintf room size s ≫= k) R.
Proof. intros Hs Hk w. unfold snprintf. replace (_ <? _)%nat with false by lia. apply Hk. Qed.

(** [faults m f]: every run of [m] commits the fault [f]. *)
Definition faults {A} (m : M A) (f : fault) : Prop := forall w, m w = Fault f.

Lemma faults_bind {A B} (m : M A) (k : A -> M B) f Q :
  returns m Q -> (forall a evs, Q a evs -> faults (k a) f) -> faults (m ≫= k) f.
Proof.
  intros Hm Hk w. destruct (Hm w) as (a & w' & evs & E & _ & HQ). unfold mbind, M_bind. rewrite E.
  by apply (Hk a evs HQ).
Qed.

Lemma faults_here {A B} (m : M A) (k : A -> M B) f : faults m f -> faults (m ≫= k) f.
Proof. intros Hm w. unfold mbind, M_bind. by rewrite Hm. Qed.

Lemma faults_malloc_ok `{OS} {B} (k : bool -> M B) f :
  (forall n, os_malloc n = true) -> faults (k true) f -> faults (malloc ≫= k) f.
Proof. intros Hm Hk w. unfold malloc, mbind, M_bind. rewrite Hm. apply Hk. Qed.

(** [yields m Q]: when [m] returns, [Q] holds of its result and of the events
    it added; it may also exit or fault. *)
Definition yields {A} (m : M A) (Q : A -> trace -> Prop) : Prop :=
  forall w a w', m w = Ret a w' -> exists evs, w_trace w' = w_trace w ++ evs /\ Q a evs.

Lemma returns_yields {A} (m : M A) Q : returns m Q -> yields m Q.
Proof. intros Hm w a w' E. destruct (Hm w) as (a' & w1 & evs & E1 & T & HQ). rewrite E in E1. injection E1 as <- <-. eauto. Qed.

Lemma yields_ret {A} (a : A) (Q : A -> trace -> Prop) : Q a [] -> yields (mret a) Q.
Proof. intros HQ w b w' [= <- <-]. exists []. by rewrite app_nil_r. Qed.

Lemma yields_fault {A} f (Q : A -> trace -> Prop) : yields (mfault f) Q.
Proof. done. Qed.

Lemma yields_bind {A B} (m : M A) (k : A -> M B) Q R :
  yields m Q -> (forall a evs, Q a evs -> yields (k a) (fun b evs' => R b (evs ++ evs'))) -> yields (m ≫= k) R.
Proof.
  intros Hm Hk w b w' E. unfold mbind, M_bind in E. destruct (m w) as [a w1| |] eqn:E1; [|done|done].
  destruct (Hm _ _ _ E1) as (e1 & T1 & HQ). destruct (Hk a e1 HQ _ _ _ E) as (e2 & T2 & HR).
  exists (e1 ++ e2). by rewrite T2, T1, app_assoc.
Qed.

Lemma yields_mono {A} (m : M A) (Q R : A -> trace -> Prop) :
  yields m Q -> (forall a evs, Q a evs -> R a evs) -> yields m R.
Proof. intros Hm HQR w a w' E. destruct (Hm _ _ _ E) as (evs & T & HQ). eauto. Qed.

Lemma yields_ask {A B} (f : trace -> A) (k : A -> M B) R :
  (forall a, yields (k a) R) -> yields (ask f ≫= k) R.
Proof. intros Hk w b w' E. apply (Hk _ _ _ _ E). Qed.

Lemma yields_run_ask {A B} (f : trace -> A) (k : A -> M B) R :
  (forall t, yields (k (f t)) R) -> yields (ask f ≫= k) R.
Proof. intros Hk w b w' E. apply (Hk (w_trace w) _ _ _ E). Qed.

Lemma yields_deref {A B} (p : option A) (k : A -> M B) R :
  (forall a, p = Some a -> yields (k a) R) -> yields (deref p ≫= k) R.
Proof. destruct p as [a|]; intros Hk w b w' E; [|done]. by eapply Hk. Qed.

Lemma yields_malloc `{OS} {B} (k : bool -> M B) R : (forall ok, yields (k ok) R) -> yields (malloc ≫= k) R.
Proof. intros Hk w b w' E. apply (Hk _ _ _ _ E). Qed.

Lemma yields_strdup `{OS} {B} s (k : option cstr -> M B) R :
  (forall o, o = Some s \/ o = None -> yields (k o) R) -> yields (strdup s ≫= k) R.
Proof.
  intros Hk w b w' E. unfold strdup, malloc, mbind, M_bind, mret, M_ret in E.
  destruct (os_malloc (w_allocs w)); apply Hk in E; auto.
Qed.

Lemma yields_snprintf {B} room size s (k : cstr -> M B) R :
  yields (k (bounded_copy size s)) R -> yields (snprintf room size s ≫= k) R.
Proof. intros Hk w b w' E. unfold snprintf in E. destruct (_ <? _)%nat; [done|]. by apply Hk. Qed.

Lemma yields_act {A B} (f : trace -> A) e (k : A -> M B) R :
  (forall a, yields (k a) (fun b evs => R b (e a :: evs))) -> yields (act f e ≫= k) R.
Proof.
  intros Hk w b w' E. destruct (Hk _ _ _ _ E) as (evs & T & HR). exists (e (f (w_trace w)) :: evs).
  split; [|done]. rewrite T. cbn. by rewrite <- app_assoc.
Qed.

(** Run one system call of the goal at a time. *)
Ltac mrun := unfold mbind, M_bind, mret, M_ret, ask, act, deref, mfault, mexit in *; simpl in *.
