(* ===== verification/CJson.v ===== *)
(** * CJson: the interface of the cJSON library

    The sources use cJSON, which is not part of the repository.  [CJSON] is
    the interface they call, [CJSONLaws] its documented behaviour that the
    theorems rely on.  Module [Tree] is a small concrete instance on which the
    witnesses evaluate. *)

From S2P Require Import Prelude.

Local Open Scope Z_scope.

(** The values of the [type] field the sources compare with. *)
Inductive json_type := cJSON_Number | cJSON_String | cJSON_Array | cJSON_Object | cJSON_Other.

#[export] Instance json_type_eq_dec : EqDecision json_type.
Proof. solve_decision. Defined.

(** Pointers are options: [None] is [NULL]. *)
Class CJSON := {
  json : Type;
  json_kind : json -> json_type;
  json_valueint : json -> Z;
  json_string : json -> option cstr;                     (* the item's name in its object *)
  cJSON_GetObjectItem : option json -> option cstr -> option json;
  cJSON_GetArraySize : option json -> Z;
  cJSON_GetArrayItem : option json -> Z -> option json;
  cJSON_Print : option json -> option cstr;
  cJSON_Parse : cstr -> option json;
}.

(** The children of a node, in the order [cJSON_GetArrayItem] numbers them. *)
Definition json_items `{CJSON} (j : option json) : list json :=
  omap (cJSON_GetArrayItem j) (seqZ 0 (cJSON_GetArraySize j)).

(** How cJSON prints the characters of a string: the quote and the backslash
    are escaped by a backslash, other printable characters are kept. *)
Definition json_escape_char (c : ascii) : cstr :=
  if chareq c DQUOTE then [BACKSLASH; DQUOTE]
  else if chareq c BACKSLASH then [BACKSLASH; BACKSLASH]
  else [c].

Definition json_quote (s : cstr) : cstr := DQUOTE :: (s ≫= json_escape_char) ++ [DQUOTE].

Class CJSONLaws `(C : CJSON) := {
  array_size_nonneg j : 0 <= cJSON_GetArraySize j;
  array_item_some j i :
    0 <= i < cJSON_GetArraySize j -> is_Some (cJSON_GetArrayItem j i);
  get_object_null k : cJSON_GetObjectItem None k = None;
  array_size_null : cJSON_GetArraySize None = 0;
  print_null : cJSON_Print None = None;
}.

(** A list of values indexed from [a]: mapping a total function over it. *)
Lemma omap_seqZ_length {A} (f : Z -> option A) a n :
  (forall i, a <= i < a + n -> is_Some (f i)) ->
  length (omap f (seqZ a n)) = Z.to_nat n.
Proof.
  intros Hf.
  rewrite <- (length_seqZ a n).
  assert (Hall : Forall (fun i => is_Some (f i)) (seqZ a n)).
  { apply Forall_forall. intros i Hi%list_elem_of_In%elem_of_seqZ. by apply Hf. }
  induction Hall as [|i l [x Hx] _ IH]; csimpl; [done|]. rewrite Hx. csimpl. by f_equal.
Qed.

Lemma json_items_length `{CJSONLaws} j :
  Z.of_nat (length (json_items j)) = cJSON_GetArraySize j.
Proof.
  unfold json_items. rewrite omap_seqZ_length; [apply Z2Nat.id, array_size_nonneg|].
  intros i Hi. apply array_item_some. lia.
Qed.

(** ** A concrete instance *)

Module Tree.

Inductive node := Node (name : option cstr) (v : value)
with value :=
| VNum (z : Z)
| VStr (s : cstr)
| VArr (l : list node)
| VObj (l : list node)
| VNull.

Definition node_value (n : node) : value := match n with Node _ v => v end.
Definition node_name (n : node) : option cstr := match n with Node k _ => k end.

Definition children (n : node) : list node :=
  match node_value n with VArr l | VObj l => l | _ => [] end.

(** Names are compared without case. *)
Definition tolower (s : cstr) : cstr := toupper <$> s.
Definition name_is (k : cstr) (n : node) : bool :=
  match node_name n with Some k' => streq (tolower k) (tolower k') | None => false end.

Definition get_object (j : option node) (k : option cstr) : option node :=
  match j, k with
  | Some j, Some k => List.find (name_is k) (children j)
  | _, _ => None
  end.

Definition array_size (j : option node) : Z :=
  match j with Some j => Z.of_nat (length (children j)) | None => 0 end.

Definition array_item (j : option node) (i : Z) : option node :=
  match j with
  | Some j => if i <? 0 then None else children j !! Z.to_nat i
  | None => None
  end.

(** Printing: strings as cJSON prints them, containers by their shape. *)
Definition print (j : option node) : option cstr :=
  match j with
  | None => None
  | Some n => Some match node_value n with
                   | VStr s => json_quote s
                   | VNum _ => #"0"
                   | VArr _ => #"[]"
                   | VObj _ => #"{}"
                   | VNull => #"null"
                   end
  end.

Definition kind (n : node) : json_type :=
  match node_value n with
  | VNum _ => cJSON_Number | VStr _ => cJSON_String
  | VArr _ => cJSON_Array | VObj _ => cJSON_Object | VNull => cJSON_Other
  end.

Definition valueint (n : node) : Z := match node_value n with VNum z => z | _ => 0 end.

Definition tree_CJSON (parse : cstr -> option node) : CJSON := {|
  json := node; json_kind := kind; json_valueint := valueint; json_string := node_name;
  cJSON_GetObjectItem := get_object; cJSON_GetArraySize := array_size;
  cJSON_GetArrayItem := array_item; cJSON_Print := print; cJSON_Parse := parse |}.

Lemma tree_laws parse : CJSONLaws (tree_CJSON parse).
Proof.
  constructor; simpl; try done.
  - intros [j|]; simpl; lia.
  - intros [j|] i; simpl; [|lia]. intros Hi.
    destruct (Z.ltb_spec i 0); [lia|]. apply lookup_lt_is_Some. lia.
Qed.

(** Shorthands for witnesses. *)
Definition str (s : cstr) : node := Node None (VStr s).
Definition field (k : cstr) (v : value) : node := Node (Some k) v.
Definition arr (l : list node) : node := Node None (VArr l).
Definition obj (l : list node) : node := Node None (VObj l).
End Tree.
