(* ===== verification/CommandSanity.v ===== *)
(** * CommandSanity: the command filter (src/rrdCommandSanity.c) and the
    unquoting of commands (removeQuotes of src/rrdRunCmdThread.c)

    A profile command is the text cJSON prints for a JSON string.  It is
    checked against the sanity list ([isCommandsValid]), which also rewrites
    [&;] in place ([updateBackgroundCmd]); before execution the placeholder
    RRD_LOCATION is replaced ([replaceRRDLocation]) and the JSON quoting is
    undone ([removeQuotes]). *)

From S2P Require Import Prelude OS CJson.

Local Open Scope Z_scope.

Definition DEFAULT_DIR : cstr := #"RRD_LOCATION".

(** ** updateBackgroundCmd *)

(** The in-place loop: after [&;] became [& ], the blank is visited next and
    left alone. *)
Fixpoint background_loop (s : cstr) : cstr :=
  match s with
  | [] => []
  | c :: s' =>
      match s' with
      | d :: s'' =>
          if chareq c "&" && chareq d ";"
          then c :: " "%char :: background_loop s''
          else c :: background_loop s'
      | [] => [c]
      end
  end.

(** Status and the string after the call. *)
Definition updateBackgroundCmd (str : option cstr) : Z * option cstr :=
  match str with
  | None => (1, None)
  | Some s => (0, Some (background_loop s))
  end.

(** ** replaceRRDLocation *)

Definition SIZE_MOD : Z := 2 ^ 64.

(** The counting loop and the copying loop: [strstr] from the position after
    the last match.  Each round consumes at least [|DEFAULT_DIR|] characters,
    so the length of the string is enough fuel. *)
Fixpoint count_loop (fuel : nat) (s : cstr) : nat :=
  match fuel, strstr s DEFAULT_DIR with
  | S fuel', Some n => S (count_loop fuel' (drop (n + length DEFAULT_DIR) s))
  | _, _ => 0%nat
  end.

Fixpoint replace_loop (fuel : nat) (dir s : cstr) : cstr :=
  match fuel, strstr s DEFAULT_DIR with
  | S fuel', Some n =>
      take n s ++ dir ++ replace_loop fuel' dir (drop (n + length DEFAULT_DIR) s)
  | _, _ => s
  end.

(** [cmdlen + cnt * (dirlen - deflen)] in [size_t]. *)
Definition replaced_datalen (cmd dir : cstr) : Z :=
  (Z.of_nat (length cmd)
   + Z.of_nat (count_loop (length cmd) cmd)
     * ((Z.of_nat (length dir) - Z.of_nat (length DEFAULT_DIR)) mod SIZE_MOD)) mod SIZE_MOD.

(** The buffer has [datalen + 1] bytes (in [size_t]); writing past it is a
    fault.  When the allocation fails the result is [NULL] (the argument is
    freed on both paths). *)
Definition replaceRRDLocation `{OS} (commandStr dirLocation : cstr) : M (option cstr) :=
  ok ← malloc;
  if (ok : bool) then
    let text := replace_loop (length commandStr) dirLocation commandStr in
    if Z.of_nat (length text) + 1 <=? (replaced_datalen commandStr dirLocation + 1) mod SIZE_MOD
    then mret (Some text)
    else mfault OutOfBounds
  else mret None.

(** ** isCommandsValid *)

(** Removing the trailing characters for which [isspace] holds. *)
Definition trim_trailing (s : cstr) : cstr :=
  (fix go l := match l with
               | c :: l' => if isspace c then go l' else rev l
               | [] => []
               end) (rev s).

(** The text searched for, from the printed item of the sanity list: the
    quotes around it are dropped, then the trailing blanks. *)
Definition sanity_pattern (checkcmd : cstr) : cstr :=
  let len := length checkcmd in
  let body :=
    if (2 <=? len)%nat && bool_decide (checkcmd !! 0%nat = Some DQUOTE)
       && bool_decide (checkcmd !! (len - 1)%nat = Some DQUOTE)
    then take (len - 2) (drop 1 checkcmd)
    else checkcmd in
  trim_trailing body.

(** The loop over the sanity list: is one of its texts found? *)
Fixpoint sanity_loop `{CJSON} (issuecmd : cstr) (sanitylist : option json) (idx : list Z) : M bool :=
  match idx with
  | [] => mret false
  | i :: idx' =>
      checkcmd ← deref (cJSON_Print (cJSON_GetArrayItem sanitylist i));
      match strstr issuecmd (sanity_pattern checkcmd) with
      | Some _ => mret true
      | None => sanity_loop issuecmd sanitylist idx'
      end
  end.

(** Status (0 valid, 1 rejected) and the command after the call. *)
Definition isCommandsValid `{CJSON} (issuecmd : cstr) (sanitylist : option json) : M (Z * cstr) :=
  found ← sanity_loop issuecmd sanitylist (seqZ 0 (cJSON_GetArraySize sanitylist));
  if (found : bool) then mret (1, issuecmd)
  else match strstr issuecmd #"&" with
       | Some _ =>
           match updateBackgroundCmd (Some issuecmd) with
           | (0, Some cmd') => mret (0, cmd')
           | _ => mret (1, issuecmd)
           end
       | None => mret (0, issuecmd)
       end.

(** ** removeQuotes *)

Definition ESC_QUOTE : cstr := [BACKSLASH; DQUOTE].

(** The loop that looks for a backslash followed by a quote and moves the rest
    of the string one place to the left: the search goes on at the quote that
    took the backslash's place. *)
Fixpoint unescape_loop (fuel : nat) (s : cstr) : cstr :=
  match fuel, strstr s ESC_QUOTE with
  | S fuel', Some n => take n s ++ unescape_loop fuel' (drop (n + 1) s)
  | _, _ => s
  end.

Definition strip_quotes (s : cstr) : cstr :=
  let len := length s in
  if (2 <=? len)%nat && bool_decide (s !! 0%nat = Some DQUOTE)
     && bool_decide (s !! (len - 1)%nat = Some DQUOTE)
  then take (len - 2) (drop 1 s)
  else s.

Definition removeQuotes (str : option cstr) : option cstr :=
  match str with
  | None => None
  | Some s => let s' := strip_quotes s in Some (unescape_loop (length s') s')
  end.

(** ** Lemmas: the in-place rewriting *)

(** Induction on strings for functions that consume one or two characters. *)
Lemma cstr_ind2 (P : cstr -> Prop) :
  P [] -> (forall c, P [c]) ->
  (forall c d s, P s -> P (d :: s) -> P (c :: d :: s)) -> forall s, P s.
Proof.
  intros H0 H1 H2 s. enough (P s /\ forall c, P (c :: s)) as [? _]; [done|].
  induction s as [|d s [IH IH']]; auto.
Qed.

Lemma background_length s : length (background_loop s) = length s.
Proof.
  induction s as [|c|c d s IH IH'] using cstr_ind2; [done..|].
  simpl in *. destruct (chareq c "&" && chareq d ";"); simpl; lia.
Qed.

Lemma background_no_amp s : "&"%char ∉ s -> background_loop s = s.
Proof.
  induction s as [|c|c d s IH IH'] using cstr_ind2; [done..|]. intros Hs.
  change (background_loop (c :: d :: s)) with
    (if chareq c "&" && chareq d ";" then c :: " "%char :: background_loop s
     else c :: background_loop (d :: s)).
  rewrite IH' by set_solver. case_char c "&"%char; [set_solver|done].
Qed.

Lemma strstr_amp s : is_Some (strstr s #"&") <-> "&"%char ∈ s.
Proof.
  rewrite strstr_is_some. split.
  - intros (a & b & ->). change #"&" with ["&"%char]. set_solver.
  - intros (a & b & ->)%list_elem_of_split. by exists a, b.
Qed.

(** *** The prefixes and the substrings a rewriting can create *)

(** [f] only creates occurrences of [p] that were there before. *)
Definition reflects_occurs (p : cstr) (f : cstr -> cstr) : Prop :=
  forall s, occurs p (f s) -> occurs p s.

Lemma occurs_cons_inv p c s : occurs p (c :: s) -> starts_with p (c :: s) = true \/ occurs p s.
Proof.
  intros (x & y & H). destruct x as [|d x]; simplify_eq/=.
  - left. rewrite H. apply starts_with_app.
  - right. by exists x, y.
Qed.

Lemma starts_with_occurs p s : starts_with p s = true -> occurs p s.
Proof. intros [t ->]%starts_with_spec. by exists [], t. Qed.

Lemma background_starts p s :
  "&"%char ∉ p -> starts_with p (background_loop s) = true -> starts_with p s = true.
Proof.
  revert p. induction s as [|c|c d s IH IH'] using cstr_ind2; intros p Hp; [done..|].
  destruct p as [|x p]; [done|].
  change (background_loop (c :: d :: s)) with
    (if chareq c "&" && chareq d ";" then c :: " "%char :: background_loop s
     else c :: background_loop (d :: s)).
  destruct (chareq c "&" && chareq d ";") eqn:E; breq.
  - subst. simpl. case_char x "&"%char; [set_solver|done].
  - intros H. cbn [starts_with] in H |- *. apply andb_true_iff in H as [-> H].
    apply (IH' p); [set_solver|done].
Qed.

Lemma background_reflects p :
  "&"%char ∉ p -> p !! 0%nat <> Some " "%char -> reflects_occurs p background_loop.
Proof.
  intros Hp Hsp s. induction s as [|c|c d s IH IH'] using cstr_ind2; [done..|].
  pose proof (background_starts p (c :: d :: s) Hp) as Hst. revert Hst.
  change (background_loop (c :: d :: s)) with
    (if chareq c "&" && chareq d ";" then c :: " "%char :: background_loop s
     else c :: background_loop (d :: s)).
  destruct (chareq c "&" && chareq d ";") eqn:E; intros Hst H;
    apply occurs_cons_inv in H as [H|H]; auto using starts_with_occurs with cstr.
  apply occurs_cons_inv in H as [H|H]; [|auto with cstr].
  destruct p as [|x p]; [auto with cstr|].
  simpl in H. revert H. by case_char x " "%char.
Qed.

(** The unescaping loop, character by character. *)
Fixpoint unescape (s : cstr) : cstr :=
  match s with
  | [] => []
  | c :: s' =>
      match s' with
      | d :: s'' => if chareq c BACKSLASH && chareq d DQUOTE then d :: unescape s''
                    else c :: unescape s'
      | [] => [c]
      end
  end.

Lemma unescape_cons2 c d s :
  unescape (c :: d :: s) =
    if chareq c BACKSLASH && chareq d DQUOTE then d :: unescape s else c :: unescape (d :: s).
Proof. done. Qed.

Lemma unescape_quote s : unescape (DQUOTE :: s) = DQUOTE :: unescape s.
Proof. by destruct s. Qed.

Lemma unescape_none s : strstr s ESC_QUOTE = None -> unescape s = s.
Proof.
  induction s as [|c|c d s IH IH'] using cstr_ind2; [done..|].
  rewrite strstr_unfold, unescape_cons2. unfold ESC_QUOTE at 1. cbn [starts_with].
  unfold chareq. rewrite (bool_decide_ext (BACKSLASH = c) (c = BACKSLASH)) by done.
  rewrite (bool_decide_ext (DQUOTE = d) (d = DQUOTE)) by done. rewrite andb_true_r.
  destruct (bool_decide _ && _); [done|].
  intros H%fmap_None. by rewrite IH'.
Qed.

Lemma unescape_some s n :
  strstr s ESC_QUOTE = Some n -> unescape s = take n s ++ unescape (drop (n + 1) s).
Proof.
  revert n. induction s as [|c|c d s IH IH'] using cstr_ind2; intros n.
  - done.
  - rewrite strstr_unfold. cbn [starts_with ESC_QUOTE]. rewrite andb_false_r. done.
  - rewrite strstr_unfold, unescape_cons2. unfold ESC_QUOTE at 1. cbn [starts_with].
    unfold chareq. rewrite (bool_decide_ext (BACKSLASH = c) (c = BACKSLASH)) by done.
    rewrite (bool_decide_ext (DQUOTE = d) (d = DQUOTE)) by done. rewrite andb_true_r.
    destruct (bool_decide _ && _) eqn:E.
    + intros [= <-]. breq. subst.
      change (drop (0 + 1) (BACKSLASH :: DQUOTE :: s)) with (DQUOTE :: s).
      by rewrite unescape_quote.
    + intros (m & Hm & ->)%fmap_Some. rewrite (IH' _ Hm). done.
Qed.

(** The length of the string is enough fuel. *)
Lemma unescape_loop_spec fuel s : (length s <= fuel)%nat -> unescape_loop fuel s = unescape s.
Proof.
  revert s. induction fuel as [|fuel IH]; intros s Hl.
  - by destruct s; simpl in *; [|lia].
  - simpl. destruct (strstr s ESC_QUOTE) as [n|] eqn:E.
    + rewrite (unescape_some _ _ E), IH; [done|]. rewrite length_drop. lia.
    + by rewrite unescape_none.
Qed.

Lemma removeQuotes_unescape s : removeQuotes (Some s) = Some (unescape (strip_quotes s)).
Proof. unfold removeQuotes. by rewrite unescape_loop_spec. Qed.

Lemma unescape_starts p s :
  DQUOTE ∉ p -> starts_with p (unescape s) = true -> starts_with p s = true.
Proof.
  revert p. induction s as [|c|c d s IH IH'] using cstr_ind2; intros p Hp; [done..|].
  destruct p as [|x p]; [done|]. rewrite unescape_cons2.
  destruct (chareq c BACKSLASH && chareq d DQUOTE) eqn:E; breq.
  - subst. cbn [starts_with]. case_char x DQUOTE; [set_solver|done].
  - intros H. cbn [starts_with] in H |- *. apply andb_true_iff in H as [-> H].
    apply (IH' p); [set_solver|done].
Qed.

Lemma unescape_reflects p : DQUOTE ∉ p -> reflects_occurs p unescape.
Proof.
  intros Hp s. induction s as [|c|c d s IH IH'] using cstr_ind2; [done..|].
  pose proof (unescape_starts p (c :: d :: s) Hp) as Hst. revert Hst.
  rewrite unescape_cons2.
  destruct (chareq c BACKSLASH && chareq d DQUOTE) eqn:E; intros Hst H;
    apply occurs_cons_inv in H as [H|H]; auto using starts_with_occurs with cstr.
Qed.

Lemma strip_quotes_reflects p : reflects_occurs p strip_quotes.
Proof.
  intros s. unfold strip_quotes. case_match; [|done].
  intros Hocc. rewrite <- (take_drop 1 s). apply occurs_app_l.
  rewrite <- (take_drop (length s - 2) (drop 1 s)). by apply occurs_app_r.
Qed.

Lemma removeQuotes_reflects p s t :
  DQUOTE ∉ p -> removeQuotes (Some s) = Some t -> occurs p t -> occurs p s.
Proof.
  intros Hp. rewrite removeQuotes_unescape. intros [= <-] H.
  by apply strip_quotes_reflects, unescape_reflects.
Qed.

(** *** The check *)

Lemma sanity_loop_run `{CJSON} cmd l (idx : list Z) w :
  Forall (fun i => is_Some (cJSON_Print (cJSON_GetArrayItem l i))) idx ->
  sanity_loop cmd l idx w =
    Ret (existsb (fun i => match cJSON_Print (cJSON_GetArrayItem l i) with
                           | Some q => bool_decide (occurs (sanity_pattern q) cmd)
                           | None => false
                           end) idx) w.
Proof.
  induction 1 as [|i idx [q Hq] _ IH]; [done|].
  simpl. rewrite Hq. unfold deref. unfold mbind, M_bind, mret, M_ret at 1.
  destruct (strstr cmd (sanity_pattern q)) as [n|] eqn:E.
  - rewrite bool_decide_true by (apply strstr_is_some; eauto). done.
  - rewrite bool_decide_false by (by apply strstr_none). done.
Qed.

(** The outcome of the check on every input whose list items print. *)
Lemma isCommandsValid_run `{CJSON} cmd l w :
  Forall (fun i => is_Some (cJSON_Print (cJSON_GetArrayItem l i))) (seqZ 0 (cJSON_GetArraySize l)) ->
  isCommandsValid cmd l w =
    Ret (if existsb (fun i => match cJSON_Print (cJSON_GetArrayItem l i) with
                              | Some q => bool_decide (occurs (sanity_pattern q) cmd)
                              | None => false
                              end) (seqZ 0 (cJSON_GetArraySize l))
         then (1, cmd) else (0, background_loop cmd)) w.
Proof.
  intros Hp. unfold isCommandsValid, mbind, M_bind. rewrite (sanity_loop_run cmd l _ w Hp).
  destruct (existsb _ _); [done|].
  destruct (strstr cmd #"&") eqn:E; [done|].
  rewrite background_no_amp; [done|]. intros Hin%strstr_amp. rewrite E in Hin. by destruct Hin.
Qed.

(** The texts the items of the sanity list stand for. *)
Definition sanity_patterns `{CJSON} (l : option json) : list cstr :=
  omap (fun j => sanity_pattern <$> cJSON_Print (Some j)) (json_items l).

Lemma elem_of_sanity_patterns `{CJSON} l p :
  p ∈ sanity_patterns l <->
  exists i q, i ∈ seqZ 0 (cJSON_GetArraySize l) /\ cJSON_GetArrayItem l i <> None /\
    cJSON_Print (cJSON_GetArrayItem l i) = Some q /\ p = sanity_pattern q.
Proof.
  unfold sanity_patterns, json_items. rewrite list_elem_of_omap. split.
  - intros (j & (i & Hi & Hj)%list_elem_of_omap & (q & Hq & ->)%fmap_Some).
    exists i, q. rewrite Hj. done.
  - intros (i & q & Hi & Hn & Hq & ->).
    destruct (cJSON_GetArrayItem l i) as [j|] eqn:Hj; [|done].
    exists j. rewrite list_elem_of_omap. split; [eauto|]. by rewrite Hq.
Qed.

Lemma sanity_loop_false `{CJSON} cmd l idx w w' :
  sanity_loop cmd l idx w = Ret false w' ->
  Forall (fun i => exists q, cJSON_Print (cJSON_GetArrayItem l i) = Some q /\
                             ~ occurs (sanity_pattern q) cmd) idx.
Proof.
  induction idx as [|i idx IH]; [constructor|].
  simpl. unfold mbind at 1, M_bind, deref, mret, M_ret, mfault.
  destruct (cJSON_Print _) as [q|] eqn:Hq; [|done].
  destruct (strstr cmd (sanity_pattern q)) eqn:E; [done|].
  intros Hr. constructor; [|by apply IH]. exists q. by rewrite <- strstr_none.
Qed.

Lemma isCommandsValid_accepts `{CJSON} cmd l w cmd' w' :
  isCommandsValid cmd l w = Ret (0, cmd') w' ->
  cmd' = background_loop cmd /\ Forall (fun p => ~ occurs p cmd) (sanity_patterns l).
Proof.
  unfold isCommandsValid, mbind, M_bind.
  destruct (sanity_loop _ _ _ w) as [[] w1| |] eqn:E; [done| |done|done].
  apply sanity_loop_false in E. intros Hr. split.
  - destruct (strstr cmd #"&") eqn:E'; [by injection Hr as <- _|].
    injection Hr as <- _. rewrite background_no_amp; [done|].
    intros Hin%strstr_amp. rewrite E' in Hin. by destruct Hin.
  - apply list.Forall_forall. intros p (i & q & Hi & _ & Hq & ->)%elem_of_sanity_patterns.
    rewrite list.Forall_forall in E. apply E in Hi as (q' & Hq' & Hn). congruence.
Qed.

(** *** The replacement of the placeholder *)

Lemma default_dir_nonempty : DEFAULT_DIR <> [].
Proof. done. Qed.

Lemma replace_loop_segments fuel dir s :
  (length s <= fuel)%nat ->
  exists segs, s = join DEFAULT_DIR segs /\ segs <> [] /\
    Forall (fun g => ~ occurs DEFAULT_DIR g) segs /\
    replace_loop fuel dir s = join dir segs /\
    length segs = S (count_loop fuel s).
Proof.
  revert s. induction fuel as [|fuel IH]; intros s Hl.
  - destruct s; simpl in Hl; [|lia]. exists [[]]. split_and!; try done.
    constructor; [|done]. by apply strstr_none.
  - simpl. destruct (strstr s DEFAULT_DIR) as [n|] eqn:E.
    + pose proof (strstr_first _ _ _ default_dir_nonempty E) as Hfirst.
      destruct (strstr_split _ _ _ E) as (a & t & -> & ->).
      rewrite take_app_length in Hfirst |- *.
      assert (drop (length a + 12) (a ++ DEFAULT_DIR ++ t) = t) as ->.
      { change 12%nat with (length DEFAULT_DIR).
        by rewrite <- drop_drop, drop_app_length, drop_app_length. }
      destruct (IH t) as (segs & Hs & Hne & Hf & Hr & Hc).
      { rewrite !length_app in Hl. change (length DEFAULT_DIR) with 12%nat in Hl. lia. }
      exists (a :: segs). rewrite !join_cons, <- Hs, <- Hr by done.
      split_and!; [done..|by constructor|done|by simpl; rewrite Hc].
    + exists [s]. split_and!; try done. constructor; [|done]. by apply strstr_none.
Qed.

Lemma join_length sep segs :
  segs <> [] ->
  Z.of_nat (length (join sep segs)) =
    Z.of_nat (length (mjoin segs)) + (Z.of_nat (length segs) - 1) * Z.of_nat (length sep).
Proof.
  induction segs as [|g segs IH]; [done|]. intros _. destruct segs as [|g' segs].
  - simpl. rewrite app_nil_r. lia.
  - rewrite join_cons by done. rewrite !length_app. specialize (IH ltac:(done)).
    csimpl in *. rewrite !length_app in *. lia.
Qed.

(** The size computed in [size_t] is the length of the text written. *)
Lemma replaced_datalen_exact cmd dir :
  Z.of_nat (length (replace_loop (length cmd) dir cmd)) < SIZE_MOD ->
  replaced_datalen cmd dir = Z.of_nat (length (replace_loop (length cmd) dir cmd)).
Proof.
  intros Hb. destruct (replace_loop_segments (length cmd) dir cmd) as (segs & Hs & Hne & _ & Hr & Hc); [done|].
  unfold replaced_datalen.
  rewrite <- Z.add_mod_idemp_r, Z.mul_mod_idemp_r, Z.add_mod_idemp_r by done.
  rewrite <- (Z.mod_small (Z.of_nat (length (replace_loop _ _ _))) SIZE_MOD) by lia.
  f_equal. rewrite Hr, (join_length dir) by done.
  rewrite Hs at 1. rewrite (join_length DEFAULT_DIR) by done. rewrite Hc. lia.
Qed.

(** *** Quoting and unquoting *)

Lemma unescape_other c s : c <> BACKSLASH -> unescape (c :: s) = c :: unescape s.
Proof. intros Hc. destruct s as [|d s]; [done|]. rewrite unescape_cons2. by case_char c BACKSLASH. Qed.

Lemma unescape_backslash d s : d <> DQUOTE -> unescape (BACKSLASH :: d :: s) = BACKSLASH :: unescape (d :: s).
Proof. intros Hd. rewrite unescape_cons2, chareq_refl. by apply chareq_false in Hd as ->. Qed.

Definition double_backslash (c : ascii) : cstr :=
  if chareq c BACKSLASH then [BACKSLASH; BACKSLASH] else [c].

(** A backslash before the text of an escaped character is kept. *)
Lemma unescape_backslash_escape d t :
  unescape (BACKSLASH :: json_escape_char d ++ t) = BACKSLASH :: unescape (json_escape_char d ++ t).
Proof.
  unfold json_escape_char. destruct (chareq d DQUOTE) eqn:Hd; [done|].
  apply chareq_false in Hd.
  destruct (chareq d BACKSLASH); cbn [app]; by apply unescape_backslash.
Qed.

Lemma bind_cons (f : ascii -> cstr) c s : (c :: s) ≫= f = f c ++ (s ≫= f).
Proof. done. Qed.

Lemma unescape_escape s : unescape (s ≫= json_escape_char) = s ≫= double_backslash.
Proof.
  induction s as [|c s IH]; [done|]. rewrite !bind_cons.
  unfold json_escape_char at 1, double_backslash at 1.
  destruct (chareq c DQUOTE) eqn:Hq; [apply chareq_true in Hq as ->|].
  - cbn [app]. rewrite unescape_cons2, !chareq_refl. cbn [andb]. by rewrite IH.
  - destruct (chareq c BACKSLASH) eqn:Hb; cbn [app].
    + rewrite unescape_backslash by done. destruct s as [|d s]; [done|].
      rewrite bind_cons, unescape_backslash_escape, <- bind_cons. by rewrite IH.
    + apply chareq_false in Hb. by rewrite unescape_other, IH.
Qed.

Lemma strip_quotes_quote t : strip_quotes (DQUOTE :: t ++ [DQUOTE]) = t.
Proof.
  unfold strip_quotes. cbn [length]. rewrite length_app. cbn [length].
  replace (S (length t + 1) - 1)%nat with (S (length t)) by lia.
  replace (2 <=? S (length t + 1))%nat with true by (symmetry; apply Nat.leb_le; lia).
  rewrite bool_decide_true by done.
  rewrite bool_decide_true by (simpl; by rewrite lookup_app_r, Nat.sub_diag by lia).
  replace (S (length t + 1) - 2)%nat with (length t) by lia.
  cbn [andb drop]. by rewrite drop_0, take_app_length.
Qed.

Lemma double_backslash_id s : s ≫= double_backslash = s <-> BACKSLASH ∉ s.
Proof.
  assert (Hlen : forall t, (length t <= length (t ≫= double_backslash))%nat).
  { induction t as [|c t IH]; csimpl; [done|]. rewrite length_app.
    unfold double_backslash at 1. destruct (chareq c BACKSLASH); simpl; lia. }
  induction s as [|c s IH]; csimpl; [set_solver|]. unfold double_backslash at 1.
  destruct (decide (c = BACKSLASH)) as [->|Hc].
  - rewrite chareq_refl. split; [|set_solver]. intros Heq%(f_equal length).
    simpl in Heq. specialize (Hlen s). lia.
  - apply chareq_false in Hc as Hc'. rewrite Hc'. simpl. rewrite not_elem_of_cons, <- IH.
    split; [by intros [= Heq] | by intros [_ ->]].
Qed.

(** The texts of a list that the rewriting and the unquoting of an accepted
    command cannot put together. *)
Definition kept_out `{CJSON} (l : option json) (p : cstr) : Prop :=
  p ∈ sanity_patterns l /\ "&"%char ∉ p /\ DQUOTE ∉ p /\ p !! 0%nat <> Some " "%char.

(** The accepted command after the rewriting and after the unquoting. *)
Lemma accepted_safe `{CJSON} cmd l w cmd' w' p :
  isCommandsValid cmd l w = Ret (0, cmd') w' -> kept_out l p -> ~ occurs p cmd'.
Proof.
  intros [-> Hall]%isCommandsValid_accepts (Hp & Ha & Hq & Hs) Hocc.
  rewrite list.Forall_forall in Hall. apply (Hall p Hp). by apply background_reflects.
Qed.

Lemma accepted_executed_safe `{CJSON} cmd l w cmd' w' exec p :
  isCommandsValid cmd l w = Ret (0, cmd') w' -> removeQuotes (Some cmd') = Some exec -> kept_out l p ->
  ~ occurs p exec.
Proof.
  intros Hv Hex Hp Hocc. apply (accepted_safe cmd l w cmd' w' p Hv Hp). destruct Hp as (_ & _ & Hq & _).
  by eapply removeQuotes_reflects.
Qed.

Definition quoted (s : cstr) : cstr := DQUOTE :: s ++ [DQUOTE].

Lemma removeQuotes_quoted s : removeQuotes (Some (quoted s)) = Some (unescape s).
Proof. rewrite removeQuotes_unescape. unfold quoted. by rewrite strip_quotes_quote. Qed.

Lemma sanity_loop_world `{CJSON} cmd l idx w b w' : sanity_loop cmd l idx w = Ret b w' -> w' = w.
Proof.
  induction idx as [|i idx IH]; cbn [sanity_loop]; [by intros [= _ <-]|].
  unfold mbind, M_bind, deref. destruct (cJSON_Print _) as [q|]; [|done]. unfold mret at 1, M_ret at 1.
  destruct (strstr _ _); [by intros [= _ <-]|done].
Qed.

(** The check changes nothing but the command, which it rewrites only when it
    accepts it. *)
Lemma isCommandsValid_world `{CJSON} cmd l w r cmd' w' :
  isCommandsValid cmd l w = Ret (r, cmd') w' -> w' = w /\ (r = 0 /\ cmd' = background_loop cmd \/ r = 1).
Proof.
  intros Hr. pose proof (isCommandsValid_accepts cmd l w cmd' w') as Hacc. pose proof Hr as Hr0. revert Hr.
  unfold isCommandsValid, mbind, M_bind.
  destruct (sanity_loop _ _ _ w) as [b w1| |] eqn:E; [|done|done]. apply sanity_loop_world in E as ->.
  destruct b; [by intros [= <- _ <-]; auto|].
  destruct (strstr cmd #"&"); cbn; intros [= <- _ <-]; (split; [done|]; left; split; [done|]; by apply Hacc).
Qed.

(** The check decides whether a text of the list occurs in the command. *)
Lemma isCommandsValid_decides `{CJSONLaws} cmd l w :
  (forall j, j ∈ json_items l -> is_Some (cJSON_Print (Some j))) ->
  (isCommandsValid cmd l w = Ret (1, cmd) w /\ Exists (fun p => occurs p cmd) (sanity_patterns l)) \/
  (isCommandsValid cmd l w = Ret (0, background_loop cmd) w /\
   Forall (fun p => ~ occurs p cmd) (sanity_patterns l)).
Proof.
  intros Hp.
  assert (Hidx : Forall (fun i => is_Some (cJSON_Print (cJSON_GetArrayItem l i)))
                   (seqZ 0 (cJSON_GetArraySize l))).
  { apply list.Forall_forall. intros i Hi. pose proof Hi as Hi'%elem_of_seqZ.
    destruct (array_item_some l i) as [j Hj]; [lia|]. rewrite Hj. apply Hp.
    apply list_elem_of_omap. eauto. }
  rewrite isCommandsValid_run by done. destruct (existsb _ _) eqn:E.
  - left. split; [done|]. apply existsb_exists in E as (i & Hi%list_elem_of_In & E).
    destruct (cJSON_Print _) as [q|] eqn:Hq; [|done]. apply bool_decide_eq_true in E.
    apply Exists_exists. exists (sanity_pattern q). split; [|done].
    apply list_elem_of_In, elem_of_sanity_patterns. exists i, q. split_and!; try done.
    intros Hn. rewrite Hn, print_null in Hq. done.
  - right. split; [done|]. apply list.Forall_forall.
    intros p (i & q & Hi & _ & Hq & ->)%elem_of_sanity_patterns Hocc.
    enough (true = false) by done. rewrite <- E. symmetry. apply existsb_exists.
    exists i. split; [by apply list_elem_of_In|]. rewrite Hq. by apply bool_decide_eq_true.
Qed.

Lemma unescape_no_backslash s : BACKSLASH ∉ s -> unescape s = s.
Proof.
  induction s as [|c s IH]; [done|]. rewrite not_elem_of_cons. intros [Hc Hs].
  rewrite unescape_other by done. by rewrite IH.
Qed.

(** One [&;] in a text without other ampersands. *)
Lemma background_single u v : "&"%char ∉ u -> "&"%char ∉ v ->
  background_loop (u ++ #"&;" ++ v) = u ++ #"& " ++ v.
Proof.
  intros Hu Hv. induction u as [|c u IH].
  - change (background_loop ([] ++ #"&;" ++ v)) with ("&"%char :: " "%char :: background_loop v).
    by rewrite background_no_amp.
  - rewrite not_elem_of_cons in Hu. destruct Hu as [Hc Hu]. cbn [app]. rewrite <- IH by done.
    cbn [background_loop]. destruct (u ++ #"&;" ++ v) as [|d s]; [done|].
    by rewrite (proj2 (chareq_false c "&")) by done.
Qed.

Lemma bypass `{CJSONLaws} l w x a b y :
  (forall c, c ∈ x ++ a ++ b ++ y -> c <> "&"%char /\ c <> DQUOTE /\ c <> BACKSLASH) ->
  (forall j, j ∈ json_items l -> is_Some (cJSON_Print (Some j))) ->
  let p := a ++ #"& " ++ b in
  let cmd := quoted (x ++ a ++ #"&;" ++ b ++ y) in
  (forall q, q ∈ sanity_patterns l -> q <> p -> ~ occurs q cmd) ->
  ~ occurs p cmd /\
  isCommandsValid cmd l w = Ret (0, quoted (x ++ p ++ y)) w /\
  removeQuotes (Some (quoted (x ++ p ++ y))) = Some (x ++ p ++ y) /\ occurs p (x ++ p ++ y).
Proof.
  intros Hc Hp p cmd Hq.
  assert (forall d, d ∈ ["&"%char; DQUOTE; BACKSLASH] -> d ∉ x ++ a ++ b ++ y) as Hfree.
  { intros d Hd Hin. destruct (Hc d Hin) as (H1 & H2 & H3). set_solver. }
  pose proof (Hfree "&"%char ltac:(set_solver)) as Ha.
  pose proof (Hfree BACKSLASH ltac:(set_solver)) as Hb.
  assert (cmd = (DQUOTE :: x ++ a) ++ #"&;" ++ (b ++ y ++ [DQUOTE])) as Ecmd
    by (unfold cmd, quoted; by rewrite <- ?app_assoc; cbn [app]; rewrite <- ?app_assoc).
  assert (quoted (x ++ p ++ y) = (DQUOTE :: x ++ a) ++ #"& " ++ (b ++ y ++ [DQUOTE])) as Eout
    by (unfold p, quoted; by rewrite <- ?app_assoc; cbn [app]; rewrite <- ?app_assoc).
  assert ("&"%char ∉ DQUOTE :: x ++ a) as Hu by (intros [?|?]%elem_of_cons; [done|set_solver]).
  assert ("&"%char ∉ b ++ y ++ [DQUOTE]) as Hv
    by (rewrite !elem_of_app, list_elem_of_singleton; intros [?|[?|?]]; [set_solver|set_solver|done]).
  assert (~ occurs p cmd) as Hno.
  { intros (z & r & E). rewrite Ecmd in E. unfold p in E.
    change (#"&;" ++ ?v) with ("&"%char :: ";"%char :: v) in E.
    replace (z ++ (a ++ #"& " ++ b) ++ r) with ((z ++ a) ++ "&"%char :: " "%char :: b ++ r) in E
      by (by rewrite <- !app_assoc).
    apply follows_single in E; [by injection E|done|]. intros [?|?]%elem_of_cons; done. }
  split; [exact Hno|]. rewrite removeQuotes_quoted, unescape_no_backslash.
  2: { unfold p. rewrite !elem_of_app. change (BACKSLASH ∈ #"& ") with (BACKSLASH ∈ ["&"%char; " "%char]). set_solver. }
  split_and!; [|done|by exists x, y].
  destruct (isCommandsValid_decides cmd l w Hp) as [[_ Hex]|[-> _]].
  - apply list.Exists_exists in Hex as (q & Hin & Hocc). exfalso. destruct (decide (q = p)) as [->|Hne]; [done|].
    by apply (Hq q).
  - by rewrite Eout, Ecmd, background_single.
Qed.

(** ** Properties *)

(** C13: the command filter is sound end to end, for the texts it can keep out.
    A command that [isCommandsValid] accepts, after the rewriting it did and
    after [removeQuotes], contains none of the texts of the sanity list that
    have no ampersand and no quote and do not begin with a blank: neither the
    in-place rewriting of [&;] nor the unquoting puts one of these together.
    The other texts of the list are checked before the rewriting and the
    unquoting only ([sanity_bypass]). *)
Theorem sanity_executed_safe `{CJSON} cmd l w cmd' w' exec p :
  isCommandsValid cmd l w = Ret (0, cmd') w' ->
  removeQuotes (Some cmd') = Some exec ->
  p ∈ sanity_patterns l ->
  "&"%char ∉ p -> DQUOTE ∉ p -> p !! 0%nat <> Some " "%char ->
  ~ occurs p exec.
Proof. intros Hv Hex Hp Ha Hq Hs. by apply (accepted_executed_safe cmd l w cmd' w'). Qed.

Definition sample_sanity : Tree.node := Tree.arr (Tree.str <$> [#"rm -rf"; #"kill  "; #"iptables"]).

Lemma sanity_executed_safe_witness :
  let C := Tree.tree_CJSON (fun _ => None) in
  isCommandsValid (json_quote #"tcpdump &;uptime") (Some sample_sanity) (World [] 0)
    = Ret (0, json_quote #"tcpdump & uptime") (World [] 0) /\
  removeQuotes (Some (json_quote #"tcpdump & uptime")) = Some #"tcpdump & uptime" /\
  sanity_patterns (Some sample_sanity) = [#"rm -rf"; #"kill"; #"iptables"] /\
  ~ occurs #"rm -rf" #"tcpdump & uptime".
Proof.
  intros C.
  assert (isCommandsValid (json_quote #"tcpdump &;uptime") (Some sample_sanity) (World [] 0)
    = Ret (0, json_quote #"tcpdump & uptime") (World [] 0)) as Hv by (vm_compute; reflexivity).
  assert (removeQuotes (Some (json_quote #"tcpdump & uptime")) = Some #"tcpdump & uptime") as Hq by (vm_compute; reflexivity).
  split_and!; [exact Hv|exact Hq|vm_compute; reflexivity|].
  apply (@sanity_executed_safe C _ _ _ _ _ _ #"rm -rf" Hv Hq); vm_compute; [left|set_solver|set_solver|discriminate].
Defined.

(** C22: a text with an ampersand and a blank after it is not kept out.  A
    command that writes [&;] in the place of that ampersand and blank does not
    contain the text, so when no other text of the list occurs in it the
    command is accepted; the rewriting that follows the check puts the text
    together, and it is in what the shell gets. *)
Theorem sanity_bypass `{CJSONLaws} l w x a b y :
  (forall c, c ∈ x ++ a ++ b ++ y -> c <> "&"%char /\ c <> DQUOTE /\ c <> BACKSLASH) ->
  (forall j, j ∈ json_items l -> is_Some (cJSON_Print (Some j))) ->
  let p := a ++ #"& " ++ b in
  let cmd := quoted (x ++ a ++ #"&;" ++ b ++ y) in
  (forall q, q ∈ sanity_patterns l -> q <> p -> ~ occurs q cmd) ->
  ~ occurs p cmd /\
  isCommandsValid cmd l w = Ret (0, quoted (x ++ p ++ y)) w /\
  removeQuotes (Some (quoted (x ++ p ++ y))) = Some (x ++ p ++ y) /\ occurs p (x ++ p ++ y).
Proof. apply bypass. Qed.

Lemma sanity_bypass_witness :
  let C := Tree.tree_CJSON (fun _ => None) in
  let l := Some (Tree.arr (Tree.str <$> [#"kill"; #"& reboot"])) in
  isCommandsValid (quoted #"sync &;reboot") l (World [] 0) = Ret (0, quoted #"sync & reboot") (World [] 0) /\
  removeQuotes (Some (quoted #"sync & reboot")) = Some #"sync & reboot" /\ occurs #"& reboot" #"sync & reboot".
Proof.
  intros C l.
  destruct (@sanity_bypass C (Tree.tree_laws _) l (World [] 0) #"sync " [] #"reboot" []) as (_ & Hv & Hq & Ho).
  - intros c Hc. cbn in Hc. repeat (apply elem_of_cons in Hc as [->|Hc]; [done|]). by apply elem_of_nil in Hc.
  - intros j _. by destruct j.
  - intros q Hq. change (@sanity_patterns C l) with [ #"kill"; #"& reboot"] in Hq.
    apply elem_of_cons in Hq as [->|Hq]; [|apply list_elem_of_singleton in Hq as ->; done].
    intros _ Ho%strstr_is_some. vm_compute in Ho. by destruct Ho.
  - split_and!; [exact Hv|exact Hq|exact Ho].
Defined.

(** C25: [isCommandsValid] decides exactly whether a text of the sanity list
    occurs in the command; a rejected command is left as it was, an accepted
    one has its [&;] rewritten, and nothing else changes. *)
Theorem isCommandsValid_spec `{CJSONLaws} cmd l w :
  (forall j, j ∈ json_items l -> is_Some (cJSON_Print (Some j))) ->
  (isCommandsValid cmd l w = Ret (1, cmd) w /\ Exists (fun p => occurs p cmd) (sanity_patterns l)) \/
  (isCommandsValid cmd l w = Ret (0, background_loop cmd) w /\
   Forall (fun p => ~ occurs p cmd) (sanity_patterns l)).
Proof. apply isCommandsValid_decides. Qed.

Lemma isCommandsValid_spec_witness :
  let C := Tree.tree_CJSON (fun _ => None) in
  (isCommandsValid (json_quote #"killall") (Some sample_sanity) (World [] 0)
     = Ret (1, json_quote #"killall") (World [] 0)
   /\ Exists (fun p => occurs p (json_quote #"killall")) (sanity_patterns (Some sample_sanity))) \/
  (isCommandsValid (json_quote #"killall") (Some sample_sanity) (World [] 0)
     = Ret (0, background_loop (json_quote #"killall")) (World [] 0)
   /\ Forall (fun p => ~ occurs p (json_quote #"killall")) (sanity_patterns (Some sample_sanity))).
Proof.
  intros C. apply (@isCommandsValid_spec C (Tree.tree_laws _)).
  intros j _. by destruct j.
Defined.

(** C31: [replaceRRDLocation] replaces every occurrence of the placeholder, the
    text between them being kept, and never writes outside the buffer whose
    size it computed in [size_t] arithmetic (where [dirlen - deflen] wraps for
    a short directory), as long as the result itself fits in memory. *)
Theorem replaceRRDLocation_spec `{OS} cmd dir w :
  os_malloc (w_allocs w) = true ->
  Z.of_nat (length (replace_loop (length cmd) dir cmd)) + 1 < SIZE_MOD ->
  exists segs, cmd = join DEFAULT_DIR segs /\
    Forall (fun g => ~ occurs DEFAULT_DIR g) segs /\
    replaceRRDLocation cmd dir w = Ret (Some (join dir segs)) (World (w_trace w) (S (w_allocs w))).
Proof.
  intros Hm Hb.
  destruct (replace_loop_segments (length cmd) dir cmd) as (segs & Hs & Hne & Hf & Hr & Hc); [done|].
  exists segs. split_and!; [done..|].
  unfold replaceRRDLocation, malloc, mbind, M_bind. rewrite Hm.
  rewrite replaced_datalen_exact by lia. rewrite Z.mod_small by lia.
  rewrite Z.leb_refl, Hr. done.
Qed.

Lemma replaceRRDLocation_spec_witness :
  exists segs, #"ls RRD_LOCATION;cp x RRD_LOCATION/y" = join DEFAULT_DIR segs /\
    Forall (fun g => ~ occurs DEFAULT_DIR g) segs /\
    @replaceRRDLocation (demo_os empty_demo) #"ls RRD_LOCATION;cp x RRD_LOCATION/y" #"/d" (World [] 0)
      = Ret (Some (join #"/d" segs)) (World [] 1).
Proof.
  apply (@replaceRRDLocation_spec (demo_os empty_demo) #"ls RRD_LOCATION;cp x RRD_LOCATION/y" #"/d" (World [] 0)).
  - reflexivity.
  - vm_compute. reflexivity.
Defined.

(** What the shell finally receives for a profile command: [removeQuotes]
    undoes the quoting cJSON printed except that it leaves every backslash
    doubled; so it is the command of the profile exactly when that has no
    backslash. *)
Theorem removeQuotes_json_quote s :
  removeQuotes (Some (json_quote s)) = Some (s ≫= double_backslash) /\
  (removeQuotes (Some (json_quote s)) = Some s <-> BACKSLASH ∉ s).
Proof.
  assert (Heq : removeQuotes (Some (json_quote s)) = Some (s ≫= double_backslash)).
  { rewrite removeQuotes_unescape. unfold json_quote. by rewrite strip_quotes_quote, unescape_escape. }
  split; [done|]. rewrite Heq, <- double_backslash_id.
  split; [by intros [= Hs] | by intros ->].
Qed.
