(* ===== verification/IssueType.v ===== *)
(** * IssueType: the texts of an issue request

    The string functions that take an issue request apart: the splitter of the
    comma separated list and its sanitizers (src/rrdEventProcess.c), the split
    into base and suffix, the node and sub-node of an issue and the device
    profile (src/rrdJsonParser.c), the append marker (src/rrdInterface.c), and
    the normalizations of the upload name (src/rrdExecuteScript.c,
    src/rrd_logproc.c). *)

From S2P Require Import Prelude OS.

(** ** split_issue_type *)

Definition RRD_MAX_SUFFIX_LEN : nat := 9.

Definition suffix_char (c : ascii) : bool := isalnum c || chareq c "_" || chareq c "-".

(** The copying loop: [di < max_copy] and the end of the input stop it. *)
Fixpoint suffix_loop (max_copy : nat) (s : cstr) : cstr :=
  match max_copy, s with
  | S m, ch :: s' => if suffix_char ch then ch :: suffix_loop m s' else suffix_loop max_copy s'
  | _, _ => []
  end.

(** [base] and [suffix] are the buffers before the call ([None] is [NULL]);
    the result is the buffers after it. *)
Definition split_issue_type (input base : option cstr) (base_len : nat)
    (suffix : option cstr) (suffix_len : nat) : option cstr * option cstr :=
  let base := if (0 <? base_len)%nat then (fun _ => []) <$> base else base in
  let suffix := if (0 <? suffix_len)%nat then (fun _ => []) <$> suffix else suffix in
  match input, base, suffix with
  | Some input, Some _, Some _ =>
      if (base_len =? 0)%nat || (suffix_len =? 0)%nat then (base, suffix)
      else match strchr input "_" with
           | Some n =>
               let b_len := if (base_len <=? n)%nat then (base_len - 1)%nat else n in
               let underscore := drop n input in
               (Some (take b_len input),
                if (length underscore <=? RRD_MAX_SUFFIX_LEN)%nat
                then Some (suffix_loop (suffix_len - 1) underscore)
                else Some [])
           | None => (Some (bounded_copy base_len input), Some [])
           end
  | _, _, _ => (base, suffix)
  end.

(** ** removeSpecialCharacterfromIssueTypeList *)

Definition issue_char (c : ascii) : bool := isalnum c || chareq c "," || chareq c ".".

(** The in-place copy loop keeps the characters the test accepts, in order. *)
Definition removeSpecialCharacterfromIssueTypeList (str : cstr) : cstr := List.filter issue_char str.

(** ** issueTypeSplitter *)

(** The loop that steps over delimiters. *)
Fixpoint skip_delims (d : ascii) (s : cstr) : cstr :=
  match s with
  | c :: s' => if chareq c d then skip_delims d s' else s
  | [] => []
  end.

(** The loop that stops at a delimiter or at the end: the characters passed
    and the rest. *)
Fixpoint scan_token (d : ascii) (s : cstr) : cstr * cstr :=
  match s with
  | c :: s' => if chareq c d then ([], s)
               else let '(t, r) := scan_token d s' in (c :: t, r)
  | [] => ([], [])
  end.

(** The counting loop: from each character, the next one is a delimiter that
    is followed by a character other than a delimiter. *)
Fixpoint count_delims (d : ascii) (s : cstr) : nat :=
  match s with
  | [] => 0
  | _ :: s' =>
      (match s' with
       | x :: y :: _ => if chareq x d && negb (chareq y d) then 1 else 0
       | _ => 0
       end + count_delims d s')%nat
  end.

Section Splitter.
Context `{OS}.

(** The second loop: [n] tokens; a failed allocation of a token is not
    checked before it is written. *)
Fixpoint split_loop (d : ascii) (n : nat) (str : cstr) : M (list cstr) :=
  match n with
  | O => mret []
  | S n' =>
      let '(token, rest) := scan_token d str in
      ok ← malloc;
      if (ok : bool) then
        args ← split_loop d n' (skip_delims d rest);
        mret (token :: args)
      else mfault NullDeref
  end.

(** The array of tokens; its length is the count the C function returns. *)
Definition issueTypeSplitter (input_str : option cstr) (d : ascii) : M (list cstr) :=
  input ← deref input_str;
  let str := skip_delims d input in
  let cnt := S (count_delims d str) in
  ok ← malloc;
  if (ok : bool) then split_loop d cnt str else mret [].
End Splitter.

(** ** getParamcount and getIssueInfo *)

Fixpoint paramcount_loop (fuel : nat) (str : cstr) : nat :=
  match fuel, strstr str #"." with
  | S fuel', Some n => S (paramcount_loop fuel' (drop (n + 1) str))
  | _, _ => 0
  end.

Definition getParamcount (str : cstr) : nat := paramcount_loop (length str) str.

(** [issueNodeData]: [None] is [NULL]. *)
Record issueNodeData := IssueNode { Node : option cstr; subNode : option cstr }.

(** The array of tokens has [nodes + 1] slots, which are not initialized. *)
Definition array_get (array : list cstr) (i : nat) : M cstr :=
  match array !! i with Some t => mret t | None => mfault UninitRead end.

Definition getIssueInfo `{OS} (issuestr : cstr) : M issueNodeData :=
  let nodes := getParamcount issuestr in
  let tokens := strtok_all "." issuestr in
  if (length tokens <=? nodes + 1)%nat then
    t ← array_get tokens 0;
    ok ← malloc;
    if negb ok then mfault NullDeref else
    if negb (nodes =? 0)%nat then
      u ← array_get tokens 1;
      ok ← malloc;
      if negb ok then mfault NullDeref
      else mret (IssueNode (Some t) (Some u))
    else mret (IssueNode (Some t) None)
  else mfault OutOfBounds.

(** ** checkAppendRequest *)

Definition APPEND_SUFFIX : cstr := #"_apnd".

(** The result and the string after the call. *)
Definition checkAppendRequest (issueRequest : cstr) : bool * cstr :=
  let issuestr_len := length issueRequest in
  let suffixstr_len := length APPEND_SUFFIX in
  if (suffixstr_len <=? issuestr_len)%nat then
    if streq (drop (issuestr_len - suffixstr_len) issueRequest) APPEND_SUFFIX
    then (true, take (issuestr_len - suffixstr_len) issueRequest)
    else (false, issueRequest)
  else (false, issueRequest).

(** ** The device profile *)

(** [removeSpecialChar]: the text before the first carriage return or newline. *)
Fixpoint removeSpecialChar (str : cstr) : cstr :=
  match str with
  | c :: s' => if chareq c CR || chareq c NEWLINE then [] else c :: removeSpecialChar s'
  | [] => []
  end.

(** [RRD_DEVICE_PROFILE] is chosen when the program is built. *)
Definition lookupRrdProfileList `{OS} (RRD_DEVICE_PROFILE : cstr) (profile : option cstr) : M bool :=
  match profile with
  | None | Some [] => mret false
  | Some p =>
      ok ← malloc;
      if (ok : bool) then mret (existsb (fun t => streq t p) (strtok_all "," RRD_DEVICE_PROFILE))
      else mret false
  end.

(** [deviceType] is the field of [devPropData]. *)
Definition getRrdProfileName `{OS} (RRD_DEVICE_PROFILE : cstr) (deviceType : option cstr) : M cstr :=
  found ← lookupRrdProfileList RRD_DEVICE_PROFILE deviceType;
  if (found : bool) then deref deviceType else mret [].

(** ** Normalizations of the upload name *)

Definition normalizeIssueName (str : cstr) : cstr :=
  (fun c => if chareq c "." then "_"%char else c) <$> str.

(** The loop of [rrd_logproc_convert_issue_type]. *)
Fixpoint convert_loop (room : nat) (input : cstr) : cstr :=
  match room, input with
  | S r, c :: input' =>
      if isalnum c then toupper c :: convert_loop r input'
      else if chareq c "_" || chareq c "." then "_"%char :: convert_loop r input'
      else if chareq c "-" then "-"%char :: convert_loop r input'
      else convert_loop room input'
  | _, _ => []
  end.

(** The status and, when it is 0, the output buffer ([output] is whether the
    buffer pointer is not [NULL]). *)
Definition rrd_logproc_convert_issue_type (input : option cstr) (output : bool) (size : nat) : Z * option cstr :=
  match input with
  | None => (-1, None)
  | Some input =>
      if negb output then (-1, None) else
      if (size =? 0)%nat then (-1, None) else
      if (size <=? length input)%nat then (-1, None) else
      (0, Some (convert_loop (size - 1) input))
  end%Z.

(** ** Lemmas *)

Lemma suffix_loop_filter m s : suffix_loop m s = take m (List.filter suffix_char s).
Proof.
  revert m. induction s as [|c s IH]; intros [|m]; simpl; try done.
  destruct (suffix_char c); simpl; by rewrite IH.
Qed.

Lemma suffix_char_underscore : suffix_char "_" = true.
Proof. done. Qed.

Lemma skip_delims_tokens d s : strtok_all d (skip_delims d s) = strtok_all d s.
Proof.
  unfold strtok_all. induction s as [|c s IH]; [done|]. simpl. destruct (chareq c d) eqn:E; [done|].
  simpl. by rewrite E.
Qed.

Lemma scan_token_spec d s t r :
  scan_token d s = (t, r) -> s = t ++ r /\ d ∉ t /\ (r = [] \/ exists r', r = d :: r').
Proof.
  revert t. induction s as [|c s IH]; intros t; simpl.
  - intros [= <- <-]. split_and!; [done|set_solver|by left].
  - destruct (chareq c d) eqn:E.
    + apply chareq_true in E as ->. intros [= <- <-]. split_and!; [done|set_solver|eauto].
    + apply chareq_false in E. destruct (scan_token d s) as [t' r'].
      intros [= <- <-]. destruct (IH t' eq_refl) as (-> & Hn & Hr).
      split_and!; [done|set_solver|done].
Qed.

(** The tokens of a word followed by a delimiter. *)
Lemma tok_loop_word d cur t r :
  d ∉ t -> cur ++ t <> [] ->
  tok_loop d cur (t ++ d :: r) = (cur ++ t) :: strtok_all d r.
Proof.
  revert cur. induction t as [|c t IH]; intros cur Hd Hn; simpl.
  - rewrite app_nil_r in *. rewrite chareq_refl. by destruct cur.
  - case_char c d; [set_solver|].
    rewrite IH; [by rewrite <- app_assoc|set_solver|by destruct cur].
Qed.

(** What the splitter sees of the rest of its input: nothing, or a word that
    comes first. *)
Definition word_first (d : ascii) (s : cstr) : Prop :=
  match s with [] => True | c :: _ => c <> d end.

Lemma skip_delims_word_first d s : word_first d (skip_delims d s).
Proof. induction s as [|c s IH]; simpl; [done|]. case_char c d; [done|]. done. Qed.

Lemma word_first_scan d s t r :
  word_first d s -> s <> [] -> scan_token d s = (t, r) -> t <> [].
Proof.
  destruct s as [|c s]; simpl; [done|]. intros Hc _.
  apply chareq_false in Hc as ->. destruct (scan_token d s). by intros [= <- <-].
Qed.

Definition starts_word (d : ascii) (s : cstr) : nat :=
  match s with [] => 0 | c :: _ => if chareq c d then 0 else 1 end.

(** The counting loop counts the tokens that do not begin the string. *)
Lemma count_delims_tokens d s cur :
  length (tok_loop d cur s) =
    (match cur, s with
     | [], _ => starts_word d s
     | _ :: _, _ => 1
     end
     + match s with
       | c :: s' => if chareq c d then starts_word d s' else 0
       | [] => 0
       end
     + count_delims d s)%nat.
Proof.
  revert cur. induction s as [|c s IH]; intros cur; [by destruct cur|].
  cbn [tok_loop count_delims starts_word]. destruct (chareq c d) eqn:E.
  - destruct cur as [|x cur]; cbn [length]; rewrite IH; destruct s as [|y s];
      cbn [starts_word count_delims]; try lia;
      destruct (chareq y d) eqn:Ey, s as [|z s]; cbn [starts_word count_delims andb negb]; try lia;
      destruct (chareq z d) eqn:Ez; cbn [negb]; try lia.
  - rewrite IH. destruct cur as [|x cur]; cbn [app]; destruct s as [|y s];
      cbn [starts_word count_delims]; try lia;
      destruct (chareq y d) eqn:Ey, s as [|z s]; cbn [starts_word count_delims andb negb]; try lia;
      destruct (chareq z d) eqn:Ez; cbn [negb]; try lia.
Qed.

Lemma count_delims_word_first d s :
  word_first d s -> s <> [] -> length (strtok_all d s) = S (count_delims d s).
Proof.
  intros Hw Hn. unfold strtok_all. rewrite count_delims_tokens.
  destruct s as [|c s]; [done|]. simpl in Hw. apply chareq_false in Hw.
  cbn [starts_word]. rewrite Hw. lia.
Qed.

Lemma split_loop_tokens `{OS} d s w :
  (forall k, os_malloc k = true) -> word_first d s ->
  split_loop d (length (strtok_all d s)) s w =
    Ret (strtok_all d s) (World (w_trace w) (w_allocs w + length (strtok_all d s))).
Proof.
  intros Hm. remember (length (strtok_all d s)) as n eqn:Hn. revert s w Hn.
  induction n as [|n IH]; intros s w Hn Hw.
  - symmetry in Hn. apply nil_length_inv in Hn. rewrite Hn. destruct w. simpl.
    by rewrite Nat.add_0_r.
  - destruct (decide (s = [])) as [->|Hs]; [done|].
    cbn [split_loop]. destruct (scan_token d s) as [t r] eqn:Hsc.
    pose proof (word_first_scan _ _ _ _ Hw Hs Hsc) as Ht.
    apply scan_token_spec in Hsc as (-> & Hd & Hr).
    assert (Htok : strtok_all d (t ++ r) = t :: strtok_all d (skip_delims d r)).
    { rewrite skip_delims_tokens. destruct Hr as [->|[r' ->]].
      - rewrite app_nil_r. by rewrite strtok_all_single.
      - unfold strtok_all at 1. rewrite tok_loop_word by done.
        unfold strtok_all at 2. cbn [tok_loop]. by rewrite chareq_refl. }
    rewrite Htok in Hn |- *. injection Hn as Hn.
    unfold mbind, M_bind, malloc. rewrite Hm. rewrite (IH _ _ Hn) by apply skip_delims_word_first.
    simpl. unfold mret, M_ret. f_equal. f_equal. lia.
Qed.

Lemma tok_loop_nil_iff d cur s : tok_loop d cur s = [] <-> cur = [] /\ Forall (fun c => c = d) s.
Proof.
  revert cur. induction s as [|c s IH]; intros cur; simpl.
  - destruct cur; split; [done|done|done|by intros []].
  - case_char c d.
    + destruct cur; [|split; [done|by intros []]]. rewrite IH, Forall_cons_iff. tauto.
    + rewrite IH, Forall_cons_iff. split; [intros [? _]|intros [_ [? _]]]; [by destruct cur|done].
Qed.

Lemma tok_loop_join d cur s :
  d ∉ cur -> mjoin (tok_loop d cur s) = cur ++ List.filter (fun c => negb (chareq c d)) s.
Proof.
  revert cur. induction s as [|c s IH]; intros cur Hc; simpl.
  - destruct cur; simpl; by rewrite ?app_nil_r.
  - case_char c d; simpl.
    + destruct cur as [|x cur]; [apply IH; set_solver|].
      csimpl. rewrite IH by set_solver. by rewrite app_nil_l.
    + rewrite IH by (intros [?|?]%elem_of_app; set_solver). by rewrite <- app_assoc.
Qed.

Lemma paramcount_loop_count fuel s :
  (length s <= fuel)%nat ->
  paramcount_loop fuel s = length (List.filter (fun c => chareq c ".") s).
Proof.
  revert s. induction fuel as [|fuel IH]; intros s Hl; [by destruct s; simpl in *; [|lia]|].
  cbn [paramcount_loop]. destruct (strstr s #".") as [n|] eqn:E.
  - pose proof (strstr_first s #"." n ltac:(discriminate) E) as Hn.
    apply strstr_split in E as (a & t & -> & ->). rewrite take_app_length in Hn.
    change #"." with ["."%char] in *. rewrite <- drop_drop, drop_app_length.
    cbn [app drop]. rewrite drop_0, IH by (rewrite length_app in Hl; simpl in Hl; lia).
    rewrite List.filter_app, length_app. cbn [List.filter].
    rewrite chareq_refl. cbn [length].
    enough (List.filter (fun c => chareq c ".") a = []) as -> by done.
    destruct (List.filter _ a) as [|x l] eqn:Ef; [done|]. exfalso. apply Hn.
    assert (Hx : x ∈ List.filter (fun c => chareq c ".") a) by (rewrite Ef; left).
    apply elem_of_bfilter in Hx as [(u & v & ->)%list_elem_of_split ->%chareq_true].
    by exists u, v.
  - symmetry. apply length_zero_iff_nil. destruct (List.filter _ s) as [|x l] eqn:Ef; [done|].
    exfalso. apply strstr_none in E. apply E.
    assert (Hx : x ∈ List.filter (fun c => chareq c ".") s) by (rewrite Ef; left).
    apply elem_of_bfilter in Hx as [(u & v & ->)%list_elem_of_split ->%chareq_true].
    by exists u, v.
Qed.

Lemma getParamcount_count s : getParamcount s = length (List.filter (fun c => chareq c ".") s).
Proof. by apply paramcount_loop_count. Qed.

Lemma getParamcount_zero s : getParamcount s = 0%nat <-> "."%char ∉ s.
Proof.
  rewrite getParamcount_count. split.
  - intros Hn%nil_length_inv Hin.
    assert (Hx : "."%char ∈ List.filter (fun c => chareq c ".") s) by (by apply elem_of_bfilter).
    rewrite Hn in Hx. by apply not_elem_of_nil in Hx.
  - intros Hn. apply length_zero_iff_nil. destruct (List.filter _ s) as [|x l] eqn:E; [done|].
    assert (Hx : x ∈ List.filter (fun c => chareq c ".") s) by (rewrite E; left).
    by apply elem_of_bfilter in Hx as [Hx ->%chareq_true].
Qed.

Lemma tok_loop_count d cur s :
  (length (tok_loop d cur s) <= length (List.filter (fun c => chareq c d) s) + 1)%nat.
Proof.
  revert cur. induction s as [|c s IH]; intros cur; simpl; [destruct cur; simpl; lia|].
  destruct (chareq c d); simpl; [destruct cur|]; simpl; [etrans; [apply IH|]; lia|..].
  - specialize (IH []). lia.
  - apply IH.
Qed.

(** The characters the upload name keeps, and their normal form. *)
Definition convert_char (c : ascii) : option ascii :=
  if isalnum c then Some (toupper c)
  else if chareq c "_" || chareq c "." then Some "_"%char
  else if chareq c "-" then Some "-"%char else None.

Definition upload_char (c : ascii) : bool :=
  isupper c || isdigit c || chareq c "_" || chareq c "-".

Lemma convert_loop_omap room s :
  (length s <= room)%nat -> convert_loop room s = omap convert_char s.
Proof.
  revert room. induction s as [|c s IH]; intros [|room] Hl; simpl in Hl; try done; [lia|].
  csimpl. unfold convert_char at 1.
  destruct (isalnum c); [by rewrite IH by lia|].
  destruct (chareq c "_" || chareq c "."); [by rewrite IH by lia|].
  destruct (chareq c "-"); [by rewrite IH by lia|]. apply IH. lia.
Qed.

Lemma convert_char_upload c d : convert_char c = Some d -> upload_char d = true.
Proof.
  intros H.
  pose proof (forall_ascii (fun c => match convert_char c with Some d => upload_char d | None => true end)
                eq_refl c) as Hc.
  simpl in Hc. by rewrite H in Hc.
Qed.

Lemma convert_char_fixed d : upload_char d = true -> convert_char d = Some d.
Proof.
  intros H.
  pose proof (forall_ascii (fun d => implb (upload_char d) (bool_decide (convert_char d = Some d)))
                eq_refl d) as Hc.
  simpl in Hc. rewrite H in Hc. by apply bool_decide_eq_true in Hc.
Qed.

Lemma convert_char_idemp l :
  Forall (fun c => upload_char c = true) l -> omap convert_char l = l.
Proof. induction 1 as [|d l Hd _ IH]; [done|]. csimpl. rewrite convert_char_fixed by done. by rewrite IH. Qed.

Lemma omap_length {A B} (f : A -> option B) (l : list A) : (length (omap f l) <= length l)%nat.
Proof. induction l as [|a l IH]; csimpl; [lia|]. destruct (f a); csimpl; lia. Qed.

Lemma strchr_app pre c tail : c ∉ pre -> strchr (pre ++ c :: tail) c = Some (length pre).
Proof.
  induction pre as [|a pre IH]; intros Hn; simpl; [by rewrite chareq_refl|].
  case_char a c; [set_solver|]. by rewrite IH by set_solver.
Qed.

(** What the split yields, by the form of the input. *)
Lemma split_issue_type_no_suffix input base0 base_len suffix0 suffix_len :
  (0 < base_len)%nat -> (0 < suffix_len)%nat -> "_"%char ∉ input ->
  split_issue_type (Some input) (Some base0) base_len (Some suffix0) suffix_len
    = (Some (bounded_copy base_len input), Some []).
Proof.
  intros Hb Hs Hn. unfold split_issue_type. apply strchr_none in Hn.
  destruct base_len, suffix_len; simpl; try lia. by rewrite Hn.
Qed.

Lemma split_issue_type_suffix pre tail base0 base_len suffix0 suffix_len :
  (0 < base_len)%nat -> (0 < suffix_len)%nat -> "_"%char ∉ pre ->
  split_issue_type (Some (pre ++ "_"%char :: tail)) (Some base0) base_len (Some suffix0) suffix_len
    = (Some (take (base_len - 1) pre),
       Some (if (length tail <=? 8)%nat
             then take (suffix_len - 1) ("_"%char :: List.filter suffix_char tail) else [])).
Proof.
  intros Hb Hs Hn. unfold split_issue_type. rewrite strchr_app by done.
  destruct base_len as [|bl], suffix_len as [|sl]; try lia. simpl Nat.ltb. simpl fmap. cbv iota beta.
  simpl Nat.eqb. cbn [orb]. rewrite drop_app_length, suffix_loop_filter. f_equal.
  - f_equal. destruct (S bl <=? length pre)%nat eqn:E.
    + apply Nat.leb_le in E. by rewrite take_app_le by lia.
    + apply Nat.leb_gt in E. by rewrite take_app_length, take_ge by lia.
  - unfold RRD_MAX_SUFFIX_LEN. cbn [length Nat.leb]. by case_match.
Qed.

Lemma issueTypeSplitter_returns `{OS} s d :
  (forall k, os_malloc k = true) -> strtok_all d s <> [] ->
  returns (issueTypeSplitter (Some s) d) (fun tokens evs => tokens = strtok_all d s /\ evs = []).
Proof.
  intros Hm Ht. unfold issueTypeSplitter. cbn [deref]. intros w. rewrite bind_ret_l. revert w.
  apply returns_malloc_ok; [done|]. intros w. pose proof (skip_delims_word_first d s) as Hw.
  rewrite <- skip_delims_tokens in *. rewrite <- count_delims_word_first by (try done; intros E; by rewrite E in Ht).
  rewrite split_loop_tokens by done. eexists _, _, []. split; [done|]. by rewrite app_nil_r.
Qed.

Lemma split_loop_quiet `{OS} d n : forall str, yields (split_loop d n str) (fun _ evs => evs = []).
Proof.
  induction n as [|n IH]; intros str; cbn [split_loop]; [by apply yields_ret|].
  destruct (scan_token d str) as [ts str']. apply yields_malloc. intros ok. destruct ok; [|apply yields_fault].
  eapply yields_bind; [apply IH|]. intros r evs ->. by apply yields_ret.
Qed.

Lemma issueTypeSplitter_quiet `{OS} input d : yields (issueTypeSplitter input d) (fun _ evs => evs = []).
Proof.
  unfold issueTypeSplitter. apply yields_deref. intros s _. apply yields_malloc. intros ok.
  destruct ok; [apply split_loop_quiet|by apply yields_ret].
Qed.

Lemma getIssueInfo_quiet `{OS} s : yields (getIssueInfo s) (fun _ evs => evs = []).
Proof.
  assert (forall l i, yields (array_get l i) (fun _ evs => evs = [])) as Hget.
  { intros l i. unfold array_get. destruct (l !! i); [by apply yields_ret|apply yields_fault]. }
  unfold getIssueInfo. destruct (_ <=? _)%nat; [|apply yields_fault].
  eapply yields_bind; [apply Hget|]. intros t evs ->. apply yields_malloc. intros ok. destruct (negb ok); [apply yields_fault|].
  destruct (negb _); [|by apply yields_ret].
  eapply yields_bind; [apply Hget|]. intros u evs ->. apply yields_malloc. intros ok2.
  destruct (negb ok2); [apply yields_fault|by apply yields_ret].
Qed.

(** ** Properties *)

(** C32: splitting the list of an issue request.  When no allocation fails,
    [issueTypeSplitter] returns exactly the non-empty pieces between
    delimiters, in order: no piece is empty or holds a delimiter, and together
    they are all the other characters of the input, special characters included
    (they are removed later, from each piece).  Only an input without such a
    piece gives one empty piece.  The counting pass and the copying
    pass agree, so the array of tokens is never overrun or left unfilled. *)
Theorem issueTypeSplitter_tokens `{OS} s d w :
  (forall k, os_malloc k = true) ->
  exists w' tokens,
    issueTypeSplitter (Some s) d w = Ret tokens w' /\
    (tokens = [[]] /\ Forall (fun c => c = d) s \/
     tokens = strtok_all d s /\ tokens <> [] /\
     Forall (fun t => t <> [] /\ d ∉ t) tokens /\
     mjoin tokens = List.filter (fun c => negb (chareq c d)) s).
Proof.
  intros Hm. unfold issueTypeSplitter, deref. cbn [mret M_ret].
  rewrite bind_ret_l. unfold mbind, M_bind, malloc. rewrite Hm.
  destruct (strtok_all d s) as [|t0 ts] eqn:Ht.
  - assert (Hnil : skip_delims d s = []).
    { pose proof (skip_delims_word_first d s) as Hw.
      rewrite <- skip_delims_tokens in Ht. apply tok_loop_nil_iff in Ht as [_ Hf].
      destruct Hf; [done|]. done. }
    rewrite Hnil. cbn. unfold mbind, M_bind, malloc. rewrite Hm. eexists _, [[]].
    split; [done|]. left. by apply tok_loop_nil_iff in Ht as [_ ?].
  - assert (Hs : skip_delims d s <> []).
    { intros Hn. rewrite <- skip_delims_tokens, Hn in Ht. done. }
    pose proof (skip_delims_word_first d s) as Hw.
    rewrite <- count_delims_word_first by done.
    rewrite split_loop_tokens by done. rewrite skip_delims_tokens, Ht.
    eexists _, (t0 :: ts). split; [done|]. right. rewrite <- Ht. split_and!.
    + done.
    + by rewrite Ht.
    + apply list.Forall_forall. intros t Hin. split.
      * by eapply tok_loop_nonempty.
      * by eapply tok_loop_no_sep; [apply not_elem_of_nil|].
    + unfold strtok_all. by rewrite tok_loop_join by apply not_elem_of_nil.
Qed.

Lemma issueTypeSplitter_tokens_witness :
  exists w' tokens,
    @issueTypeSplitter (demo_os empty_demo) (Some #",,Device.Info,Process,") "," (World [] 0) = Ret tokens w' /\
    tokens = [#"Device.Info"; #"Process"].
Proof.
  destruct (@issueTypeSplitter_tokens (demo_os empty_demo) #",,Device.Info,Process," "," (World [] 0))
    as (w' & tokens & H & _); [done|].
  exists w', tokens. split; [done|]. vm_compute in H. by injection H.
Defined.

(** The base and the suffix of an issue type.  With buffers of at least
    one byte the base never holds an underscore and both results fit their
    buffers with the terminating NUL; the suffix has at most nine characters,
    all of them letters, digits, underscores or hyphens, and is empty when the
    text from the first underscore on is longer than nine; an acceptable
    suffix and base that fit lose nothing. *)
Theorem split_issue_type_spec input base0 base_len suffix0 suffix_len :
  (0 < base_len)%nat -> (0 < suffix_len)%nat ->
  exists b x,
    split_issue_type (Some input) (Some base0) base_len (Some suffix0) suffix_len = (Some b, Some x) /\
    (length b < base_len)%nat /\ (length x < suffix_len)%nat /\ (length x <= RRD_MAX_SUFFIX_LEN)%nat /\
    "_"%char ∉ b /\ b `prefix_of` input /\ Forall (fun c => suffix_char c = true) x /\
    (forall pre tail, input = pre ++ "_"%char :: tail -> "_"%char ∉ pre ->
       ((8 < length tail)%nat -> x = []) /\
       ((length pre < base_len)%nat -> (length tail <= 8)%nat -> (S (length tail) < suffix_len)%nat ->
        Forall (fun c => suffix_char c = true) tail -> b ++ x = input)).
Proof.
  intros Hb Hs. destruct (strchr input "_") as [n|] eqn:E.
  - apply strchr_some in E as (Hin & Hn & Hl).
    set (pre := take n input) in *. set (tail := drop (S n) input) in *. clearbody pre tail. subst input.
    rewrite split_issue_type_suffix by done. eexists _, _. split; [done|].
    split_and!.
    + rewrite length_take. lia.
    + case_match; [rewrite length_take|simpl]; lia.
    + unfold RRD_MAX_SUFFIX_LEN. case_match eqn:E; [|simpl; lia]. apply Nat.leb_le in E.
      rewrite length_take. cbn [length]. pose proof (bfilter_length suffix_char tail). lia.
    + intros Hi. by apply Hn, (elem_of_take_in _ (base_len - 1)).
    + exists (drop (base_len - 1) pre ++ "_"%char :: tail).
      by rewrite app_assoc, take_drop.
    + case_match; [|done]. apply Forall_take. constructor; [done|].
      apply list.Forall_forall. intros c Hc. by apply elem_of_bfilter in Hc as [_ ?].
    + intros pre' tail' Heq Hn'.
      destruct (first_char_unique _ _ _ _ _ Hn Hn' Heq) as [-> ->].
      split.
      * intros Ht. destruct (Nat.leb_spec (length tail) 8); [lia|done].
      * intros Hp Ht Hx Hf. destruct (Nat.leb_spec (length tail) 8); [|lia].
        rewrite take_ge by lia. f_equal. rewrite bfilter_id by (by apply list.Forall_forall).
        rewrite take_ge; [done|]. simpl. lia.
  - apply strchr_none in E. rewrite split_issue_type_no_suffix by done.
    eexists _, _. split; [done|]. split_and!.
    + by apply bounded_copy_length.
    + simpl. lia.
    + simpl. lia.
    + intros Hi. by apply E, (elem_of_take_in _ (base_len - 1)).
    + apply prefix_take.
    + done.
    + intros pre tail -> _. exfalso. apply E. set_solver.
Qed.

Lemma split_issue_type_spec_witness :
  exists b x,
    split_issue_type (Some #"Device.DeviceTime_ab12345") (Some []) 128 (Some []) 128 = (Some b, Some x) /\
    b = #"Device.DeviceTime" /\ x = #"_ab12345" /\ (length b < 128)%nat.
Proof.
  destruct (split_issue_type_spec #"Device.DeviceTime_ab12345" [] 128 [] 128) as (b & x & H & Hb & _);
    [lia..|].
  exists b, x. pose proof H as H'. vm_compute in H'. injection H' as Hb' Hx'. subst. done.
Defined.

(** C33: the node and sub-node of an issue, on every input.  When no allocation
    fails, [getIssueInfo] returns the first two dot-separated tokens; an input
    without a token, or with a dot but a single token (such as a trailing
    dot), makes it read an array slot it never wrote; it never writes past the
    array. *)
Theorem getIssueInfo_spec `{OS} s w :
  (forall k, os_malloc k = true) ->
  match strtok_all "." s with
  | [] => getIssueInfo s w = Fault UninitRead
  | [t] =>
      ("."%char ∈ s -> getIssueInfo s w = Fault UninitRead) /\
      ("."%char ∉ s -> t = s /\
         getIssueInfo s w = Ret (IssueNode (Some s) None) (World (w_trace w) (w_allocs w + 1)))
  | t :: u :: _ =>
      getIssueInfo s w = Ret (IssueNode (Some t) (Some u)) (World (w_trace w) (w_allocs w + 2))
  end.
Proof.
  intros Hm. pose proof (tok_loop_count "." [] s) as Hc. fold (strtok_all "." s) in Hc.
  rewrite <- getParamcount_count in Hc.
  assert (Hle : (length (strtok_all "." s) <=? getParamcount s + 1)%nat = true) by (by apply Nat.leb_le).
  unfold getIssueInfo. rewrite Hle.
  destruct (strtok_all "." s) as [|t [|u ts]] eqn:Ht; unfold mbind, M_bind, malloc; cbn.
  - done.
  - rewrite Hm. cbn. split.
    + intros Hin. destruct (getParamcount s) eqn:E; [by apply getParamcount_zero in E|].
      done.
    + intros Hn. apply getParamcount_zero in Hn as Hz. rewrite Hz. cbn.
      assert (t = s) as ->.
      { destruct s as [|c s]; [done|]. rewrite strtok_all_single in Ht by done. by injection Ht. }
      split; [done|]. unfold mret, M_ret. f_equal. f_equal. lia.
  - rewrite Hm. cbn. destruct (getParamcount s) eqn:E; [simpl in Hc; lia|].
    cbn. rewrite Hm. cbn. unfold mret, M_ret. f_equal. f_equal. lia.
Qed.

Lemma getIssueInfo_spec_witness :
  @getIssueInfo (demo_os empty_demo) #"Device." (World [] 0) = Fault UninitRead.
Proof.
  apply (@getIssueInfo_spec (demo_os empty_demo) #"Device." (World [] 0)); [done|].
  vm_compute. set_solver.
Defined.

(** The name under which a report is uploaded.  When the text fits the
    buffer, the conversion succeeds, keeps upper-case letters, digits,
    underscores and hyphens only, fits the buffer, maps each character on its
    own, and leaves an already converted name unchanged; when the text does
    not fit, it fails. *)
Theorem convert_issue_type_spec input size :
  ((length input < size)%nat ->
   exists out,
     rrd_logproc_convert_issue_type (Some input) true size = (0%Z, Some out) /\
     out = omap convert_char input /\ (length out < size)%nat /\
     Forall (fun c => upload_char c = true) out /\
     rrd_logproc_convert_issue_type (Some out) true size = (0%Z, Some out)) /\
  ((size <= length input)%nat ->
   rrd_logproc_convert_issue_type (Some input) true size = ((-1)%Z, None)).
Proof.
  assert (Hrun : forall s, (length s < size)%nat ->
    rrd_logproc_convert_issue_type (Some s) true size = (0%Z, Some (omap convert_char s))).
  { intros s Hl. unfold rrd_logproc_convert_issue_type. cbn [negb].
    destruct (Nat.eqb_spec size 0); [lia|]. destruct (Nat.leb_spec size (length s)); [lia|].
    by rewrite convert_loop_omap by lia. }
  split.
  - intros Hl. exists (omap convert_char input). pose proof (omap_length convert_char input).
    assert (Hf : Forall (fun c => upload_char c = true) (omap convert_char input)).
    { apply list.Forall_forall. intros d (c & _ & Hc)%list_elem_of_omap. by eapply convert_char_upload. }
    split_and!; [by apply Hrun|done|lia|done|]. rewrite Hrun by lia.
    by rewrite convert_char_idemp.
  - intros Hl. unfold rrd_logproc_convert_issue_type. cbn [negb].
    destruct (Nat.eqb_spec size 0); [done|]. destruct (Nat.leb_spec size (length input)); [done|lia].
Qed.

Lemma convert_issue_type_spec_witness :
  exists out,
    rrd_logproc_convert_issue_type (Some #"Device.Info_ab-1;") true 64 = (0%Z, Some out) /\
    out = #"DEVICE_INFO_AB-1".
Proof.
  destruct (proj1 (convert_issue_type_spec #"Device.Info_ab-1;" 64)) as (out & H & Ho & _); [vm_compute; lia|].
  exists out. split; [done|]. rewrite Ho. vm_compute. reflexivity.
Defined.
