(* ===== verification/Archive.v ===== *)
(** * Archive: the tar writer (src/rrd_archive.c)

    The report directory is written as a gzip compressed ustar archive.  The
    model produces the bytes handed to zlib, in the order of the [gzwrite]
    calls.  A reference ustar reader ([untar]) states what a correct archive
    is; it is a specification, not code of the repository. *)

From S2P Require Import Prelude OS.

Local Open Scope Z_scope.

Definition zeros (n : nat) : bytes := replicate n 0.

(** A [char] array of [n] bytes that was zeroed and received the bytes [s]. *)
Definition cfield (n : nat) (s : bytes) : bytes := take n (s ++ zeros n).

(** [printf("%0<w>o", v)] for a non-negative [v]: at least [w] octal digits. *)
Fixpoint oct_digits (n : nat) (v : Z) : bytes :=
  match n with
  | O => []
  | S n' => oct_digits n' (v / 8) ++ [48 + v mod 8]
  end.

Definition printf_octal (w : nat) (v : Z) : bytes :=
  oct_digits (Nat.max w (Z.to_nat (Z.log2 v / 3) + 1)) v.

(** ** struct posix_header *)

Record posix_header := PosixHeader {
  h_name : bytes; h_mode : bytes; h_uid : bytes; h_gid : bytes; h_size : bytes;
  h_mtime : bytes; h_chksum : bytes; h_typeflag : bytes; h_linkname : bytes;
  h_magic : bytes; h_version : bytes; h_uname : bytes; h_gname : bytes;
  h_devmajor : bytes; h_devminor : bytes; h_prefix : bytes; h_padding : bytes }.

Definition header_fields (h : posix_header) : list bytes :=
  [h_name h; h_mode h; h_uid h; h_gid h; h_size h; h_mtime h; h_chksum h; h_typeflag h;
   h_linkname h; h_magic h; h_version h; h_uname h; h_gname h; h_devmajor h; h_devminor h;
   h_prefix h; h_padding h].

(** The memory of the structure. *)
Definition header_bytes (h : posix_header) : bytes := mjoin (header_fields h).

Definition field_sizes : list nat :=
  [100; 8; 8; 8; 12; 12; 8; 1; 100; 6; 2; 32; 32; 8; 8; 155; 12]%nat.

Definition calculate_checksum (block : bytes) : Z := foldr Z.add 0 block mod 2 ^ 32.

(** ** Writing blocks *)

Section Writer.
Context `{OS}.

Definition write_block (buf : bytes) : M Z :=
  written ← sys_gzwrite buf;
  if negb (written =? Z.of_nat (length buf)) then mret (-1) else mret 0.

(** Chunks of at most 512 zero bytes; each is not empty, so [size] is enough
    fuel. *)
Fixpoint write_zeros_loop (fuel size : nat) : M Z :=
  match fuel, size with
  | S fuel', S _ =>
      let chunk := Nat.min size 512 in
      r ← write_block (zeros chunk);
      if negb (r =? 0) then mret (-1) else write_zeros_loop fuel' (size - chunk)
  | _, _ => mret 0
  end.

Definition write_zeros (size : nat) : M Z := write_zeros_loop size size.

(** ** write_tar_header *)

(** The name and prefix fields; [None] when the name is too long. *)
Definition name_fields (name : cstr) : option (bytes * bytes) :=
  let name_len := length name in
  if (name_len <=? 100)%nat then Some (cfield 100 (bytes_of (take 99 name)), zeros 155)
  else if (name_len <=? 255)%nat then
    let prefix_len := (name_len - 100 - 1)%nat in
    if (155 <? prefix_len)%nat then None
    else Some (cfield 100 (bytes_of (take 99 (drop (prefix_len + 1) name))),
               cfield 155 (bytes_of (take (if (prefix_len <? 155)%nat then prefix_len else 154) name)))
  else None.

Definition SPACES : bytes := replicate 8 32.
Definition USTAR : bytes := bytes_of #"ustar" ++ [0].

(** [snprintf] into an array of [n] bytes. *)
Definition snprintf_field (n : nat) (text : bytes) : bytes := cfield n (take (n - 1) text).

(** The header before the checksum is known; an array the code does not
    assign stays zero. *)
Definition build_header (np : bytes * bytes) (st : stat) (typeflag : Z) (chksum : bytes) : posix_header := {|
  h_name := np.1;
  h_mode := snprintf_field 8 (printf_octal 7 (Z.land (st_mode st) 0xFFF));
  h_uid := snprintf_field 8 (printf_octal 7 (st_uid st mod 2 ^ 32));
  h_gid := snprintf_field 8 (printf_octal 7 (st_gid st mod 2 ^ 32));
  h_size := snprintf_field 12 (printf_octal 11 (if typeflag =? 53 then 0 else st_size st mod 2 ^ 64));
  h_mtime := snprintf_field 12 (printf_octal 11 (st_mtime st mod 2 ^ 64));
  h_chksum := chksum;
  h_typeflag := [typeflag];
  h_linkname := zeros 100;
  h_magic := USTAR;
  h_version := [48; 48];
  h_uname := match os_getpwuid (st_uid st) with
             | Some n => cfield 32 (bytes_of (take 31 n)) | None => zeros 32 end;
  h_gname := match os_getgrgid (st_gid st) with
             | Some n => cfield 32 (bytes_of (take 31 n)) | None => zeros 32 end;
  h_devmajor := zeros 8;
  h_devminor := zeros 8;
  h_prefix := np.2;
  h_padding := zeros 12 |}.

(** The header as it is written: the checksum is computed with the checksum
    field set to blanks, then printed as six digits and a blank. *)
Definition tar_header (np : bytes * bytes) (st : stat) (typeflag : Z) : posix_header :=
  let csum := calculate_checksum (header_bytes (build_header np st typeflag SPACES)) in
  build_header np st typeflag (snprintf_field 8 (printf_octal 6 csum ++ [32])).

Definition write_tar_header (name : cstr) (st : stat) (typeflag : Z) : M Z :=
  match name_fields name with
  | None => mret (-1)
  | Some np =>
      r ← write_block (header_bytes (tar_header np st typeflag));
      if negb (r =? 0) then mret (-1) else mret 0
  end.

(** ** write_file_contents *)

(** The read loop: [None] when it ran to the end of the reads. *)
Fixpoint copy_chunks (chunks : list bytes) : M (option Z) :=
  match chunks with
  | [] => mret None
  | b :: chunks' =>
      n ← sys_gzwrite b;
      if negb (n =? Z.of_nat (length b)) then mret (Some (-1)) else copy_chunks chunks'
  end.

Definition write_file_contents (path : cstr) (st : stat) : M Z :=
  fd ← sys_open path;
  match fd with
  | None => mret (-1)
  | Some (chunks, at_end) =>
      ok ← malloc;
      if negb ok then mret (-1) else
      r ← copy_chunks chunks;
      match r with
      | Some e => mret e
      | None =>
          if negb at_end then mret (-1) else
          let pad := Z.rem (512 - Z.rem (st_size st) 512) 512 in
          if negb (pad =? 0) then
            z ← write_zeros (Z.to_nat pad);
            if negb (z =? 0) then mret (-1) else mret 0
          else mret 0
      end
  end.

(** ** archive_path_recursive *)

Definition DIRTYPE : Z := 53.  (* '5' *)
Definition REGTYPE : Z := 48.  (* '0' *)

Definition dot_entry (d_name : cstr) : bool := streq d_name #"." || streq d_name #"..".

(** The loop over the directory entries; [rec] is the recursive call. *)
Fixpoint archive_entries (rec : cstr -> M Z) (source_root current_relpath : cstr) (names : list cstr) : M Z :=
  match names with
  | [] => mret 0
  | d_name :: names' =>
      if dot_entry d_name then archive_entries rec source_root current_relpath names' else
      ok1 ← malloc;
      ok2 ← malloc;
      if negb (ok1 && ok2) then mret (-1) else
      let relname := take (Z.to_nat 8191) (match current_relpath with
                                | [] => d_name
                                | _ => current_relpath ++ #"/" ++ d_name
                                end) in
      let childpath := take (Z.to_nat 16383) (source_root ++ #"/" ++ relname) in
      st ← sys_lstat childpath;
      match st with
      | None => mret (-1)
      | Some st =>
          if S_ISDIR st then
            h ← write_tar_header (take (Z.to_nat 8199) (relname ++ #"/")) st DIRTYPE;
            if negb (h =? 0) then mret (-1) else
            r ← rec relname;
            if negb (r =? 0) then mret (-1) else
            archive_entries rec source_root current_relpath names'
          else if S_ISREG st then
            h ← write_tar_header relname st REGTYPE;
            if negb (h =? 0) then mret (-1) else
            c ← write_file_contents childpath st;
            if negb (c =? 0) then mret (-1) else
            archive_entries rec source_root current_relpath names'
          else archive_entries rec source_root current_relpath names'
      end
  end.

Definition join_path (source_root relpath : cstr) : cstr :=
  match relpath with [] => source_root | _ => source_root ++ #"/" ++ relpath end.

Fixpoint archive_path_recursive (fuel : nat) (source_root current_relpath : cstr) : M Z :=
  match fuel with
  | O => mfault OutOfFuel
  | S fuel' =>
      if 8192 <=? Z.of_nat (length source_root + 1 + length current_relpath + 1) then mret (-1) else
      let fullpath := take (Z.to_nat 8191) (join_path source_root current_relpath) in
      d ← sys_readdir fullpath;
      match d with
      | None =>
          st ← sys_lstat fullpath;
          match st with
          | None => mret (-1)
          | Some st =>
              h ← write_tar_header current_relpath st REGTYPE;
              if negb (h =? 0) then mret (-1) else
              if S_ISREG st then
                c ← write_file_contents fullpath st;
                if negb (c =? 0) then mret (-1) else mret 0
              else mret 0
          end
      | Some names => archive_entries (archive_path_recursive fuel' source_root) source_root current_relpath names
      end
  end.

(** A relative path grows by at least one character with each level and is
    refused from 8190 characters on, so this fuel is never used up
    ([archive_never_out_of_fuel]). *)
Definition archive_fuel : nat := Z.to_nat 8193.

(** ** rrd_archive_create *)

(** [strrchr(path, '/')]: the text after the last slash. *)
Definition basename (path : cstr) : cstr :=
  match strchr (rev path) "/" with
  | Some n => drop (length path - n) path
  | None => path
  end.

Definition archive_outpath (working_dir : option cstr) (archive_filename : cstr) : cstr :=
  take (Z.to_nat 8191) (match working_dir with
                        | Some ((_ :: _) as wd) => wd ++ #"/" ++ archive_filename
                        | _ => archive_filename
                        end).

Definition rrd_archive_create (source_dir working_dir archive_filename : option cstr) : M Z :=
  match source_dir, archive_filename with
  | Some source_dir, Some archive_filename =>
      let outpath := archive_outpath working_dir archive_filename in
      out ← sys_gzopen outpath;
      if negb out then mret (-2) else
      stroot ← sys_lstat source_dir;
      match stroot with
      | None => _ ← sys_gzclose; mret (-2)
      | Some stroot =>
          if negb (S_ISDIR stroot) && negb (S_ISREG stroot) then _ ← sys_gzclose; mret (-2) else
          rc ← (if S_ISDIR stroot then archive_path_recursive archive_fuel source_dir []
                else h ← write_tar_header (basename source_dir) stroot REGTYPE;
                     if negb (h =? 0) then mret (-1) else
                     c ← write_file_contents source_dir stroot;
                     if negb (c =? 0) then mret (-1) else mret 0);
          rc ← (if rc =? 0 then
                  z1 ← write_zeros 512;
                  z2 ← write_zeros 512;
                  mret (if negb (z1 =? 0) || negb (z2 =? 0) then -1 else rc)
                else mret rc);
          _ ← sys_gzclose;
          st ← sys_stat outpath;
          match st with
          | None => mret (-3)
          | Some st =>
              if st_size st =? 0 then mret (-3) else
              if rc =? 0 then mret 0 else mret (-2)
          end
      end
  | _, _ => mret (-1)
  end.

(** ** rrd_archive_generate_filename and rrd_archive_cleanup *)

(** Status and the buffer after the call, when it was written. *)
Definition rrd_archive_generate_filename (mac issue_type timestamp : option cstr) (filename : bool) (size : nat)
    : Z * option cstr :=
  match mac, issue_type, timestamp with
  | Some mac, Some issue_type, Some timestamp =>
      if negb filename || (size <? 128)%nat then (-1, None) else
      let text := mac ++ #"_" ++ issue_type ++ #"_" ++ timestamp ++ #"_RRD_DEBUG_LOGS.tgz" in
      if (size <=? length text)%nat then (-1, Some (take (size - 1) text)) else (0, Some text)
  | _, _, _ => (-1, None)
  end.

Definition rrd_archive_cleanup (archive_path : option cstr) : M Z :=
  match archive_path with
  | None => mret (-1)
  | Some p => r ← sys_remove p; if (r : bool) then mret 0 else mret (-2)
  end.
End Writer.


(** ** A reference reader of ustar archives

    What a conforming reader gets from the bytes: the header is cut into its
    fields, its magic and its checksum are checked, the numbers are read in
    octal, and the content is followed by the padding to the next block. *)

Fixpoint cut (lens : list nat) (b : bytes) : list bytes :=
  match lens with
  | [] => []
  | n :: lens' => take n b :: cut lens' (drop n b)
  end.

Definition sum_bytes (b : bytes) : Z := foldr Z.add 0 b.

Fixpoint until_nul (b : bytes) : bytes :=
  match b with
  | [] => []
  | x :: b' => if x =? 0 then [] else x :: until_nul b'
  end.

(** Octal digits up to the first other character. *)
Fixpoint read_octal (acc : Z) (b : bytes) : Z :=
  match b with
  | [] => acc
  | x :: b' => if (48 <=? x) && (x <=? 55) then read_octal (8 * acc + (x - 48)) b' else acc
  end.

Definition text_of (b : bytes) : cstr := char_of <$> until_nul b.

Record member := Member {
  m_name : cstr; m_type : Z; m_mode : Z; m_uid : Z; m_gid : Z; m_mtime : Z; m_content : bytes }.

(** The header of a member and the size of its content. *)
Definition read_header (b : bytes) : option (member * Z) :=
  match cut field_sizes b with
  | [name; mode; uid; gid; size; mtime; chksum; typeflag; linkname; magic; version;
     uname; gname; devmajor; devminor; prefix; padding] =>
      let sum := sum_bytes (mjoin [name; mode; uid; gid; size; mtime; SPACES; typeflag; linkname;
                   magic; version; uname; gname; devmajor; devminor; prefix; padding]) in
      if bool_decide (length b = 512%nat) && bool_decide (magic = USTAR) && (read_octal 0 chksum =? sum)
      then Some (Member (match text_of prefix with
                         | [] => text_of name
                         | p => p ++ #"/" ++ text_of name
                         end)
                        (nth 0 typeflag 0) (read_octal 0 mode) (read_octal 0 uid) (read_octal 0 gid)
                        (read_octal 0 mtime) [], read_octal 0 size)
      else None
  | _ => None
  end.

Definition padding_of (size : Z) : Z := (512 - size mod 512) mod 512.

Fixpoint untar_loop (fuel : nat) (b : bytes) : option (list member) :=
  match fuel with
  | O => None
  | S fuel' =>
      if bool_decide (take 512 b = zeros 512) then Some [] else
      '(m, size) ← read_header (take 512 b);
      let rest := drop 512 b in
      let n := Z.to_nat size in
      if (length rest <? n)%nat then None else
      ms ← untar_loop fuel' (drop (n + Z.to_nat (padding_of size)) rest);
      Some (Member (m_name m) (m_type m) (m_mode m) (m_uid m) (m_gid m) (m_mtime m) (take n rest) :: ms)
  end.

Definition untar (b : bytes) : option (list member) := untar_loop (length b) b.

(** The bytes handed to zlib by a run, in order. *)
Definition gz_data (evs : trace) : bytes :=
  mjoin (omap (fun e => match e with EvGzwrite d _ => Some d | _ => None end) evs).

(** *** Octal fields *)

Lemma oct_digits_length n v : length (oct_digits n v) = n.
Proof. revert v. induction n as [|n IH]; intros v; [done|]. cbn [oct_digits]. rewrite length_app, IH. cbn. lia. Qed.

Lemma oct_digits_digit n v : Forall (fun x => 48 <= x <= 55) (oct_digits n v).
Proof.
  revert v. induction n as [|n IH]; intros v; cbn [oct_digits]; [done|].
  apply Forall_app. split; [apply IH|]. pose proof (Z.mod_pos_bound v 8 ltac:(lia)). repeat constructor; lia.
Qed.

Lemma read_octal_app acc ds t :
  Forall (fun x => 48 <= x <= 55) ds -> read_octal acc (ds ++ t) = read_octal (read_octal acc ds) t.
Proof.
  intros Hd. revert acc. induction Hd as [|x ds Hx Hd IH]; intros acc; [done|].
  cbn [read_octal app]. replace (48 <=? x) with true by lia. replace (x <=? 55) with true by lia. apply IH.
Qed.

Lemma read_oct_digits n acc v : 0 <= v < 8 ^ Z.of_nat n ->
  read_octal acc (oct_digits n v) = acc * 8 ^ Z.of_nat n + v.
Proof.
  revert acc v. induction n as [|n IH]; intros acc v Hv.
  - cbn in *. lia.
  - rewrite Nat2Z.inj_succ, Z.pow_succ_r in * by lia.
    cbn [oct_digits]. rewrite read_octal_app by apply oct_digits_digit.
    rewrite IH by (split; [apply Z.div_pos; lia | apply Z.div_lt_upper_bound; lia]).
    cbn [read_octal]. pose proof (Z.mod_pos_bound v 8 ltac:(lia)). pose proof (Z.div_mod v 8 ltac:(lia)).
    replace (48 <=? 48 + v mod 8) with true by lia. replace (48 + v mod 8 <=? 55) with true by lia. cbn [andb]. lia.
Qed.

Lemma printf_octal_width w v : (0 < w)%nat -> 0 <= v < 8 ^ Z.of_nat w -> printf_octal w v = oct_digits w v.
Proof.
  intros Hw Hv. unfold printf_octal. f_equal.
  destruct (decide (v = 0)) as [->|Hz].
  { change (Z.to_nat (Z.log2 0 / 3)) with 0%nat. lia. }
  assert (Z.log2 v < 3 * Z.of_nat w) as Hl.
  { apply Z.log2_lt_pow2; [lia|]. rewrite Z.pow_mul_r by lia. change (2 ^ 3) with 8. lia. }
  assert (Z.log2 v / 3 < Z.of_nat w) by (apply Z.div_lt_upper_bound; lia).
  pose proof (Z.log2_nonneg v). assert (0 <= Z.log2 v / 3) by (apply Z.div_pos; lia). lia.
Qed.

(** An octal number that fits its field is read back; [t] is what follows. *)
Lemma read_octal_field (w n : nat) v : (0 < w)%nat -> n = S w -> 0 <= v < 8 ^ Z.of_nat w ->
  read_octal 0 (snprintf_field n (printf_octal w v)) = v.
Proof.
  intros Hw -> Hv. unfold snprintf_field, cfield. rewrite printf_octal_width by done.
  rewrite (take_ge (oct_digits w v)) by (rewrite oct_digits_length; lia).
  rewrite take_app, oct_digits_length. rewrite take_ge by (rewrite oct_digits_length; lia).
  rewrite read_octal_app by apply oct_digits_digit. rewrite read_oct_digits by done.
  replace (S w - w)%nat with 1%nat by lia. cbn. lia.
Qed.

(** *** The header *)

Lemma cfield_length n s : length (cfield n s) = n.
Proof. unfold cfield, zeros. rewrite length_take, length_app, length_replicate. lia. Qed.

Lemma zeros_length n : length (zeros n) = n.
Proof. apply length_replicate. Qed.

Lemma snprintf_field_length n s : length (snprintf_field n s) = n.
Proof. apply cfield_length. Qed.

Create HintDb archive discriminated.
#[export] Hint Resolve cfield_length zeros_length snprintf_field_length : archive.

Lemma name_fields_length name np : name_fields name = Some np -> length np.1 = 100%nat /\ length np.2 = 155%nat.
Proof. unfold name_fields. intros. case_all; split; auto with archive. Qed.

Lemma header_field_lengths `{OS} name np st tf csum :
  name_fields name = Some np -> length csum = 8%nat ->
  Forall2 (fun n f => length f = n) field_sizes (header_fields (build_header np st tf csum)).
Proof.
  intros [Hn Hp]%name_fields_length Hc. unfold build_header, header_fields, field_sizes. cbn [h_name h_mode h_uid
    h_gid h_size h_mtime h_chksum h_typeflag h_linkname h_magic h_version h_uname h_gname h_devmajor h_devminor
    h_prefix h_padding].
  repeat constructor; auto with archive; case_match; auto with archive.
Qed.

Lemma cut_mjoin lens fs t : Forall2 (fun n f => length f = n) lens fs -> cut lens (mjoin fs ++ t) = fs.
Proof.
  induction 1 as [|n f lens fs Hf _ IH]; [done|]. change (mjoin (f :: fs)) with (f ++ mjoin fs). cbn [cut].
  rewrite <- app_assoc, take_app_length', drop_app_length' by done. by rewrite IH.
Qed.

Lemma mjoin_lengths {A} lens (fs : list (list A)) :
  Forall2 (fun n f => length f = n) lens fs -> length (mjoin fs) = foldr Nat.add 0%nat lens.
Proof. induction 1 as [|n f lens fs Hf _ IH]; [done|]. change (mjoin (f :: fs)) with (f ++ mjoin fs). cbn [foldr]. rewrite length_app. lia. Qed.

Definition byte_range (b : bytes) : Prop := Forall (fun x => 0 <= x <= 255) b.

Lemma bytes_of_range s : byte_range (bytes_of s).
Proof.
  unfold byte_range, bytes_of. rewrite Forall_fmap. apply Forall_true. intros c. unfold compose, byte_of, code.
  pose proof (nat_ascii_bounded c). lia.
Qed.

Lemma zeros_range n : byte_range (zeros n).
Proof. apply Forall_replicate. lia. Qed.

Lemma cfield_range n s : byte_range s -> byte_range (cfield n s).
Proof. intros Hs. apply Forall_take, Forall_app. split; [done|apply zeros_range]. Qed.

Lemma printf_octal_range w v : byte_range (printf_octal w v).
Proof. unfold byte_range, printf_octal. eapply Forall_impl; [|apply oct_digits_digit]. cbn. intros; lia. Qed.

Lemma snprintf_field_range n s : byte_range s -> byte_range (snprintf_field n s).
Proof. intros Hs. apply cfield_range, Forall_take, Hs. Qed.

#[export] Hint Resolve bytes_of_range zeros_range cfield_range printf_octal_range snprintf_field_range : archive.

Lemma name_fields_range name np : name_fields name = Some np -> byte_range np.1 /\ byte_range np.2.
Proof. unfold name_fields. intros. case_all; split; auto with archive. Qed.

Lemma header_byte_range `{OS} name np st tf csum :
  name_fields name = Some np -> byte_range csum -> 0 <= tf <= 255 ->
  byte_range (header_bytes (build_header np st tf csum)).
Proof.
  intros [Hn Hp]%name_fields_range Hc Ht. unfold header_bytes. apply Forall_join.
  unfold build_header, header_fields. cbn [h_name h_mode h_uid
    h_gid h_size h_mtime h_chksum h_typeflag h_linkname h_magic h_version h_uname h_gname h_devmajor h_devminor
    h_prefix h_padding].
  assert (byte_range USTAR) by (vm_compute; repeat constructor; discriminate).
  assert (byte_range [48; 48]) by (repeat constructor; lia).
  assert (byte_range [tf]) by (repeat constructor; lia).
  match goal with |- Forall _ ?l => change (Forall byte_range l) end.
  repeat match goal with |- Forall byte_range _ => constructor end; auto with archive;
    case_match; auto with archive.
Qed.

Lemma sum_bytes_bound b : byte_range b -> 0 <= sum_bytes b <= 255 * Z.of_nat (length b).
Proof. induction 1 as [|x b Hx Hb IH]; cbn [sum_bytes foldr length]; [lia|]. unfold sum_bytes in IH. lia. Qed.

Lemma calculate_checksum_sum b : byte_range b -> (length b <= 512)%nat ->
  calculate_checksum b = sum_bytes b /\ 0 <= sum_bytes b < 8 ^ 6.
Proof.
  intros Hb%sum_bytes_bound Hl. unfold calculate_checksum. change (foldr Z.add 0 b) with (sum_bytes b).
  split; [apply Z.mod_small|]; lia.
Qed.

Lemma header_length `{OS} name np st tf csum :
  name_fields name = Some np -> length csum = 8%nat ->
  length (header_bytes (build_header np st tf csum)) = 512%nat.
Proof. intros Hn Hc. unfold header_bytes. by rewrite (mjoin_lengths field_sizes) by eauto using header_field_lengths. Qed.

(** *** Reading a header back *)

Definition NUL : ascii := ascii_of_nat 0.

Lemma char_of_byte_of c : char_of (byte_of c) = c.
Proof. unfold char_of, byte_of, code. rewrite Nat2Z.id. apply ascii_nat_embedding. Qed.

Lemma byte_of_zero c : byte_of c = 0 -> c = NUL.
Proof. intros Hc. rewrite <- (char_of_byte_of c), Hc. done. Qed.

Lemma text_of_zeros n : text_of (zeros n) = [].
Proof. by destruct n. Qed.

Lemma text_of_app s t : NUL ∉ s -> text_of (bytes_of s ++ t) = s ++ text_of t.
Proof.
  intros Hs. induction s as [|c s IH]; [done|].
  assert (byte_of c <> 0) as Hc by (intros ->%byte_of_zero; set_solver).
  unfold text_of. change (bytes_of (c :: s)) with (byte_of c :: bytes_of s). cbn [app until_nul].
  rewrite (proj2 (Z.eqb_neq _ _) Hc). cbn [fmap list_fmap]. rewrite char_of_byte_of. f_equal.
  apply IH. set_solver.
Qed.

Lemma text_of_cfield n s : (length s <= n)%nat -> NUL ∉ s -> text_of (cfield n (bytes_of s)) = s.
Proof.
  intros Hl Hs. unfold cfield. rewrite take_app. unfold bytes_of at 1.
  rewrite take_ge by (rewrite length_fmap; lia). fold (bytes_of s).
  rewrite text_of_app by done. unfold zeros. rewrite take_replicate.
  fold (zeros ((n - length (bytes_of s)) `min` n)). rewrite text_of_zeros. apply app_nil_r.
Qed.

(** The name a reader finds in a header: the name itself up to 99
    characters; beyond, the last character of the name is lost and the
    character at the cut is replaced with a slash. *)
Definition stored_name (name : cstr) : cstr :=
  let n := length name in
  if (n <=? 100)%nat then take 99 name
  else match take (n - 101) name with
       | [] => take 99 (drop 1 name)
       | p => p ++ #"/" ++ take 99 (drop (n - 100) name)
       end.

Lemma elem_of_drop_in {A} (x : A) n l : x ∈ drop n l -> x ∈ l.
Proof. intros Hx. rewrite <- (take_drop n l). apply elem_of_app. by right. Qed.

Lemma name_fields_text name np : name_fields name = Some np -> NUL ∉ name ->
  (match text_of np.2 with [] => text_of np.1 | p => p ++ #"/" ++ text_of np.1 end) = stored_name name.
Proof.
  intros Hnp Hnul. unfold name_fields, stored_name in *.
  assert (forall n, NUL ∉ take n name) as Ht by (intros n Hin; by apply elem_of_take_in in Hin).
  assert (forall n m, NUL ∉ take n (drop m name)) as Htd.
  { intros n m Hin. by apply elem_of_take_in, elem_of_drop_in in Hin. }
  destruct (length name <=? 100)%nat eqn:E1.
  { injection Hnp as <-. cbn [fst snd]. rewrite text_of_zeros. apply text_of_cfield; [rewrite length_take; lia|done]. }
  destruct (length name <=? 255)%nat eqn:E2; [|done].
  destruct (155 <? length name - 100 - 1)%nat eqn:E3; [done|]. injection Hnp as <-. cbn [fst snd].
  replace (length name - 100 - 1)%nat with (length name - 101)%nat in * by lia.
  replace (length name - 101 + 1)%nat with (length name - 100)%nat by lia.
  replace (length name - 101 <? 155)%nat with true by lia.
  rewrite !text_of_cfield by (done || rewrite length_take; lia).
  destruct (take (length name - 101) name) eqn:E4; [|done].
  apply (f_equal length) in E4. rewrite length_take in E4. cbn in E4.
  by replace (length name - 100)%nat with 1%nat by lia.
Qed.

Lemma name_fields_none name : name_fields name = None <-> (255 < length name)%nat.
Proof.
  unfold name_fields. destruct (length name <=? 100)%nat eqn:E1; [split; [done|lia]|].
  destruct (length name <=? 255)%nat eqn:E2; [|split; [lia|done]].
  destruct (155 <? length name - 100 - 1)%nat eqn:E3; split; (done || lia).
Qed.

Lemma stored_name_eq name : (length name <= 255)%nat -> stored_name name = name <-> (length name < 100)%nat.
Proof.
  intros Hl. unfold stored_name. split.
  - intros E. apply (f_equal length) in E. destruct (length name <=? 100)%nat eqn:E1.
    { rewrite length_take in E. lia. }
    destruct (take (length name - 101) name) eqn:E2.
    { rewrite length_take in E. lia. }
    rewrite <- E2, !length_app, !length_take, length_drop in E. change (length #"/") with 1%nat in E. lia.
  - intros Hn. replace (length name <=? 100)%nat with true by lia. apply take_ge. lia.
Qed.

(** The numbers of a [stat] that fit the octal fields. *)
Definition stat_fits (st : stat) : Prop :=
  0 <= st_uid st < 8 ^ 7 /\ 0 <= st_gid st < 8 ^ 7 /\ 0 <= st_size st < 8 ^ 11 /\ 0 <= st_mtime st < 8 ^ 11.

Definition header_size (st : stat) (typeflag : Z) : Z := if typeflag =? DIRTYPE then 0 else st_size st.

Definition header_member (name : cstr) (st : stat) (typeflag : Z) (content : bytes) : member :=
  Member (stored_name name) typeflag (Z.land (st_mode st) 0xFFF) (st_uid st) (st_gid st) (st_mtime st) content.

Lemma land_mode_bound m : 0 <= Z.land m 0xFFF < 8 ^ 7.
Proof.
  change 0xFFF with (Z.ones 12). rewrite Z.land_ones by lia.
  pose proof (Z.mod_pos_bound m (2 ^ 12) ltac:(lia)). lia.
Qed.

Lemma checksum_field csum : 0 <= csum < 8 ^ 6 ->
  read_octal 0 (snprintf_field 8 (printf_octal 6 csum ++ [32])) = csum.
Proof.
  intros Hc. unfold snprintf_field. rewrite printf_octal_width by (cbn; lia).
  rewrite take_ge by (rewrite length_app, oct_digits_length; cbn; lia).
  unfold cfield. rewrite take_app, length_app, oct_digits_length.
  rewrite take_ge by (rewrite length_app, oct_digits_length; cbn; lia).
  rewrite <- app_assoc, read_octal_app, read_oct_digits by (done || apply oct_digits_digit). cbn. lia.
Qed.

Lemma checksum_blanks_range : byte_range SPACES.
Proof. apply Forall_replicate. lia. Qed.

Lemma tar_header_length `{OS} name np st tf :
  name_fields name = Some np -> length (header_bytes (tar_header np st tf)) = 512%nat.
Proof. intros Hn. apply (header_length name); auto with archive. Qed.

Lemma tar_header_checksum `{OS} name np st tf :
  name_fields name = Some np -> 0 <= tf <= 255 ->
  let blanked := header_bytes (build_header np st tf SPACES) in
  calculate_checksum blanked = sum_bytes blanked /\ 0 <= sum_bytes blanked < 8 ^ 6.
Proof.
  intros Hn Ht. apply calculate_checksum_sum.
  - eapply header_byte_range; eauto using checksum_blanks_range.
  - rewrite (header_length name); auto.
Qed.

(** The reader accepts every header the writer builds, and reads the fields
    back. *)
Lemma tar_header_read `{OS} name np st tf :
  name_fields name = Some np -> NUL ∉ name -> 0 <= tf <= 255 -> stat_fits st ->
  read_header (header_bytes (tar_header np st tf)) = Some (header_member name st tf [], header_size st tf).
Proof.
  intros Hn Hnul Ht (Hu & Hg & Hs & Hm).
  pose proof (tar_header_checksum name np st tf Hn Ht) as [Hc Hb]. cbv zeta in Hc, Hb.
  pose proof (tar_header_length name np st tf Hn) as Hl.
  unfold read_header. rewrite (bool_decide_true _ Hl).
  assert (cut field_sizes (header_bytes (tar_header np st tf)) = header_fields (tar_header np st tf)) as ->.
  { unfold header_bytes. rewrite <- (app_nil_r (mjoin _)). apply cut_mjoin.
    eapply header_field_lengths; eauto with archive. }
  unfold tar_header in *.
  set (blanked := header_bytes (build_header np st tf SPACES)) in *.
  set (csum := snprintf_field 8 _).
  cbn [header_fields build_header h_name h_mode h_uid h_gid h_size h_mtime h_chksum h_typeflag h_linkname
       h_magic h_version h_uname h_gname h_devmajor h_devminor h_prefix h_padding].
  match goal with |- context [sum_bytes ?b] => change b with blanked end.
  subst csum. rewrite Hc, checksum_field, Z.eqb_refl by done.
  rewrite bool_decide_true by done. cbn [andb nth].
  rewrite (name_fields_text name) by done.
  rewrite (read_octal_field 7 8) by (done || lia || apply land_mode_bound).
  rewrite !Z.mod_small by lia.
  rewrite !(read_octal_field 7 8), !(read_octal_field 11 12) by (done || lia || (case_match; lia)).
  done.
Qed.

(** The two zero blocks that end an archive are not a header. *)
Lemma header_not_zeros b m : read_header b = Some m -> b <> zeros 512.
Proof. intros Hr ->. vm_compute in Hr. discriminate. Qed.

(** ** Archive members *)

Record item := Item { i_name : cstr; i_stat : stat; i_type : Z; i_content : bytes }.

Definition item_bytes `{OS} (it : item) : bytes :=
  match name_fields (i_name it) with
  | Some np => header_bytes (tar_header np (i_stat it) (i_type it)) ++ i_content it
               ++ zeros (Z.to_nat (padding_of (Z.of_nat (length (i_content it)))))
  | None => []
  end.

Definition item_member (it : item) : member := header_member (i_name it) (i_stat it) (i_type it) (i_content it).

(** A member whose header the format can hold and whose content has the size
    that the header announces. *)
Definition item_ok (it : item) : Prop :=
  NUL ∉ i_name it /\ (length (i_name it) <= 255)%nat /\ 0 <= i_type it <= 255 /\ stat_fits (i_stat it) /\
  header_size (i_stat it) (i_type it) = Z.of_nat (length (i_content it)).

Lemma padding_of_bound n : 0 <= padding_of n < 512.
Proof. apply Z.mod_pos_bound. lia. Qed.

Lemma item_name_fields it : item_ok it -> exists np, name_fields (i_name it) = Some np.
Proof.
  intros (_ & Hl & _). destruct (name_fields (i_name it)) eqn:E; [by eexists|].
  apply name_fields_none in E. lia.
Qed.

Lemma untar_item `{OS} fuel it rest : item_ok it ->
  untar_loop (S fuel) (item_bytes it ++ rest) = (fun ms => item_member it :: ms) <$> untar_loop fuel rest.
Proof.
  intros Hok. destruct (item_name_fields _ Hok) as [np Hnp].
  destruct Hok as (Hnul & Hl & Ht & Hst & Hsize).
  unfold item_bytes. rewrite Hnp. set (h := header_bytes _).
  assert (length h = 512%nat) as Hh by (apply (tar_header_length (i_name it)); done).
  assert (read_header h = Some (header_member (i_name it) (i_stat it) (i_type it) [], header_size (i_stat it) (i_type it)))
    as Hr by (apply tar_header_read; done).
  rewrite <- !app_assoc. cbn [untar_loop]. rewrite take_app_length', drop_app_length' by done.
  rewrite bool_decide_false by (eapply header_not_zeros; eauto).
  rewrite Hr. cbn [mbind option_bind]. rewrite Hsize, Nat2Z.id.
  set (content := i_content it). set (pad := zeros _).
  replace (length (content ++ pad ++ rest) <? length content)%nat with false by (rewrite length_app; lia).
  rewrite take_app_length, <- drop_drop, drop_app_length.
  rewrite drop_app_length' by (unfold pad; by rewrite zeros_length).
  by destruct (untar_loop fuel rest).
Qed.

Lemma untar_end fuel : untar_loop (S fuel) (zeros 1024) = Some [].
Proof. cbn [untar_loop]. by rewrite bool_decide_true. Qed.

Lemma untar_items `{OS} items : Forall item_ok items ->
  forall fuel, (length items < fuel)%nat ->
  untar_loop fuel (mjoin (item_bytes <$> items) ++ zeros 1024) = Some (item_member <$> items).
Proof.
  induction 1 as [|it items Hit Hitems IH]; intros [|fuel] Hf; cbn [length] in Hf; try lia.
  - apply untar_end.
  - change (mjoin (item_bytes <$> it :: items)) with (item_bytes it ++ mjoin (item_bytes <$> items)).
    rewrite <- app_assoc, untar_item, IH by (done || lia). done.
Qed.

Lemma item_bytes_length `{OS} it : item_ok it -> (512 <= length (item_bytes it))%nat.
Proof.
  intros Hok. destruct (item_name_fields _ Hok) as [np Hnp]. unfold item_bytes. rewrite Hnp, length_app.
  rewrite (tar_header_length (i_name it)) by done. lia.
Qed.

Lemma items_bytes_length `{OS} items : Forall item_ok items ->
  (length items <= length (mjoin (item_bytes <$> items)))%nat.
Proof.
  induction 1 as [|it items Hit%item_bytes_length Hitems IH]; [done|].
  change (mjoin (item_bytes <$> it :: items)) with (item_bytes it ++ mjoin (item_bytes <$> items)).
  rewrite length_app. cbn [length]. lia.
Qed.

Lemma untar_archive `{OS} items : Forall item_ok items ->
  untar (mjoin (item_bytes <$> items) ++ zeros 1024) = Some (item_member <$> items).
Proof.
  intros Hi. apply untar_items; [done|]. rewrite length_app, zeros_length.
  pose proof (items_bytes_length items Hi). lia.
Qed.

(** ** Runs of the writer

    [writes m a d]: from every world, [m] returns [a] and hands the bytes [d]
    to zlib. *)

Definition writes {A} (m : M A) (a : A) (d : bytes) : Prop :=
  forall w, exists w' evs, m w = Ret a w' /\ w_trace w' = w_trace w ++ evs /\ gz_data evs = d.

Lemma gz_data_app e1 e2 : gz_data (e1 ++ e2) = gz_data e1 ++ gz_data e2.
Proof. unfold gz_data. by rewrite omap_app, join_app. Qed.

Lemma writes_ret {A} (a : A) : writes (mret a) a [].
Proof. intros w. exists w, []. by rewrite app_nil_r. Qed.

Lemma writes_bind {A B} (m : M A) (k : A -> M B) a b d1 d2 :
  writes m a d1 -> writes (k a) b d2 -> writes (m ≫= k) b (d1 ++ d2).
Proof.
  intros Hm Hk w. destruct (Hm w) as (w1 & e1 & E1 & T1 & D1). destruct (Hk w1) as (w2 & e2 & E2 & T2 & D2).
  exists w2, (e1 ++ e2). unfold mbind, M_bind. rewrite E1. split; [done|].
  rewrite T2, T1, gz_data_app, D1, D2. by rewrite app_assoc.
Qed.

(** A step that writes nothing. *)
Lemma writes_step {A B} (m : M A) (k : A -> M B) a b d :
  writes m a [] -> writes (k a) b d -> writes (m ≫= k) b d.
Proof. intros Hm Hk. change d with ([] ++ d). by eapply writes_bind. Qed.

(** A step after which nothing is written. *)
Lemma writes_last {A B} (m : M A) (k : A -> M B) a b d :
  writes m a d -> writes (k a) b [] -> writes (m ≫= k) b d.
Proof. intros Hm Hk. rewrite <- (app_nil_r d). by eapply writes_bind. Qed.

Lemma writes_ask {A} (f : trace -> A) a : (forall t, f t = a) -> writes (ask f) a [].
Proof. intros Hf w. exists w, []. unfold ask. by rewrite Hf, app_nil_r. Qed.

(** An operating system whose allocations and archive writes succeed. *)
Record reliable (O : OS) : Prop := {
  rel_malloc : forall n, os_malloc n = true;
  rel_gzwrite : forall t d, os_gzwrite t d = Z.of_nat (length d);
}.

Section Reliable.
Context `{O : OS} (R : reliable O).

Lemma writes_malloc : writes malloc true [].
Proof.
  intros w. exists (World (w_trace w) (S (w_allocs w))), []. unfold malloc. by rewrite (rel_malloc _ R), app_nil_r.
Qed.

Lemma writes_gzwrite d : writes (sys_gzwrite d) (Z.of_nat (length d)) d.
Proof.
  intros w. eexists _, [_]. unfold sys_gzwrite, act. rewrite (rel_gzwrite _ R). split_and!; [done|done|].
  unfold gz_data. cbn. apply app_nil_r.
Qed.

Lemma writes_block d : writes (write_block d) 0 d.
Proof.
  unfold write_block. eapply writes_last; [apply writes_gzwrite|].
  rewrite Z.eqb_refl. apply writes_ret.
Qed.

Lemma writes_zeros_loop fuel size : (size <= fuel)%nat -> writes (write_zeros_loop fuel size) 0 (zeros size).
Proof.
  revert size. induction fuel as [|fuel IH]; intros [|size] Hs; cbn [write_zeros_loop]; try (lia || apply writes_ret).
  assert (zeros (S size) = zeros (Nat.min (S size) 512) ++ zeros (S size - Nat.min (S size) 512)) as ->.
  { unfold zeros. rewrite <- replicate_add. f_equal. lia. }
  eapply writes_bind; [apply writes_block|]. apply IH. lia.
Qed.

Lemma writes_zeros n : writes (write_zeros n) 0 (zeros n).
Proof. by apply writes_zeros_loop. Qed.

Lemma writes_header name np st tf : name_fields name = Some np ->
  writes (write_tar_header name st tf) 0 (header_bytes (tar_header np st tf)).
Proof.
  intros Hn. unfold write_tar_header. rewrite Hn.
  eapply writes_last; [apply writes_block|]. apply writes_ret.
Qed.

Lemma writes_chunks chunks : writes (copy_chunks chunks) None (mjoin chunks).
Proof.
  induction chunks as [|b chunks IH]; cbn [copy_chunks]; [apply writes_ret|].
  change (mjoin (b :: chunks)) with (b ++ mjoin chunks).
  eapply writes_bind; [apply writes_gzwrite|]. by rewrite Z.eqb_refl.
Qed.

Lemma writes_contents path st chunks :
  (forall t, os_open t path = Some (chunks, true)) -> st_size st = Z.of_nat (length (mjoin chunks)) ->
  writes (write_file_contents path st) 0 (mjoin chunks ++ zeros (Z.to_nat (padding_of (st_size st)))).
Proof.
  intros Ho Hs. unfold write_file_contents.
  eapply writes_step; [by apply writes_ask|]. eapply writes_step; [apply writes_malloc|]. cbn [negb].
  eapply writes_bind; [apply writes_chunks|]. cbn [negb].
  assert (Z.rem (512 - Z.rem (st_size st) 512) 512 = padding_of (st_size st)) as ->.
  { unfold padding_of. rewrite (Z.rem_mod_nonneg (st_size st)) by lia.
    pose proof (Z.mod_pos_bound (st_size st) 512). rewrite Z.rem_mod_nonneg by lia. done. }
  destruct (Z.eqb_spec (padding_of (st_size st)) 0) as [->|Hp]; cbn [negb]; [apply writes_ret|].
  eapply writes_last; [apply writes_zeros|]. apply writes_ret.
Qed.

(** Header and contents of a regular file. *)
Lemma writes_file_item name st chunks path (k : M Z) d :
  item_ok (Item name st REGTYPE (mjoin chunks)) -> (forall t, os_open t path = Some (chunks, true)) ->
  writes k 0 d ->
  writes (h ← write_tar_header name st REGTYPE;
          if negb (h =? 0) then mret (-1) else
          c ← write_file_contents path st;
          if negb (c =? 0) then mret (-1) else k) 0 (item_bytes (Item name st REGTYPE (mjoin chunks)) ++ d).
Proof.
  intros Hok Ho Hk. destruct (item_name_fields _ Hok) as [np Hnp].
  destruct Hok as (_ & _ & _ & _ & Hsize). unfold item_bytes. cbn [i_name i_stat i_type i_content] in *.
  rewrite Hnp. cbn in Hsize. rewrite <- Hsize, <- app_assoc.
  eapply writes_bind; [by apply writes_header|]. cbn [negb Z.eqb].
  eapply writes_bind; [by apply writes_contents|]. done.
Qed.
End Reliable.

(** ** A file system that does not change, as a tree *)

Inductive fstree :=
| File (st : stat) (chunks : list bytes)
| Dir (st : stat) (entries : list (cstr * fstree))
| Special (st : stat).

Lemma fstree_induction (P : fstree -> Prop) :
  (forall st chunks, P (File st chunks)) ->
  (forall st es, Forall (fun e => P e.2) es -> P (Dir st es)) ->
  (forall st, P (Special st)) -> forall t, P t.
Proof.
  intros HF HD HS. fix IH 1. intros [st chunks|st es|st]; [apply HF| |apply HS].
  apply HD. induction es as [|e es IHes]; constructor; [apply IH|apply IHes].
Qed.

(** What the system answers about [path] is the tree [t], at every moment.
    Paths are short enough for the buffers of the code. *)
Fixpoint served `{OS} (path : cstr) (t : fstree) : Prop :=
  Z.of_nat (length path) < 8190 /\
  match t with
  | File st chunks => S_ISREG st = true /\ (forall tr, os_lstat tr path = Some st) /\
                      (forall tr, os_open tr path = Some (chunks, true))
  | Dir st es =>
      S_ISDIR st = true /\ (forall tr, os_lstat tr path = Some st) /\
      (exists names, (forall tr, os_readdir tr path = Some names) /\
                     List.filter (fun n => negb (dot_entry n)) names = es.*1) /\
      foldr (fun e P => (fst e <> [] /\ served (path ++ #"/" ++ fst e) (snd e)) /\ P) True es
  | Special st => S_ISREG st = false /\ S_ISDIR st = false /\ (forall tr, os_lstat tr path = Some st)
  end.

Definition relname_of (relpath n : cstr) : cstr :=
  match relpath with [] => n | _ => relpath ++ #"/" ++ n end.

(** The members of the archive of a tree: a directory precedes its entries. *)
Fixpoint flatten (relpath : cstr) (t : fstree) : list item :=
  match t with
  | Dir _ es =>
      flat_map (fun e =>
        let relname := relname_of relpath (fst e) in
        match snd e with
        | File st chunks => [Item relname st REGTYPE (mjoin chunks)]
        | Dir st _ => Item (relname ++ #"/") st DIRTYPE [] :: flatten relname (snd e)
        | Special _ => []
        end) es
  | _ => []
  end.

Lemma relname_of_length relpath n : (length n + length relpath <= length (relname_of relpath n))%nat.
Proof. destruct relpath; cbn [relname_of length]; [lia|]. rewrite !length_app. cbn. lia. Qed.

Lemma join_path_relname root relpath n :
  join_path root relpath ++ #"/" ++ n = root ++ #"/" ++ relname_of relpath n.
Proof. destruct relpath; [done|]. cbn [join_path relname_of]. by rewrite <- !app_assoc. Qed.

Lemma join_path_of_relname root relpath n : n <> [] ->
  join_path root (relname_of relpath n) = root ++ #"/" ++ relname_of relpath n.
Proof. intros Hn. unfold join_path. destruct relpath; destruct n; done. Qed.

Lemma reg_not_dir st : S_ISREG st = true -> S_ISDIR st = false.
Proof. unfold S_ISREG, S_ISDIR. intros E%Z.eqb_eq. by rewrite E. Qed.


Lemma filtered_entries es names n :
  List.filter (fun n => negb (dot_entry n)) names = es -> n ∈ es -> dot_entry n = false.
Proof. intros <- [_ Hn]%elem_of_bfilter. by destruct (dot_entry n). Qed.

(** The members of one directory entry. *)
Definition entry_items (relpath : cstr) (e : cstr * fstree) : list item :=
  let relname := relname_of relpath e.1 in
  match e.2 with
  | File st chunks => [Item relname st REGTYPE (mjoin chunks)]
  | Dir st _ => Item (relname ++ #"/") st DIRTYPE [] :: flatten relname e.2
  | Special _ => []
  end.

Lemma flatten_dir relpath st es : flatten relpath (Dir st es) = flat_map (entry_items relpath) es.
Proof. done. Qed.

Definition all_item_bytes `{OS} (items : list item) : bytes := mjoin (item_bytes <$> items).

Lemma all_item_bytes_app `{OS} l1 l2 : all_item_bytes (l1 ++ l2) = all_item_bytes l1 ++ all_item_bytes l2.
Proof. unfold all_item_bytes. by rewrite fmap_app, join_app. Qed.

Section TreeRun.
Context `{O : OS} (R : reliable O) (root : cstr).

(** The recursive call is correct on the sub-directories of [es]. *)
Definition entry_served (rec : cstr -> M Z) (rel : cstr) (e : cstr * fstree) : Prop :=
  e.1 <> [] /\ served (join_path root rel ++ #"/" ++ e.1) e.2 /\
  match e.2 with
  | Dir _ _ => Forall item_ok (flatten (relname_of rel e.1) e.2) ->
               writes (rec (relname_of rel e.1)) 0 (all_item_bytes (flatten (relname_of rel e.1) e.2))
  | _ => True
  end.

Lemma writes_entry rec rel e names d :
  dot_entry e.1 = false -> entry_served rec rel e -> Forall item_ok (entry_items rel e) ->
  writes (archive_entries rec root rel names) 0 d ->
  writes (archive_entries rec root rel (e.1 :: names)) 0 (all_item_bytes (entry_items rel e) ++ d).
Proof.
  intros Hdot (Hne & Hserved & Hrec) Hok Hk. destruct e as [n t]. cbn [fst snd] in *.
  cbn [archive_entries]. rewrite Hdot.
  eapply writes_step; [by apply writes_malloc|]. eapply writes_step; [by apply writes_malloc|]. cbn [andb negb].
  fold (relname_of rel n). rewrite join_path_relname in Hserved.
  assert (Z.of_nat (length (root ++ #"/" ++ relname_of rel n)) < 8190) as Hl by (by destruct t, Hserved).
  rewrite !length_app in Hl. change (length #"/") with 1%nat in Hl.
  rewrite (take_ge (relname_of rel n)) by lia.
  rewrite (take_ge (root ++ _)) by (rewrite !length_app; change (length #"/") with 1%nat; lia).
  unfold entry_items in *. cbn [fst snd] in *.
  destruct t as [st chunks|st es|st]; cbn [served] in Hserved.
  - destruct Hserved as (_ & Hreg & Hst & Hopen).
    eapply (writes_step _ _ (Some st)); [by apply writes_ask|]. cbv beta iota.
    rewrite reg_not_dir, Hreg by done.
    unfold all_item_bytes. cbn [fmap list_fmap mjoin list_join]. rewrite app_nil_r.
    apply writes_file_item; [done|by inversion Hok|done|done].
  - destruct Hserved as (_ & Hdir & Hst & _).
    eapply (writes_step _ _ (Some st)); [by apply writes_ask|]. cbv beta iota. rewrite Hdir.
    rewrite take_ge by (rewrite length_app; change (length #"/") with 1%nat; lia).
    inversion_clear Hok as [|? ? Hit Hits]. destruct (item_name_fields _ Hit) as [np Hnp].
    change (all_item_bytes (?x :: ?l)) with (item_bytes x ++ all_item_bytes l).
    rewrite <- app_assoc. unfold item_bytes at 1. rewrite Hnp. cbn [i_name i_stat i_type i_content].
    change (zeros (Z.to_nat _)) with (@nil Z). rewrite !app_nil_r.
    eapply writes_bind; [by apply writes_header|]. cbn [negb Z.eqb].
    eapply writes_bind; [by apply Hrec|]. done.
  - destruct Hserved as (_ & Hreg & Hdir & Hst).
    eapply (writes_step _ _ (Some st)); [by apply writes_ask|]. cbv beta iota. by rewrite Hdir, Hreg.
Qed.
Lemma writes_entries rec rel names es :
  List.filter (fun n => negb (dot_entry n)) names = es.*1 -> Forall (entry_served rec rel) es ->
  Forall item_ok (flat_map (entry_items rel) es) ->
  writes (archive_entries rec root rel names) 0 (all_item_bytes (flat_map (entry_items rel) es)).
Proof.
  revert es. induction names as [|n names IH]; intros es Hn Hes Hok; cbn [List.filter] in Hn.
  { symmetry in Hn. apply fmap_nil_inv in Hn as ->. apply writes_ret. }
  destruct (dot_entry n) eqn:Hdot; cbn [negb] in Hn.
  { cbn [archive_entries]. rewrite Hdot. by apply IH. }
  destruct es as [|e es]; [done|]. injection Hn as -> Hn. inversion_clear Hes as [|? ? He Hes'].
  cbn [flat_map] in *. apply Forall_app in Hok as [Hok1 Hok2]. rewrite all_item_bytes_app.
  apply writes_entry; auto.
Qed.

Lemma served_entries path st es : served path (Dir st es) ->
  Forall (fun e => e.1 <> [] /\ served (path ++ #"/" ++ e.1) e.2) es.
Proof.
  intros (_ & _ & _ & _ & Hes). induction es as [|e es IH]; [done|]. cbn [foldr] in Hes.
  destruct Hes as [He Hes]. constructor; auto.
Qed.

Lemma writes_tree t : forall fuel rel,
  served (join_path root rel) t -> 8191 <= Z.of_nat fuel + Z.of_nat (length rel) ->
  Forall item_ok (flatten rel t) ->
  match t with
  | Dir _ _ => writes (archive_path_recursive fuel root rel) 0 (all_item_bytes (flatten rel t))
  | _ => True
  end.
Proof.
  induction t as [|st es IH|] using fstree_induction; try done.
  intros fuel rel Hserved Hfuel Hok. rewrite flatten_dir in *.
  pose proof (served_entries _ _ _ Hserved) as Hes.
  destruct Hserved as (Hlen & _ & _ & (names & Hdir & Hnames) & _).
  assert (Z.of_nat (length root + 1 + length rel + 1) < 8192) as Hl.
  { unfold join_path in Hlen. destruct rel; rewrite ?length_app in Hlen; cbn [length] in *; lia. }
  destruct fuel as [|fuel]; [lia|]. cbn [archive_path_recursive].
  rewrite (proj2 (Z.leb_gt _ _) Hl), take_ge by lia.
  eapply (writes_step _ _ (Some names)); [by apply writes_ask|]. cbv beta iota.
  apply writes_entries; [done| |done].
  apply list.Forall_forall. intros e He. rewrite list.Forall_forall in IH, Hes. destruct (Hes e He) as [Hne Hs].
  split_and!; [done|done|]. specialize (IH e He fuel (relname_of rel e.1)).
  rewrite join_path_relname, <- join_path_of_relname in Hs by done.
  pose proof (relname_of_length rel e.1). assert (length e.1 <> 0%nat) by (by destruct (e.1)).
  specialize (IH Hs ltac:(lia)). by destruct (e.2).
Qed.
End TreeRun.

Lemma writes_act {A} (f : trace -> A) (e : A -> event) a :
  (forall t, f t = a) -> (forall a, gz_data [e a] = []) -> writes (act f e) a [].
Proof. intros Hf He w. eexists _, [_]. unfold act. rewrite Hf. split_and!; [done|done|]. apply He. Qed.

Lemma writes_gzclose `{OS} : writes sys_gzclose tt [].
Proof. by apply writes_act. Qed.

(** ** Every behaviour of the system

    [complete evs]: zlib took all the bytes of every write. *)
Definition complete (evs : trace) : Prop :=
  Forall (fun e => match e with EvGzwrite d n => n = Z.of_nat (length d) | _ => True end) evs.

Lemma complete_app e1 e2 : complete e1 -> complete e2 -> complete (e1 ++ e2).
Proof. intros H1 H2. by apply Forall_app. Qed.

(** Nothing but the archive is touched. *)
Definition gz_only (evs : trace) : Prop :=
  Forall (fun e => match e with EvGzopen _ _ | EvGzwrite _ _ | EvGzclose => True | _ => False end) evs.

Lemma gz_only_app e1 e2 : gz_only e1 -> gz_only e2 -> gz_only (e1 ++ e2).
Proof. intros H1 H2. by apply Forall_app. Qed.

(** [m] returns, with a status that is 0 or -1, and acts on the archive only;
    with 0, every write was complete. *)
Definition careful (m : M Z) : Prop :=
  returns m (fun r evs => (r = 0 \/ r = -1) /\ gz_only evs /\ (r = 0 -> complete evs)).

Lemma careful_ret r : r = 0 \/ r = -1 -> careful (mret r).
Proof. intros Hr. apply returns_ret. split_and!; [done|by constructor|by constructor]. Qed.

Lemma careful_bind m k : careful m -> careful k ->
  careful (r ← m; if negb (r =? 0) then mret (-1) else k).
Proof.
  intros Hm Hk. eapply returns_bind; [exact Hm|]. intros r evs (Hr & Hg & Hc).
  destruct (Z.eqb_spec r 0) as [H0|H0]; cbn [negb].
  - eapply returns_mono; [exact Hk|]. intros r' evs' (Hr' & Hg' & Hc').
    split_and!; [done|by apply gz_only_app|auto using complete_app].
  - apply returns_ret. rewrite app_nil_r. split_and!; auto. done.
Qed.

Lemma careful_ask {A} (f : trace -> A) (k : A -> M Z) : (forall a, careful (k a)) -> careful (ask f ≫= k).
Proof. apply returns_ask. Qed.

(** As [careful_ask], keeping that the answer is one of [f]. *)
Lemma careful_ask_eq {A} (f : trace -> A) (k : A -> M Z) : (forall t, careful (k (f t))) -> careful (ask f ≫= k).
Proof. intros Hk w. apply (Hk (w_trace w) w). Qed.

Lemma careful_malloc `{OS} (k : bool -> M Z) : (forall ok, careful (k ok)) -> careful (malloc ≫= k).
Proof. intros Hk w. apply (Hk _ (World (w_trace w) (S (w_allocs w)))). Qed.

Create HintDb careful discriminated.
#[export] Hint Resolve careful_ret careful_bind careful_ask careful_malloc : careful.

Section Careful.
Context `{O : OS}.

(** A write whose length is compared with what was asked. *)
Lemma careful_gzwrite d (k : M Z) : careful k ->
  careful (n ← sys_gzwrite d; if negb (n =? Z.of_nat (length d)) then mret (-1) else k).
Proof.
  intros Hk. apply returns_act. intros n. destruct (Z.eqb_spec n (Z.of_nat (length d))) as [Hn|Hn]; cbn [negb].
  - eapply returns_mono; [exact Hk|]. intros r evs (Hr & Hg & Hc). split_and!; [done|by constructor|].
    intros H0. constructor; [done|by apply Hc].
  - apply returns_ret. split_and!; [auto|by repeat constructor|done].
Qed.

Lemma careful_block d : careful (write_block d).
Proof. apply careful_gzwrite; auto with careful. Qed.

Lemma careful_zeros n : careful (write_zeros n).
Proof.
  unfold write_zeros. generalize n at 1 as fuel. intros fuel. revert n.
  induction fuel as [|fuel IH]; intros [|n]; cbn [write_zeros_loop]; auto using careful_block with careful.
Qed.

Lemma careful_header name st tf : careful (write_tar_header name st tf).
Proof. unfold write_tar_header. case_match; auto using careful_block with careful. Qed.

Lemma careful_chunks chunks (k : M Z) : careful k ->
  careful (r ← copy_chunks chunks; match r with Some e => mret e | None => k end).
Proof.
  intros Hk. induction chunks as [|b chunks IH]; [exact Hk|]. cbn [copy_chunks].
  intros w. destruct (careful_gzwrite b _ IH w) as (r & w' & evs & E & T & HQ).
  exists r, w', evs. split_and!; [|done|apply HQ..]. rewrite <- E.
  unfold mbind, M_bind, sys_gzwrite, act. by destruct (negb _).
Qed.
Lemma careful_contents path st : careful (write_file_contents path st).
Proof.
  unfold write_file_contents. apply careful_ask. intros [[chunks at_end]|]; [|auto with careful].
  apply careful_malloc. intros [|]; cbn [negb]; [|auto with careful].
  apply careful_chunks. destruct at_end; cbn [negb]; [|auto with careful].
  case_match; [apply careful_bind; auto using careful_zeros with careful|auto with careful].
Qed.

Lemma careful_file name path st (k : M Z) : careful k ->
  careful (h ← write_tar_header name st REGTYPE;
           if negb (h =? 0) then mret (-1) else
           c ← write_file_contents path st;
           if negb (c =? 0) then mret (-1) else k).
Proof. auto using careful_header, careful_contents with careful. Qed.

Lemma careful_entries rec root rel names :
  (forall n, n <> [] -> careful (rec (take (Z.to_nat 8191) (relname_of rel n)))) -> Forall (fun n => n <> []) names ->
  careful (archive_entries rec root rel names).
Proof.
  intros Hrec. induction 1 as [|n names Hn Hnames IH]; cbn [archive_entries]; [auto with careful|].
  fold (relname_of rel n). destruct (dot_entry n); [done|].
  apply careful_malloc. intros ok1. apply careful_malloc. intros ok2.
  destruct (negb (ok1 && ok2)); [auto with careful|].
  apply careful_ask. intros [st|]; [|auto with careful].
  destruct (S_ISDIR st); [auto using careful_header with careful|].
  destruct (S_ISREG st); [by apply careful_file|done].
Qed.

Lemma careful_path root : (forall t p, Forall (fun n => n <> []) (default [] (os_readdir t p))) ->
  forall fuel rel, 8193 <= Z.of_nat fuel + Z.of_nat (length rel) -> Z.of_nat (length rel) <= 8191 ->
  careful (archive_path_recursive fuel root rel).
Proof.
  intros Hnames. induction fuel as [|fuel IH]; intros rel Hf Hl; [lia|]. cbn [archive_path_recursive].
  destruct (8192 <=? _) eqn:E; [auto with careful|].
  apply careful_ask_eq. intros t. specialize (Hnames t (take (Z.to_nat 8191) (join_path root rel))).
  destruct (os_readdir _ _) as [names|].
  - apply careful_entries; [|done]. intros n Hn. pose proof (relname_of_length rel n).
    assert (length n <> 0%nat) by (by destruct n). apply IH; rewrite length_take; lia.
  - apply careful_ask. intros [st|]; [|auto with careful].
    apply careful_bind; [apply careful_header|]. destruct (S_ISREG st); [|auto with careful].
    apply careful_bind; auto using careful_contents with careful.
Qed.
End Careful.

(** The two blocks of zeros that end the archive. *)
Definition trailer `{OS} (rc : Z) : M Z :=
  if rc =? 0 then
    z1 ← write_zeros 512;
    z2 ← write_zeros 512;
    mret (if negb (z1 =? 0) || negb (z2 =? 0) then -1 else rc)
  else mret rc.

Lemma careful_trailer `{OS} (m : M Z) : careful m -> careful (m ≫= trailer).
Proof.
  intros Hm. eapply returns_bind; [exact Hm|]. intros r e0 (Hr & Hg & Hc). unfold trailer.
  destruct (Z.eqb_spec r 0) as [->|H0]; [|apply returns_ret; by rewrite app_nil_r].
  eapply returns_bind; [apply careful_zeros|]. intros r1 e1 (Hr1 & Hg1 & Hc1).
  eapply returns_bind; [apply careful_zeros|]. intros r2 e2 (Hr2 & Hg2 & Hc2).
  apply returns_ret. rewrite app_nil_r. split_and!; [by case_match; auto|auto using gz_only_app|].
  destruct Hr1 as [->| ->], Hr2 as [->| ->]; try done. intros _. auto using complete_app.
Qed.

(** What is archived, without the trailer. *)
Definition archive_members `{OS} (source_dir : cstr) (st : stat) : M Z :=
  if S_ISDIR st then archive_path_recursive archive_fuel source_dir []
  else h ← write_tar_header (basename source_dir) st REGTYPE;
       if negb (h =? 0) then mret (-1) else
       c ← write_file_contents source_dir st;
       if negb (c =? 0) then mret (-1) else mret 0.

Lemma careful_members `{OS} src st :
  (forall t p, Forall (fun n => n <> []) (default [] (os_readdir t p))) -> careful (archive_members src st).
Proof.
  intros Hn. unfold archive_members. destruct (S_ISDIR st).
  - apply careful_path; [done|unfold archive_fuel; cbn [length]; lia|cbn; lia].
  - apply careful_file. auto with careful.
Qed.

(** Closing the archive and checking the file. *)
Definition archive_result `{OS} (out : cstr) (rc : Z) : M Z :=
  _ ← sys_gzclose;
  st ← sys_stat out;
  match st with
  | None => mret (-3)
  | Some st => if st_size st =? 0 then mret (-3) else if rc =? 0 then mret 0 else mret (-2)
  end.

Lemma rrd_archive_create_eq `{OS} src wd fn w :
  let out := archive_outpath wd fn in
  let w1 := emit (EvGzopen out true) w in
  os_gzopen (w_trace w) out = true ->
  rrd_archive_create (Some src) wd (Some fn) w =
    match os_lstat (w_trace w1) src with
    | Some st => if negb (S_ISDIR st) && negb (S_ISREG st) then Ret (-2) (emit EvGzclose w1)
                 else ((archive_members src st ≫= trailer) ≫= archive_result out) w1
    | None => Ret (-2) (emit EvGzclose w1)
    end.
Proof.
  cbv zeta. intros Ho. cbn [rrd_archive_create]. unfold sys_gzopen, act, mbind at 1, M_bind. rewrite Ho. cbn [negb].
  unfold sys_lstat, ask, mbind at 1, M_bind.
  destruct (os_lstat _ src) as [st|]; [|done]. destruct (negb _ && negb _); [done|]. symmetry. apply bind_assoc.
Qed.

Lemma rrd_archive_create_run `{O : OS} src wd fn w :
  (forall t p, Forall (fun n => n <> []) (default [] (os_readdir t p))) ->
  exists r w' evs, rrd_archive_create src wd fn w = Ret r w' /\ w_trace w' = w_trace w ++ evs /\ gz_only evs /\
    (r = 0 \/ r = -1 \/ r = -2 \/ r = -3) /\
    (r = -1 <-> src = None \/ fn = None) /\
    (r = 0 -> complete evs /\ exists st, os_stat (w_trace w') (archive_outpath wd (default [] fn)) = Some st /\ st_size st <> 0).
Proof.
  intros Hn. destruct src as [src|], fn as [fn|];
    try (exists (-1), w, []; rewrite app_nil_r; split_and!; [done|done|by constructor|auto|split; auto|done]).
  pose proof (rrd_archive_create_eq src wd fn w) as Heq. cbv zeta in Heq. set (out := archive_outpath wd fn) in *.
  assert (forall r, r <> -1 -> (r = -1 <-> Some src = None \/ Some fn = None)) as Harg by (split; [done|intros [|]; done]).
  destruct (os_gzopen (w_trace w) out) eqn:Ho.
  2: { exists (-2), (emit (EvGzopen out false) w), [EvGzopen out false]. split_and!; [|done|by repeat constructor|auto|by apply Harg|done].
       cbn [rrd_archive_create]. unfold sys_gzopen, act, mbind at 1, M_bind. fold out. by rewrite Ho. }
  rewrite Heq by done. set (w1 := emit _ w).
  assert (w_trace (emit EvGzclose w1) = w_trace w ++ [EvGzopen out true; EvGzclose]) as Hclose
    by (cbn; by rewrite <- app_assoc).
  destruct (os_lstat (w_trace w1) src) as [st|];
    [|eexists (-2), _, _; split_and!; [done|exact Hclose|by repeat constructor|auto|by apply Harg|done]].
  destruct (negb _ && negb _); [eexists (-2), _, _; split_and!; [done|exact Hclose|by repeat constructor|auto|by apply Harg|done]|].
  destruct (careful_trailer _ (careful_members src st Hn) w1) as (r & w2 & e2 & E2 & T2 & Hr & Hg & C2).
  unfold mbind at 1, M_bind at 1. rewrite E2. unfold archive_result, sys_gzclose, act, sys_stat, ask, mbind, M_bind.
  assert (forall e, w_trace w2 ++ [e] = w_trace w ++ ([EvGzopen out true] ++ e2 ++ [e])) as Htr.
  { intros e. rewrite T2. unfold w1. cbn. by rewrite <- !app_assoc. }
  assert (forall e, gz_only [e] -> gz_only ([EvGzopen out true] ++ e2 ++ [e])) as Hgz
    by (intros e He; apply (gz_only_app [_]); [by repeat constructor|by apply gz_only_app]).
  assert (gz_only [EvGzclose]) as Hg1 by (by repeat constructor).
  destruct (os_stat _ out) as [sto|] eqn:Est.
  2: { eexists (-3), _, _. split_and!; [done|apply Htr|auto|auto|by apply Harg|done]. }
  destruct (Z.eqb_spec (st_size sto) 0) as [Hz|Hz].
  { eexists (-3), _, _. split_and!; [done|apply Htr|auto|auto|by apply Harg|done]. }
  destruct (Z.eqb_spec r 0) as [H0|H0].
  - eexists 0, _, _. split_and!; [done|apply Htr|auto|auto|by apply Harg|]. intros _. split; [|by exists sto].
    apply (complete_app [_]); [by constructor|]. apply complete_app; [auto|]. by constructor.
  - eexists (-2), _, _. split_and!; [done|apply Htr|auto|auto|by apply Harg|done].
Qed.

(** ** The properties of the archiver *)

(** C30: a header reads back.  For a name of at most 255 characters and a file
    whose numbers fit the octal fields, the header is one block of 512 bytes,
    which the reference reader accepts (magic and checksum) and from which it
    gets the type, mode, owner, group, time and size of the file; the name it
    gets is the name exactly when it has fewer than 100 characters (longer
    names come back damaged).  A name of more than 255 characters is refused
    and nothing is written. *)
Theorem write_tar_header_reads_back `{O : OS} name st tf w :
  reliable O -> NUL ∉ name -> 0 <= tf <= 255 -> stat_fits st ->
  if (255 <? length name)%nat then write_tar_header name st tf w = Ret (-1) w
  else exists b w', write_tar_header name st tf w = Ret 0 w' /\ w_trace w' = w_trace w ++ [EvGzwrite b 512] /\
         length b = 512%nat /\
         (exists m, read_header b = Some (m, if tf =? DIRTYPE then 0 else st_size st) /\
            m_type m = tf /\ m_mode m = Z.land (st_mode st) 0xFFF /\ m_uid m = st_uid st /\ m_gid m = st_gid st /\
            m_mtime m = st_mtime st /\ (m_name m = name <-> (length name < 100)%nat)).
Proof.
  intros R Hnul Ht Hst. unfold write_tar_header. destruct (255 <? length name)%nat eqn:E.
  - by rewrite (proj2 (name_fields_none name)) by lia.
  - destruct (name_fields name) as [np|] eqn:Hnp; [|apply name_fields_none in Hnp; lia].
    pose proof (tar_header_length name np st tf Hnp) as Hl.
    set (b := header_bytes _) in *. unfold write_block, sys_gzwrite, act. mrun.
    rewrite (rel_gzwrite _ R), Hl, Z.eqb_refl. cbn.
    exists b. eexists. split_and!; [done|done|done|].
    exists (header_member name st tf []). split_and!; try done; [by apply tar_header_read|].
    apply stored_name_eq. lia.
Qed.

Definition sample_stat (mode size : Z) : stat := Stat mode 0 0 size 1706533509.

Lemma write_tar_header_reads_back_witness :
  exists b w', @write_tar_header (demo_os empty_demo) #"messages.txt" (sample_stat 0x81A4 5) 48 (World [] 0) = Ret 0 w' /\
    w_trace w' = [EvGzwrite b 512] /\ (exists m, read_header b = Some (m, 5) /\ m_name m = #"messages.txt").
Proof.
  assert (reliable (demo_os empty_demo)) as R by (by split).
  assert (NUL ∉ #"messages.txt") as Hn by (apply strchr_none; reflexivity).
  assert (stat_fits (sample_stat 0x81A4 5)) as Hs by (vm_compute; repeat split; discriminate).
  destruct (write_tar_header_reads_back (O := demo_os empty_demo) _ _ 48 (World [] 0) R Hn ltac:(lia) Hs)
    as (b & w' & E & Tr & _ & m & Hm & _ & _ & _ & _ & _ & Hname).
  exists b, w'. split_and!; [exact E|exact Tr|]. exists m. split; [exact Hm|].
  apply Hname. vm_compute. lia.
Defined.

(** C20: creating an archive, whatever the system answers, provided that
    [readdir] returns no empty name.  The call ends without a memory fault and
    with one of its four documented statuses; 0 is returned only when the
    archive was opened, zlib took every byte of every write, and the finished
    file is there and not empty; no other file is touched. *)
Theorem rrd_archive_create_total `{O : OS} src wd fn w :
  (forall t p, Forall (fun n => n <> []) (default [] (os_readdir t p))) ->
  exists r w' evs, rrd_archive_create src wd fn w = Ret r w' /\ w_trace w' = w_trace w ++ evs /\ gz_only evs /\
    (r = 0 \/ r = -1 \/ r = -2 \/ r = -3) /\
    (r = -1 <-> src = None \/ fn = None) /\
    (r = 0 -> complete evs /\ exists st, os_stat (w_trace w') (archive_outpath wd (default [] fn)) = Some st /\ st_size st <> 0).
Proof. apply rrd_archive_create_run. Qed.

Definition sample_tree : fstree :=
  Dir (sample_stat 0x41ED 4096)
    [(#"log.txt", File (sample_stat 0x81A4 5) [bytes_of #"hello"]);
     (#"sub", Dir (sample_stat 0x41ED 4096) [(#"empty", File (sample_stat 0x81A4 0) [])]);
     (#"pipe", Special (sample_stat 0x1180 0))].

Definition sample_paths : list (cstr * stat) :=
  [(#"/r", sample_stat 0x41ED 4096); (#"/r/log.txt", sample_stat 0x81A4 5); (#"/r/sub", sample_stat 0x41ED 4096);
   (#"/r/sub/empty", sample_stat 0x81A4 0); (#"/r/pipe", sample_stat 0x1180 0)].

(** A system that serves [sample_tree] at [/r]. *)
Definition sample_os : OS := demo_os {|
  demo_stat := fun p => snd <$> List.find (fun e => streq (fst e) p) ((#"/o.tgz", sample_stat 0x81A4 300) :: sample_paths);
  demo_dir := fun p => if streq p #"/r" then Some [#"."; #"log.txt"; #"sub"; #".."; #"pipe"]
                       else if streq p #"/r/sub" then Some [#"."; #".."; #"empty"] else None;
  demo_file := fun p => if streq p #"/r/log.txt" then Some #"hello"
                        else if streq p #"/r/sub/empty" then Some [] else None;
  demo_popen := fun _ => None; demo_lock := fun _ => LockGranted; demo_upload := 0 |}.

Lemma rrd_archive_create_total_witness :
  exists r w' evs, @rrd_archive_create sample_os (Some #"/r") None (Some #"/o.tgz") (World [] 0) = Ret r w' /\
    w_trace w' = evs /\ r <> -1 /\ (r = 0 -> complete evs).
Proof.
  assert (forall t p, Forall (fun n : cstr => n <> []) (default [] (@os_readdir sample_os t p))) as Hn.
  { intros t p. cbn. case_match; [|case_match]; repeat constructor; done. }
  destruct (rrd_archive_create_total (O := sample_os) (Some #"/r") None (Some #"/o.tgz") (World [] 0) Hn)
    as (r & w' & evs & E & Tr & _ & _ & Harg & Hc).
  exists r, w', evs. split_and!; [exact E|exact Tr| |intros H0; by apply Hc].
  intros ->. destruct Harg as [Harg _]. by destruct Harg.
Defined.

(** C12: the archive round trip.  When a directory tree does not change while it
    is archived, allocations and writes succeed, and every member fits the
    format (names of fewer than 100 characters, numbers that fit their fields,
    files that deliver as many bytes as [lstat] announces), the call returns 0
    and a ustar reader gets back, from the bytes handed to zlib, exactly the
    members of the tree in traversal order: every directory with a trailing
    slash before its entries, every regular file with its content, nothing for
    other kinds of files, and nothing for the dot entries. *)
Theorem rrd_archive_create_roundtrip `{O : OS} src wd fn st es w :
  reliable O -> (forall t p, os_gzopen t p = true) ->
  (forall t, exists sto, os_stat t (archive_outpath wd fn) = Some sto /\ st_size sto <> 0) ->
  served src (Dir st es) ->
  Forall (fun it => item_ok it /\ (length (i_name it) < 100)%nat) (flatten [] (Dir st es)) ->
  exists w' evs, rrd_archive_create (Some src) wd (Some fn) w = Ret 0 w' /\ w_trace w' = w_trace w ++ evs /\
    untar (gz_data evs) =
      Some ((fun it => Member (i_name it) (i_type it) (Z.land (st_mode (i_stat it)) 0xFFF) (st_uid (i_stat it))
                              (st_gid (i_stat it)) (st_mtime (i_stat it)) (i_content it)) <$> flatten [] (Dir st es)).
Proof.
  intros R Hgz Hout Hserved Hitems. set (items := flatten [] _) in *.
  assert (Forall item_ok items) as Hok by (eapply Forall_impl; [|exact Hitems]; by intros it [? _]).
  assert (writes (archive_members src st) 0 (all_item_bytes items)) as Hw.
  { unfold archive_members. rewrite (proj1 (proj2 Hserved)).
    apply (writes_tree R src (Dir st es) archive_fuel []); [done|unfold archive_fuel; cbn [length]; lia|done]. }
  assert (writes ((archive_members src st ≫= trailer) ≫= archive_result (archive_outpath wd fn)) 0
            ((all_item_bytes items ++ zeros 512 ++ zeros 512) ++ [])) as Hall.
  { eapply writes_bind; [eapply writes_bind; [exact Hw|]|].
    - unfold trailer. cbn [Z.eqb]. eapply writes_bind; [by apply writes_zeros|].
      eapply writes_last; [by apply writes_zeros|]. apply writes_ret.
    - unfold archive_result. eapply writes_step; [apply writes_gzclose|].
      intros w1. destruct (Hout (w_trace w1)) as (sto & Hs & Hz). exists w1, []. rewrite app_nil_r.
      unfold sys_stat, ask, mbind, M_bind. rewrite Hs, (proj2 (Z.eqb_neq _ _) Hz). done. }
  rewrite rrd_archive_create_eq by apply Hgz. set (w1 := emit _ w).
  assert (os_lstat (w_trace w1) src = Some st) as -> by apply Hserved.
  rewrite (proj1 (proj2 Hserved)). cbn [negb andb].
  destruct (Hall w1) as (w2 & evs & E & Tr & Hd). exists w2, (EvGzopen (archive_outpath wd fn) true :: evs).
  rewrite E, Tr. cbn [w_trace w1 emit]. rewrite <- app_assoc. split_and!; [done|done|].
  change (gz_data (?e :: evs)) with (gz_data evs). rewrite Hd, app_nil_r.
  change (zeros 512 ++ zeros 512) with (zeros 1024). unfold all_item_bytes. rewrite untar_archive by done.
  f_equal. apply list_fmap_ext. intros i it Hit. unfold item_member, header_member. f_equal.
  rewrite list.Forall_lookup in Hitems. destruct (Hitems _ _ Hit) as [_ Hl].
  apply stored_name_eq; lia.
Qed.

Lemma rrd_archive_create_roundtrip_witness :
  exists w' evs, @rrd_archive_create sample_os (Some #"/r") None (Some #"/o.tgz") (World [] 0) = Ret 0 w' /\
    w_trace w' = evs /\
    (map (fun m => (m_name m, m_content m)) <$> untar (gz_data evs)) =
      Some [(#"log.txt", bytes_of #"hello"); (#"sub/", []); (#"sub/empty", [])].
Proof.
  assert (served (H := sample_os) #"/r" sample_tree) as Hs.
  { cbn [served sample_tree foldr fst snd]. split_and!; try done; eexists; split; reflexivity. }
  assert (Forall (fun it => item_ok it /\ (length (i_name it) < 100)%nat) (flatten [] sample_tree)) as Hok.
  { repeat constructor; try (apply strchr_none; reflexivity); try (vm_compute; lia); vm_compute; intuition discriminate. }
  destruct (rrd_archive_create_roundtrip (O := sample_os) #"/r" None #"/o.tgz" _ _ (World [] 0)
              ltac:(by split) ltac:(done) ltac:(intros t; by eexists) Hs Hok) as (w' & evs & E & Tr & Hu).
  exists w', evs. split_and!; [exact E|exact Tr|]. rewrite Hu. reflexivity.
Defined.
