(* ===== verification/Cache.v ===== *)
(** * Cache: the list of pending package downloads (src/rrdRunCmdThread.c)

    [cacheDataNode] heads a doubly linked list of heap cells, newest first.
    The heap is explicit: a location is freed by deleting it, and reading a
    location that is not there is a fault.  The list operations are shown to
    implement a plain list of (package, issue) pairs. *)

From stdpp Require Import gmap.
From S2P Require Import Prelude OS.

Local Open Scope Z_scope.

Abbreviation loc := positive.

(** [cacheData]; the node owns its two strings. *)
Record cacheData := CacheData {
  mdata : option cstr; issueString : option cstr; next : option loc; prev : option loc }.

(** The heap of nodes, the head pointer [cacheDataNode]. *)
Record cache := Cache { heap : gmap loc cacheData; cacheDataNode : option loc }.

(** ** The operations *)

Definition initCache : cache := Cache ∅ None.

Definition read_node (c : cache) (p : loc) : M cacheData :=
  match heap c !! p with Some n => mret n | None => mfault UseAfterFree end.

Definition write_node (p : loc) (n : cacheData) (c : cache) : cache := Cache (<[p := n]> (heap c)) (cacheDataNode c).

Definition set_next (x : option loc) (n : cacheData) : cacheData := CacheData (mdata n) (issueString n) x (prev n).
Definition set_prev (x : option loc) (n : cacheData) : cacheData := CacheData (mdata n) (issueString n) (next n) x.

(** [malloc] returns a location that is not in use; the new node and the heap. *)
Definition createCache `{OS} (pkgData issueTypeData : option cstr) (c : cache) : M (option loc * cache) :=
  ok ← malloc;
  if (ok : bool) then
    let p := fresh (dom (heap c)) in
    mret (Some p, write_node p (CacheData pkgData issueTypeData None None) c)
  else mret (None, c).

Definition append_item `{OS} (pkgData issueTypeData : option cstr) (c : cache) : M cache :=
  '(tmp, c) ← createCache pkgData issueTypeData c;
  match tmp with
  | None => mret c
  | Some tmp =>
      match cacheDataNode c with
      | Some rrdCachecnode =>
          t ← read_node c tmp;
          let c := write_node tmp (set_next (Some rrdCachecnode) t) c in
          n ← read_node c rrdCachecnode;
          let c := write_node rrdCachecnode (set_prev (Some tmp) n) c in
          mret (Cache (heap c) (Some tmp))
      | None => mret (Cache (heap c) (Some tmp))
      end
  end.

(** The loop from node [p]; a list without cycle visits each node once, so the
    number of nodes is enough fuel. *)
Fixpoint find_loop (fuel : nat) (pkgData : cstr) (c : cache) (p : option loc) : M (option loc) :=
  match p with
  | None => mret None
  | Some p =>
      match fuel with
      | O => mfault OutOfFuel
      | S fuel' =>
          n ← read_node c p;
          match mdata n with
          | Some m => if streq m pkgData then mret (Some p) else find_loop fuel' pkgData c (next n)
          | None => find_loop fuel' pkgData c (next n)
          end
      end
  end.

Definition findPresentInCache (pkgData : cstr) (c : cache) : M (option loc) :=
  find_loop (size (heap c)) pkgData c (cacheDataNode c).

(** What [print_items] logs from [node] on: the two strings of each node. *)
Abbreviation pair := (option cstr * option cstr)%type.

Fixpoint print_loop (fuel : nat) (c : cache) (p : option loc) : M (list pair) :=
  match p with
  | None => mret []
  | Some p =>
      match fuel with
      | O => mfault OutOfFuel
      | S fuel' => n ← read_node c p; l ← print_loop fuel' c (next n); mret ((mdata n, issueString n) :: l)
      end
  end.

Definition print_items (node : option loc) (c : cache) : M (list pair) := print_loop (size (heap c)) c node.

Definition freecacheDataCacheNode (node : option loc) (c : cache) : M cache :=
  match node with
  | None => mret c
  | Some p => _ ← read_node c p; mret (Cache (delete p (heap c)) (cacheDataNode c))
  end.

(** The pointer assignments of [p->field] when [p] is not [NULL]. *)
Definition update_node (p : option loc) (f : cacheData -> cacheData) (c : cache) : M cache :=
  match p with
  | None => mret c
  | Some p => n ← read_node c p; mret (write_node p (f n) c)
  end.

Definition remove_item (node : option loc) (c : cache) : M cache :=
  match node with
  | None => mret c
  | Some p =>
      c ← (if bool_decide (cacheDataNode c = Some p) then
             n ← read_node c p;
             let c := Cache (heap c) (next n) in
             n' ← read_node c p;
             update_node (next n') (set_prev None) c
           else
             n ← read_node c p;
             let rrdCachenextnode := next n in
             let rrdCacheprevnode := prev n in
             c ← update_node rrdCachenextnode (set_prev rrdCacheprevnode) c;
             update_node rrdCacheprevnode (set_next rrdCachenextnode) c);
      freecacheDataCacheNode (Some p) c
  end.

(** ** The list a heap represents *)

Record entry := Entry { e_loc : loc; e_pkg : option cstr; e_issue : option cstr }.

(** The nodes from [hd] up to [nxt] are those of [l]; [prv] is the node
    before them, [lst] the last of them. *)
Fixpoint seg (h : gmap loc cacheData) (prv hd : option loc) (l : list entry) (lst nxt : option loc) : Prop :=
  match l with
  | [] => hd = nxt /\ lst = prv
  | e :: l' => hd = Some (e_loc e) /\
      exists n, h !! e_loc e = Some (CacheData (e_pkg e) (e_issue e) n prv) /\ seg h (Some (e_loc e)) n l' lst nxt
  end.

(** The invariant of the cache: the list from the head, ended by [NULL], holds
    every node of the heap, each once. *)
Record repr (c : cache) (l : list entry) : Prop := {
  repr_seg : exists lst, seg (heap c) None (cacheDataNode c) l lst None;
  repr_dom : dom (heap c) = list_to_set (e_loc <$> l);
  repr_nodup : NoDup (e_loc <$> l) }.

(** ** Lemmas *)

Lemma seg_ext h h' prv hd l lst nxt :
  (forall e, e ∈ l -> h' !! e_loc e = h !! e_loc e) -> seg h prv hd l lst nxt -> seg h' prv hd l lst nxt.
Proof.
  revert prv hd. induction l as [|e l IH]; intros prv hd Heq; cbn; [done|].
  intros (-> & n & Hn & Hl). split; [done|]. exists n.
  rewrite Heq by apply list_elem_of_here. split; [done|].
  apply IH; [|done]. intros e' He. apply Heq. by apply list_elem_of_further.
Qed.

Lemma seg_app h prv hd l1 l2 lst nxt :
  seg h prv hd (l1 ++ l2) lst nxt <-> exists ml m, seg h prv hd l1 ml m /\ seg h ml m l2 lst nxt.
Proof.
  revert prv hd. induction l1 as [|e l1 IH]; intros prv hd; cbn [app seg].
  - split; [intros Hs; by exists prv, hd|]. by intros (ml & m & [-> ->] & Hs).
  - split.
    + intros (-> & n & Hn & (ml & m & H1 & H2)%IH). exists ml, m. eauto.
    + intros (ml & m & (-> & n & Hn & H1) & H2). split; [done|]. exists n. split; [done|]. apply IH. eauto.
Qed.

Lemma seg_lookup h prv hd l lst nxt e : seg h prv hd l lst nxt -> e ∈ l -> is_Some (h !! e_loc e).
Proof.
  revert prv hd. induction l as [|e' l IH]; intros prv hd; cbn; [by intros _ ?%elem_of_nil|].
  intros (_ & n & Hn & Hs) [->|He]%elem_of_cons; eauto.
Qed.

(** [update_node] on the heap. *)
Definition upd (p : option loc) (f : cacheData -> cacheData) (h : gmap loc cacheData) : gmap loc cacheData :=
  match p with
  | Some p => match h !! p with Some n => <[p := f n]> h | None => h end
  | None => h
  end.

Definition allocated (p : option loc) (h : gmap loc cacheData) : Prop := forall x, p = Some x -> is_Some (h !! x).

Lemma update_node_run p f c w :
  allocated p (heap c) -> update_node p f c w = Ret (Cache (upd p f (heap c)) (cacheDataNode c)) w.
Proof.
  intros Ha. unfold update_node, upd. destruct p as [p|]; [|by destruct c].
  destruct (Ha p eq_refl) as [n Hn]. unfold read_node, mbind, M_bind. by rewrite Hn.
Qed.

Lemma upd_other p f h x : p <> Some x -> upd p f h !! x = h !! x.
Proof.
  intros Hp. destruct p as [p|]; [|done]. cbn. destruct (h !! p); [|done].
  apply lookup_insert_ne. congruence.
Qed.

Lemma upd_here f h x n : h !! x = Some n -> upd (Some x) f h !! x = Some (f n).
Proof. intros Hx. cbn. rewrite Hx. apply lookup_insert_eq. Qed.

Lemma upd_dom p f h : dom (upd p f h) = dom h.
Proof.
  destruct p as [p|]; [|done]. cbn. destruct (h !! p) eqn:E; [|done].
  rewrite dom_insert_L. apply elem_of_dom_2 in E. set_solver.
Qed.

(** Changing the link before a segment, or the link after it. *)
Lemma seg_set_prev h prv hd l lst q :
  NoDup (e_loc <$> l) -> seg h prv hd l lst None -> exists lst', seg (upd hd (set_prev q) h) q hd l lst' None.
Proof.
  intros Hnd. destruct l as [|e l]; cbn [seg]; [intros [-> _]; by exists q|].
  intros (-> & n & Hn & Hs). exists lst. split; [done|]. exists n. rewrite (upd_here _ _ _ _ Hn). split; [done|].
  eapply seg_ext; [|exact Hs]. intros e' He. apply upd_other. intros [= Heq].
  apply list.NoDup_cons in Hnd as [Hnd _]. apply Hnd. rewrite Heq. by apply list_elem_of_fmap_2.
Qed.

Lemma seg_set_next h prv hd l e m m' :
  NoDup (e_loc <$> l ++ [e]) -> seg h prv hd (l ++ [e]) (Some (e_loc e)) m ->
  seg (upd (Some (e_loc e)) (set_next m') h) prv hd (l ++ [e]) (Some (e_loc e)) m'.
Proof.
  rewrite fmap_app. intros (_ & Hnd & _)%list.NoDup_app (ml & p & H1 & H2)%seg_app. apply seg_app. exists ml, p. split.
  - eapply seg_ext; [|exact H1]. intros e' He. apply upd_other. intros [= Heq].
    apply (Hnd (e_loc e')); [by apply list_elem_of_fmap_2|]. cbn. rewrite Heq. apply list_elem_of_here.
  - cbn in H2. destruct H2 as (-> & n & Hn & _). cbn [seg].
    rewrite (upd_here _ _ _ _ Hn). split; [done|]. by exists m'.
Qed.

Lemma seg_last h prv hd l e lst nxt : seg h prv hd (l ++ [e]) lst nxt -> lst = Some (e_loc e).
Proof. intros (ml & m & _ & H2)%seg_app. cbn in H2. by destruct H2 as (_ & n & _ & _ & ->). Qed.

Lemma repr_init : repr initCache [].
Proof. split; [by exists None|done|by constructor]. Qed.

Lemma repr_in_heap c l p : repr c l -> p ∈ dom (heap c) <-> p ∈ (e_loc <$> l).
Proof. intros [_ -> _]. apply elem_of_list_to_set. Qed.

(** [append_item] puts a new entry in front, or changes nothing when the
    allocation fails. *)
Lemma append_item_repr `{OS} pkg issue c l w :
  repr c l ->
  exists c', append_item pkg issue c w = Ret c' (World (w_trace w) (S (w_allocs w))) /\
    if os_malloc (w_allocs w) then exists p, repr c' (Entry p pkg issue :: l) else c' = c.
Proof.
  intros Hr. pose proof Hr as [[lst Hs] Hd Hnd]. unfold append_item, createCache, malloc, mbind, M_bind.
  destruct (os_malloc (w_allocs w)); cbn; [|by exists c].
  set (p := fresh (dom (heap c))). assert (p ∉ dom (heap c)) as Hp by apply is_fresh.
  assert (p ∉ (e_loc <$> l)) as Hpl by (by rewrite <- (repr_in_heap c l) by done).
  assert (forall e, e ∈ l -> p <> e_loc e) as Hne.
  { intros e He ->. apply Hpl. by apply list_elem_of_fmap_2. }
  set (fields x := CacheData pkg issue x None).
  destruct l as [|e l]; cbn [seg] in Hs.
  - destruct Hs as [-> ->]. exists (Cache (<[p := fields None]> (heap c)) (Some p)). split; [done|].
    exists p. split; cbn.
    + exists (Some p). split; [done|]. exists None. by rewrite lookup_insert_eq.
    + rewrite dom_insert_L, Hd. done.
    + repeat constructor. apply not_elem_of_nil.
  - pose proof Hs as (Hhead & n & Hn & _). rewrite Hhead. unfold read_node. cbn.
    rewrite lookup_insert_eq. cbn. rewrite !lookup_insert_ne, Hn by (apply Hne, list_elem_of_here). cbn.
    set (h2 := <[p := fields (Some (e_loc e))]> (<[p := fields None]> (heap c))).
    eexists. split; [reflexivity|]. exists p.
    assert (forall e', e' ∈ e :: l -> h2 !! e_loc e' = heap c !! e_loc e') as Hext.
    { intros e' He'. unfold h2. by rewrite !lookup_insert_ne by (by apply Hne). }
    assert (seg h2 None (cacheDataNode c) (e :: l) lst None) as Hs2 by (by eapply seg_ext).
    rewrite Hhead in Hs2. apply (seg_set_prev _ _ _ _ _ (Some p)) in Hs2 as [lst' Hs3]; [|done].
    cbn [upd] in Hs3. rewrite Hext, Hn in Hs3 by apply list_elem_of_here.
    split; cbn [heap cacheDataNode write_node].
    + exists lst'. split; [done|]. exists (Some (e_loc e)). split; [|exact Hs3].
      rewrite lookup_insert_ne by (apply not_eq_sym, Hne, list_elem_of_here).
      unfold h2. by rewrite lookup_insert_eq.
    + rewrite !dom_insert_L, Hd. cbn. set_solver.
    + cbn [fmap list_fmap e_loc]. by constructor.
Qed.

Definition has_pkg (pkg : cstr) (e : entry) : bool :=
  match e_pkg e with Some m => streq m pkg | None => false end.

Lemma find_loop_seg pkg c l : forall prv hd lst fuel w,
  seg (heap c) prv hd l lst None -> (length l <= fuel)%nat ->
  find_loop fuel pkg c hd w = Ret (e_loc <$> List.find (has_pkg pkg) l) w.
Proof.
  induction l as [|e l IH]; intros prv hd lst fuel w; cbn [seg length].
  - intros [-> _] _. by destruct fuel.
  - intros (-> & n & Hn & Hs) Hf. destruct fuel as [|fuel]; [lia|]. cbn [find_loop List.find].
    unfold read_node. rewrite Hn. rewrite bind_ret_l. unfold has_pkg at 1. cbn [mdata].
    destruct (e_pkg e) as [m|]; [destruct (streq m pkg); [done|]|]; (eapply IH; [exact Hs|lia]).
Qed.

Lemma repr_size c l : repr c l -> size (heap c) = length l.
Proof.
  intros [_ Hd Hnd]. rewrite <- size_dom, Hd, size_list_to_set by done. apply length_fmap.
Qed.

(** [findPresentInCache] returns the newest entry of the package. *)
Lemma findPresentInCache_repr pkg c l w :
  repr c l -> findPresentInCache pkg c w = Ret (e_loc <$> List.find (has_pkg pkg) l) w.
Proof.
  intros Hr. pose proof Hr as [[lst Hs] _ _]. unfold findPresentInCache. rewrite (repr_size _ _ Hr).
  by eapply find_loop_seg.
Qed.

Definition pairs_of (l : list entry) : list pair := (fun e => (e_pkg e, e_issue e)) <$> l.

Lemma print_loop_seg c l : forall prv hd lst fuel w,
  seg (heap c) prv hd l lst None -> (length l <= fuel)%nat -> print_loop fuel c hd w = Ret (pairs_of l) w.
Proof.
  induction l as [|e l IH]; intros prv hd lst fuel w; cbn [seg length].
  - intros [-> _] _. by destruct fuel.
  - intros (-> & n & Hn & Hs) Hf. destruct fuel as [|fuel]; [lia|]. cbn [print_loop].
    unfold read_node. rewrite Hn, bind_ret_l. cbn [next]. unfold mbind, M_bind. by rewrite (IH _ _ _ fuel w Hs) by lia.
Qed.

(** [print_items] from the head logs every entry, the newest first. *)
Lemma print_items_repr c l w : repr c l -> print_items (cacheDataNode c) c w = Ret (pairs_of l) w.
Proof.
  intros Hr. pose proof Hr as [[lst Hs] _ _]. unfold print_items. rewrite (repr_size _ _ Hr). by eapply print_loop_seg.
Qed.

(** Reading the first node of a segment. *)
Lemma seg_allocated h prv hd l lst : seg h prv hd l lst None -> allocated hd h.
Proof. destruct l as [|e l]; cbn; [by intros [-> _] x|]. intros (-> & n & Hn & _) x [= <-]. eauto. Qed.

(** Unlinking an entry that the list holds, the first or a later one. *)
Lemma unlink_first c e l lst w :
  NoDup (e_loc <$> e :: l) -> seg (heap c) None (cacheDataNode c) (e :: l) lst None ->
  exists h hd lst',
    remove_item (Some (e_loc e)) c w = Ret (Cache (delete (e_loc e) h) hd) w /\
    seg h None hd l lst' None /\ dom h = dom (heap c).
Proof.
  intros [He Hnd]%list.NoDup_cons (Hhd & n & Hn & Hs).
  destruct (seg_set_prev _ _ _ _ _ None Hnd Hs) as [lst' Hs'].
  exists (upd n (set_prev None) (heap c)), n, lst'. split; [|split; [done|apply upd_dom]].
  unfold remove_item. rewrite bool_decide_true by done. unfold read_node at 1 2. unfold mbind at 1, M_bind at 1.
  cbn [heap]. rewrite Hn. cbn [next]. rewrite !bind_ret_l.
  rewrite update_node_run by (by eapply seg_allocated).
  unfold freecacheDataCacheNode, read_node, mbind, M_bind. cbn [heap cacheDataNode next].
  rewrite upd_other, Hn; [done|]. intros ->. destruct l as [|e' l]; cbn in Hs; destruct Hs as [Hs _]; [done|].
  apply He. cbn. injection Hs as ->. apply list_elem_of_here.
Qed.

Lemma unlink_later c l1 e1 e l2 lst w :
  NoDup (e_loc <$> (l1 ++ [e1]) ++ e :: l2) ->
  seg (heap c) None (cacheDataNode c) ((l1 ++ [e1]) ++ e :: l2) lst None ->
  exists h hd lst',
    remove_item (Some (e_loc e)) c w = Ret (Cache (delete (e_loc e) h) hd) w /\
    seg h None hd ((l1 ++ [e1]) ++ l2) lst' None /\ dom h = dom (heap c).
Proof.
  intros Hnd Hs. rewrite fmap_app in Hnd. apply list.NoDup_app in Hnd as (Hnd1 & Hdisj & Hnd2).
  cbn [fmap list_fmap] in Hnd2. apply list.NoDup_cons in Hnd2 as [He Hnd2].
  apply seg_app in Hs as (ml & m & H1 & H2). pose proof (seg_last _ _ _ _ _ _ _ H1) as ->.
  cbn [seg] in H2. destruct H2 as (-> & n & Hn & H2).
  destruct (seg_set_prev _ _ _ _ _ (Some (e_loc e1)) Hnd2 H2) as [lst' Hs2].
  set (h1 := upd n (set_prev (Some (e_loc e1))) (heap c)) in *.
  assert (forall x, x ∈ l1 ++ [e1] -> n <> Some (e_loc x) /\ e_loc x <> e_loc e /\ e_loc x ∉ (e_loc <$> l2)) as Hx.
  { intros x Hin. apply (list_elem_of_fmap_2 e_loc), Hdisj in Hin. cbn [fmap list_fmap] in Hin.
    rewrite not_elem_of_cons in Hin. destruct Hin as [Hin1 Hin2]. split_and!; try done. intros ->.
    destruct l2 as [|e' l2]; cbn in H2; destruct H2 as [H2 _]; [done|]. injection H2 as H2. apply Hin2. cbn.
    rewrite H2. apply list_elem_of_here. }
  assert (e1 ∈ l1 ++ [e1]) as He1 by (apply elem_of_app; right; apply list_elem_of_here).
  assert (seg h1 None (cacheDataNode c) (l1 ++ [e1]) (Some (e_loc e1)) (Some (e_loc e))) as Hs1.
  { eapply seg_ext; [|exact H1]. intros x Hin. apply upd_other, Hx, Hin. }
  pose proof (seg_set_next _ _ _ _ _ _ n Hnd1 Hs1) as Hs1'.
  set (h2 := upd (Some (e_loc e1)) (set_next n) h1) in *.
  assert (seg h2 (Some (e_loc e1)) n l2 lst' None) as Hs2'.
  { eapply seg_ext; [|exact Hs2]. intros x Hin. apply upd_other. intros [= Heq].
    apply (Hx _ He1). rewrite Heq. by apply list_elem_of_fmap_2. }
  exists h2, (cacheDataNode c), lst'. split_and!; [|by apply seg_app; eauto|unfold h2, h1; by rewrite !upd_dom].
  assert (cacheDataNode c <> Some (e_loc e)) as Hhead.
  { intros Hc. destruct l1 as [|e0 l1]; cbn in H1; destruct H1 as [H1 _]; rewrite H1 in Hc; injection Hc as Hc.
    - destruct (Hx e1 He1) as (_ & Hne & _). by apply Hne.
    - destruct (Hx e0 (list_elem_of_here _ _)) as (_ & Hne & _). by apply Hne. }
  unfold remove_item. rewrite bool_decide_false by done. unfold read_node at 1. unfold mbind at 1, M_bind at 1.
  rewrite Hn, bind_ret_l. cbn [next prev]. unfold mbind at 1, M_bind at 1.
  rewrite update_node_run by (by eapply seg_allocated). fold h1.
  rewrite update_node_run by (intros x [= <-]; by eapply (seg_lookup _ _ _ _ _ _ _ Hs1)). cbn [heap cacheDataNode]. fold h2.
  unfold freecacheDataCacheNode, read_node, mbind, M_bind. cbn [heap cacheDataNode].
  unfold h2, h1. rewrite !upd_other, Hn; [done| |].
  - intros ->. destruct l2 as [|e' l2]; cbn in H2; destruct H2 as [H2 _]; [done|].
    apply He. cbn. injection H2 as ->. apply list_elem_of_here.
  - intros [= Heq]. by destruct (Hx e1 He1) as (_ & Hne & _).
Qed.

(** [remove_item] takes an entry of the list out and frees its node. *)
Lemma remove_item_repr c l1 e l2 w :
  repr c (l1 ++ e :: l2) -> exists c', remove_item (Some (e_loc e)) c w = Ret c' w /\ repr c' (l1 ++ l2).
Proof.
  intros [[lst Hs] Hd Hnd].
  assert (exists h hd lst', remove_item (Some (e_loc e)) c w = Ret (Cache (delete (e_loc e) h) hd) w /\
            seg h None hd (l1 ++ l2) lst' None /\ dom h = dom (heap c)) as (h & hd & lst' & Hrun & Hseg & Hdom).
  { destruct l1 as [|e1 l1 _] using rev_ind; [by eapply unlink_first|by eapply unlink_later]. }
  exists (Cache (delete (e_loc e) h) hd). split; [done|].
  rewrite fmap_app in Hnd. apply list.NoDup_app in Hnd as (Hnd1 & Hdisj & Hnd2).
  apply list.NoDup_cons in Hnd2 as [He Hnd2].
  assert (e_loc e ∉ (e_loc <$> l1 ++ l2)) as Hnotin.
  { rewrite fmap_app. intros [H1|H2]%elem_of_app; [|done]. apply (Hdisj _ H1). apply list_elem_of_here. }
  split; cbn [heap cacheDataNode].
  - exists lst'. eapply seg_ext; [|exact Hseg]. intros x Hx. apply lookup_delete_ne. intros Heq.
    apply Hnotin. rewrite Heq. by apply list_elem_of_fmap_2.
  - rewrite dom_delete_L, Hdom, Hd. rewrite fmap_app in *. cbn. rewrite !list_to_set_app_L. cbn.
    assert (e_loc e ∉ (list_to_set (e_loc <$> l1) : gset loc)) by (rewrite elem_of_list_to_set; set_solver).
    assert (e_loc e ∉ (list_to_set (e_loc <$> l2) : gset loc)) by (by rewrite elem_of_list_to_set).
    set_solver.
  - rewrite fmap_app. apply list.NoDup_app. split_and!; [done| |done].
    intros x Hx1 Hx2. apply (Hdisj x Hx1). cbn. by apply list_elem_of_further.
Qed.

(** ** The cache as a list of pairs

    [Take] is what the download handler does: it looks a package up, uses the
    issue of the entry it finds and removes that entry. *)
Inductive cache_op :=
| Append (pkg issue : option cstr)
| Lookup (pkg : cstr)
| Take (pkg : cstr)
| Items.

(** The issue of the entry found, if any; what was logged. *)
Inductive answer := Found (issue : option (option cstr)) | Logged (l : list pair).

Definition cache_step `{OS} (op : cache_op) (c : cache) : M (answer * cache) :=
  match op with
  | Append pkg issue => c ← append_item pkg issue c; mret (Found None, c)
  | Lookup pkg =>
      p ← findPresentInCache pkg c;
      match p with
      | Some p => n ← read_node c p; mret (Found (Some (issueString n)), c)
      | None => mret (Found None, c)
      end
  | Take pkg =>
      p ← findPresentInCache pkg c;
      match p with
      | Some p => n ← read_node c p; c ← remove_item (Some p) c; mret (Found (Some (issueString n)), c)
      | None => mret (Found None, c)
      end
  | Items => l ← print_items (cacheDataNode c) c; mret (Logged l, c)
  end.

Fixpoint cache_run `{OS} (ops : list cache_op) (c : cache) : M (list answer) :=
  match ops with
  | [] => mret []
  | op :: ops' =>
      '(a, c) ← cache_step op c;
      r ← cache_run ops' c;
      mret (a :: r)
  end.

(** The specification: a list of pairs, newest first, with no pointers.  [k]
    counts the allocations. *)
Definition pair_is (pkg : cstr) (x : pair) : bool := bool_decide (fst x = Some pkg).

Fixpoint remove_first (pkg : cstr) (l : list pair) : list pair :=
  match l with
  | [] => []
  | x :: l' => if pair_is pkg x then l' else x :: remove_first pkg l'
  end.

Fixpoint spec_run `{OS} (k : nat) (ops : list cache_op) (l : list pair) : list answer :=
  match ops with
  | [] => []
  | Append pkg issue :: ops' => Found None :: spec_run (S k) ops' (if os_malloc k then (pkg, issue) :: l else l)
  | Lookup pkg :: ops' => Found (snd <$> List.find (pair_is pkg) l) :: spec_run k ops' l
  | Take pkg :: ops' => Found (snd <$> List.find (pair_is pkg) l) :: spec_run k ops' (remove_first pkg l)
  | Items :: ops' => Logged l :: spec_run k ops' l
  end.

Lemma has_pkg_pair pkg e : has_pkg pkg e = pair_is pkg (e_pkg e, e_issue e).
Proof.
  unfold has_pkg, pair_is, streq. cbn. destruct (e_pkg e) as [m|]; [|by rewrite bool_decide_false].
  apply bool_decide_ext. split; congruence.
Qed.

(** The entry found splits the list; the pairs agree. *)
Lemma find_split pkg l :
  match List.find (has_pkg pkg) l with
  | Some e => exists l1 l2, l = l1 ++ e :: l2 /\ remove_first pkg (pairs_of l) = pairs_of (l1 ++ l2) /\
                List.find (pair_is pkg) (pairs_of l) = Some (e_pkg e, e_issue e)
  | None => List.find (pair_is pkg) (pairs_of l) = None /\ remove_first pkg (pairs_of l) = pairs_of l
  end.
Proof.
  induction l as [|e l IH]; [done|]. cbn [List.find]. rewrite has_pkg_pair. cbn [pairs_of fmap list_fmap].
  fold (pairs_of l). cbn [List.find remove_first].
  destruct (pair_is pkg (e_pkg e, e_issue e)) eqn:E; [by exists [], l|].
  destruct (List.find (has_pkg pkg) l) as [e'|].
  - destruct IH as (l1 & l2 & -> & Hr & Hf). exists (e :: l1), l2. split_and!; [done| |done]. by rewrite Hr.
  - destruct IH as [Hf Hr]. by rewrite Hr.
Qed.

Lemma repr_read c l1 e l2 w :
  repr c (l1 ++ e :: l2) -> exists n, read_node c (e_loc e) w = Ret n w /\ issueString n = e_issue e.
Proof.
  intros [[lst (ml & m & _ & Hs)%seg_app] _ _]. destruct Hs as (_ & nxt & Hn & _).
  unfold read_node. rewrite Hn. by eexists.
Qed.

(** One operation keeps the representation and answers as the list does. *)
Lemma cache_step_refines `{OS} op ops c l w :
  repr c l -> exists a c' l' w', cache_step op c w = Ret (a, c') w' /\ repr c' l' /\
    spec_run (w_allocs w) (op :: ops) (pairs_of l) = a :: spec_run (w_allocs w') ops (pairs_of l').
Proof.
  intros Hr. destruct op as [pkg issue|pkg|pkg|]; cbn [cache_step spec_run].
  - destruct (append_item_repr pkg issue c l w Hr) as (c' & Hrun & Hc'). unfold mbind, M_bind. rewrite Hrun.
    destruct (os_malloc (w_allocs w)).
    + destruct Hc' as [p Hc']. by eexists _, c', (Entry p pkg issue :: l), _.
    + subst c'. by eexists _, c, l, _.
  - unfold mbind at 1, M_bind at 1. rewrite (findPresentInCache_repr _ _ l) by done.
    pose proof (find_split pkg l) as Hf. destruct (List.find (has_pkg pkg) l) as [e|].
    + destruct Hf as (l1 & l2 & -> & _ & Hf). destruct (repr_read _ _ _ _ w Hr) as (n & Hn & Hi).
      cbn [fmap option_fmap option_map]. unfold mbind, M_bind. rewrite Hn, Hf.
      eexists _, c, _, w. split; [done|]. split; [exact Hr|]. by rewrite Hi.
    + destruct Hf as [Hf _]. rewrite Hf. by eexists _, c, l, w.
  - unfold mbind at 1, M_bind at 1. rewrite (findPresentInCache_repr _ _ l) by done.
    pose proof (find_split pkg l) as Hf. destruct (List.find (has_pkg pkg) l) as [e|].
    + destruct Hf as (l1 & l2 & -> & Hrem & Hf). destruct (repr_read _ _ _ _ w Hr) as (n & Hn & Hi).
      destruct (remove_item_repr _ _ _ _ w Hr) as (c' & Hrun & Hc').
      cbn [fmap option_fmap option_map]. unfold mbind, M_bind. rewrite Hn, Hrun, Hf, Hrem.
      eexists _, c', _, w. split; [done|]. split; [exact Hc'|]. by rewrite Hi.
    + destruct Hf as [Hf Hrem]. rewrite Hf, Hrem. by eexists _, c, l, w.
  - unfold mbind, M_bind. rewrite (print_items_repr _ l) by done. by eexists _, c, l, w.
Qed.

Lemma cache_run_refines `{OS} ops : forall c l w, repr c l ->
  exists w', cache_run ops c w = Ret (spec_run (w_allocs w) ops (pairs_of l)) w'.
Proof.
  induction ops as [|op ops IH]; intros c l w Hr; [by exists w|].
  destruct (cache_step_refines op ops c l w Hr) as (a & c' & l' & w1 & Hstep & Hr' & Hspec).
  destruct (IH c' l' w1 Hr') as [w2 Hrun]. exists w2. rewrite Hspec. cbn [cache_run].
  unfold mbind, M_bind. by rewrite Hstep, Hrun.
Qed.

(** ** Properties *)

(** C7: the linked list implements a list of pairs.  From the initial cache, any
    sequence of appends, lookups, removals of a found entry and listings runs without a
    memory fault (no dangling link is followed, no node freed twice, no cycle)
    and gives the answers of a plain list with the newest entry first: a
    lookup finds the newest entry of the package, a removal takes out that
    entry only, a listing shows every entry, and an append whose allocation
    fails changes nothing. *)
Theorem cache_refines_list `{OS} ops w :
  exists w', cache_run ops initCache w = Ret (spec_run (w_allocs w) ops []) w'.
Proof. apply (cache_run_refines ops initCache []), repr_init. Qed.

(** What each operation does to the heap.  The invariant of the cache is
    kept by [append_item] (which adds one entry in front, when its allocation
    succeeds) and by [remove_item] of an entry of the list (which removes that
    entry and frees its node), and [findPresentInCache] returns a node of the
    list holding the package, or [NULL] when there is none. *)
Theorem cache_invariant `{OS} c l w pkg issue p :
  repr c l ->
  (exists c' l', append_item pkg issue c w = Ret c' (World (w_trace w) (S (w_allocs w))) /\ repr c' l' /\
     pairs_of l' = if os_malloc (w_allocs w) then (pkg, issue) :: pairs_of l else pairs_of l) /\
  (findPresentInCache p c w = Ret None w /\ Forall (fun e => e_pkg e <> Some p) l \/
   exists l1 e l2 c', l = l1 ++ e :: l2 /\ e_pkg e = Some p /\ Forall (fun e => e_pkg e <> Some p) l1 /\
     findPresentInCache p c w = Ret (Some (e_loc e)) w /\
     remove_item (Some (e_loc e)) c w = Ret c' w /\ repr c' (l1 ++ l2) /\ heap c' !! e_loc e = None).
Proof.
  intros Hr. split.
  - destruct (append_item_repr pkg issue c l w Hr) as (c' & Hrun & Hc'). exists c'. destruct (os_malloc _).
    + destruct Hc' as [q Hc']. by exists (Entry q pkg issue :: l).
    + subst c'. by exists l.
  - rewrite (findPresentInCache_repr _ _ l) by done. clear pkg issue.
    assert (forall l, match List.find (has_pkg p) l with
                      | Some e => exists l1 l2, l = l1 ++ e :: l2 /\ e_pkg e = Some p /\
                                    Forall (fun e => e_pkg e <> Some p) l1
                      | None => Forall (fun e => e_pkg e <> Some p) l
                      end) as Hfind.
    { clear. induction l as [|e l IH]; [constructor|]. cbn [List.find]. rewrite has_pkg_pair. unfold pair_is. cbn.
      case_bool_decide as Hp; [by exists [], l|]. destruct (List.find (has_pkg p) l) as [e'|]; [|by constructor].
      destruct IH as (l1 & l2 & -> & He & Hl). exists (e :: l1), l2. split_and!; [done|done|by constructor]. }
    specialize (Hfind l). destruct (List.find (has_pkg p) l) as [e|]; [right|by left].
    destruct Hfind as (l1 & l2 & -> & He & Hl). destruct (remove_item_repr _ _ _ _ w Hr) as (c' & Hrun & Hc').
    exists l1, e, l2, c'. split_and!; try done.
    apply not_elem_of_dom. rewrite (repr_in_heap _ _ _ Hc'). destruct Hr as [_ _ Hnd].
    rewrite fmap_app in *. apply list.NoDup_app in Hnd as (_ & Hd & Hn2). apply list.NoDup_cons in Hn2 as [Hn2 _].
    intros [H1|H2]%elem_of_app; [|done]. apply (Hd _ H1). apply list_elem_of_here.
Qed.

Lemma cache_invariant_witness :
  exists c' l', @append_item (demo_os empty_demo) (Some #"pkg") (Some #"Device.Info") initCache (World [] 0)
                  = Ret c' (World [] 1) /\ repr c' l' /\ pairs_of l' = [(Some #"pkg", Some #"Device.Info")].
Proof.
  destruct (@cache_invariant (demo_os empty_demo) initCache [] (World [] 0) (Some #"pkg") (Some #"Device.Info") []
              repr_init) as [(c' & l' & H1 & H2 & H3) _].
  exists c', l'. split_and!; [exact H1|exact H2|exact H3].
Defined.

Example cache_run_example :
  @cache_run (demo_os empty_demo)
    [Append (Some #"a") (Some #"1"); Append (Some #"b") (Some #"2"); Append (Some #"a") (Some #"3");
     Take #"a"; Lookup #"b"; Items; Take #"a"; Take #"a"] initCache (World [] 0) =
  Ret [Found None; Found None; Found None; Found (Some (Some #"3")); Found (Some (Some #"2"));
       Logged [(Some #"b", Some #"2"); (Some #"a", Some #"1")]; Found (Some (Some #"1")); Found None] (World [] 3).
Proof. vm_compute. reflexivity. Qed.
