(* ===== verification/CacheThreads.v ===== *)
(** * CacheThreads: the cache shared by threads (src/rrdRunCmdThread.c)

    The event thread appends requests while the thread of a bus looks packages
    up and removes them ([_rdmManagerEventHandler] in the build with IARM,
    [_rdmDownloadEventHandler] in the one without).  Every access to memory is a
    step of its own, so the threads interleave inside the operations, between
    two assignments of a critical section and between the unlocking and the
    [free] of [remove_item]; the mutex is [rrdCacheMut].  The operations are
    shown to be atomic on a list, for any number of threads, as long as no two
    handlers work on the same package at the same time.  In the daemon only one
    handler looks packages up, and it runs on the thread of its bus. *)

From stdpp Require Import gmap.
From S2P Require Import Prelude Types OS Cache.

Section Threads.
Context `{Device}.

(** ** Threads *)

(** Where a thread is: the next statement it runs, with its local variables.
    [pkg] is the package its handler looks for. *)
Inductive point :=
| Idle
| AppendLock (pkgData issueTypeData : option cstr)
| AppendCreate (pkgData issueTypeData : option cstr)
| AppendHead (tmp : loc)
| AppendNext (tmp rrdCachecnode : loc)
| AppendPrev (tmp rrdCachecnode : loc)
| AppendSet (tmp : loc)
| AppendUnlock
| FindLock (pkg : cstr)
| FindHead (pkg : cstr)
| FindTest (pkg : cstr) (rrdCachecnode : option loc)
| FindUnlock (pkg : cstr) (found : option loc)
| Found (pkg : cstr) (found : loc)
| Measure (pkg : cstr) (found : loc)
| Allocate (pkg : cstr) (found : loc)
| Compare (pkg : cstr) (found : loc)
| Fields (pkg : cstr) (found : loc)
| CopyIssue (pkg : cstr) (found : loc)
| RemoveLock (pkg : cstr) (found : loc)
| RemoveTest (pkg : cstr) (found : loc)
| RemoveHead (pkg : cstr) (found : loc)
| RemoveHeadPrev (pkg : cstr) (found : loc)
| RemoveLinks (pkg : cstr) (found : loc)
| RemovePrev (pkg : cstr) (found : loc) (rrdCachenextnode rrdCacheprevnode : option loc)
| RemoveNext (pkg : cstr) (found : loc) (rrdCachenextnode rrdCacheprevnode : option loc)
| RemoveUnlock (pkg : cstr) (found : loc)
| Free (pkg : cstr) (found : loc)
| Crashed (f : fault).

(** What a step depends on besides the memory: the call that starts, the block
    [malloc] returns, the status of the installation. *)
Inductive input :=
| Tick
| CallAppend (pkgData issueTypeData : option cstr)
| CallHandler (pkg : cstr)
| Malloc (p : option loc)
| Installed (complete : bool)
| Allocated (ok : bool).

(** The cache, and the thread that holds [rrdCacheMut]. *)
Record shared := Shared { nodes : cache; rrdCacheMut : option nat }.

Definition set_nodes (c : cache) (s : shared) : shared := Shared c (rrdCacheMut s).
Definition set_head (p : option loc) (s : shared) : shared := set_nodes (Cache (heap (nodes s)) p) s.

Definition lock (t : nat) (s : shared) (pc : point) : option (shared * point) :=
  match rrdCacheMut s with None => Some (Shared (nodes s) (Some t), pc) | Some _ => None end.
Definition unlock (s : shared) : shared := Shared (nodes s) None.

(** Reading the node [p]. *)
Definition access (s : shared) (p : loc) (k : cacheData -> shared * point) : shared * point :=
  match heap (nodes s) !! p with Some n => k n | None => (s, Crashed UseAfterFree) end.

(** An assignment to a field of the node [p], unless [p] is [NULL]. *)
Definition assign (s : shared) (p : option loc) (f : cacheData -> cacheData) (pc : point) : shared * point :=
  match p with
  | None => (s, pc)
  | Some p => access s p (fun n => (set_nodes (write_node p (f n) (nodes s)) s, pc))
  end.

(** [append_item] of the thread [t]; [None] when the thread has to wait or is
    elsewhere. *)
Definition append_step (t : nat) (x : input) (s : shared) (pc : point) : option (shared * point) :=
  match pc, x with
  | AppendLock pkgData issueTypeData, Tick => lock t s (AppendCreate pkgData issueTypeData)
  | AppendCreate _ _, Malloc None => Some (s, AppendUnlock)
  | AppendCreate pkgData issueTypeData, Malloc (Some p) =>
      Some (set_nodes (write_node p (CacheData pkgData issueTypeData None None) (nodes s)) s, AppendHead p)
  | AppendHead tmp, Tick =>
      Some (s, match cacheDataNode (nodes s) with
               | Some rrdCachecnode => AppendNext tmp rrdCachecnode
               | None => AppendSet tmp
               end)
  | AppendNext tmp rrdCachecnode, Tick =>
      Some (assign s (Some tmp) (set_next (Some rrdCachecnode)) (AppendPrev tmp rrdCachecnode))
  | AppendPrev tmp rrdCachecnode, Tick => Some (assign s (Some rrdCachecnode) (set_prev (Some tmp)) (AppendSet tmp))
  | AppendSet tmp, Tick => Some (set_head (Some tmp) s, AppendUnlock)
  | AppendUnlock, Tick => Some (unlock s, Idle)
  | _, _ => None
  end.

Definition find_step (t : nat) (x : input) (s : shared) (pc : point) : option (shared * point) :=
  match pc, x with
  | FindLock pkg, Tick => lock t s (FindHead pkg)
  | FindHead pkg, Tick => Some (s, FindTest pkg (cacheDataNode (nodes s)))
  | FindTest pkg None, Tick => Some (s, FindUnlock pkg None)
  | FindTest pkg (Some p), Tick =>
      Some (access s p (fun n => (s, match mdata n with
                                     | Some m => if streq m pkg then FindUnlock pkg (Some p) else FindTest pkg (next n)
                                     | None => FindTest pkg (next n)
                                     end)))
  | FindUnlock pkg found, Tick => Some (unlock s, match found with Some p => Found pkg p | None => Idle end)
  | _, _ => None
  end.

(** [remove_item], with the node freed after the mutex was released. *)
Definition remove_step (t : nat) (x : input) (s : shared) (pc : point) : option (shared * point) :=
  match pc, x with
  | RemoveLock pkg p, Tick => lock t s (RemoveTest pkg p)
  | RemoveTest pkg p, Tick =>
      Some (s, if bool_decide (cacheDataNode (nodes s) = Some p) then RemoveHead pkg p else RemoveLinks pkg p)
  | RemoveHead pkg p, Tick => Some (access s p (fun n => (set_head (next n) s, RemoveHeadPrev pkg p)))
  | RemoveHeadPrev pkg p, Tick => Some (access s p (fun n => assign s (next n) (set_prev None) (RemoveUnlock pkg p)))
  | RemoveLinks pkg p, Tick => Some (access s p (fun n => (s, RemovePrev pkg p (next n) (prev n))))
  | RemovePrev pkg p n r, Tick => Some (assign s n (set_prev r) (RemoveNext pkg p n r))
  | RemoveNext pkg p n r, Tick => Some (assign s r (set_next n) (RemoveUnlock pkg p))
  | RemoveUnlock pkg p, Tick => Some (unlock s, Free pkg p)
  | Free pkg p, Tick =>
      Some (access s p (fun _ => (set_nodes (Cache (delete p (heap (nodes s))) (cacheDataNode (nodes s))) s, Idle)))
  | _, _ => None
  end.

(** What the handler of the build does with the node it found, outside the mutex:
    [_rdmManagerEventHandler] with IARM, [_rdmDownloadEventHandler] without,
    whose event has no status.  It logs the issue; if the installation is
    complete it takes the length of the issue, allocates the message (without
    IARM the result is not checked), with IARM compares the issue with that of a
    deep sleep event, allocates the fields, and copies the issue; if one of
    these fails it returns. *)
Definition handler_step (x : input) (s : shared) (pc : point) : option (shared * point) :=
  match pc, x with
  | Found pkg p, Installed complete =>
      Some (access s p (fun _ => (s, if negb IARMBUS_SUPPORT || complete then Measure pkg p else RemoveLock pkg p)))
  | Measure pkg p, Tick =>
      Some (access s p (fun n => (s, match issueString n with None => Crashed NullDeref | Some _ => Allocate pkg p end)))
  | Allocate pkg p, Allocated ok =>
      Some (s, if ok then Compare pkg p else if IARMBUS_SUPPORT then Idle else Crashed NullDeref)
  | Compare pkg p, Tick => Some (if IARMBUS_SUPPORT then access s p (fun _ => (s, Fields pkg p)) else (s, Fields pkg p))
  | Fields pkg p, Allocated ok => Some (s, if ok then CopyIssue pkg p else Idle)
  | CopyIssue pkg p, Tick => Some (access s p (fun _ => (s, RemoveLock pkg p)))
  | _, _ => None
  end.

Definition advance (t : nat) (x : input) (s : shared) (pc : point) : option (shared * point) :=
  match pc, x with
  | Idle, CallAppend pkgData issueTypeData => Some (s, AppendLock pkgData issueTypeData)
  | Idle, CallHandler pkg => Some (s, FindLock pkg)
  | (AppendLock _ _ | AppendCreate _ _ | AppendHead _ | AppendNext _ _ | AppendPrev _ _ | AppendSet _ | AppendUnlock), _ =>
      append_step t x s pc
  | (FindLock _ | FindHead _ | FindTest _ _ | FindUnlock _ _), _ => find_step t x s pc
  | (Found _ _ | Measure _ _ | Allocate _ _ | Compare _ _ | Fields _ _ | CopyIssue _ _), _ => handler_step x s pc
  | _, _ => remove_step t x s pc
  end.

(** ** Interleavings *)

Record state := State { mem : shared; threads : list point }.

(** What an operation did, at the step from which the others see it. *)
Inductive event :=
| Pushed (e : entry)
| Looked (pkg : cstr) (found : option loc)
| Removed (pkg : cstr) (p : loc).

Definition emitted (s : shared) (pc pc' : point) : option event :=
  match pc, pc' with
  | AppendSet tmp, _ => (fun n => Pushed (Entry tmp (mdata n) (issueString n))) <$> heap (nodes s) !! tmp
  | FindTest _ _, FindUnlock pkg found => Some (Looked pkg found)
  | RemoveHead pkg p, _ | RemoveNext pkg p _ _, _ => Some (Removed pkg p)
  | _, _ => None
  end.

(** The package whose request a thread works on. *)
Definition handles (pc : point) : option cstr :=
  match pc with
  | FindLock pkg | FindHead pkg | FindTest pkg _ | FindUnlock pkg _ | Found pkg _ | Measure pkg _ | Allocate pkg _
  | Compare pkg _ | Fields pkg _ | CopyIssue pkg _
  | RemoveLock pkg _ | RemoveTest pkg _ | RemoveHead pkg _ | RemoveHeadPrev pkg _ | RemoveLinks pkg _
  | RemovePrev pkg _ _ _ | RemoveNext pkg _ _ _ | RemoveUnlock pkg _ | Free pkg _ => Some pkg
  | _ => None
  end.

(** No thread handles the package. *)
Definition alone (ts : list point) (pkg : cstr) : bool := bool_decide (Forall (fun pc => handles pc <> Some pkg) ts).

(** [malloc] returns a block that is not in use, and a handler starts on a
    package that [admits] allows. *)
Definition input_ok (admits : list point -> cstr -> bool) (s : state) (x : input) : bool :=
  match x with
  | Malloc (Some p) => bool_decide (p ∉ dom (heap (nodes (mem s))))
  | CallHandler pkg => admits (threads s) pkg
  | _ => true
  end.

(** One step of the thread [i]. *)
Definition thread_step (admits : list point -> cstr -> bool) (i : nat) (x : input) (s : state)
    : option (option event * state) :=
  pc ← threads s !! i;
  if input_ok admits s x then
    '(m', pc') ← advance i x (mem s) pc;
    Some (emitted (mem s) pc pc', State m' (<[i := pc']> (threads s)))
  else None.

Definition start (n : nat) : state := State (Shared initCache None) (replicate n Idle).

(** The executions, with the operations in the order in which they take effect. *)
Inductive exec (admits : list point -> cstr -> bool) : list event -> state -> Prop :=
| exec_start n : exec admits [] (start n)
| exec_step evs s i x ev s' :
    exec admits evs s -> thread_step admits i x s = Some (ev, s') -> exec admits (evs ++ option_list ev) s'.

(** The same, computed from the threads that run and their inputs. *)
Fixpoint schedule (admits : list point -> cstr -> bool) (xs : list (nat * input)) (s : state)
    : option (list event * state) :=
  match xs with
  | [] => Some ([], s)
  | (i, x) :: xs' =>
      '(ev, s') ← thread_step admits i x s;
      '(evs, s'') ← schedule admits xs' s';
      Some (option_list ev ++ evs, s'')
  end.

(** ** The specification: atomic operations on a list *)

Definition locs (l : list entry) : list loc := e_loc <$> l.

Inductive list_step : list entry -> event -> list entry -> Prop :=
| list_push e l : e_loc e ∉ locs l -> list_step l (Pushed e) (e :: l)
| list_look pkg l : list_step l (Looked pkg (e_loc <$> List.find (has_pkg pkg) l)) l
| list_remove pkg l1 e l2 : e_pkg e = Some pkg -> list_step (l1 ++ e :: l2) (Removed pkg (e_loc e)) (l1 ++ l2).

Inductive list_run : list event -> list entry -> Prop :=
| list_start : list_run [] []
| list_next evs l ev l' : list_run evs l -> list_step l ev l' -> list_run (evs ++ [ev]) l'.

(** No event, or one. *)
Definition list_moves (l : list entry) (ev : option event) (l' : list entry) : Prop :=
  match ev with Some ev => list_step l ev l' | None => l' = l end.

(** ** The invariant *)

(** The list from the head, ended by [NULL]. *)
Definition linked (c : cache) (l : list entry) : Prop := exists lst, seg (heap c) None (cacheDataNode c) l lst None.

(** The node a thread has allocated and not yet linked, or unlinked and not yet freed. *)
Definition owned (pc : point) : list loc :=
  match pc with
  | AppendHead tmp | AppendNext tmp _ | AppendPrev tmp _ | AppendSet tmp => [tmp]
  | RemoveHeadPrev _ p | RemoveUnlock _ p | Free _ p => [p]
  | _ => []
  end.

(** The node in the list a thread has a pointer to. *)
Definition pinned (pc : point) : option (cstr * loc) :=
  match pc with
  | FindUnlock pkg (Some p) | Found pkg p | Measure pkg p | Allocate pkg p | Compare pkg p | Fields pkg p
  | CopyIssue pkg p | RemoveLock pkg p | RemoveTest pkg p
  | RemoveHead pkg p | RemoveLinks pkg p | RemovePrev pkg p _ _ | RemoveNext pkg p _ _ => Some (pkg, p)
  | _ => None
  end.

(** Inside a critical section. *)
Definition critical (pc : point) : bool :=
  match pc with
  | Idle | AppendLock _ _ | FindLock _ | Found _ _ | Measure _ _ | Allocate _ _ | Compare _ _ | Fields _ _ | CopyIssue _ _
  | RemoveLock _ _ | Free _ _ | Crashed _ => false
  | _ => true
  end.

(** A node that only its thread knows. *)
Definition private (c : cache) (tmp : loc) (nxt : option loc) : Prop :=
  exists pkg issue, heap c !! tmp = Some (CacheData pkg issue nxt None).

(** The links of the nodes when the thread in the critical section is at [pc];
    [l] is the list the others will see. *)
Definition shape (pc : point) (c : cache) (l : list entry) : Prop :=
  let h := heap c in
  let hd := cacheDataNode c in
  match pc with
  | AppendHead tmp => linked c l /\ private c tmp None
  | AppendNext tmp n => linked c l /\ hd = Some n /\ private c tmp None
  | AppendPrev tmp n => linked c l /\ hd = Some n /\ private c tmp (Some n)
  | AppendSet tmp => private c tmp hd /\ exists lst, seg h (Some tmp) hd l lst None
  | FindTest pkg q =>
      exists l1 l2 m lst, l = l1 ++ l2 /\ List.find (has_pkg pkg) l1 = None /\
        seg h None hd l1 m q /\ seg h m q l2 lst None
  | RemoveHead _ p => linked c l /\ hd = Some p
  | RemoveHeadPrev _ p =>
      (exists n, h !! p = Some n /\ next n = hd) /\ exists lst, seg h (Some p) hd l lst None
  | RemoveLinks _ p => linked c l /\ hd <> Some p
  | RemovePrev _ p n r =>
      exists l1 e l2 lst, l = l1 ++ e :: l2 /\ e_loc e = p /\ r <> None /\ is_Some (h !! p) /\
        seg h None hd l1 r (Some p) /\ seg h (Some p) n l2 lst None
  | RemoveNext _ p n r =>
      exists l1 e l2 lst, l = l1 ++ e :: l2 /\ e_loc e = p /\ r <> None /\ is_Some (h !! p) /\
        seg h None hd l1 r (Some p) /\ seg h r n l2 lst None
  | _ => linked c l
  end.

(** The blocks of the heap, each once: those of the list and those in [o]. *)
Definition layout (h : gmap loc cacheData) (l : list entry) (o : list loc) : Prop :=
  NoDup (locs l ++ o) /\ forall p, is_Some (h !! p) <-> p ∈ locs l ++ o.

Definition pin_ok (l : list entry) (pc : point) : Prop :=
  forall pkg p, pinned pc = Some (pkg, p) -> exists e, e ∈ l /\ e_loc e = p /\ e_pkg e = Some pkg.

Definition not_stale (pc : point) : Prop := forall f, pc = Crashed f -> f = NullDeref.

(** ** Lemmas *)

(** *** The layout *)

Lemma layout_in h l o p : layout h l o -> p ∈ locs l ++ o -> is_Some (h !! p).
Proof. intros [_ Hd]. apply Hd. Qed.

Lemma layout_entry h l o e : layout h l o -> e ∈ l -> is_Some (h !! e_loc e).
Proof. intros Hl He. apply (layout_in _ _ _ _ Hl), elem_of_app. left. by apply list_elem_of_fmap_2. Qed.

Lemma layout_write h l o p n : layout h l o -> is_Some (h !! p) -> layout (<[p := n]> h) l o.
Proof.
  intros [Hnd Hd] Hp. split; [done|]. intros q. rewrite <- Hd.
  destruct (decide (p = q)) as [<-|Hne]; [rewrite lookup_insert_eq; by split|by rewrite lookup_insert_ne].
Qed.

Lemma layout_perm h l o l' o' : layout h l o -> locs l ++ o ≡ₚ locs l' ++ o' -> layout h l' o'.
Proof.
  intros [Hnd Hd] Hp. split; [by rewrite <- Hp|]. intros q. rewrite Hd. by rewrite Hp.
Qed.

(** A fresh block for a thread, and a block that is freed. *)
Lemma layout_alloc h l o p n : layout h l o -> h !! p = None -> layout (<[p := n]> h) l (p :: o).
Proof.
  intros [Hnd Hd] Hp. assert (p ∉ locs l ++ o) as Hn by (rewrite <- Hd, Hp; by intros [? ?]).
  split.
  - rewrite Permutation_app_comm. cbn. apply list.NoDup_cons. rewrite Permutation_app_comm at 2. by rewrite (Permutation_app_comm o).
  - intros q. rewrite Permutation_app_comm. cbn. rewrite elem_of_cons, (Permutation_app_comm o), <- Hd.
    destruct (decide (p = q)) as [<-|Hne]; [rewrite lookup_insert_eq; naive_solver|].
    rewrite lookup_insert_ne by done. naive_solver.
Qed.

Lemma layout_free h l o p : layout h l (p :: o) -> layout (delete p h) l o.
Proof.
  intros Hl. apply (layout_perm _ _ _ [] (p :: locs l ++ o)) in Hl; [|cbn; by rewrite Permutation_middle].
  destruct Hl as [[Hn Hnd]%list.NoDup_cons Hd]. split; [done|]. intros q.
  destruct (decide (p = q)) as [<-|Hne].
  - rewrite lookup_delete_eq. split; [by intros [? ?]|done].
  - rewrite lookup_delete_ne by done. rewrite Hd. cbn. rewrite elem_of_cons. naive_solver.
Qed.

Lemma layout_head_fresh h l o p : layout h l (p :: o) -> p ∉ locs l.
Proof. intros [Hnd _] Hp. apply list.NoDup_app in Hnd as (_ & Hdis & _). apply (Hdis p Hp), list_elem_of_here. Qed.

Lemma layout_nodup h l o : layout h l o -> NoDup (locs l).
Proof. intros [Hnd _]. by apply list.NoDup_app in Hnd as (? & _). Qed.

(** *** Nodes and links *)

Lemma locs_in l e : e ∈ l -> e_loc e ∈ locs l.
Proof. apply list_elem_of_fmap_2. Qed.

Lemma locs_inj l e e' : NoDup (locs l) -> e ∈ l -> e' ∈ l -> e_loc e = e_loc e' -> e = e'.
Proof.
  intros Hnd (i & Hi)%list_elem_of_lookup (j & Hj)%list_elem_of_lookup Heq.
  assert (i = j) as ->; [|congruence]. eapply (NoDup_lookup (locs l)); [done| |]; unfold locs; rewrite list_lookup_fmap.
  - by rewrite Hi.
  - rewrite Hj. cbn. by rewrite Heq.
Qed.

Lemma seg_write h prv hd l lst nxt p n :
  p ∉ locs l -> seg h prv hd l lst nxt -> seg (<[p := n]> h) prv hd l lst nxt.
Proof. intros Hp. apply seg_ext. intros e He. apply lookup_insert_ne. intros ->. by apply Hp, locs_in. Qed.

Lemma private_other c tmp nxt p n : p <> tmp -> private c tmp nxt -> private (write_node p n c) tmp nxt.
Proof. intros Hne (pkg & issue & Hn). exists pkg, issue. cbn. by rewrite lookup_insert_ne. Qed.

Lemma seg_head_in h prv p l lst : seg h prv (Some p) l lst None -> p ∈ locs l.
Proof. destruct l as [|e l]; cbn; [by intros [? _]|]. intros ([= ->] & _). apply list_elem_of_here. Qed.

(** The [prev] link of the first node of a list. *)
Lemma seg_write_head h prv p l lst q n :
  NoDup (locs l) -> seg h prv (Some p) l lst None -> h !! p = Some n ->
  exists lst', seg (<[p := set_prev q n]> h) q (Some p) l lst' None.
Proof.
  intros Hnd Hs Hn. destruct (seg_set_prev _ _ _ _ _ q Hnd Hs) as [lst' Hs']. exists lst'. cbn in Hs'. by rewrite Hn in Hs'.
Qed.

(** The links depend on the nodes of the list and on those of the thread. *)
Lemma shape_frame pc c c' l :
  (forall q, q ∈ locs l ++ owned pc -> heap c' !! q = heap c !! q) -> cacheDataNode c' = cacheDataNode c ->
  shape pc c l -> shape pc c' l.
Proof.
  intros Hext Hhd.
  assert (forall e, e ∈ l -> heap c' !! e_loc e = heap c !! e_loc e) as Hl.
  { intros e He. apply Hext, elem_of_app. left. by apply locs_in. }
  assert (forall l1, l1 ⊆ l -> forall e, e ∈ l1 -> heap c' !! e_loc e = heap c !! e_loc e) as Hsub by auto.
  assert (linked c l -> linked c' l) as Hlinked.
  { intros [lst Hs]. exists lst. rewrite Hhd. eapply seg_ext; [|exact Hs]. exact Hl. }
  assert (forall tmp nxt, tmp ∈ owned pc -> private c tmp nxt -> private c' tmp nxt) as Hpriv.
  { intros tmp nxt Ht (pkg & issue & Hn). exists pkg, issue. rewrite Hext; [done|]. apply elem_of_app. by right. }
  destruct pc; cbn [shape owned] in *; rewrite ?Hhd; auto.
  - intros [H1 H2]. split; [auto|]. apply Hpriv; [apply list_elem_of_here|done].
  - intros (H1 & H2 & H3). split_and!; auto. apply Hpriv; [apply list_elem_of_here|done].
  - intros (H1 & H2 & H3). split_and!; auto. apply Hpriv; [apply list_elem_of_here|done].
  - intros (H1 & lst & H2). split; [apply Hpriv; [apply list_elem_of_here|done]|]. exists lst. by eapply seg_ext.
  - intros (l1 & l2 & m & lst & -> & Hf & H1 & H2). exists l1, l2, m, lst.
    split_and!; [done|done|eapply seg_ext, H1|eapply seg_ext, H2]; apply Hsub; set_solver.
  - intros [H1 H2]. auto.
  - intros [(n & Hn & Hnx) (lst & Hs)]. split.
    + exists n. rewrite Hext by (apply elem_of_app; right; apply list_elem_of_here). done.
    + exists lst. by eapply seg_ext.
  - intros [H1 H2]. auto.
  - intros (l1 & e & l2 & lst & -> & <- & Hr & [n0 Hn] & H1 & H2). exists l1, e, l2, lst.
    split_and!; [done..|rewrite Hl by set_solver; eauto|eapply seg_ext, H1|eapply seg_ext, H2]; apply Hsub; set_solver.
  - intros (l1 & e & l2 & lst & -> & <- & Hr & [n0 Hn] & H1 & H2). exists l1, e, l2, lst.
    split_and!; [done..|rewrite Hl by set_solver; eauto|eapply seg_ext, H1|eapply seg_ext, H2]; apply Hsub; set_solver.
Qed.

(** *** Steps inside a critical section *)

(** The step from [pc] to [pc'] is the operation it emits, on the list [l];
    [o] are the blocks of the other threads. *)
Definition step_good (l : list entry) (o : list loc) (s : shared) (pc : point) (s' : shared) (pc' : point) : Prop :=
  exists l', list_moves l (emitted s pc pc') l' /\ shape pc' (nodes s') l' /\ layout (heap (nodes s')) l' (owned pc' ++ o) /\
    pin_ok l' pc' /\ (forall f, pc' <> Crashed f).

Lemma unchanged_good l o s pc s' pc' :
  emitted s pc pc' = None -> shape pc' (nodes s') l -> layout (heap (nodes s')) l (owned pc' ++ o) -> pin_ok l pc' ->
  (forall f, pc' <> Crashed f) -> step_good l o s pc s' pc'.
Proof. intros He Hs Hl Hp Hc. exists l. rewrite He. by split_and!. Qed.

Lemma access_good s p n k : heap (nodes s) !! p = Some n -> access s p k = k n.
Proof. unfold access. by intros ->. Qed.

Lemma lock_inv t s pc r : lock t s pc = Some r -> r = (Shared (nodes s) (Some t), pc).
Proof. unfold lock. destruct (rrdCacheMut s); congruence. Qed.

(** The tactic for steps that change neither the nodes nor the list. *)
Ltac unchanged :=
  apply unchanged_good; cbn [emitted owned shape critical pinned nodes set_nodes unlock app]; try done;
  try (intros ? ? ?; simplify_eq/=; by eauto).

Lemma append_good t x s pc s' pc' l o :
  append_step t x s pc = Some (s', pc') -> (forall p, x = Malloc (Some p) -> p ∉ dom (heap (nodes s))) ->
  shape pc (nodes s) l -> layout (heap (nodes s)) l (owned pc ++ o) -> step_good l o s pc s' pc'.
Proof.
  intros Hstep Hx Hs Hl. destruct pc; try discriminate Hstep; destruct x as [| | |[p|]| |]; try discriminate Hstep;
    cbn [append_step] in Hstep; cbn [shape owned app] in Hs, Hl.
  - apply lock_inv in Hstep as [= -> ->]. by unchanged.
  - injection Hstep as <- <-. specialize (Hx p eq_refl). apply not_elem_of_dom in Hx. unchanged.
    + split; [|exists pkgData, issueTypeData; cbn; by rewrite lookup_insert_eq].
      destruct Hs as [lst Hs]. exists lst. cbn. apply seg_write; [|done].
      intros Hin. destruct (layout_in _ _ _ p Hl) as [n Hn]; [by apply elem_of_app; left|]. congruence.
    + by apply layout_alloc.
  - injection Hstep as <- <-. by unchanged.
  - injection Hstep as <- <-. destruct Hs as [[lst Hs] Hp].
    destruct (cacheDataNode (nodes s)) as [n|] eqn:Hhd; unchanged.
    + split_and!; [|done..]. exists lst. by rewrite Hhd.
    + rewrite Hhd. split; [done|]. destruct l; [by eexists|]. by destruct Hs as [? _].
  - destruct Hs as (Hs & Hhd & pkg & issue & Hn). unfold assign in Hstep. rewrite (access_good _ _ _ _ Hn) in Hstep.
    injection Hstep as <- <-. unchanged.
    + split_and!; [|done|exists pkg, issue; cbn; by rewrite lookup_insert_eq]. destruct Hs as [lst Hs]. exists lst. cbn.
      apply seg_write; [by eapply layout_head_fresh|done].
    + apply layout_write; eauto.
  - destruct Hs as ([lst Hs] & Hhd & Hp). rewrite Hhd in Hs. pose proof (seg_head_in _ _ _ _ _ Hs) as Hin.
    assert (rrdCachecnode <> tmp) as Hne by (intros ->; by apply (layout_head_fresh _ _ _ _ Hl)).
    destruct (layout_in _ _ _ rrdCachecnode Hl) as [n Hn]; [by apply elem_of_app; left|].
    unfold assign in Hstep. rewrite (access_good _ _ _ _ Hn) in Hstep. injection Hstep as <- <-. unchanged.
    + split; cbn; rewrite Hhd; [by apply private_other|]. eapply seg_write_head; [by eapply layout_nodup|done..].
    + apply layout_write; eauto.
  - injection Hstep as <- <-. destruct Hs as [(pkg & issue & Hn) [lst Hs]].
    exists (Entry tmp pkg issue :: l). cbn [emitted]. rewrite Hn. cbn [fmap option_fmap option_map list_moves mdata issueString].
    split_and!; cbn [shape owned app nodes set_head set_nodes heap].
    + apply list_push. by eapply layout_head_fresh.
    + exists lst. cbn. eauto.
    + eapply layout_perm; [exact Hl|]. cbn. by rewrite Permutation_middle.
    + by intros ? ? ?.
    + done.
  - injection Hstep as <- <-. by unchanged.
Qed.

(** Going on with the search behind an entry of another package. *)
Lemma find_next pkg l1 e : List.find (has_pkg pkg) l1 = None -> has_pkg pkg e = false ->
  List.find (has_pkg pkg) (l1 ++ [e]) = None.
Proof. induction l1 as [|a l1 IH]; cbn; [by intros _ ->|]. destruct (has_pkg pkg a); [done|]. auto. Qed.

Lemma find_first pkg l1 e l2 : List.find (has_pkg pkg) l1 = None -> has_pkg pkg e = true ->
  List.find (has_pkg pkg) (l1 ++ e :: l2) = Some e.
Proof. induction l1 as [|a l1 IH]; cbn; [by intros _ ->|]. destruct (has_pkg pkg a); [done|]. auto. Qed.

Lemma find_good t x s pc s' pc' l o :
  find_step t x s pc = Some (s', pc') -> shape pc (nodes s) l -> layout (heap (nodes s)) l (owned pc ++ o) -> pin_ok l pc ->
  step_good l o s pc s' pc'.
Proof.
  intros Hstep Hs Hl Hp. destruct pc; try discriminate Hstep; destruct x; try (by destruct rrdCachecnode);
    try discriminate Hstep; cbn [find_step] in Hstep; cbn [shape owned app] in Hs, Hl.
  - apply lock_inv in Hstep as [= -> ->]. by unchanged.
  - injection Hstep as <- <-. unchanged. destruct Hs as [lst Hs]. exists [], l, None, lst. by split_and!.
  - destruct Hs as (l1 & l2 & m & lst & -> & Hf & H1 & H2). destruct rrdCachecnode as [p|].
    + destruct l2 as [|e l2]; [by destruct H2|]. cbn [seg] in H2. destruct H2 as ([= ->] & n & Hn & H2).
      rewrite (access_good _ _ _ _ Hn) in Hstep. cbn [mdata next] in Hstep.
      destruct (has_pkg pkg e) eqn:He.
      * assert (s' = s /\ pc' = FindUnlock pkg (Some (e_loc e))) as [-> ->].
        { unfold has_pkg in He. destruct (e_pkg e) as [m'|]; [|done]. rewrite He in Hstep. by injection Hstep as <- <-. }
        exists (l1 ++ e :: l2). cbn [emitted list_moves]. split_and!; [| |done| |done].
        -- pose proof (list_look pkg (l1 ++ e :: l2)) as HL. by rewrite (find_first _ _ _ _ Hf He) in HL.
        -- exists lst. apply seg_app. exists m, (Some (e_loc e)). split; [done|]. cbn. eauto.
        -- intros pkg' p [= <- <-]. exists e. split_and!; [set_solver|done|].
           unfold has_pkg in He. destruct (e_pkg e) as [m'|]; [|done]. by apply streq_true in He as ->.
      * assert (s' = s /\ pc' = FindTest pkg n) as [-> ->].
        { unfold has_pkg in He. destruct (e_pkg e) as [m'|]; [|by injection Hstep as <- <-].
          rewrite He in Hstep. by injection Hstep as <- <-. }
        unchanged. exists (l1 ++ [e]), l2, (Some (e_loc e)), lst. split_and!; [by rewrite <- app_assoc|by apply find_next| |done].
        apply seg_app. exists m, (Some (e_loc e)). split; [done|]. cbn. eauto.
    + injection Hstep as <- <-. destruct l2 as [|e l2]; [|by destruct H2 as [? _]]. rewrite app_nil_r in *.
      exists l1. cbn [emitted list_moves]. split_and!; [| |done|by intros ? ? ?|done].
      * pose proof (list_look pkg l1) as HL. by rewrite Hf in HL.
      * by exists m.
  - injection Hstep as <- <-. destruct found as [p|]; unchanged.
Qed.

(** Where the node of a handler is in the list. *)
Lemma pin_split l pc pkg p : pin_ok l pc -> pinned pc = Some (pkg, p) ->
  exists l1 e l2, l = l1 ++ e :: l2 /\ e_loc e = p /\ e_pkg e = Some pkg.
Proof. intros Hp Hpc. destruct (Hp _ _ Hpc) as (e & (l1 & l2 & ->)%list_elem_of_split & He & Hpkg). by exists l1, e, l2. Qed.

(** The node leaves the list and belongs to its thread. *)
Lemma removed_good l1 e l2 o s pc s' pc' pkg :
  e_pkg e = Some pkg -> emitted s pc pc' = Some (Removed pkg (e_loc e)) -> shape pc' (nodes s') (l1 ++ l2) ->
  layout (heap (nodes s')) (l1 ++ e :: l2) o -> owned pc' = [e_loc e] -> pinned pc' = None ->
  (forall f, pc' <> Crashed f) -> step_good (l1 ++ e :: l2) o s pc s' pc'.
Proof.
  intros He Hem Hs Hl Ho Hpin Hc. exists (l1 ++ l2). rewrite Hem, Ho. split_and!; [by apply list_remove|done| | |done].
  - eapply layout_perm; [exact Hl|]. unfold locs. rewrite !fmap_app. cbn [fmap list_fmap].
    rewrite <- !app_assoc. apply Permutation_app_head. cbn. by rewrite Permutation_middle.
  - intros ? ?. by rewrite Hpin.
Qed.

(** The two sides of a list at a node. *)
Lemma split_unique l1 e l2 l1' e' l2' :
  NoDup (locs (l1 ++ e :: l2)) -> l1 ++ e :: l2 = l1' ++ e' :: l2' -> e_loc e = e_loc e' -> l1 = l1' /\ e = e' /\ l2 = l2'.
Proof.
  intros Hnd Heq He. assert (e = e') as <-.
  { eapply locs_inj; [exact Hnd|set_solver|rewrite Heq; set_solver|done]. }
  revert l1' Heq. unfold locs in Hnd.
  induction l1 as [|a l1 IH]; intros [|a' l1'] Heq; cbn in Heq, Hnd.
  - by injection Heq as <-.
  - injection Heq as <- ->. exfalso. apply list.NoDup_cons in Hnd as [Hn _]. apply Hn. rewrite fmap_app. set_solver.
  - injection Heq as -> <-. exfalso. apply list.NoDup_cons in Hnd as [Hn _]. apply Hn. rewrite fmap_app. set_solver.
  - injection Heq as <- Heq. apply list.NoDup_cons in Hnd as [_ Hnd]. by destruct (IH Hnd l1' Heq) as (-> & _ & ->).
Qed.

(** The links around the node [p] that is taken out behind the head. *)
Lemma links_split c l1 e l2 lst :
  seg (heap c) None (cacheDataNode c) (l1 ++ e :: l2) lst None -> cacheDataNode c <> Some (e_loc e) ->
  exists n r, heap c !! e_loc e = Some (CacheData (e_pkg e) (e_issue e) n r) /\ r <> None /\
    seg (heap c) None (cacheDataNode c) l1 r (Some (e_loc e)) /\ seg (heap c) (Some (e_loc e)) n l2 lst None.
Proof.
  intros (r & m & H1 & Hm & n & Hn & H2)%seg_app Hhd. subst m. exists n, r. split_and!; [done| |done..].
  destruct l1 as [|e1 l1 _] using rev_ind; [by destruct H1|]. by rewrite (seg_last _ _ _ _ _ _ _ H1).
Qed.

Lemma remove_prev_good t x s pkg p n r s' pc' l o :
  remove_step t x s (RemovePrev pkg p n r) = Some (s', pc') -> shape (RemovePrev pkg p n r) (nodes s) l ->
  layout (heap (nodes s)) l o -> pin_ok l (RemovePrev pkg p n r) -> step_good l o s (RemovePrev pkg p n r) s' pc'.
Proof.
  intros Hstep (l1 & e & l2 & lst & -> & <- & Hr & Hp & H1 & H2) Hl Hpin. destruct x; try discriminate Hstep.
  pose proof (layout_nodup _ _ _ Hl) as Hnd. cbn [remove_step] in Hstep. destruct n as [n|].
  - pose proof (seg_head_in _ _ _ _ _ H2) as Hn.
    assert (n ∉ locs l1 /\ n <> e_loc e /\ NoDup (locs l2)) as (Hn1 & Hne & Hnd2).
    { unfold locs in Hnd, Hn. rewrite fmap_app in Hnd. apply list.NoDup_app in Hnd as (_ & Hd & Hnd).
      cbn in Hnd. apply list.NoDup_cons in Hnd as [He Hnd]. split_and!; [|by intros ->|done].
      intros Hin. apply (Hd _ Hin). cbn. by apply list_elem_of_further. }
    destruct (layout_in _ _ _ n Hl) as [nd Hnode].
    { unfold locs in *. rewrite fmap_app. cbn. set_solver. }
    cbn [assign] in Hstep. rewrite (access_good _ _ _ _ Hnode) in Hstep. injection Hstep as <- <-.
    unchanged; [|by apply layout_write; eauto]. cbn [write_node heap cacheDataNode].
    destruct (seg_write_head _ _ _ _ _ r _ Hnd2 H2 Hnode) as [lst' H2'].
    exists l1, e, l2, lst'. split_and!; [done..| | |done].
    + by rewrite lookup_insert_ne.
    + by apply seg_write.
  - injection Hstep as <- <-. unchanged. destruct l2 as [|e2 l2]; [|by destruct H2 as [? _]].
    exists l1, e, [], r. by split_and!.
Qed.

Lemma remove_next_good t x s pkg p n r s' pc' l o :
  remove_step t x s (RemoveNext pkg p n r) = Some (s', pc') -> shape (RemoveNext pkg p n r) (nodes s) l ->
  layout (heap (nodes s)) l o -> pin_ok l (RemoveNext pkg p n r) -> step_good l o s (RemoveNext pkg p n r) s' pc'.
Proof.
  intros Hstep (l1 & e & l2 & lst & -> & <- & Hr & Hp & H1 & H2) Hl Hpin. destruct x; try discriminate Hstep.
  pose proof (layout_nodup _ _ _ Hl) as Hnd. cbn [remove_step] in Hstep.
  destruct (pin_split _ _ _ _ Hpin eq_refl) as (l1' & e' & l2' & Heq & He & Hpkg).
  destruct (split_unique _ _ _ _ _ _ Hnd Heq (eq_sym He)) as (<- & <- & <-).
  destruct l1 as [|e1 l1 _] using rev_ind; [by destruct H1|].
  pose proof (seg_last _ _ _ _ _ _ _ H1) as ->.
  unfold locs in Hnd. rewrite fmap_app in Hnd. apply list.NoDup_app in Hnd as (Hnd1 & Hd & [He2 Hnd2]%list.NoDup_cons).
  assert (e_loc e1 ∉ locs l2) as Hn1.
  { intros Hin. apply (Hd (e_loc e1)); [rewrite fmap_app; set_solver|]. cbn. by apply list_elem_of_further. }
  destruct (layout_entry _ _ _ e1 Hl) as [n1 Hnode]; [set_solver|].
  cbn [assign] in Hstep. rewrite (access_good _ _ _ _ Hnode) in Hstep. injection Hstep as <- <-.
  eapply removed_good; cbn [nodes set_nodes write_node heap]; [done|done| |by apply layout_write; eauto|done..].
  cbn [shape]. exists lst. apply seg_app. exists (Some (e_loc e1)), n. cbn [heap cacheDataNode write_node]. split.
  - pose proof (seg_set_next _ _ _ _ _ _ n Hnd1 H1) as H1'. cbn [upd] in H1'. by rewrite Hnode in H1'.
  - by apply seg_write.
Qed.

(** The head pointer moves to the next node; then that node loses its [prev]. *)
Lemma remove_head_good t x s pkg p s' pc' l o :
  remove_step t x s (RemoveHead pkg p) = Some (s', pc') -> shape (RemoveHead pkg p) (nodes s) l ->
  layout (heap (nodes s)) l o -> pin_ok l (RemoveHead pkg p) -> step_good l o s (RemoveHead pkg p) s' pc'.
Proof.
  intros Hstep [[lst Hs] Hhd] Hl Hpin. destruct x; try discriminate Hstep. cbn [remove_step] in Hstep.
  destruct (pin_split _ _ _ _ Hpin eq_refl) as (l1 & e & l2 & -> & <- & Hpkg).
  assert (l1 = []) as ->.
  { destruct l1 as [|e1 l1]; [done|]. cbn in Hs. destruct Hs as [Hs _]. rewrite Hhd in Hs. injection Hs as Hs.
    pose proof (layout_nodup _ _ _ Hl) as Hnd. unfold locs in Hnd. cbn in Hnd. apply list.NoDup_cons in Hnd as [Hn _].
    destruct Hn. rewrite <- Hs, fmap_app. set_solver. }
  cbn in Hs. destruct Hs as (_ & n & Hn & Hs). rewrite (access_good _ _ _ _ Hn) in Hstep. injection Hstep as <- <-.
  eapply (removed_good []); [done|done| |done..]. cbn. split; [eauto|by exists lst].
Qed.

Lemma remove_head_prev_good t x s pkg p s' pc' l o :
  remove_step t x s (RemoveHeadPrev pkg p) = Some (s', pc') -> shape (RemoveHeadPrev pkg p) (nodes s) l ->
  layout (heap (nodes s)) l (p :: o) -> step_good l o s (RemoveHeadPrev pkg p) s' pc'.
Proof.
  intros Hstep [(n & Hn & Hnx) [lst Hs]] Hl. destruct x; try discriminate Hstep. cbn [remove_step] in Hstep.
  rewrite (access_good _ _ _ _ Hn), Hnx in Hstep. destruct (cacheDataNode (nodes s)) as [q|] eqn:Hhd.
  - pose proof (seg_head_in _ _ _ _ _ Hs) as Hq.
    destruct (layout_in _ _ _ q Hl) as [nq Hnode]; [by apply elem_of_app; left|].
    cbn [assign] in Hstep. rewrite (access_good _ _ _ _ Hnode) in Hstep. injection Hstep as <- <-.
    unchanged; [|by apply layout_write; eauto]. unfold linked. cbn. rewrite Hhd.
    eapply seg_write_head; [by eapply layout_nodup|done..].
  - injection Hstep as <- <-. unchanged. destruct l as [|e l]; [|by destruct Hs as [? _]]. exists None. by rewrite Hhd.
Qed.

Lemma remove_links_good t x s pkg p s' pc' l o :
  remove_step t x s (RemoveLinks pkg p) = Some (s', pc') -> shape (RemoveLinks pkg p) (nodes s) l ->
  layout (heap (nodes s)) l o -> pin_ok l (RemoveLinks pkg p) -> step_good l o s (RemoveLinks pkg p) s' pc'.
Proof.
  intros Hstep [[lst Hs] Hhd] Hl Hpin. destruct x; try discriminate Hstep. cbn [remove_step] in Hstep.
  destruct (pin_split _ _ _ _ Hpin eq_refl) as (l1 & e & l2 & -> & <- & Hpkg).
  destruct (links_split _ _ _ _ _ Hs Hhd) as (n & r & Hn & Hr & H1 & H2).
  rewrite (access_good _ _ _ _ Hn) in Hstep. injection Hstep as <- <-. unchanged.
  exists l1, e, l2, lst. split_and!; eauto.
Qed.

Lemma remove_good t x s pc s' pc' l o :
  remove_step t x s pc = Some (s', pc') -> critical pc || critical pc' = true ->
  shape pc (nodes s) l -> layout (heap (nodes s)) l (owned pc ++ o) -> pin_ok l pc -> step_good l o s pc s' pc'.
Proof.
  intros Hstep Hc Hs Hl Hp. destruct pc; try discriminate Hstep.
  - destruct x; try discriminate Hstep. apply lock_inv in Hstep as [= -> ->]. by unchanged.
  - destruct x; try discriminate Hstep. injection Hstep as <- <-. case_bool_decide; by unchanged.
  - by eapply remove_head_good.
  - by eapply remove_head_prev_good.
  - by eapply remove_links_good.
  - by eapply remove_prev_good.
  - by eapply remove_next_good.
  - destruct x; try discriminate Hstep. injection Hstep as <- <-. by unchanged.
  - destruct x; try discriminate Hstep. unfold remove_step, access in Hstep.
    destruct (heap (nodes s) !! found); injection Hstep as <- <-; discriminate Hc.
Qed.

(** A handler with the node it found: it stays outside the critical sections and
    changes nothing. *)
Definition handling (pc : point) : bool :=
  match pc with
  | Found _ _ | Measure _ _ | Allocate _ _ | Compare _ _ | Fields _ _ | CopyIssue _ _ => true
  | _ => false
  end.

Lemma handler_outside x s pc s' pc' : handler_step x s pc = Some (s', pc') -> critical pc' = false.
Proof.
  intros Hstep. destruct pc, x; try discriminate Hstep; cbn [handler_step] in Hstep; unfold access in Hstep;
    repeat (case_match; simplify_eq/=); done.
Qed.

Lemma handler_good x s pc s' pc' pkg p n :
  handler_step x s pc = Some (s', pc') -> pinned pc = Some (pkg, p) -> heap (nodes s) !! p = Some n ->
  s' = s /\ emitted s pc pc' = None /\ owned pc' = [] /\ (pinned pc' = pinned pc \/ pinned pc' = None) /\ not_stale pc'.
Proof.
  intros Hstep Hpin Hn. unfold not_stale.
  destruct pc; try discriminate Hstep; destruct x; try discriminate Hstep; injection Hpin as <- <-;
    cbn [handler_step] in Hstep; unfold access in Hstep; rewrite ?Hn in Hstep; cbn [emitted owned pinned];
    repeat (case_match; try discriminate); injection Hstep as <- <-; split_and!; auto; by intros f [= <-].
Qed.

(** A step of a critical section, from locking to unlocking. *)
Lemma critical_good t x s pc s' pc' l o :
  advance t x s pc = Some (s', pc') -> critical pc || critical pc' = true ->
  (forall p, x = Malloc (Some p) -> p ∉ dom (heap (nodes s))) ->
  shape pc (nodes s) l -> layout (heap (nodes s)) l (owned pc ++ o) -> pin_ok l pc -> step_good l o s pc s' pc'.
Proof.
  intros Hstep Hc Hx Hs Hl Hp.
  destruct pc; first [by apply (append_good t x)|by apply (find_good t x)|by apply (remove_good t x)|idtac].
  1: destruct x; try discriminate Hstep; injection Hstep as <- <-; discriminate Hc.
  all: match type of Hstep with advance _ _ _ ?pc = _ => pose proof (handler_outside x s pc s' pc' Hstep) as Hout end.
  all: cbn [critical orb] in Hc; congruence.
Qed.

(** *** Steps outside the critical sections *)

Lemma noncritical_shape pc c l : critical pc = false -> shape pc c l <-> linked c l.
Proof. by destruct pc. Qed.

Lemma quiet_good t x s pc s' pc' l o :
  advance t x s pc = Some (s', pc') -> critical pc || critical pc' = false ->
  layout (heap (nodes s)) l (owned pc ++ o) -> pin_ok l pc ->
  emitted s pc pc' = None /\ rrdCacheMut s' = rrdCacheMut s /\ cacheDataNode (nodes s') = cacheDataNode (nodes s) /\
  (forall q, q ∈ locs l ++ o -> heap (nodes s') !! q = heap (nodes s) !! q) /\
  layout (heap (nodes s')) l (owned pc' ++ o) /\ pin_ok l pc' /\ not_stale pc'.
Proof.
  intros Hstep Hc Hl Hp.
  assert (forall pkg p, pinned pc = Some (pkg, p) -> exists n, heap (nodes s) !! p = Some n) as Hnode.
  { intros pkg p (e & He & <- & _)%Hp. by eapply layout_entry. }
  destruct (handling pc) eqn:Hh.
  { assert (exists pkg p, pinned pc = Some (pkg, p)) as (pkg & p & Hpin) by (destruct pc; try discriminate Hh; eauto).
    assert (handler_step x s pc = Some (s', pc')) as Hstep' by (destruct pc; try discriminate Hh; exact Hstep).
    destruct (Hnode _ _ Hpin) as [n Hn]. assert (owned pc = []) as Ho by (by destruct pc).
    destruct (handler_good _ _ _ _ _ _ _ _ Hstep' Hpin Hn) as (-> & -> & Ho' & Hpin' & Hst). rewrite Ho in Hl. rewrite Ho'.
    split_and!; try done. intros pkg' p' E. destruct Hpin' as [E'|E']; rewrite E' in E; [by apply Hp|done]. }
  destruct pc; try discriminate Hc; try discriminate Hh; destruct x; try discriminate Hstep;
    cbn [advance append_step find_step remove_step] in Hstep;
    try (apply lock_inv in Hstep as [= -> ->]; discriminate Hc); cbn [owned app] in *.
  - injection Hstep as <- <-. by split_and!.
  - injection Hstep as <- <-. by split_and!.
  - destruct (layout_in _ _ _ found Hl) as [n Hn]; [set_solver|]. rewrite (access_good _ _ _ _ Hn) in Hstep.
    injection Hstep as <- <-. split_and!; try done.
    + intros q Hq. cbn. apply lookup_delete_ne. intros <-.
      destruct Hl as [Hnd _]. rewrite Permutation_app_comm in Hnd. cbn in Hnd.
      apply list.NoDup_cons in Hnd as [Hn' _]. apply Hn'. by rewrite Permutation_app_comm.
    + by apply layout_free.
Qed.

(** The mutex is taken on entering a critical section and released on leaving it. *)
Lemma advance_mutex t x s pc s' pc' :
  advance t x s pc = Some (s', pc') -> (forall f, pc' <> Crashed f) ->
  rrdCacheMut s' = (if critical pc' then if critical pc then rrdCacheMut s else Some t
                    else if critical pc then None else rrdCacheMut s) /\
  (critical pc = false -> critical pc' = true -> rrdCacheMut s = None).
Proof.
  intros Hstep Hc. assert (forall f s0, (s0, Crashed f) <> (s', pc')) as Hcr by (intros f s0 [= _ Hf]; by apply (Hc f)).
  destruct pc; destruct x; try discriminate Hstep;
    cbn [advance append_step find_step remove_step handler_step] in Hstep; unfold lock, assign, access in Hstep;
    repeat (case_match; simplify_eq/=); try (by exfalso; eapply Hcr); try done.
Qed.

Lemma advance_handles t x s pc s' pc' :
  advance t x s pc = Some (s', pc') ->
  handles pc' = handles pc \/ handles pc' = None \/ (exists pkg, x = CallHandler pkg /\ handles pc' = Some pkg).
Proof.
  intros Hstep. destruct pc; destruct x; try discriminate Hstep;
    cbn [advance append_step find_step remove_step handler_step] in Hstep; unfold lock, assign, access in Hstep;
    simplify_eq/=; repeat (case_match; simplify_eq/=); eauto.
Qed.

(** *** The invariant of the threads *)

Lemma owned_split ts i pc : ts !! i = Some pc ->
  exists o, ts ≫= owned ≡ₚ owned pc ++ o /\ (forall pc', <[i := pc']> ts ≫= owned ≡ₚ owned pc' ++ o) /\
    (forall j pcj, j <> i -> ts !! j = Some pcj -> owned pcj ⊆ o).
Proof.
  intros Hi. exists ((take i ts ≫= owned) ++ (drop (S i) ts ≫= owned)). pose proof (lookup_lt_Some _ _ _ Hi) as Hlt.
  split_and!.
  - rewrite <- (take_drop_middle _ _ _ Hi) at 1. rewrite bind_app. cbn. by rewrite Permutation_app_swap_app.
  - intros pc'. rewrite insert_take_drop by done. rewrite bind_app. cbn. by rewrite Permutation_app_swap_app.
  - intros j pcj Hne Hj q Hq. apply elem_of_app. rewrite <- (take_drop_middle _ _ _ Hi) in Hj.
    apply lookup_app_Some in Hj as [Hj|[Hle Hj]].
    + left. apply list_elem_of_bind. exists pcj. split; [done|]. by eapply list_elem_of_lookup_2.
    + right. rewrite length_take_le in Hj, Hle by lia. destruct (j - i)%nat as [|k] eqn:E; [lia|]. cbn in Hj.
      apply list_elem_of_bind. exists pcj. split; [done|]. by eapply list_elem_of_lookup_2.
Qed.

Record inv (s : state) (l : list entry) : Prop := {
  inv_layout : layout (heap (nodes (mem s))) l (threads s ≫= owned);
  inv_pin : forall i pc, threads s !! i = Some pc -> pin_ok l pc;
  inv_alone : forall i j pc pc' pkg, threads s !! i = Some pc -> threads s !! j = Some pc' ->
    handles pc = Some pkg -> handles pc' = Some pkg -> i = j;
  inv_mutex : forall i pc, threads s !! i = Some pc -> critical pc = true <-> rrdCacheMut (mem s) = Some i;
  inv_shape : match rrdCacheMut (mem s) with
              | None => linked (nodes (mem s)) l
              | Some i => exists pc, threads s !! i = Some pc /\ shape pc (nodes (mem s)) l
              end;
  inv_stale : forall i pc, threads s !! i = Some pc -> not_stale pc }.

(** What the operation of a thread leaves of the nodes of the others. *)
Lemma pins_kept l ev l' pc pc0 :
  list_moves l ev l' -> (forall pkg p, ev = Some (Removed pkg p) -> handles pc = Some pkg) ->
  (forall pkg, handles pc = Some pkg -> handles pc0 = Some pkg -> False) -> pin_ok l pc0 -> pin_ok l' pc0.
Proof.
  intros Hm Hev Hne Hp pkg0 p0 Hpin. destruct (Hp _ _ Hpin) as (e0 & He0 & Hloc & Hpkg). exists e0. split; [|done].
  assert (handles pc0 = Some pkg0) as Hh by (by destruct pc0 as [| | | | | | | | | | |? [?|]| | | | | | | | | | | | | | | |]; simplify_eq/=).
  destruct ev as [ev|]; [|by rewrite Hm]. destruct Hm as [e l Hn|pkg l|pkg l1 e l2 He]; [set_solver|done|].
  assert (e0 <> e) by (intros ->; apply (Hne pkg); [by eapply Hev|]; congruence). set_solver.
Qed.

Lemma emitted_handles s pc pc' pkg p : emitted s pc pc' = Some (Removed pkg p) -> handles pc = Some pkg.
Proof.
  intros He. destruct pc; try discriminate He; cbn [emitted] in He; try (destruct pc'; discriminate He).
  - destruct (heap (nodes s) !! tmp); discriminate He.
  - by injection He as <- <-.
  - by injection He as <- <-.
Qed.

Lemma thread_step_inv admits i x s ev s' : thread_step admits i x s = Some (ev, s') ->
  exists pc m' pc', threads s !! i = Some pc /\ input_ok admits s x = true /\ advance i x (mem s) pc = Some (m', pc') /\
    ev = emitted (mem s) pc pc' /\ s' = State m' (<[i := pc']> (threads s)).
Proof.
  unfold thread_step. destruct (threads s !! i) as [pc|] eqn:Hi; [|done]. cbn.
  destruct (input_ok admits s x); [|done]. destruct (advance i x (mem s) pc) as [[m' pc']|] eqn:Ha; [|done].
  cbn. intros [= <- <-]. by exists pc, m', pc'.
Qed.

Lemma threads_insert {ts : list point} {i} {pc : point} (P : nat -> point -> Prop) :
  P i pc -> (forall k pck, k <> i -> ts !! k = Some pck -> P k pck) ->
  forall k pck, <[i := pc]> ts !! k = Some pck -> P k pck.
Proof. intros H1 H2 k pck [(-> & <- & _)|[Hne Hk]]%list_lookup_insert_Some; [done|by apply H2]. Qed.

(** The packages of the handlers stay different. *)
Definition packages_differ (ts : list point) : Prop :=
  forall i j pc pc' pkg, ts !! i = Some pc -> ts !! j = Some pc' -> handles pc = Some pkg -> handles pc' = Some pkg -> i = j.

Lemma packages_kept s i x pc m' pc' :
  packages_differ (threads s) -> threads s !! i = Some pc -> input_ok alone s x = true ->
  advance i x (mem s) pc = Some (m', pc') -> packages_differ (<[i := pc']> (threads s)).
Proof.
  intros Ha Hi Hx Hstep.
  assert (forall k pc2 pkg, k <> i -> threads s !! k = Some pc2 -> handles pc' = Some pkg -> handles pc2 = Some pkg -> False)
    as Hne.
  { intros k pc2 pkg Hne Hk H1 H2. destruct (advance_handles _ _ _ _ _ _ Hstep) as [Hh|[Hh|(pkg' & -> & Hh)]].
    - rewrite Hh in H1. by apply Hne, (Ha k i pc2 pc pkg).
    - congruence.
    - cbn in Hx. apply bool_decide_eq_true in Hx. rewrite Forall_lookup in Hx. apply (Hx k pc2 Hk). congruence. }
  intros j k pc1 pc2 pkg Hj Hk. revert j pc1 Hj k pc2 Hk.
  refine (threads_insert _ _ _); [|intros j pc1 Hj1 Hj]; refine (threads_insert _ _ _); try done.
  - intros k pc2 Hk1 Hk H1 H2. exfalso. by eapply (Hne k).
  - intros H1 H2. exfalso. by eapply (Hne j).
  - intros k pc2 Hk1 Hk. by apply Ha.
Qed.

(** The links when a thread enters a critical section or is in it. *)
Lemma inv_shape_here s l i x pc m' pc' :
  inv s l -> threads s !! i = Some pc -> advance i x (mem s) pc = Some (m', pc') -> critical pc || critical pc' = true ->
  shape pc (nodes (mem s)) l.
Proof.
  intros [_ _ _ Hm Hs _] Hi Hstep Hc. destruct (critical pc) eqn:Hcp.
  - apply (Hm i pc Hi) in Hcp as Hmx. rewrite Hmx in Hs. destruct Hs as (pc0 & Hpc0 & Hs). congruence.
  - apply noncritical_shape; [done|]. enough (rrdCacheMut (mem s) = None) as Hmx by (by rewrite Hmx in Hs).
    destruct pc' eqn:Hpc'; try discriminate Hc; (eapply advance_mutex in Hstep as [_ Hmx]; [by apply Hmx|done]).
Qed.

(** A thread is in its critical section exactly if it holds the mutex. *)
Definition mutex_ok (s : state) : Prop :=
  forall i pc, threads s !! i = Some pc -> critical pc = true <-> rrdCacheMut (mem s) = Some i.

Lemma mutex_kept s i x pc m' pc' :
  mutex_ok s -> threads s !! i = Some pc -> advance i x (mem s) pc = Some (m', pc') -> (forall f, pc' <> Crashed f) ->
  mutex_ok (State m' (<[i := pc']> (threads s))) /\
  (critical pc || critical pc' = true -> rrdCacheMut m' = if critical pc' then Some i else None).
Proof.
  intros Hm Hi Hstep Hcr. destruct (advance_mutex _ _ _ _ _ _ Hstep Hcr) as [Hmx Hmx0].
  pose proof (Hm i pc Hi) as Hmi. split.
  - refine (threads_insert _ _ _); cbn [mem threads]; rewrite Hmx.
    + destruct (critical pc'), (critical pc); naive_solver.
    + intros k pck Hne Hk. rewrite (Hm k pck Hk). destruct (critical pc) eqn:Hc0.
      * destruct Hmi as [-> _]; [|done]. destruct (critical pc'); naive_solver.
      * destruct (critical pc') eqn:Hc'; [|done]. rewrite (Hmx0 eq_refl eq_refl). naive_solver.
  - intros Hc. rewrite Hmx. destruct (critical pc'), (critical pc); naive_solver.
Qed.

Lemma shared_critical_step i x s pc m' pc' l o :
  inv s l -> threads s !! i = Some pc -> input_ok alone s x = true -> advance i x (mem s) pc = Some (m', pc') ->
  critical pc || critical pc' = true -> threads s ≫= owned ≡ₚ owned pc ++ o ->
  <[i := pc']> (threads s) ≫= owned ≡ₚ owned pc' ++ o ->
  exists l', list_moves l (emitted (mem s) pc pc') l' /\ inv (State m' (<[i := pc']> (threads s))) l'.
Proof.
  intros Hinv Hi Hx Hstep Hc Ho Ho'. pose proof (inv_shape_here _ _ _ _ _ _ _ Hinv Hi Hstep Hc) as Hshape.
  destruct Hinv as [Hl Hp Ha Hm Hs Hst]. apply (layout_perm _ _ _ l (owned pc ++ o)) in Hl; [|by rewrite Ho].
  assert (forall p, x = Malloc (Some p) -> p ∉ dom (heap (nodes (mem s)))) as Hfresh.
  { intros p ->. cbn in Hx. by apply bool_decide_eq_true in Hx. }
  destruct (critical_good _ _ _ _ _ _ _ _ Hstep Hc Hfresh Hshape Hl (Hp _ _ Hi)) as (l' & Hmv & Hs' & Hl' & Hp' & Hcr).
  destruct (mutex_kept _ _ _ _ _ _ Hm Hi Hstep Hcr) as [Hm' Hmx]. specialize (Hmx Hc).
  exists l'. split; [done|]. split; cbn [mem threads].
  - eapply layout_perm; [exact Hl'|]. by rewrite Ho'.
  - refine (threads_insert _ _ _); [done|]. intros k pck Hne Hk. eapply pins_kept; [exact Hmv| | |by apply Hp with k].
    + intros pkg p He. by eapply emitted_handles.
    + intros pkg H1 H2. by apply Hne, (Ha k i pck pc pkg).
  - by eapply packages_kept.
  - exact Hm'.
  - rewrite Hmx. destruct (critical pc') eqn:Hc'; [|by apply noncritical_shape in Hs'].
    exists pc'. rewrite list_lookup_insert_eq; [done|]. by eapply lookup_lt_Some.
  - refine (threads_insert _ _ _); [|by intros k pck _ Hk; apply Hst with k]. intros f Hf. by destruct (Hcr f).
Qed.

Lemma shared_quiet_step i x s pc m' pc' l o :
  inv s l -> threads s !! i = Some pc -> input_ok alone s x = true -> advance i x (mem s) pc = Some (m', pc') ->
  critical pc || critical pc' = false -> threads s ≫= owned ≡ₚ owned pc ++ o ->
  <[i := pc']> (threads s) ≫= owned ≡ₚ owned pc' ++ o ->
  (forall j pcj, j <> i -> threads s !! j = Some pcj -> owned pcj ⊆ o) ->
  emitted (mem s) pc pc' = None /\ inv (State m' (<[i := pc']> (threads s))) l.
Proof.
  intros [Hl Hp Ha Hm Hs Hst] Hi Hx Hstep Hc Ho Ho' Hsub. apply (layout_perm _ _ _ l (owned pc ++ o)) in Hl; [|by rewrite Ho].
  destruct (quiet_good _ _ _ _ _ _ _ _ Hstep Hc Hl (Hp _ _ Hi)) as (-> & Hmx & Hhd & Hext & Hl' & Hp' & Hst').
  apply orb_false_iff in Hc as [Hc Hc']. split; [done|]. split; cbn [mem threads].
  - eapply layout_perm; [exact Hl'|]. by rewrite Ho'.
  - refine (threads_insert _ _ _); [done|]. intros k pck _ Hk. by apply Hp with k.
  - by eapply packages_kept.
  - rewrite Hmx. refine (threads_insert _ _ _); [|by intros k pck _ Hk; apply Hm]. by rewrite <- (Hm i pc Hi), Hc, Hc'.
  - rewrite Hmx. destruct (rrdCacheMut (mem s)) as [k|] eqn:Hmk.
    + destruct Hs as (pck & Hk & Hs). assert (k <> i) as Hne by (intros ->; enough (critical pc = true) by congruence; by apply (Hm i pc Hi)).
      exists pck. rewrite list_lookup_insert_ne by done. split; [done|].
      eapply shape_frame; [|exact Hhd|exact Hs]. intros q [Hq|Hq]%elem_of_app; apply Hext, elem_of_app; [by left|].
      right. by eapply (Hsub k).
    + destruct Hs as [lst Hs]. exists lst. rewrite Hhd. eapply seg_ext; [|exact Hs].
      intros e He. apply Hext, elem_of_app. left. by apply locs_in.
  - refine (threads_insert _ _ _); [done|]. by intros k pck _ Hk; apply Hst with k.
Qed.

(** Each step is one operation of the specification, or none. *)
Lemma shared_step i x s ev s' l :
  thread_step alone i x s = Some (ev, s') -> inv s l -> exists l', list_moves l ev l' /\ inv s' l'.
Proof.
  intros (pc & m' & pc' & Hi & Hx & Hstep & -> & ->)%thread_step_inv Hinv.
  destruct (owned_split _ _ _ Hi) as (o & Ho & Ho' & Hsub). destruct (critical pc || critical pc') eqn:Hc.
  - by eapply shared_critical_step.
  - destruct (shared_quiet_step _ _ _ _ _ _ _ _ Hinv Hi Hx Hstep Hc Ho (Ho' pc') Hsub) as [-> Hinv']. by exists l.
Qed.

Lemma shared_start n : inv (start n) [].
Proof.
  assert (forall i pc, replicate n Idle !! i = Some pc -> pc = Idle) as Hidle.
  { intros i pc Hi. by apply lookup_replicate_1 in Hi as [-> _]. }
  split; cbn [start mem threads nodes rrdCacheMut].
  - assert (replicate n Idle ≫= owned = []) as -> by (clear; induction n; [done|exact IHn]).
    split; [constructor|]. intros p. cbn. split; [by intros [? ?]|by intros ?%elem_of_nil].
  - intros i pc Hi. rewrite (Hidle _ _ Hi). by intros ? ? ?.
  - intros i j pc pc' pkg Hi. by rewrite (Hidle _ _ Hi).
  - intros i pc Hi. by rewrite (Hidle _ _ Hi).
  - by exists None.
  - intros i pc Hi. rewrite (Hidle _ _ Hi). by intros ? ?.
Qed.

Lemma shared_exec evs s : exec alone evs s -> exists l, list_run evs l /\ inv s l.
Proof.
  induction 1 as [n|evs s i x ev s' _ (l & Hr & Hinv) Hstep]; [exists []; split; [constructor|apply shared_start]|].
  destruct (shared_step _ _ _ _ _ _ Hstep Hinv) as (l' & Hm & Hinv'). exists l'. split; [|done].
  destruct ev as [ev|]; cbn in *; [by eapply list_next|]. by rewrite app_nil_r, Hm.
Qed.

(** *** The steps that leave a critical section *)

(** A thread at [pc] unlocks the mutex after [n] steps at most: the loop of
    [findPresentInCache] visits the nodes that follow. *)
Definition steps_left (pc : point) : nat :=
  match pc with
  | AppendCreate _ _ => 6 | AppendHead _ => 5 | AppendNext _ _ => 4 | AppendPrev _ _ => 3 | AppendSet _ => 2
  | RemoveTest _ _ => 5 | RemoveHead _ _ => 3 | RemoveHeadPrev _ _ => 2
  | RemoveLinks _ _ => 4 | RemovePrev _ _ _ _ => 3 | RemoveNext _ _ _ _ => 2
  | _ => 1
  end.

Definition within (n : nat) (pc : point) (c : cache) : Prop :=
  match pc with
  | FindHead _ => exists l lst, seg (heap c) None (cacheDataNode c) l lst None /\ (3 + length l <= n)%nat
  | FindTest _ q => exists l m lst, seg (heap c) m q l lst None /\ (2 + length l <= n)%nat
  | _ => (steps_left pc <= n)%nat
  end.

Definition solo_input (pc : point) : input := match pc with AppendCreate _ _ => Malloc None | _ => Tick end.

(** Inside a critical section a thread does not wait. *)
Lemma critical_enabled i s pc : critical pc = true -> is_Some (advance i (solo_input pc) s pc).
Proof. intros Hc. destruct pc; try discriminate Hc; try (by eexists). by destruct rrdCachecnode; eexists. Qed.

Lemma find_test_within i s pkg q m' pc' n :
  advance i Tick s (FindTest pkg q) = Some (m', pc') -> within n (FindTest pkg q) (nodes s) ->
  exists n', n = S n' /\ within n' pc' (nodes m').
Proof.
  intros Hstep (l & m & lst & Hs & Hn). exists (n - 1)%nat. split; [lia|]. destruct q as [p|].
  - destruct l as [|e l]; [by destruct Hs|]. destruct Hs as ([= ->] & nx & Hnode & Hs). cbn [advance find_step] in Hstep.
    rewrite (access_good _ _ _ _ Hnode) in Hstep. cbn [mdata next length] in *.
    destruct (e_pkg e) as [t|]; [destruct (streq t pkg)|]; injection Hstep as <- <-; cbn; [lia|..];
      exists l, (Some (e_loc e)), lst; (split; [done|lia]).
  - injection Hstep as <- <-. cbn. lia.
Qed.

Lemma critical_within i s pc m' pc' n :
  advance i (solo_input pc) s pc = Some (m', pc') -> critical pc = true -> within n pc (nodes s) ->
  critical pc' = false \/ exists n', n = S n' /\ within n' pc' (nodes m').
Proof.
  intros Hstep Hc Hw. destruct pc; try discriminate Hc; try (right; by eapply find_test_within);
    cbn [solo_input advance append_step find_step remove_step] in Hstep; unfold assign, access in Hstep.
  all: try (repeat case_match; simplify_eq/=; first [by left|right; exists (n - 1)%nat; cbn in *; lia]).
  injection Hstep as <- <-. destruct Hw as (l & lst & Hs & Hn). right. exists (n - 1)%nat.
  split; [lia|]. exists l, None, lst. split; [done|lia].
Qed.

(** A thread that leaves its critical section leaves the mutex free. *)
Lemma left_free s l i pc m' pc' l' :
  inv s l -> threads s !! i = Some pc -> critical pc = true -> critical pc' = false ->
  inv (State m' (<[i := pc']> (threads s))) l' -> rrdCacheMut m' = None.
Proof.
  intros Hinv Hi Hc Hc' Hinv'. destruct (rrdCacheMut m') as [k|] eqn:Hk; [|done]. exfalso.
  pose proof (inv_shape _ _ Hinv') as Hs. cbn [mem] in Hs. rewrite Hk in Hs. destruct Hs as (pck & Hpck & _).
  apply (inv_mutex _ _ Hinv' k pck Hpck) in Hk as Hck. cbn [threads] in Hpck.
  apply list_lookup_insert_Some in Hpck as [(-> & <- & _)|[Hne Hpck]]; [congruence|].
  apply (inv_mutex _ _ Hinv i pc Hi) in Hc. apply (inv_mutex _ _ Hinv k pck Hpck) in Hck. congruence.
Qed.

Lemma release n : forall s l i pc, inv s l -> threads s !! i = Some pc -> critical pc = true -> within n pc (nodes (mem s)) ->
  exists xs evs s', (length xs <= n)%nat /\ Forall (fun x => fst x = i) xs /\ schedule alone xs s = Some (evs, s') /\
    rrdCacheMut (mem s') = None.
Proof.
  induction n as [|n IH]; intros s l i pc Hinv Hi Hc Hw.
  { exfalso. destruct pc; try discriminate Hc; cbn in Hw; try lia; naive_solver lia. }
  destruct (critical_enabled i (mem s) pc Hc) as [[m' pc'] Hstep].
  set (s1 := State m' (<[i := pc']> (threads s))). set (ev := emitted (mem s) pc pc').
  assert (thread_step alone i (solo_input pc) s = Some (ev, s1)) as Hts.
  { unfold thread_step. rewrite Hi. cbn. replace (input_ok alone s (solo_input pc)) with true by (by destruct pc). by rewrite Hstep. }
  destruct (shared_step _ _ _ _ _ _ Hts Hinv) as (l1 & _ & Hinv1).
  destruct (critical pc') eqn:Hc'.
  - destruct (critical_within _ _ _ _ _ _ Hstep Hc Hw) as [?|(n1 & [= <-] & Hw')]; [congruence|].
    assert (threads s1 !! i = Some pc') as Hi1 by (apply list_lookup_insert_eq; by eapply lookup_lt_Some).
    destruct (IH s1 l1 i pc' Hinv1 Hi1 Hc' Hw') as (xs & evs & s' & Hlen & Hxs & Hrun & Hmx).
    exists ((i, solo_input pc) :: xs), (option_list ev ++ evs), s'.
    split_and!; [cbn; lia|by constructor| |done]. cbn [schedule]. rewrite Hts. cbn. by rewrite Hrun.
  - exists [(i, solo_input pc)], (option_list ev ++ []), s1. split_and!; [cbn; lia|by repeat constructor| |].
    + cbn [schedule]. rewrite Hts. reflexivity.
    + exact (left_free s l i pc m' pc' l1 Hinv Hi Hc Hc' Hinv1).
Qed.

(** A path through the list is not longer than the heap. *)
Lemma layout_length h l o : layout h l o -> (length l <= size h)%nat.
Proof.
  intros [Hnd Hd]. rewrite <- size_dom. apply list.NoDup_app in Hnd as (Hnd & _).
  replace (length l) with (size (list_to_set (locs l) : gset loc)) by (rewrite size_list_to_set by done; apply length_fmap).
  apply subseteq_size. intros p Hp%elem_of_list_to_set. apply elem_of_dom, Hd, elem_of_app. by left.
Qed.

Lemma critical_bound pc c l o : shape pc c l -> layout (heap c) l o -> within (6 + size (heap c)) pc c.
Proof.
  intros Hs Hl%layout_length. destruct pc; cbn [within steps_left]; try lia.
  - destruct Hs as [lst Hs]. exists l, lst. split; [done|lia].
  - destruct Hs as (l1 & l2 & m & lst & -> & _ & _ & Hs). exists l2, m, lst. split; [done|]. rewrite length_app in Hl. lia.
Qed.

(** ** Properties *)

(** C8: the cache shared by threads is atomic.  In every execution of any number
    of threads that append requests and handle packages, no two of them the same
    package at the same time, the operations have on the cache the effect of a
    run of the list, one after the other, each at one of its own steps: a lookup
    finds the newest entry of its package, a removal takes out an entry of the
    package that is handled.  Whenever the mutex is free the links are those of
    that list; every block of the heap is in the list or belongs to one thread,
    which frees it; and no thread uses a node after it was freed. *)
Theorem threads_linearizable evs s :
  exec alone evs s ->
  exists l, list_run evs l /\ (rrdCacheMut (mem s) = None -> linked (nodes (mem s)) l) /\
    NoDup (locs l ++ (threads s ≫= owned)) /\
    (forall p, is_Some (heap (nodes (mem s)) !! p) <-> p ∈ locs l ++ (threads s ≫= owned)) /\
    (forall f, Crashed f ∈ threads s -> f = NullDeref).
Proof.
  intros (l & Hr & [[Hnd Hd] _ _ _ Hs Hst])%shared_exec. exists l. split_and!; [done| |done|done|].
  - intros Hm. by rewrite Hm in Hs.
  - intros f (i & Hi)%list_elem_of_lookup. by apply (Hst i _ Hi).
Qed.

(** C23: the mutex is released.  In every execution in which no two handlers
    handle the same package at the same time, a thread that holds the mutex does
    not wait: on its own it unlocks it, in at most as many steps as there are
    nodes and six more.  (A build has one handler that looks packages up, and its
    bus runs it for one event at a time; with two at once, the second could use a
    node that the first freed, and end the daemon while it holds the mutex.) *)
Theorem mutex_released evs s i :
  exec alone evs s -> rrdCacheMut (mem s) = Some i ->
  exists xs evs' s', (length xs <= 6 + size (heap (nodes (mem s))))%nat /\ Forall (fun x => fst x = i) xs /\
    schedule alone xs s = Some (evs', s') /\ rrdCacheMut (mem s') = None.
Proof.
  intros (l & _ & Hinv)%shared_exec Hm. pose proof (inv_shape _ _ Hinv) as Hs. rewrite Hm in Hs. destruct Hs as (pc & Hi & Hs).
  eapply release; [exact Hinv|exact Hi|by apply (inv_mutex _ _ Hinv i pc Hi)|].
  eapply critical_bound; [exact Hs|apply (inv_layout _ _ Hinv)].
Qed.

Lemma schedule_exec admits xs : forall evs0 s0 evs s,
  exec admits evs0 s0 -> schedule admits xs s0 = Some (evs, s) -> exec admits (evs0 ++ evs) s.
Proof.
  induction xs as [|[i x] xs IH]; intros evs0 s0 evs s He; cbn [schedule].
  - intros [= <- <-]. by rewrite app_nil_r.
  - destruct (thread_step admits i x s0) as [[ev s1]|] eqn:Hstep; [|done]. cbn.
    destruct (schedule admits xs s1) as [[evs1 s2]|] eqn:Hrun; [|done]. cbn. intros [= <- <-].
    rewrite app_assoc. eapply IH; [|exact Hrun]. by eapply exec_step.
Qed.

End Threads.

#[local] Instance threads_build : Device := {| IARMBUS_SUPPORT := true; RRD_DEVICE_PROFILE := []; deviceType := None |}.

(** The inputs of the thread [i] for an append at the block [p] in an empty
    list, for a search that finds the first node, for the message, and for the
    removal of the only node. *)
Definition appends (i : nat) (p : loc) (pkg issue : cstr) : list (nat * input) :=
  (i,.) <$> [CallAppend (Some pkg) (Some issue); Tick; Malloc (Some p); Tick; Tick; Tick].
Definition finds (i : nat) (pkg : cstr) : list (nat * input) := (i,.) <$> [CallHandler pkg; Tick; Tick; Tick; Tick].
Definition sends (i : nat) : list (nat * input) := (i,.) <$> [Installed true; Tick; Allocated true; Tick; Allocated true; Tick].
Definition removes (i : nat) : list (nat * input) := (i,.) <$> [Tick; Tick; Tick; Tick; Tick; Tick].

(** A run of three threads: the second handles the package that the first asked for. *)
Definition demo_inputs : list (nat * input) :=
  appends 0 1 #"info" #"Device.Info" ++ finds 1 #"info" ++ sends 1 ++ [(2%nat, CallHandler #"wifi")] ++ removes 1.

Lemma threads_linearizable_witness :
  exists evs s l, schedule alone demo_inputs (start 3) = Some (evs, s) /\ list_run evs l /\ l = [] /\ length evs = 3%nat.
Proof.
  destruct (schedule alone demo_inputs (start 3)) as [[evs s]|] eqn:E; [|vm_compute in E; discriminate E].
  destruct (threads_linearizable evs s (schedule_exec _ _ [] _ _ _ (exec_start _ 3) E)) as (l & Hr & Hl & _).
  exists evs, s, l. split; [reflexivity|]. split; [exact Hr|]. vm_compute in E. injection E as <- <-.
  split; [|reflexivity]. destruct (Hl eq_refl) as [lst Hs]. destruct l as [|e l]; [reflexivity|]. by destruct Hs.
Defined.

Lemma mutex_released_witness :
  exists s xs evs' s', schedule alone (take 4 demo_inputs) (start 3) = Some ([], s) /\ rrdCacheMut (mem s) = Some 0%nat /\
    schedule alone xs s = Some (evs', s') /\ rrdCacheMut (mem s') = None.
Proof.
  destruct (schedule alone (take 4 demo_inputs) (start 3)) as [[evs s]|] eqn:E; [|vm_compute in E; discriminate E].
  assert (rrdCacheMut (mem s) = Some 0%nat) as Hm by (vm_compute in E; injection E as <- <-; reflexivity).
  destruct (mutex_released _ _ _ (schedule_exec _ _ [] _ _ _ (exec_start _ 3) E) Hm) as (xs & evs' & s' & _ & _ & Hrun & Hfree).
  exists s, xs, evs', s'. split_and!; [|exact Hm|exact Hrun|exact Hfree].
  vm_compute in E. injection E as <- <-. reflexivity.
Defined.
