(* ===== verification/Config.v ===== *)
(** * Config: the upload configuration (src/rrd_config.c)

    The configuration is read from property files, from two tr181 queries and
    from the DCM settings, in an order of precedence.  Files are texts without
    NUL characters. *)

From S2P Require Import Prelude OS.

Local Open Scope Z_scope.

(** ** trim *)

(** The four characters [trim] removes. *)
Definition blank (c : ascii) : bool :=
  chareq c " " || chareq c TAB || chareq c NEWLINE || chareq c CR.

Fixpoint trim_leading (s : cstr) : cstr :=
  match s with
  | c :: s' => if blank c then trim_leading s' else s
  | [] => []
  end.

(** The loop that walks back from the last character and stops at the first
    one ([end > start]), on the reversed text. *)
Fixpoint trim_back (r : cstr) : cstr :=
  match r with
  | c :: r' => match r' with
               | _ :: _ => if blank c then trim_back r' else r
               | [] => r
               end
  | [] => []
  end.

Definition trim (s : cstr) : cstr := rev (trim_back (rev (trim_leading s))).

(** ** fgets *)

(** The lines successive [fgets(line, size, f)] calls return: up to and with
    a newline, at most [size - 1] characters.  [k] characters may follow in
    the buffer. *)
Fixpoint fgets_loop (n k : nat) (cur s : cstr) : list cstr :=
  match s with
  | [] => match cur with [] => [] | _ => [cur] end
  | c :: s' =>
      if chareq c NEWLINE || (k =? 0)%nat then (cur ++ [c]) :: fgets_loop n n [] s'
      else fgets_loop n (k - 1) (cur ++ [c]) s'
  end.

Definition fgets_lines (size : nat) (s : cstr) : list cstr := fgets_loop (size - 2) (size - 2) [] s.

(** ** rrd_config_t: the arrays and their sizes *)

Record rrd_config_t := Config {
  log_server : cstr; http_upload_link : cstr; upload_protocol : cstr;
  rdk_path : cstr; log_path : cstr; build_type : cstr; use_rfc_config : bool }.

Definition empty_config : rrd_config_t := Config [] [] [] [] [] [] false.

(** [strncpy(config->field, val, sizeof(config->field) - 1)] *)
Definition set_log_server (v : cstr) (c : rrd_config_t) : rrd_config_t :=
  Config (bounded_copy 256 v) (http_upload_link c) (upload_protocol c) (rdk_path c) (log_path c) (build_type c) (use_rfc_config c).
Definition set_http_upload_link (v : cstr) (c : rrd_config_t) : rrd_config_t :=
  Config (log_server c) (bounded_copy 512 v) (upload_protocol c) (rdk_path c) (log_path c) (build_type c) (use_rfc_config c).
Definition set_upload_protocol (v : cstr) (c : rrd_config_t) : rrd_config_t :=
  Config (log_server c) (http_upload_link c) (bounded_copy 16 v) (rdk_path c) (log_path c) (build_type c) (use_rfc_config c).
Definition set_rdk_path (v : cstr) (c : rrd_config_t) : rrd_config_t :=
  Config (log_server c) (http_upload_link c) (upload_protocol c) (bounded_copy 256 v) (log_path c) (build_type c) (use_rfc_config c).
Definition set_log_path (v : cstr) (c : rrd_config_t) : rrd_config_t :=
  Config (log_server c) (http_upload_link c) (upload_protocol c) (rdk_path c) (bounded_copy 256 v) (build_type c) (use_rfc_config c).
Definition set_build_type (v : cstr) (c : rrd_config_t) : rrd_config_t :=
  Config (log_server c) (http_upload_link c) (upload_protocol c) (rdk_path c) (log_path c) (bounded_copy 32 v) (use_rfc_config c).
Definition set_use_rfc (c : rrd_config_t) : rrd_config_t :=
  Config (log_server c) (http_upload_link c) (upload_protocol c) (rdk_path c) (log_path c) (build_type c) true.

(** Key and value of a line that holds an equals sign. *)
Definition split_line (line : cstr) : option (cstr * cstr) :=
  match strchr line "=" with
  | Some eq => Some (trim (take eq line), trim (drop (S eq) line))
  | None => None
  end.

(** ** rrd_config_parse_properties *)

Definition property_line (c : rrd_config_t) (line : cstr) : rrd_config_t :=
  match split_line line with
  | None => c
  | Some (key, val) =>
      if (length key =? 0)%nat || (length val =? 0)%nat then c
      else if streq key #"LOG_SERVER" then set_log_server val c
      else if streq key #"HTTP_UPLOAD_LINK" then set_http_upload_link val c
      else if streq key #"UPLOAD_PROTOCOL" then set_upload_protocol val c
      else if streq key #"RDK_PATH" then set_rdk_path val c
      else if streq key #"LOG_PATH" then set_log_path val c
      else if streq key #"BUILD_TYPE" then set_build_type val c
      else c
  end.

Definition LINE_SIZE : nat := 1024.

(** ** rrd_config_parse_dcm_settings *)

(** A value of at least two characters between quotes loses them. *)
Definition unquote (val : cstr) : cstr :=
  let val_len := length val in
  if (2 <=? val_len)%nat && bool_decide (val !! 0%nat = Some DQUOTE) && bool_decide (val !! (val_len - 1)%nat = Some DQUOTE)
  then drop 1 (take (val_len - 1) val) else val.

Definition dcm_line (c : rrd_config_t) (line : cstr) : rrd_config_t :=
  match split_line line with
  | None => c
  | Some (key, val) =>
      let val := unquote val in
      let nonempty := (0 <? length val)%nat in
      if streq key #"LogUploadSettings:UploadRepository:URL" then
        if nonempty then set_http_upload_link val c else c
      else if streq key #"LogUploadSettings:UploadRepository:uploadProtocol" then
        if nonempty then set_upload_protocol val c else set_upload_protocol #"HTTP" c
      else if streq key #"LOG_SERVER" && nonempty then set_log_server val c
      else if streq key #"HTTP_UPLOAD_LINK" && nonempty then set_http_upload_link val c
      else if streq key #"UPLOAD_PROTOCOL" && nonempty then set_upload_protocol val c
      else if streq key #"RDK_PATH" && nonempty then set_rdk_path val c
      else if streq key #"LOG_PATH" && nonempty then set_log_path val c
      else if streq key #"BUILD_TYPE" && nonempty then set_build_type val c
      else c
  end.

Create HintDb config discriminated.

Definition TR181 : cstr := #"/usr/bin/tr181".
Definition LOG_SERVER_CMD : cstr := #"/usr/bin/tr181 -g Device.DeviceInfo.X_RDKCENTRAL-COM_RFC.LogUpload.LogServerUrl 2>&1".
Definition SSR_URL_CMD : cstr := #"/usr/bin/tr181 -g Device.DeviceInfo.X_RDKCENTRAL-COM_RFC.LogUpload.SsrUrl 2>&1".

Section Load.
Context `{OS}.

(** Status and the configuration after the call. *)
Definition rrd_config_parse_properties (filepath : option cstr) (config : option rrd_config_t) : M (Z * option rrd_config_t) :=
  match filepath, config with
  | Some filepath, Some c =>
      f ← sys_fopen filepath;
      match f with
      | None => mret (-2, Some c)
      | Some text => mret (0, Some (foldl property_line c (fgets_lines LINE_SIZE text)))
      end
  | _, _ => mret (-1, config)
  end.

Definition rrd_config_parse_dcm_settings (filepath : option cstr) (config : option rrd_config_t) : M (Z * option rrd_config_t) :=
  match filepath, config with
  | Some filepath, Some c =>
      f ← sys_fopen filepath;
      match f with
      | None => mret (-2, Some c)
      | Some text => mret (0, Some (foldl dcm_line c (fgets_lines LINE_SIZE text)))
      end
  | _, _ => mret (-1, config)
  end.

(** Status and the output buffer, for a buffer of [output_size] bytes. *)
Definition execute_command (cmd : option cstr) (output_size : nat) : M (Z * cstr) :=
  match cmd with
  | None => mret (-1, [])
  | Some cmd =>
      if (output_size =? 0)%nat then mret (-1, []) else
      fp ← sys_popen cmd;
      match fp with
      | None => mret (-1, [])
      | Some (text, status) =>
          let output := match fgets_lines output_size text with
                        | [] => []
                        | line :: _ =>
                            let len := length line in
                            if (0 <? len)%nat && bool_decide (line !! (len - 1)%nat = Some NEWLINE)
                            then take (len - 1) line else line
                        end in
          mret (if (status =? 0) && (0 <? length output)%nat then 0 else -1, output)
      end
  end.

Definition file_exists (filepath : option cstr) : M bool :=
  match filepath with
  | None => mret false
  | Some p =>
      st ← sys_stat p;
      match st with
      | Some st => mret (S_ISREG st && (0 <? st_size st))
      | None => mret false
      end
  end.

(** One tr181 query: the value, when it is usable. *)
Definition query_value (cmd : cstr) : M (option cstr) :=
  '(status, output) ← execute_command (Some cmd) 512;
  if (status =? 0) && (0 <? length output)%nat then
    let output := trim output in
    if (0 <? length output)%nat && negb (streq output #"null") then mret (Some output) else mret None
  else mret None.

Definition rrd_config_query_rfc (config : option rrd_config_t) : M (Z * option rrd_config_t) :=
  match config with
  | None => mret (-1, None)
  | Some c =>
      tr181 ← file_exists (Some TR181);
      if negb tr181 then mret (-1, Some c) else
      v ← query_value LOG_SERVER_CMD;
      let '(c, found_any) := match v with Some v => (set_log_server v c, true) | None => (c, false) end in
      '(c, found_any) ←
        (if (length (http_upload_link c) =? 0)%nat then
           v ← query_value SSR_URL_CMD;
           match v with
           | Some v => mret (set_http_upload_link (bounded_copy 600 (v ++ #"/cgi-bin/S3.cgi")) c, true)
           | None => mret (c, found_any)
           end
         else mret (c, found_any));
      mret (if (found_any : bool) then 0 else -2, Some c)
  end.

(** ** rrd_config_load *)

Definition rrd_config_load (config : option rrd_config_t) : M (Z * option rrd_config_t) :=
  match config with
  | None => mret (-1, None)
  | Some _ =>
      let c := set_upload_protocol #"HTTP" empty_config in
      '(_, c) ← rrd_config_parse_properties (Some #"/etc/include.properties") (Some c);
      '(_, c) ← rrd_config_parse_properties (Some #"/etc/device.properties") c;
      c ← deref c;
      is_prod_with_override ← (if negb (streq (build_type c) #"prod") then file_exists (Some #"/opt/dcm.properties")
                               else mret false);
      c ← (if (is_prod_with_override : bool) then mret c else
             '(rfc_ok, c) ← rrd_config_query_rfc (Some c);
             c ← deref c;
             let c := if rfc_ok =? 0 then set_use_rfc c else c in
             '(_, c) ← rrd_config_parse_dcm_settings (Some #"/tmp/DCMSettings.conf") (Some c);
             deref c);
      c ← (if (length (log_server c) =? 0)%nat || (length (http_upload_link c) =? 0)%nat then
             opt ← (if negb (streq (build_type c) #"prod") then file_exists (Some #"/opt/dcm.properties") else mret false);
             dcm_file ← (if (opt : bool) then mret (Some #"/opt/dcm.properties") else
                           etc ← file_exists (Some #"/etc/dcm.properties");
                           mret (if (etc : bool) then Some #"/etc/dcm.properties" else None));
             match dcm_file with
             | Some p => '(_, c) ← rrd_config_parse_properties (Some p) (Some c); deref c
             | None => mret c
             end
           else mret c);
      if (length (log_server c) =? 0)%nat then mret (-2, Some c)
      else if (length (http_upload_link c) =? 0)%nat then mret (-3, Some c)
      else mret (0, Some c)
  end.
End Load.

(** ** rrd_config_get_value and rrd_config_cleanup *)

Definition rrd_config_get_value (config : option rrd_config_t) (key : option cstr) : option cstr :=
  match config, key with
  | Some c, Some key =>
      if streq key #"LOG_SERVER" then Some (log_server c)
      else if streq key #"HTTP_UPLOAD_LINK" then Some (http_upload_link c)
      else if streq key #"UPLOAD_PROTOCOL" then Some (upload_protocol c)
      else if streq key #"RDK_PATH" then Some (rdk_path c)
      else if streq key #"LOG_PATH" then Some (log_path c)
      else if streq key #"BUILD_TYPE" then Some (build_type c)
      else None
  | _, _ => None
  end.

Definition rrd_config_cleanup (config : option rrd_config_t) : option rrd_config_t :=
  (fun _ => empty_config) <$> config.

(** ** Lemmas: fgets *)

(** The first line [fgets] reads, when the text begins with characters other
    than a newline. *)
Lemma fgets_first n k cur s rest : NEWLINE ∉ s -> (length s <= k)%nat ->
  fgets_loop n k cur (s ++ NEWLINE :: rest) = (cur ++ s ++ [NEWLINE]) :: fgets_loop n n [] rest.
Proof.
  revert k cur. induction s as [|a s IH]; intros k cur Hn Hl; cbn [app fgets_loop].
  - by rewrite chareq_refl.
  - replace (chareq a NEWLINE) with false by (symmetry; apply chareq_false; intros ->; apply Hn, list_elem_of_here).
    cbn [length] in Hl. destruct k as [|k]; [lia|]. cbn [orb Nat.eqb]. rewrite Nat.sub_succ, Nat.sub_0_r, IH; [|set_solver|lia].
    by rewrite <- app_assoc.
Qed.

Lemma fgets_full n k cur s rest : NEWLINE ∉ s -> length s = S k ->
  fgets_loop n k cur (s ++ rest) = (cur ++ s) :: fgets_loop n n [] rest.
Proof.
  revert k cur. induction s as [|a s IH]; intros k cur Hn Hl; [done|]. cbn [app fgets_loop].
  replace (chareq a NEWLINE) with false by (symmetry; apply chareq_false; intros ->; apply Hn, list_elem_of_here).
  cbn [length] in Hl. destruct k as [|k]; cbn [orb Nat.eqb].
  - destruct s; [|done]. done.
  - rewrite Nat.sub_succ, Nat.sub_0_r, IH; [|set_solver|lia]. by rewrite <- app_assoc.
Qed.

(** ** Lemmas: trim *)

Lemma trim_leading_spec s : exists a, s = a ++ trim_leading s /\ Forall (fun c => blank c = true) a /\
  match trim_leading s with c :: _ => blank c = false | [] => True end.
Proof.
  induction s as [|c s (a & Hs & Ha & Hf)]; cbn [trim_leading]; [by exists []|].
  destruct (blank c) eqn:E; [|by exists []]. exists (c :: a). cbn. split_and!; [by rewrite <- Hs|by constructor|done].
Qed.

Lemma trim_back_spec r : exists b, r = b ++ trim_back r /\ Forall (fun c => blank c = true) b /\
  match trim_back r with c :: _ :: _ => blank c = false | _ => True end /\ (r <> [] -> trim_back r <> []).
Proof.
  induction r as [|c r (b & Hr & Hb & Hf & Hn)]; cbn [trim_back]; [by exists []|].
  destruct r as [|d r]; [by exists []|]. destruct (blank c) eqn:E; [|exists []; split_and!; done].
  exists (c :: b). split_and!; [exact (f_equal (cons c) Hr)|by constructor|done|]. intros _. by apply Hn.
Qed.

Lemma trim_spec s : exists a b, s = a ++ trim s ++ b /\ Forall (fun c => blank c = true) (a ++ b) /\
  (forall c u, trim s = c :: u -> blank c = false) /\ (forall c u, trim s = u ++ [c] -> blank c = false).
Proof.
  destruct (trim_leading_spec s) as (a & Hs & Ha & Hf). unfold trim. set (t := trim_leading s) in *.
  destruct (trim_back_spec (rev t)) as (b & Ht & Hb & Hl & Hn). set (u := trim_back (rev t)) in *.
  assert (t = rev u ++ rev b) as Htu by (rewrite <- (rev_involutive t), Ht; apply rev_app_distr).
  assert (forall c v, rev u = c :: v -> blank c = false) as Hfirst.
  { intros c v Hc. rewrite Hc in Htu. rewrite Htu in Hf. exact Hf. }
  exists a, (rev b). split_and!.
  - rewrite Hs at 1. by rewrite Htu.
  - apply Forall_app. split; [done|]. by apply List.Forall_rev.
  - exact Hfirst.
  - intros c v Hc. assert (u = c :: rev v) as Hu.
    { rewrite <- (rev_involutive u), Hc, rev_app_distr. done. }
    rewrite Hu in Hl. destruct (rev v) as [|d v'] eqn:Ev; [|done].
    apply (Hfirst c []). rewrite Hu. done.
Qed.

(** ** Lemmas: the fields *)

Definition config_keys : list cstr :=
  [#"LOG_SERVER"; #"HTTP_UPLOAD_LINK"; #"UPLOAD_PROTOCOL"; #"RDK_PATH"; #"LOG_PATH"; #"BUILD_TYPE"].

(** The size of the array that a key names. *)
Definition field_size (key : cstr) : nat :=
  if streq key #"HTTP_UPLOAD_LINK" then 512 else if streq key #"UPLOAD_PROTOCOL" then 16
  else if streq key #"BUILD_TYPE" then 32 else 256.

(** The value a line binds to a key in a property file, and in the DCM
    settings. *)
Definition binding (key line : cstr) : option cstr :=
  '(k, v) ← split_line line;
  if streq k key && (0 <? length v)%nat then Some v else None.

(** In the DCM settings the link and the protocol have a second name, and an
    empty protocol under that name means HTTP. *)
Definition dcm_binding (key line : cstr) : option cstr :=
  '(k, v) ← split_line line;
  let v := unquote v in
  if streq key #"HTTP_UPLOAD_LINK" && streq k #"LogUploadSettings:UploadRepository:URL"
     || streq key #"UPLOAD_PROTOCOL" && streq k #"LogUploadSettings:UploadRepository:uploadProtocol" && (0 <? length v)%nat
     || streq k key
  then if (0 <? length v)%nat then Some v else None
  else if streq key #"UPLOAD_PROTOCOL" && streq k #"LogUploadSettings:UploadRepository:uploadProtocol" then Some #"HTTP"
  else None.

(** The last binding of a list of lines. *)
Definition last_binding (bind : cstr -> option cstr) (lines : list cstr) : option cstr :=
  foldl (fun found line => match bind line with Some v => Some v | None => found end) None lines.

Definition get (key : cstr) (c : rrd_config_t) : cstr := default [] (rrd_config_get_value (Some c) (Some key)).

Definition override (key : cstr) (v : option cstr) (old : cstr) : cstr :=
  match v with Some v => bounded_copy (field_size key) v | None => old end.

Lemma config_key_cases (P : cstr -> Prop) :
  P #"LOG_SERVER" -> P #"HTTP_UPLOAD_LINK" -> P #"UPLOAD_PROTOCOL" -> P #"RDK_PATH" -> P #"LOG_PATH" -> P #"BUILD_TYPE" ->
  forall key, key ∈ config_keys -> P key.
Proof.
  intros H1 H2 H3 H4 H5 H6 key Hk. unfold config_keys in Hk.
  repeat (apply elem_of_cons in Hk as [->|Hk]; [assumption|]). by apply elem_of_nil in Hk.
Qed.

(** Decide the tests of one key against the known names. *)
Ltac key_cases :=
  repeat (match goal with
          | |- context [streq ?k ?s] =>
              first [is_var k; destruct (streq k s) eqn:?; [breq; subst k|] |
                     change (streq k s) with true | change (streq k s) with false]
          end; cbn [andb orb negb]);
  try reflexivity; try discriminate.

Lemma property_line_get key c line :
  key ∈ config_keys -> get key (property_line c line) = override key (binding key line) (get key c).
Proof.
  unfold property_line, binding. destruct (split_line line) as [[k v]|]; [|done]. cbn [mbind option_bind].
  revert key. apply config_key_cases;
    (destruct (length v =? 0)%nat eqn:Ev; [rewrite orb_true_r; replace (0 <? length v)%nat with false by lia;
       rewrite andb_false_r; reflexivity|];
     rewrite orb_false_r; replace (0 <? length v)%nat with true by lia; rewrite andb_true_r;
     destruct (length k =? 0)%nat eqn:Ek; [destruct k; [reflexivity|discriminate]|]; key_cases).
Qed.

Lemma dcm_line_get key c line :
  key ∈ config_keys -> get key (dcm_line c line) = override key (dcm_binding key line) (get key c).
Proof.
  unfold dcm_line, dcm_binding. destruct (split_line line) as [[k v]|]; [|done]. cbn [mbind option_bind].
  generalize (unquote v) as u. clear v. intros v. revert key. destruct (0 <? length v)%nat eqn:Ev;
    apply config_key_cases; rewrite ?andb_true_r, ?andb_false_r; key_cases.
Qed.

Lemma foldl_get key step bind lines c :
  (forall c line, get key (step c line) = override key (bind line) (get key c)) ->
  get key (foldl step c lines) = override key (last_binding bind lines) (get key c).
Proof.
  intros Hstep. unfold last_binding.
  assert (forall found old c, get key c = override key found old ->
    get key (foldl step c lines) =
    override key (foldl (fun found line => match bind line with Some v => Some v | None => found end) found lines) old) as Hgen;
    [|by apply Hgen].
  induction lines as [|line lines IH]; intros found old c' Hc; [exact Hc|]. cbn [foldl]. apply IH.
  rewrite Hstep, Hc. by destruct (bind line).
Qed.

Lemma property_lines_get key lines c :
  key ∈ config_keys -> get key (foldl property_line c lines) = override key (last_binding (binding key) lines) (get key c).
Proof. intros Hk. apply foldl_get. intros. by apply property_line_get. Qed.

Lemma dcm_lines_get key lines c :
  key ∈ config_keys -> get key (foldl dcm_line c lines) = override key (last_binding (dcm_binding key) lines) (get key c).
Proof. intros Hk. apply foldl_get. intros. by apply dcm_line_get. Qed.

(** Every array holds a terminated text. *)
Definition config_ok (c : rrd_config_t) : Prop :=
  forall key, key ∈ config_keys -> (length (get key c) < field_size key)%nat.

Lemma override_bound key v old :
  key ∈ config_keys -> (length old < field_size key)%nat -> (length (override key v old) < field_size key)%nat.
Proof.
  intros Hk Ho. destruct v as [v|]; [|done]. apply bounded_copy_length. revert key Hk Ho.
  apply (config_key_cases (fun key => _ -> (0 < field_size key)%nat)); intros _; vm_compute; lia.
Qed.

Lemma empty_config_ok : config_ok empty_config.
Proof. intros key Hk. revert key Hk. apply config_key_cases; vm_compute; lia. Qed.

Lemma config_ok_step c c' (f : cstr -> option cstr) :
  (forall key, key ∈ config_keys -> get key c' = override key (f key) (get key c)) -> config_ok c -> config_ok c'.
Proof. intros Hg Hc key Hk. rewrite Hg by done. apply override_bound; auto. Qed.

Lemma property_lines_ok lines c : config_ok c -> config_ok (foldl property_line c lines).
Proof. apply config_ok_step with (f := fun key => last_binding (binding key) lines). intros. by apply property_lines_get. Qed.

Lemma dcm_lines_ok lines c : config_ok c -> config_ok (foldl dcm_line c lines).
Proof. apply config_ok_step with (f := fun key => last_binding (dcm_binding key) lines). intros. by apply dcm_lines_get. Qed.

(** One setter as an override of one key. *)
Definition only (key : cstr) (v : cstr) (k : cstr) : option cstr := if streq k key then Some v else None.

Lemma set_log_server_get v c key : key ∈ config_keys ->
  get key (set_log_server v c) = override key (only #"LOG_SERVER" v key) (get key c).
Proof. revert key. apply config_key_cases; reflexivity. Qed.

Lemma set_http_upload_link_get v c key : key ∈ config_keys ->
  get key (set_http_upload_link v c) = override key (only #"HTTP_UPLOAD_LINK" v key) (get key c).
Proof. revert key. apply config_key_cases; reflexivity. Qed.

Lemma set_upload_protocol_get v c key : key ∈ config_keys ->
  get key (set_upload_protocol v c) = override key (only #"UPLOAD_PROTOCOL" v key) (get key c).
Proof. revert key. apply config_key_cases; reflexivity. Qed.

Lemma set_use_rfc_get c key : key ∈ config_keys -> get key (set_use_rfc c) = get key c.
Proof. revert key. apply config_key_cases; reflexivity. Qed.

#[export] Hint Resolve property_lines_ok dcm_lines_ok empty_config_ok : config.

(** ** Lemmas: the operations *)

Lemma foldl_use_rfc (step : rrd_config_t -> cstr -> rrd_config_t) lines c :
  (forall c line, use_rfc_config (step c line) = use_rfc_config c) ->
  use_rfc_config (foldl step c lines) = use_rfc_config c.
Proof. intros Hs. revert c. induction lines as [|l lines IH]; intros c; [done|]. cbn. by rewrite IH. Qed.

Lemma property_line_rfc c line : use_rfc_config (property_line c line) = use_rfc_config c.
Proof. unfold property_line. by repeat case_match. Qed.

Lemma dcm_line_rfc c line : use_rfc_config (dcm_line c line) = use_rfc_config c.
Proof. unfold dcm_line. by repeat case_match. Qed.

(** A step of the configuration that keeps its arrays terminated and the RFC
    flag, and adds no event. *)
Definition keeps (c : rrd_config_t) (r : Z * option rrd_config_t) (evs : trace) : Prop :=
  exists c', snd r = Some c' /\ evs = [] /\ (config_ok c -> config_ok c') /\ use_rfc_config c' = use_rfc_config c.

Definition tr181_event (e : event) : Prop := e = EvPopen LOG_SERVER_CMD \/ e = EvPopen SSR_URL_CMD.

Section LoadLemmas.
Context `{OS}.

Lemma parse_properties_keeps p c : returns (rrd_config_parse_properties (Some p) (Some c)) (keeps c).
Proof.
  unfold rrd_config_parse_properties. apply returns_ask. intros [text|]; apply returns_ret; eexists; split_and!; try done.
  - apply property_lines_ok.
  - apply foldl_use_rfc, property_line_rfc.
Qed.

Lemma parse_dcm_keeps p c : returns (rrd_config_parse_dcm_settings (Some p) (Some c)) (keeps c).
Proof.
  unfold rrd_config_parse_dcm_settings. apply returns_ask. intros [text|]; apply returns_ret; eexists; split_and!; try done.
  - apply dcm_lines_ok.
  - apply foldl_use_rfc, dcm_line_rfc.
Qed.

Lemma file_exists_returns p : returns (file_exists (Some p)) (fun _ evs => evs = []).
Proof. apply returns_ask. intros [st|]; by apply returns_ret. Qed.

Lemma query_value_returns cmd : returns (query_value cmd) (fun _ evs => evs = [EvPopen cmd]).
Proof.
  unfold query_value, execute_command. cbn [Nat.eqb].
  apply returns_bind with (Q := fun _ evs => evs = [EvPopen cmd]).
  - apply returns_act. intros [[text status]|]; by apply returns_ret.
  - intros [status output] evs ->. repeat case_match; by apply returns_ret.
Qed.

Lemma query_rfc_returns c :
  returns (rrd_config_query_rfc (Some c)) (fun r evs =>
    exists c', snd r = Some c' /\ (config_ok c -> config_ok c') /\ use_rfc_config c' = use_rfc_config c /\
      Forall tr181_event evs /\ (length evs <= 2)%nat /\ (fst r = 0 -> evs <> [])).
Proof.
  assert (forall v, config_ok c -> config_ok (set_log_server v c)) as Hls
    by (intros v; apply config_ok_step with (f := only #"LOG_SERVER" v); apply set_log_server_get).
  assert (forall v c, config_ok c -> config_ok (set_http_upload_link v c)) as Hlink
    by (intros v c'; apply config_ok_step with (f := only #"HTTP_UPLOAD_LINK" v); apply set_http_upload_link_get).
  unfold rrd_config_query_rfc. eapply returns_bind; [apply file_exists_returns|]. intros tr181 evs ->.
  destruct tr181; cbn [negb]; [|apply returns_ret; exists c; split_and!; [done|done|done|by constructor|cbn; lia|done]].
  eapply returns_bind; [apply query_value_returns|]. intros v evs ->.
  set (c1 := match v with Some v => (set_log_server v c, true) | None => (c, false) end).
  assert (config_ok c -> config_ok c1.1) as Hc1 by (destruct v; [apply Hls|done]).
  assert (use_rfc_config c1.1 = use_rfc_config c) as Hr1 by (by destruct v).
  destruct c1 as [c1 found]. cbn [fst] in *.
  assert (tr181_event (EvPopen LOG_SERVER_CMD)) as Ht1 by (by left).
  assert (tr181_event (EvPopen SSR_URL_CMD)) as Ht2 by (by right).
  destruct (length (http_upload_link c1) =? 0)%nat.
  - apply returns_bind with (Q := fun r evs => evs = [EvPopen SSR_URL_CMD] /\ (config_ok c -> config_ok r.1) /\
                                             use_rfc_config r.1 = use_rfc_config c).
    + eapply returns_bind; [apply query_value_returns|]. intros [v2|] evs ->; apply returns_ret; cbn [fst]; split_and!; (done || auto).
    + intros [c2 found2] evs (-> & Hc2 & Hr2). apply returns_ret. exists c2. cbn [fst snd] in *.
      split_and!; try done; try (cbn; lia). by repeat constructor.
  - apply returns_bind with (Q := fun r evs => evs = [] /\ r.1 = c1); [by apply returns_ret|].
    intros [c2 found2] evs [-> Heq]. cbn [fst] in Heq. subst c2. apply returns_ret. exists c1. cbn [fst snd] in *.
    split_and!; try done; try (cbn; lia). by repeat constructor.
Qed.
End LoadLemmas.

(** [file_exists] guarded by the build type. *)
Lemma override_check_returns `{OS} (b : bool) p :
  returns (if b then file_exists (Some p) else mret false) (fun _ evs => evs = []).
Proof. destruct b; [apply file_exists_returns|by apply returns_ret]. Qed.

Lemma deref_returns {A} (a : A) : returns (deref (Some a)) (fun b evs => b = a /\ evs = []).
Proof. by apply returns_ret. Qed.

(** The state after the property files, the queries and the DCM settings. *)
Definition loaded (c : rrd_config_t) (evs : trace) : Prop :=
  config_ok c /\ Forall tr181_event evs /\ (length evs <= 2)%nat /\ (use_rfc_config c = true -> evs <> []).

Lemma load_sources_returns `{OS} (b : bool) c :
  config_ok c -> use_rfc_config c = false ->
  returns (if b then mret c else
             '(rfc_ok, c) ← rrd_config_query_rfc (Some c);
             c ← deref c;
             let c := if rfc_ok =? 0 then set_use_rfc c else c in
             '(_, c) ← rrd_config_parse_dcm_settings (Some #"/tmp/DCMSettings.conf") (Some c);
             deref c) loaded.
Proof.
  intros Hok Hrfc. destruct b; [apply returns_ret; split_and!; [done|by constructor|cbn; lia|by rewrite Hrfc]|].
  eapply returns_bind; [apply query_rfc_returns|].
  intros [rfc_ok o] evs (c1 & Ho & Hok1 & Hr1 & Hev & Hlen & Hne). cbn [fst snd] in *. subst o.
  eapply returns_bind; [apply deref_returns|]. intros c1' e1 [-> ->].
  set (c2 := if rfc_ok =? 0 then set_use_rfc c1 else c1).
  assert (config_ok c2) as Hok2.
  { unfold c2. destruct (rfc_ok =? 0); [|auto]. intros key Hk. rewrite set_use_rfc_get by done. apply Hok1; auto. }
  eapply returns_bind; [apply parse_dcm_keeps|].
  intros [st o] e2 (c3 & Ho & -> & Hok3 & Hr3). cbn [snd] in Ho. subst o.
  apply returns_ret. rewrite !app_nil_r. split_and!; [auto|done|done|].
  rewrite Hr3. unfold c2. destruct (Z.eqb_spec rfc_ok 0); [auto|]. by rewrite Hr1, Hrfc.
Qed.

Lemma load_fallback_returns `{OS} (b1 b2 : bool) c : config_ok c ->
  returns (if b1 then
             opt ← (if b2 then file_exists (Some #"/opt/dcm.properties") else mret false);
             dcm_file ← (if (opt : bool) then mret (Some #"/opt/dcm.properties") else
                           etc ← file_exists (Some #"/etc/dcm.properties");
                           mret (if (etc : bool) then Some #"/etc/dcm.properties" else None));
             match dcm_file with
             | Some p => '(_, c) ← rrd_config_parse_properties (Some p) (Some c); deref c
             | None => mret c
             end
           else mret c) (fun c' evs => evs = [] /\ config_ok c' /\ use_rfc_config c' = use_rfc_config c).
Proof.
  intros Hok. destruct b1; [|by apply returns_ret].
  eapply returns_bind; [apply override_check_returns|]. intros opt e ->.
  apply returns_bind with (Q := fun _ evs => evs = []).
  { destruct opt; [by apply returns_ret|]. eapply returns_bind; [apply file_exists_returns|]. intros etc e ->. by apply returns_ret. }
  intros [p|] e ->; [|by apply returns_ret].
  eapply returns_bind; [apply parse_properties_keeps|]. intros [st o] e2 (c3 & Ho & -> & Hok3 & Hr3).
  cbn [snd] in Ho. subst o. apply returns_ret. split_and!; auto.
Qed.

(** [rrd_config_load] as a computation that returns. *)
Lemma rrd_config_load_returns `{OS} c0 :
  returns (rrd_config_load (Some c0)) (fun r evs => exists c, snd r = Some c /\ loaded c evs /\
    fst r = (if (length (log_server c) =? 0)%nat then -2 else if (length (http_upload_link c) =? 0)%nat then -3 else 0)).
Proof.
  unfold rrd_config_load. set (c1 := set_upload_protocol _ _).
  assert (config_ok c1) as Hok1 by (apply (config_ok_step empty_config _ (only #"UPLOAD_PROTOCOL" #"HTTP"));
    [apply set_upload_protocol_get|apply empty_config_ok]).
  eapply returns_bind; [apply parse_properties_keeps|]. intros [s1 o1] e1 (c2 & Ho & -> & Hok2 & Hr2).
  cbn [snd] in Ho. subst o1.
  eapply returns_bind; [apply parse_properties_keeps|]. intros [s2 o2] e2 (c3 & Ho & -> & Hok3 & Hr3).
  cbn [snd] in Ho. subst o2. eapply returns_bind; [apply deref_returns|]. intros c3' e3 [-> ->].
  eapply returns_bind; [apply override_check_returns|]. intros over e4 ->.
  eapply returns_bind; [apply load_sources_returns; [auto|by rewrite Hr3, Hr2]|].
  intros c4 e5 Hl.
  eapply returns_bind; [apply load_fallback_returns, Hl|].
  intros c5 e6 (-> & Hok5 & Hr5).
  assert (loaded c5 e5) as Hl5.
  { destruct Hl as (_ & H1 & H2 & H3). split_and!; [done|done|done|]. by rewrite Hr5. }
  destruct (length (log_server c5) =? 0)%nat eqn:E1; [|destruct (length (http_upload_link c5) =? 0)%nat eqn:E2];
    apply returns_ret; exists c5; rewrite !app_nil_l, ?app_nil_r, E1, ?E2; done.
Qed.

(** ** Properties *)

(** The values a property file leaves in the configuration.  For each of
    the six keys, after the lines of a file were processed,
    [rrd_config_get_value] returns the value of the last line that binds the
    key to a non-empty value, cut to the size of its array, and the value it
    returned before when no line does; all other lines have no effect on it.
    The value of a line is trimmed of blanks at both ends. *)
Theorem properties_last_binding lines c key :
  key ∈ config_keys ->
  rrd_config_get_value (Some (foldl property_line c lines)) (Some key) =
    match last_binding (binding key) lines with
    | Some v => Some (take (field_size key - 1) v)
    | None => rrd_config_get_value (Some c) (Some key)
    end /\
  (forall line v, binding key line = Some v ->
     v <> [] /\ (forall x u, v = x :: u -> blank x = false) /\ (forall x u, v = u ++ [x] -> blank x = false)).
Proof.
  intros Hk. split.
  - pose proof (property_lines_get key lines c Hk) as Hg. unfold get in Hg.
    assert (forall c, exists v, rrd_config_get_value (Some c) (Some key) = Some v) as Hsome.
    { intros c'. clear Hg. revert key Hk. apply config_key_cases; by eexists. }
    destruct (Hsome (foldl property_line c lines)) as [v Hv]. destruct (Hsome c) as [v0 Hv0].
    rewrite Hv, Hv0 in *. cbn [default from_option id] in Hg. rewrite Hg. by destruct (last_binding _ _).
  - intros line v. unfold binding, split_line. destruct (strchr line "=") as [n|]; [|done]. cbn [mbind option_bind].
    destruct (streq _ key && _) eqn:E; [|done]. intros [= <-].
    apply andb_true_iff in E as [_ E]. destruct (trim_spec (drop (S n) line)) as (a & b & _ & _ & H1 & H2).
    split_and!; [intros Hn; by rewrite Hn in E|exact H1|exact H2].
Qed.

Lemma properties_last_binding_witness :
  rrd_config_get_value (Some (foldl property_line empty_config
     [#"# settings"; #" LOG_SERVER = a.example "; #"LOG_SERVER="; #"LOG_SERVER=b.example"]))
    (Some #"LOG_SERVER") = Some #"b.example".
Proof.
  rewrite (proj1 (properties_last_binding _ _ _ (list_elem_of_here #"LOG_SERVER" _))). vm_compute. reflexivity.
Defined.

(** C34: loading the configuration, whatever the files hold and the commands
    print.  The call returns without a fault; every array is left terminated;
    the status is -2 exactly when there is no log server, -3 when there is one
    but no upload link, and 0 when there are both; nothing is run but the two
    tr181 queries, each at most once, and the RFC flag is only set after one. *)
Theorem rrd_config_load_total `{OS} c0 w :
  exists r c w' evs, rrd_config_load (Some c0) w = Ret (r, Some c) w' /\ w_trace w' = w_trace w ++ evs /\
    config_ok c /\
    r = (if (length (log_server c) =? 0)%nat then -2 else if (length (http_upload_link c) =? 0)%nat then -3 else 0) /\
    Forall tr181_event evs /\ (length evs <= 2)%nat /\ (use_rfc_config c = true -> evs <> []).
Proof.
  destruct (rrd_config_load_returns c0 w) as ([r o] & w' & evs & E & T & c & Ho & (H1 & H2 & H3 & H4) & Hc).
  cbn [fst snd] in *. subst o. exists r, c, w', evs. split_and!; try done.
Qed.

(** ** Precedence of the sources, for files that do not change *)

Section Static.
Context `{O : OS} (file : cstr -> option cstr) (stat_of : cstr -> option stat) (output : cstr -> option (cstr * Z)).
Hypothesis Hfile : forall t p, os_fopen t p = file p.
Hypothesis Hstat : forall t p, os_stat t p = stat_of p.
Hypothesis Hpopen : forall t cmd, os_popen t cmd = output cmd.

Definition lines_of (p : cstr) : list cstr := match file p with Some text => fgets_lines LINE_SIZE text | None => [] end.

Lemma parse_properties_static p c w :
  exists st, rrd_config_parse_properties (Some p) (Some c) w = Ret (st, Some (foldl property_line c (lines_of p))) w.
Proof.
  unfold rrd_config_parse_properties, lines_of, sys_fopen, ask, mbind, M_bind. rewrite Hfile.
  destruct (file p); by eexists.
Qed.

Lemma parse_dcm_static p c w :
  exists st, rrd_config_parse_dcm_settings (Some p) (Some c) w = Ret (st, Some (foldl dcm_line c (lines_of p))) w.
Proof.
  unfold rrd_config_parse_dcm_settings, lines_of, sys_fopen, ask, mbind, M_bind. rewrite Hfile.
  destruct (file p); by eexists.
Qed.

Definition exists_file (p : cstr) : bool :=
  match stat_of p with Some st => S_ISREG st && (0 <? st_size st) | None => false end.

Lemma file_exists_static p w : file_exists (Some p) w = Ret (exists_file p) w.
Proof. unfold file_exists, exists_file, sys_stat, ask, mbind, M_bind. rewrite Hstat. by destruct (stat_of p). Qed.

(** The answer of a query. *)
Definition answer (cmd : cstr) : option cstr :=
  match query_value cmd (World [] 0) with Ret v _ => v | _ => None end.

Lemma query_value_static cmd w : exists w', query_value cmd w = Ret (answer cmd) w'.
Proof.
  unfold answer, query_value, execute_command, sys_popen, act. cbn [Nat.eqb]. unfold mbind, M_bind. rewrite !Hpopen.
  destruct (output cmd) as [[text status]|]; [|by eexists].
  unfold mret, M_ret. repeat (case_match; simplify_eq/=; try by eexists).
Qed.

Lemma answer_nonempty cmd : answer cmd <> Some [].
Proof.
  unfold answer, query_value. destruct (execute_command (Some cmd) 512 (World [] 0)) as [[s o] w'| |] eqn:E;
    unfold mbind, M_bind; rewrite E; try done.
  destruct (_ && _); [|done]. destruct ((0 <? length (trim o))%nat && _) eqn:E2; [|done].
  intros [= Ht]. by rewrite Ht in E2.
Qed.

Definition rfc_log_server : option cstr := if exists_file TR181 then answer LOG_SERVER_CMD else None.

(** With an upload link, only the log server is queried. *)
Lemma query_rfc_static c w : http_upload_link c <> [] ->
  exists w' r, rrd_config_query_rfc (Some c) w =
    Ret (r, Some (match rfc_log_server with Some v => set_log_server v c | None => c end)) w'.
Proof.
  intros Hl. unfold rrd_config_query_rfc, rfc_log_server. unfold mbind at 1, M_bind at 1. rewrite file_exists_static.
  destruct (exists_file TR181); cbn [negb]; [|by eexists _, _].
  destruct (query_value_static LOG_SERVER_CMD w) as [w1 E1]. unfold mbind at 1, M_bind at 1. rewrite E1.
  destruct (answer LOG_SERVER_CMD) as [v|]; cbn [http_upload_link set_log_server];
    destruct (http_upload_link c) eqn:El; try done; by eexists _, _.
Qed.

Lemma override_override key a b old : override key a (override key b old) = override key (a ∪ b) old.
Proof. by destruct a, b. Qed.

Lemma get_link_nonempty c : http_upload_link c <> [] <-> get #"HTTP_UPLOAD_LINK" c <> [].
Proof. done. Qed.

Lemma override_nonempty v old : v <> Some [] -> old <> [] -> override #"HTTP_UPLOAD_LINK" v old <> [].
Proof. destruct v as [[|x v]|]; intros Hv Ho; [done| |done]. change (override _ _ _) with (take 511 (x :: v)). done. Qed.

Lemma last_binding_nonempty bind lines : (forall line, bind line <> Some []) -> last_binding bind lines <> Some [].
Proof.
  intros Hb. unfold last_binding. assert (@None cstr <> Some []) as Hn by done. revert Hn. generalize (@None cstr) as f.
  induction lines as [|l lines IH]; intros f Hf; [done|]. cbn [foldl]. apply IH.
  specialize (Hb l). by destruct (bind l).
Qed.

Lemma binding_nonempty key line : binding key line <> Some [].
Proof.
  unfold binding. destruct (split_line line) as [[k v]|]; [|done]. cbn [mbind option_bind].
  destruct (streq k key && _) eqn:E; [|done]. intros [= ->]. apply andb_true_iff in E as [_ E]. done.
Qed.

Lemma dcm_binding_nonempty key line : dcm_binding key line <> Some [].
Proof.
  unfold dcm_binding. destruct (split_line line) as [[k v]|]; [|done]. cbn [mbind option_bind].
  destruct (0 <? length (unquote v))%nat eqn:E; repeat case_match; try done; intros [= Hv]; by rewrite Hv in E.
Qed.

End Static.

Lemma union_nonempty {A} (a b : option (list A)) : a <> Some [] -> b <> Some [] -> a ∪ b <> Some [].
Proof. by destruct a, b. Qed.

Lemma rfc_log_server_nonempty `{OS} stat_of : rfc_log_server stat_of <> Some [].
Proof. unfold rfc_log_server. case_match; [apply answer_nonempty|done]. Qed.

(** The precedence of the sources of the log server.  When the files do
    not change, an upload link is bound in one of the property files and no
    override file is present, the log server is the one of the DCM settings
    if they bind it, else the answer of the RFC query, else the last binding
    of device.properties, else that of include.properties, cut to 255
    characters, and loading succeeds. *)
Theorem log_server_precedence `{O : OS} file stat_of output c0 w v :
  (forall t p, os_fopen t p = file p) -> (forall t p, os_stat t p = stat_of p) ->
  (forall t cmd, os_popen t cmd = output cmd) ->
  stat_of #"/opt/dcm.properties" = None ->
  is_Some (last_binding (binding #"HTTP_UPLOAD_LINK") (lines_of file #"/etc/device.properties")) ->
  last_binding (dcm_binding #"LOG_SERVER") (lines_of file #"/tmp/DCMSettings.conf")
    ∪ rfc_log_server stat_of
    ∪ last_binding (binding #"LOG_SERVER") (lines_of file #"/etc/device.properties")
    ∪ last_binding (binding #"LOG_SERVER") (lines_of file #"/etc/include.properties") = Some v ->
  exists c w', rrd_config_load (Some c0) w = Ret (0, Some c) w' /\ log_server c = take 255 v.
Proof.
  intros Hfile Hstat Hpopen Hopt [link Hlink] Hv. unfold rrd_config_load.
  set (c1 := set_upload_protocol _ _).
  destruct (parse_properties_static file Hfile #"/etc/include.properties" c1 w) as [s1 E1].
  set (c2 := foldl property_line c1 _) in E1.
  destruct (parse_properties_static file Hfile #"/etc/device.properties" c2 w) as [s2 E2].
  set (c3 := foldl property_line c2 _) in E2.
  assert (http_upload_link c3 <> []) as Hl3.
  { apply get_link_nonempty. unfold c3. rewrite property_lines_get, Hlink by (right; left).
    pose proof (last_binding_nonempty (binding #"HTTP_UPLOAD_LINK") (lines_of file #"/etc/device.properties")
                  (binding_nonempty _)) as Hne. rewrite Hlink in Hne. by destruct link. }
  destruct (query_rfc_static stat_of output Hstat Hpopen c3 w Hl3) as (w3 & r3 & E3).
  set (c4 := match rfc_log_server stat_of with Some v => _ | None => _ end) in E3.
  set (c5 := if r3 =? 0 then set_use_rfc c4 else c4).
  destruct (parse_dcm_static file Hfile #"/tmp/DCMSettings.conf" c5 w3) as [s6 E6].
  set (c6 := foldl dcm_line c5 _) in E6.
  assert (#"LOG_SERVER" ∈ config_keys) as HL by left.
  assert (#"HTTP_UPLOAD_LINK" ∈ config_keys) as HH by (right; left).
  assert (forall key, key ∈ config_keys -> get key c5 = get key c4) as H5.
  { intros key Hk. unfold c5. destruct (r3 =? 0); [by apply set_use_rfc_get|done]. }
  assert (log_server c6 = take 255 v) as Hls.
  { change (log_server c6) with (get #"LOG_SERVER" c6). unfold c6. rewrite dcm_lines_get, H5 by done.
    assert (get #"LOG_SERVER" c4 = override #"LOG_SERVER" (rfc_log_server stat_of) (get #"LOG_SERVER" c3)) as ->
      by (unfold c4; destruct (rfc_log_server stat_of); [by apply set_log_server_get|done]).
    unfold c3, c2. rewrite !property_lines_get, !override_override, Hv by done. done. }
  assert (v <> []) as Hvne.
  { intros ->. revert Hv. repeat apply union_nonempty;
      auto using last_binding_nonempty, dcm_binding_nonempty, binding_nonempty, rfc_log_server_nonempty. }
  assert (http_upload_link c6 <> []) as Hl6.
  { apply get_link_nonempty. unfold c6. rewrite dcm_lines_get, H5 by done.
    apply override_nonempty; [apply last_binding_nonempty, dcm_binding_nonempty|].
    unfold c4. by destruct (rfc_log_server stat_of). }
  exists c6, w3. split; [|done].
  unfold mbind at 1, M_bind at 1. rewrite E1. unfold mbind at 1, M_bind at 1. rewrite E2. cbn [deref]. rewrite bind_ret_l.
  assert (forall b : bool, (if b then file_exists (Some #"/opt/dcm.properties") else mret false) w = Ret false w) as Hover.
  { intros [|]; [|done]. rewrite (file_exists_static _ Hstat). unfold exists_file. by rewrite Hopt. }
  unfold mbind at 1, M_bind at 1. rewrite Hover. cbv beta iota.
  unfold mbind at 1, M_bind at 1. unfold mbind at 1, M_bind at 1. rewrite E3. cbn [deref]. rewrite bind_ret_l. fold c5.
  unfold mbind at 1, M_bind at 1. rewrite E6. cbn [deref].
  assert ((length (log_server c6) =? 0)%nat = false) as Z1 by (rewrite Hls; by destruct v).
  assert ((length (http_upload_link c6) =? 0)%nat = false) as Z2 by (by destruct (http_upload_link c6)).
  unfold mret at 1, M_ret at 1. rewrite Z1, Z2. cbn [orb]. rewrite bind_ret_l, Z1, Z2. done.
Qed.

Definition sample_file (p : cstr) : option cstr :=
  if streq p #"/etc/device.properties"
  then Some (#"LOG_SERVER=dev.example" ++ [NEWLINE] ++ #"HTTP_UPLOAD_LINK=https://up.example" ++ [NEWLINE])
  else if streq p #"/tmp/DCMSettings.conf" then Some #"LOG_SERVER=dcm.example" else None.

Definition sample_config_os : OS := demo_os {|
  demo_stat := fun _ => None; demo_dir := fun _ => None; demo_file := sample_file;
  demo_popen := fun _ => None; demo_lock := fun _ => LockGranted; demo_upload := 0 |}.

Lemma log_server_precedence_witness :
  exists c w', @rrd_config_load sample_config_os (Some empty_config) (World [] 0) = Ret (0, Some c) w' /\
    log_server c = #"dcm.example".
Proof.
  apply (log_server_precedence (O := sample_config_os) sample_file (fun _ => None) (fun _ => None)
           empty_config (World [] 0) #"dcm.example"); try reflexivity.
  eexists. vm_compute. reflexivity.
Defined.
