(* ===== verification/SysInfo.v ===== *)
(** * SysInfo: system information and the log directory
    (src/rrd_sysinfo.c, src/rrd_logproc.c)

    The MAC address and the timestamp that name a report, the tests on files
    and directories, and the preparation of the directory that is archived. *)

From S2P Require Import Prelude OS Archive.

Local Open Scope Z_scope.

(** ** printf %0<w>d *)

Fixpoint dec_digits (fuel : nat) (v : Z) : cstr :=
  match fuel with
  | O => []
  | S fuel' => (if v <? 10 then [] else dec_digits fuel' (v / 10)) ++ [char_of (48 + v mod 10)]
  end.

(** The digits of a number that is not negative; each halves it at least. *)
Definition dec (v : Z) : cstr := dec_digits (Z.to_nat (Z.log2 v) + 1) v.

Definition printf_dec (w : nat) (v : Z) : cstr :=
  if v <? 0 then let d := dec (- v) in #"-" ++ replicate (w - 1 - length d) "0"%char ++ d
  else let d := dec v in replicate (w - length d) "0"%char ++ d.

(** ** The clock on the wall *)

(** The hour printed and the mark. *)
Definition clock_hour (tm_hour : Z) : Z * cstr :=
  if 12 <=? tm_hour then (if 12 <? tm_hour then tm_hour - 12 else tm_hour, #"PM")
  else (if tm_hour =? 0 then 12 else tm_hour, #"AM").

Definition timestamp_text (t : tm) : cstr :=
  let '(hour, ampm) := clock_hour (tm_hour t) in
  bounded_copy 64 (printf_dec 4 (tm_year t + 1900) ++ #"-" ++ printf_dec 2 (tm_mon t + 1) ++ #"-" ++
    printf_dec 2 (tm_mday t) ++ #"-" ++ printf_dec 2 hour ++ #"-" ++ printf_dec 2 (tm_min t) ++ #"-" ++
    printf_dec 2 (tm_sec t) ++ ampm).

Definition not_dot (d_name : cstr) : bool := negb (streq d_name #".") && negb (streq d_name #"..").

Section SysInfo.
Context `{OS}.

(** Status and the buffer after the call, when it was written; [mac_addr] is
    whether the pointer is not [NULL]. *)
Definition rrd_sysinfo_get_mac_address (mac_addr : bool) (size : nat) : M (Z * option cstr) :=
  if negb mac_addr || (size <? 13)%nat then mret (-1, None) else
  mac_with_colons ← sys_estb_mac 18;
  match mac_with_colons with
  | [] => mret (-1, None)
  | _ => mret (0, Some (take (size - 1) (List.filter (fun c => negb (chareq c ":")) mac_with_colons)))
  end.

Definition rrd_sysinfo_get_timestamp (timestamp : bool) (size : nat) : M (Z * option cstr) :=
  if negb timestamp || (size <? 20)%nat then mret (-1, None) else
  tm_info ← sys_localtime;
  match tm_info with
  | None => mret (-1, Some [])
  | Some t => mret (0, Some (bounded_copy size (timestamp_text t)))
  end.

Definition rrd_sysinfo_file_exists (filepath : option cstr) : M bool :=
  match filepath with None => mret false | Some p => sys_access p end.

Definition rrd_sysinfo_dir_exists (dirpath : option cstr) : M bool :=
  match dirpath with
  | None => mret false
  | Some p => st ← sys_stat p; mret (match st with Some st => S_ISDIR st | None => false end)
  end.

Definition rrd_sysinfo_dir_is_empty (dirpath : option cstr) : M bool :=
  match dirpath with
  | None => mret false
  | Some p =>
      dir ← sys_readdir p;
      mret (match dir with
            | None => false
            | Some names => negb (existsb not_dot names)
            end)
  end.

(** [size_t] addition. *)
Definition add_size (a b : Z) : Z := (a + b) mod 2 ^ 64.

(** The loop over the entries; [rec] is the recursive call. *)
Fixpoint dir_size_loop (rec : cstr -> M (Z * Z)) (dirpath : cstr) (size : Z) (names : list cstr) : M Z :=
  match names with
  | [] => mret size
  | d_name :: names' =>
      if negb (not_dot d_name) then dir_size_loop rec dirpath size names' else
      let filepath := bounded_copy 1024 (dirpath ++ #"/" ++ d_name) in
      st ← sys_stat filepath;
      match st with
      | None => dir_size_loop rec dirpath size names'
      | Some st =>
          if S_ISREG st then dir_size_loop rec dirpath (add_size size (st_size st)) names'
          else if S_ISDIR st then
            '(status, subdir_size) ← rec filepath;
            dir_size_loop rec dirpath (if status =? 0 then add_size size subdir_size else size) names'
          else dir_size_loop rec dirpath size names'
      end
  end.

(** Status and [*size]. *)
Fixpoint get_dir_size (fuel : nat) (dirpath : cstr) : M (Z * Z) :=
  match fuel with
  | O => mfault OutOfFuel
  | S fuel' =>
      dir ← sys_readdir dirpath;
      match dir with
      | None => mret (-1, 0)
      | Some names => size ← dir_size_loop (get_dir_size fuel') dirpath 0 names; mret (0, size)
      end
  end.

Definition rrd_sysinfo_get_dir_size (fuel : nat) (dirpath : option cstr) (size : bool) : M (Z * Z) :=
  match dirpath with
  | Some p => if size then get_dir_size fuel p else mret (-1, 0)
  | None => mret (-1, 0)
  end.

(** ** rrd_logproc.c *)

Definition rrd_logproc_validate_source (source_dir : option cstr) : M Z :=
  match source_dir with
  | None => mret (-1)
  | Some p =>
      d ← sys_readdir p;
      match d with
      | None => mret (-2)
      | Some names => if existsb not_dot names then mret 0 else mret (-3)
      end
  end.

Definition rrd_logproc_prepare_logs (source_dir issue_type : option cstr) : M Z :=
  match source_dir, issue_type with
  | Some p, Some _ =>
      valid ← rrd_logproc_validate_source (Some p);
      if negb (valid =? 0) then mret valid else mret 0
  | _, _ => mret (-1)
  end.

Definition LIVE_LOGS_FILE : cstr := #"/tmp/rrd/RRD_LIVE_LOGS.tar.gz".

Definition rrd_logproc_handle_live_logs (source_dir : option cstr) : M Z :=
  match source_dir with
  | None => mret (-1)
  | Some p =>
      let dest_path := bounded_copy 1024 (p ++ #"/RRD_LIVE_LOGS.tar.gz") in
      r ← sys_rename LIVE_LOGS_FILE dest_path;
      match r with
      | RenameOk | RenameENOENT => mret 0
      | RenameError => mret (-2)
      end
  end.
End SysInfo.

(** ** Lemmas: the timestamp reads back *)

Definition read_dec (s : cstr) : Z := foldl (fun acc c => 10 * acc + (byte_of c - 48)) 0 s.

(** A number of the range has [w] digits and reads back. *)
Definition dec_ok (w : nat) (v : Z) : bool :=
  (length (printf_dec w v) =? w)%nat && (read_dec (printf_dec w v) =? v).

Lemma dec_ok_range w n : forallb (dec_ok w) (seqZ 0 n) = true ->
  forall v, 0 <= v < n -> length (printf_dec w v) = w /\ read_dec (printf_dec w v) = v.
Proof.
  intros Hall v Hv. rewrite forallb_forall in Hall. specialize (Hall v).
  assert (List.In v (seqZ 0 n)) as Hin by (apply list_elem_of_In, elem_of_seqZ; lia).
  apply Hall in Hin. unfold dec_ok in Hin. apply andb_true_iff in Hin as [H1 H2].
  split; [by apply Nat.eqb_eq|by apply Z.eqb_eq].
Qed.

Lemma printf_dec_2 v : 0 <= v < 100 -> length (printf_dec 2 v) = 2%nat /\ read_dec (printf_dec 2 v) = v.
Proof. apply dec_ok_range. vm_compute. reflexivity. Qed.

Lemma printf_dec_4 v : 0 <= v < 10000 -> length (printf_dec 4 v) = 4%nat /\ read_dec (printf_dec 4 v) = v.
Proof. apply dec_ok_range. vm_compute. reflexivity. Qed.

(** A time of the calendar. *)
Definition tm_valid (t : tm) : Prop :=
  -1900 <= tm_year t < 8100 /\ 0 <= tm_mon t < 12 /\ 1 <= tm_mday t <= 31 /\ 0 <= tm_hour t < 24 /\
  0 <= tm_min t < 60 /\ 0 <= tm_sec t <= 60.

Definition wall_hour (h : Z) (mark : ascii) : Z :=
  if chareq mark "P" then (if h =? 12 then 12 else h + 12) else (if h =? 12 then 0 else h).

Definition read_timestamp (s : cstr) : tm :=
  Tm (read_dec (take 4 s) - 1900) (read_dec (take 2 (drop 5 s)) - 1) (read_dec (take 2 (drop 8 s)))
     (wall_hour (read_dec (take 2 (drop 11 s))) (nth 19 s " "%char))
     (read_dec (take 2 (drop 14 s))) (read_dec (take 2 (drop 17 s))).

Lemma clock_hour_spec h : 0 <= h < 24 ->
  exists mark, clock_hour h = ((clock_hour h).1, [mark; "M"%char]) /\ 1 <= (clock_hour h).1 <= 12 /\
    wall_hour (clock_hour h).1 mark = h.
Proof.
  intros Hh. assert (List.In h (seqZ 0 24)) as Hin by (apply list_elem_of_In, elem_of_seqZ; lia).
  repeat (destruct Hin as [<-|Hin]; [eexists; split; [reflexivity|vm_compute; split; [split|]; (discriminate || reflexivity)]|]).
  destruct Hin.
Qed.

Lemma text_2 (s : cstr) : length s = 2%nat -> exists a b, s = [a; b].
Proof. destruct s as [|a [|b [|]]]; try discriminate. by eexists _, _. Qed.

Lemma text_4 (s : cstr) : length s = 4%nat -> exists a b c d, s = [a; b; c; d].
Proof. destruct s as [|a [|b [|c [|d [|]]]]]; try discriminate. by eexists _, _, _, _. Qed.

Lemma timestamp_text_reads t : tm_valid t ->
  length (timestamp_text t) = 21%nat /\ read_timestamp (timestamp_text t) = t.
Proof.
  destruct t as [year mon mday hour mi sec]. intros (Hy & Hmo & Hd & Hh & Hmi & Hs). cbn in *.
  destruct (clock_hour_spec hour Hh) as (mark & Hc & Hr & Hw). unfold timestamp_text. cbn [tm_hour tm_year tm_mon tm_mday tm_min tm_sec].
  rewrite Hc. cbv beta iota. set (h12 := (clock_hour hour).1) in *.
  destruct (printf_dec_4 (year + 1900) ltac:(lia)) as [(y1 & y2 & y3 & y4 & Ey)%text_4 Ry].
  destruct (printf_dec_2 (mon + 1) ltac:(lia)) as [(m1 & m2 & Em)%text_2 Rm].
  destruct (printf_dec_2 mday ltac:(lia)) as [(d1 & d2 & Ed)%text_2 Rd].
  destruct (printf_dec_2 h12 ltac:(lia)) as [(h1 & h2 & Eh)%text_2 Rh].
  destruct (printf_dec_2 mi ltac:(lia)) as [(i1 & i2 & Ei)%text_2 Ri].
  destruct (printf_dec_2 sec ltac:(lia)) as [(s1 & s2 & Es)%text_2 Rs].
  rewrite Ey, Em, Ed, Eh, Ei, Es in *. split; [reflexivity|].
  unfold read_timestamp, bounded_copy. cbn [app take drop Nat.sub nth list_ascii_of_string].
  change (#"-") with ["-"%char]. cbn [app take drop nth].
  rewrite Ry, Rm, Rd, Rh, Ri, Rs, Hw. f_equal; lia.
Qed.

(** ** Lemmas: the size of a directory *)

(** The system answers as the tree [t] says, at every moment; [stat] follows
    links. *)
Fixpoint measured `{OS} (path : cstr) (t : fstree) : Prop :=
  Z.of_nat (length path) <= 1023 /\
  match t with
  | File st _ => S_ISREG st = true /\ (forall tr, os_stat tr path = Some st)
  | Dir st es =>
      S_ISREG st = false /\ S_ISDIR st = true /\ (forall tr, os_stat tr path = Some st) /\
      (exists names, (forall tr, os_readdir tr path = Some names) /\ List.filter not_dot names = es.*1) /\
      foldr (fun e P => measured (path ++ #"/" ++ fst e) (snd e) /\ P) True es
  | Special st => S_ISREG st = false /\ S_ISDIR st = false /\ (forall tr, os_stat tr path = Some st)
  end.

(** The bytes of the regular files of a tree, and its depth. *)
Fixpoint tree_size (t : fstree) : Z :=
  match t with
  | File st _ => st_size st
  | Dir _ es => foldr (fun e n => tree_size (snd e) + n) 0 es
  | Special _ => 0
  end.

Fixpoint tree_depth (t : fstree) : nat :=
  match t with
  | Dir _ es => S (foldr (fun e n => Nat.max (tree_depth (snd e)) n) 0%nat es)
  | _ => 0
  end.

Lemma add_size_mod n a : add_size (n mod 2 ^ 64) a = (n + a) mod 2 ^ 64.
Proof. unfold add_size. by rewrite Zplus_mod_idemp_l. Qed.

Lemma dir_size_loop_filter `{OS} rec dirpath names : forall size w,
  dir_size_loop rec dirpath size names w = dir_size_loop rec dirpath size (List.filter not_dot names) w.
Proof.
  induction names as [|n names IH]; intros size w; [done|]. cbn [List.filter dir_size_loop].
  destruct (not_dot n) eqn:E; cbn [negb]; [|apply IH]. cbn [dir_size_loop]. rewrite E. cbn [negb].
  unfold sys_stat, ask, mbind, M_bind. destruct (os_stat _ _) as [st|]; [|apply IH].
  destruct (S_ISREG st); [apply IH|]. destruct (S_ISDIR st); [|apply IH].
  destruct (rec _ w) as [[s z] w'| |]; [apply IH|done|done].
Qed.

Lemma dir_size_loop_sum `{OS} rec dirpath (es : list (cstr * fstree)) : forall n w,
  Forall (fun name => not_dot name = true) (es.*1) ->
  Forall (fun e => measured (dirpath ++ #"/" ++ e.1) e.2 /\
                   match e.2 with
                   | Dir _ _ => forall w, rec (dirpath ++ #"/" ++ e.1) w = Ret (0, tree_size e.2 mod 2 ^ 64) w
                   | _ => True
                   end) es ->
  dir_size_loop rec dirpath (n mod 2 ^ 64) (es.*1) w
  = Ret ((n + foldr (fun e n => tree_size (snd e) + n) 0 es) mod 2 ^ 64) w.
Proof.
  induction es as [|[name t] es IH]; intros n w Hdot Hes; cbn [fmap list_fmap foldr dir_size_loop fst snd] in *.
  { by rewrite Z.add_0_r. }
  inversion_clear Hdot as [|? ? Hd Hdot']. inversion_clear Hes as [|? ? [Hm Hrec] Hes']. cbn [fst snd] in *.
  rewrite Hd. cbn [negb]. rewrite Z.add_assoc.
  assert (Z.of_nat (length (dirpath ++ #"/" ++ name)) <= 1023) as Hl by (by destruct t, Hm).
  rewrite bounded_copy_id by lia. unfold sys_stat, ask, mbind, M_bind.
  destruct t as [st chunks|st es'|st]; cbn [measured] in Hm; cbn [tree_size].
  - destruct Hm as (_ & Hreg & Hst). rewrite Hst, Hreg, add_size_mod. by apply IH.
  - destruct Hm as (_ & Hreg & Hdir & Hst & _). rewrite Hst, Hreg, Hdir, Hrec. cbn [Z.eqb].
    rewrite add_size_mod, Zplus_mod_idemp_r. by apply IH.
  - destruct Hm as (_ & Hreg & Hdir & Hst). rewrite Hst, Hreg, Hdir, Z.add_0_r. by apply IH.
Qed.

Lemma measured_entries `{OS} path st es : measured path (Dir st es) ->
  Forall (fun e => measured (path ++ #"/" ++ e.1) e.2) es.
Proof.
  intros (_ & _ & _ & _ & _ & Hes). induction es as [|e es IH]; [constructor|]. cbn [foldr] in Hes.
  destruct Hes as [He Hes]. constructor; auto.
Qed.

Lemma entry_depth (es : list (cstr * fstree)) e : e ∈ es -> (tree_depth e.2 <= foldr (fun e n => Nat.max (tree_depth (snd e)) n) 0 es)%nat.
Proof.
  induction es as [|e' es IH]; [by intros ?%elem_of_nil|]. cbn [foldr].
  intros [->|He]%elem_of_cons; [lia|]. specialize (IH He). lia.
Qed.

Lemma get_dir_size_tree `{OS} t : forall fuel path w,
  measured path t -> (tree_depth t <= fuel)%nat ->
  match t with
  | Dir _ _ => get_dir_size fuel path w = Ret (0, tree_size t mod 2 ^ 64) w
  | _ => True
  end.
Proof.
  induction t as [|st es IH|] using fstree_induction; try done. intros fuel path w Hm Hf.
  pose proof (measured_entries _ _ _ Hm) as Hes. destruct Hm as (_ & _ & _ & _ & (names & Hdir & Hnames) & _).
  cbn [tree_depth] in Hf. destruct fuel as [|fuel]; [lia|]. cbn [get_dir_size].
  unfold sys_readdir, ask, mbind, M_bind. rewrite Hdir.
  rewrite dir_size_loop_filter, Hnames. change 0 with (0 mod 2 ^ 64) at 1. rewrite dir_size_loop_sum; [done| |].
  - rewrite <- Hnames. apply list.Forall_forall. intros n [_ Hn]%elem_of_bfilter. done.
  - apply list.Forall_forall. intros e He. rewrite list.Forall_forall in IH, Hes. split; [by apply Hes|].
    pose proof (entry_depth es e He). destruct (e.2) as [|st' es'|] eqn:Ee; [done| |done].
    intros w'. specialize (IH e He fuel (path ++ #"/" ++ e.1) w'). rewrite Ee in IH. apply IH; [|lia].
    specialize (Hes e He). by rewrite Ee in Hes.
Qed.

(** ** Properties *)

(** The timestamp of a report.  For a time of the calendar the text has 21
    characters and the time can be read back from it (so different times give
    different names); a buffer of at least 22 bytes receives all of it, while
    the buffers of 20 and 21 bytes that the check of the size lets through
    lose the end of the mark. *)
Theorem get_timestamp_reads_back `{OS} t size w :
  tm_valid t -> os_localtime (w_trace w) = Some t ->
  length (timestamp_text t) = 21%nat /\ read_timestamp (timestamp_text t) = t /\
  ((size < 20)%nat -> rrd_sysinfo_get_timestamp true size w = Ret (-1, None) w) /\
  ((22 <= size)%nat -> rrd_sysinfo_get_timestamp true size w = Ret (0, Some (timestamp_text t)) w) /\
  ((20 <= size < 22)%nat -> rrd_sysinfo_get_timestamp true size w = Ret (0, Some (take (size - 1) (timestamp_text t))) w
     /\ take (size - 1) (timestamp_text t) <> timestamp_text t).
Proof.
  intros Hv Ht. destruct (timestamp_text_reads t Hv) as [Hlen Hread]. split; [done|]. split; [done|].
  assert ((20 <= size)%nat -> rrd_sysinfo_get_timestamp true size w = Ret (0, Some (bounded_copy size (timestamp_text t))) w) as Hrun.
  { intros Hs. unfold rrd_sysinfo_get_timestamp. replace (size <? 20)%nat with false by lia. cbn [negb orb].
    unfold sys_localtime, ask, mbind, M_bind. by rewrite Ht. }
  split_and!.
  - intros Hs. unfold rrd_sysinfo_get_timestamp. by replace (size <? 20)%nat with true by lia.
  - intros Hs. by rewrite Hrun, bounded_copy_id by lia.
  - intros Hs. split; [by apply Hrun; lia|].
    intros Heq. apply (f_equal length) in Heq. rewrite length_take in Heq. lia.
Qed.

Lemma get_timestamp_reads_back_witness :
  @rrd_sysinfo_get_timestamp (demo_os empty_demo) true 32 (World [] 0)
    = Ret (0, Some #"2024-02-29-01-05-09PM") (World [] 0).
Proof.
  destruct (@get_timestamp_reads_back (demo_os empty_demo) (Tm 124 1 29 13 5 9) 32 (World [] 0)) as (_ & _ & _ & H & _);
    [vm_compute; intuition discriminate|reflexivity|]. apply H. vm_compute. lia.
Defined.

(** C35: the size of a directory.  For a tree that does not change and whose
    paths have at most 1023 characters, the call returns the sum of the sizes
    of its regular files in [size_t] arithmetic, with fuel as much as the tree
    is deep.  When the path of a directory fills the buffer of 1024 bytes, the
    path of each of its entries is cut back to the directory itself and the
    recursion has no end. *)
Theorem get_dir_size_sum `{OS} :
  (forall fuel path st es w, measured path (Dir st es) -> (tree_depth (Dir st es) <= fuel)%nat ->
     rrd_sysinfo_get_dir_size fuel (Some path) true w = Ret (0, tree_size (Dir st es) mod 2 ^ 64) w) /\
  (forall path st name names, length path = Z.to_nat 1023 -> S_ISREG st = false -> S_ISDIR st = true ->
     (forall t, os_stat t path = Some st) -> (forall t, os_readdir t path = Some (name :: names)) ->
     not_dot name = true ->
     forall fuel w, rrd_sysinfo_get_dir_size fuel (Some path) true w = Fault OutOfFuel).
Proof.
  split.
  - intros fuel path st es w Hm Hf. apply (get_dir_size_tree (Dir st es) fuel path w Hm Hf).
  - intros path st name names Hl Hreg Hdir Hst Hrd Hn fuel w. cbn [rrd_sysinfo_get_dir_size].
    revert w. induction fuel as [|fuel IH]; intros w; [done|]. cbn [get_dir_size].
    unfold sys_readdir, ask, mbind at 1, M_bind. rewrite Hrd. cbn [dir_size_loop]. rewrite Hn. cbn [negb].
    assert (bounded_copy 1024 (path ++ #"/" ++ name) = path) as ->.
    { unfold bounded_copy. apply take_app_length'. rewrite Hl. lia. }
    unfold sys_stat, ask, mbind, M_bind. by rewrite Hst, Hreg, Hdir, IH.
Qed.

Definition sample_dir_os : OS := demo_os {|
  demo_stat := fun p => snd <$> List.find (fun e => streq (fst e) p)
    [(#"/r", Stat 0x41ED 0 0 4096 0); (#"/r/a", Stat 0x81A4 0 0 5 0); (#"/r/s", Stat 0x41ED 0 0 4096 0);
     (#"/r/s/b", Stat 0x81A4 0 0 7 0)];
  demo_dir := fun p => if streq p #"/r" then Some [#"."; #".."; #"a"; #"s"]
                       else if streq p #"/r/s" then Some [#"b"] else None;
  demo_file := fun _ => None; demo_popen := fun _ => None; demo_lock := fun _ => LockGranted; demo_upload := 0 |}.

Lemma get_dir_size_sum_witness :
  @rrd_sysinfo_get_dir_size sample_dir_os 3 (Some #"/r") true (World [] 0) = Ret (0, 12) (World [] 0).
Proof.
  apply (proj1 (@get_dir_size_sum sample_dir_os) 3%nat #"/r" (Stat 0x41ED 0 0 4096 0)
           [(#"a", File (Stat 0x81A4 0 0 5 0) []);
            (#"s", Dir (Stat 0x41ED 0 0 4096 0) [(#"b", File (Stat 0x81A4 0 0 7 0) [])])] (World [] 0)).
  - cbn [measured foldr fst snd]. split_and!; try done; eexists; split; reflexivity.
  - vm_compute. lia.
Defined.
