(* ===== verification/Load.v ===== *)
(** * Load: processor load and priority (src/rrd_archive.c)

    The archive writer can lower its priority on a busy device.  The load is a
    [float], here an IEEE single of [SpecFloat], rounded to nearest even after
    every operation as on the targets of the daemon. *)

From Stdlib Require Import Floats.SpecFloat.
From S2P Require Import Prelude OS Config SysInfo.

Local Open Scope Z_scope.

(** ** unsigned long long *)

Definition u64 (n : Z) : Z := n mod 2 ^ 64.

(** ** sscanf *)

Fixpoint skip_space (s : cstr) : cstr :=
  match s with
  | c :: s' => if isspace c then skip_space s' else s
  | [] => []
  end.

Definition digit_value (c : ascii) : Z := Z.of_nat (code c) - 48.

Fixpoint scan_digits (v : Z) (s : cstr) : Z * cstr :=
  match s with
  | c :: s' => if isdigit c then scan_digits (10 * v + digit_value c) s' else (v, s)
  | [] => (v, [])
  end.

(** The sign of a number and what follows. *)
Definition scan_sign (s : cstr) : bool * cstr :=
  match s with
  | c :: s' => if chareq c "-" then (true, s') else if chareq c "+" then (false, s') else (false, s)
  | [] => (false, [])
  end.

(** [%llu]: a number too large is the largest one, a negative one is reduced
    modulo 2^64; [None] when no digit is there. *)
Definition scan_llu (s : cstr) : option (Z * cstr) :=
  let (negative, digits) := scan_sign (skip_space s) in
  match digits with
  | c :: _ =>
      if isdigit c then
        let (v, rest) := scan_digits 0 digits in
        Some (if 2 ^ 64 <=? v then 2 ^ 64 - 1 else if (negative : bool) then u64 (- v) else v, rest)
      else None
  | [] => None
  end.

(** At most [n] conversions, up to the first that fails. *)
Fixpoint scan_fields (n : nat) (s : cstr) : list Z :=
  match n with
  | O => []
  | S n' => match scan_llu s with Some (v, rest) => v :: scan_fields n' rest | None => [] end
  end.

(** The fields [sscanf(buf, "cpu %llu ... %llu", ...)] assigns. *)
Definition scan_cpu (buf : cstr) : list Z :=
  if starts_with #"cpu" buf then scan_fields 8 (drop 3 buf) else [].

(** ** float *)

Definition float_of (n : Z) : spec_float := binary_normalize 24 128 n 0 false.
Definition float_mul : spec_float -> spec_float -> spec_float := SFmul 24 128.
Definition float_div : spec_float -> spec_float -> spec_float := SFdiv 24 128.

(** [100.0f * (float)(total - idle) / (float)total] *)
Definition cpu_percent (total idle : Z) : spec_float :=
  float_div (float_mul (float_of 100) (float_of (u64 (total - idle)))) (float_of total).

Section Load.
Context `{OS}.

(** Status and the value stored; [cpu_usage] is whether the pointer is not
    [NULL]. *)
Definition rrd_archive_check_cpu_usage (cpu_usage : bool) : M (Z * option spec_float) :=
  if negb cpu_usage then mret (-1, None) else
  f ← sys_fopen #"/proc/stat";
  match f with
  | None => mret (-2, None)
  | Some text =>
      match fgets_lines 256 text with
      | [] => mret (-3, None)
      | buf :: _ =>
          let fields := scan_cpu buf in
          if (length fields <? 4)%nat then mret (-4, None) else
          match fields with
          | [user; nice; system; idle; iowait; irq; softirq; steal] =>
              let total := u64 (user + nice + system + idle + iowait + irq + softirq + steal) in
              if total =? 0 then mret (-5, None) else mret (0, Some (cpu_percent total idle))
          | _ => mfault UninitRead
          end
      end
  end.

Definition load_priority (cpu_usage : spec_float) : Z :=
  if SFltb (float_of 80) cpu_usage then 19
  else if SFltb (float_of 50) cpu_usage then 10
  else 0.

Definition rrd_archive_adjust_priority (cpu_usage : spec_float) : M Z :=
  ok ← sys_setpriority (load_priority cpu_usage);
  mret (if (ok : bool) then 0 else -1).
End Load.

(** ** Lemmas *)

Lemma digit_char d : 0 <= d < 10 -> isdigit (char_of (48 + d)) = true /\ digit_value (char_of (48 + d)) = d.
Proof.
  intros Hd. assert (d = 0 \/ d = 1 \/ d = 2 \/ d = 3 \/ d = 4 \/ d = 5 \/ d = 6 \/ d = 7 \/ d = 8 \/ d = 9) as Hc by lia.
  by repeat destruct Hc as [->|Hc]; [..|subst d].
Qed.

(** The digits [printf] writes are read back. *)
Lemma scan_dec_digits fuel : forall v acc rest, 0 <= v < 10 ^ Z.of_nat fuel -> (0 < fuel)%nat ->
  exists k, scan_digits acc (dec_digits fuel v ++ rest) = scan_digits (acc * 10 ^ k + v) rest /\ 0 <= k.
Proof.
  induction fuel as [|fuel IH]; intros v acc rest Hv Hf; [lia|]. cbn [dec_digits].
  pose proof (digit_char (v mod 10) (Z.mod_pos_bound v 10 eq_refl)) as [Hd Hval].
  pose proof (Z.div_mod v 10 ltac:(lia)) as Hdm.
  rewrite <- app_assoc. destruct (Z.ltb_spec v 10).
  - exists 1. cbn [app scan_digits]. rewrite Hd, Hval, Z.mod_small by lia. split; [f_equal; lia|lia].
  - assert (0 < fuel)%nat as Hf' by (destruct fuel; [cbn in Hv; lia|lia]).
    destruct (IH (v / 10) acc ([char_of (48 + v mod 10)] ++ rest)) as (k & E & Hk); [|done|].
    + rewrite Nat2Z.inj_succ, Z.pow_succ_r in Hv by lia. split; [apply Z.div_pos; lia|]. apply Z.div_lt_upper_bound; lia.
    + exists (k + 1). rewrite E. cbn [app scan_digits]. rewrite Hd, Hval, Z.pow_add_r by lia.
      split; [f_equal; nia|lia].
Qed.

Lemma dec_digits_enough v : 0 <= v -> 0 <= v < 10 ^ Z.of_nat (Z.to_nat (Z.log2 v) + 1).
Proof.
  intros Hv. split; [done|]. pose proof (Z.log2_nonneg v). rewrite Nat2Z.inj_add, Z2Nat.id by done.
  destruct (decide (v = 0)) as [->|]; [reflexivity|].
  pose proof (Z.log2_spec v ltac:(lia)) as [_ Hlt]. eapply Z.lt_le_trans; [exact Hlt|].
  rewrite <- Z.add_1_r. apply Z.pow_le_mono_l; lia.
Qed.

Lemma scan_dec v rest : 0 <= v -> scan_digits 0 (dec v ++ rest) = scan_digits v rest.
Proof.
  intros Hv. destruct (scan_dec_digits _ v 0 rest (dec_digits_enough v Hv)) as (k & E & _); [lia|]. exact E.
Qed.

Lemma dec_first v : 0 <= v -> exists c s, dec v = c :: s /\ isdigit c = true.
Proof.
  intros Hv. unfold dec. generalize (Z.to_nat (Z.log2 v)). intros n. revert v Hv.
  induction n as [|n IH]; intros v Hv; cbn [Nat.add dec_digits].
  - destruct (_ <? _); eexists _, _; (split; [done|]); apply digit_char, Z.mod_pos_bound; lia.
  - destruct (_ <? _); [eexists _, _; split; [done|]; apply digit_char, Z.mod_pos_bound; lia|].
    destruct (IH (v / 10)) as (c & s & E & Hc); [apply Z.div_pos; lia|]. rewrite E. by eexists c, _.
Qed.

Lemma isdigit_no_sign c : isdigit c = true -> isspace c = false /\ chareq c "-" = false /\ chareq c "+" = false.
Proof. destruct c as [[] [] [] [] [] [] [] []]; vm_compute; intros; done. Qed.

(** A printed number, after blanks, is read back. *)
Lemma scan_llu_dec v rest : 0 <= v < 2 ^ 64 ->
  match rest with c :: _ => isdigit c = false | [] => True end ->
  scan_llu (#" " ++ dec v ++ rest) = Some (v, rest).
Proof.
  intros Hv Hr. destruct (dec_first v) as (c & s & E & Hc); [lia|]. pose proof (isdigit_no_sign c Hc) as (H1 & H2 & H3).
  assert (scan_digits 0 (dec v ++ rest) = (v, rest)) as Hs.
  { rewrite scan_dec by lia. destruct rest; [done|]. cbn [scan_digits]. by rewrite Hr. }
  unfold scan_llu. change (skip_space (#" " ++ dec v ++ rest)) with (skip_space (dec v ++ rest)).
  rewrite E in *. cbn [app skip_space]. rewrite H1. cbn [scan_sign]. rewrite H2, H3, Hc.
  cbn [app] in Hs. rewrite Hs. by replace (2 ^ 64 <=? v) with false by lia.
Qed.

(** The fields of a line of /proc/stat as the kernel prints it. *)
Definition stat_fields (vs : list Z) : cstr := mjoin ((fun v => #" " ++ dec v) <$> vs).
Definition cpu_line (vs : list Z) : cstr := #"cpu " ++ stat_fields vs.

Lemma scan_fields_printed vs : forall n, Forall (fun v => 0 <= v < 2 ^ 64) vs ->
  scan_fields n (stat_fields vs ++ [NEWLINE]) = take n vs.
Proof.
  induction vs as [|v vs IH]; intros [|n] Hvs; [done..|]. apply Forall_cons_1 in Hvs as [Hv Hvs].
  cbn [scan_fields]. unfold stat_fields. cbn [fmap list_fmap mjoin list_join].
  change (mjoin _) with (stat_fields vs). rewrite <- !app_assoc, scan_llu_dec.
  - by rewrite IH.
  - done.
  - by destruct vs.
Qed.

(** ** The operations *)

(** The statistics of a kernel: a line with fewer than four fields is refused;
    one with four to seven, as old kernels print, makes the sum read variables
    that were never set; eight or more give the load. *)
Lemma check_cpu_usage_spec `{OS} vs rest w :
  os_fopen (w_trace w) #"/proc/stat" = Some (cpu_line vs ++ NEWLINE :: rest) ->
  Forall (fun v => 0 <= v < 2 ^ 64) vs -> NEWLINE ∉ stat_fields vs -> (length (stat_fields vs) <= 250)%nat ->
  rrd_archive_check_cpu_usage true w =
    match take 8 vs with
    | [user; nice; system; idle; iowait; irq; softirq; steal] =>
        let total := u64 (user + nice + system + idle + iowait + irq + softirq + steal) in
        Ret (if total =? 0 then (-5, None) else (0, Some (cpu_percent total idle))) w
    | fields => if (length fields <? 4)%nat then Ret (-4, None) w else Fault UninitRead
    end.
Proof.
  intros Ho Hvs Hn Hl. unfold rrd_archive_check_cpu_usage, sys_fopen. cbn [negb].
  unfold mbind at 1, M_bind at 1, ask. rewrite Ho. unfold fgets_lines, cpu_line.
  rewrite fgets_first; [| |rewrite length_app; change (length #"cpu ") with 4%nat; lia].
  2: { rewrite elem_of_app. intros [Hc|Hc]; [by vm_compute in Hc; set_solver|done]. }
  cbn [app]. change (scan_cpu _) with (scan_fields 8 (#" " ++ stat_fields vs ++ [NEWLINE])).
  assert (scan_fields 8 (#" " ++ stat_fields vs ++ [NEWLINE]) = take 8 vs) as ->.
  { rewrite <- scan_fields_printed by done. by destruct vs. }
  destruct (take 8 vs) as [|? [|? [|? [|? [|? [|? [|? [|? [|]]]]]]]]]; try done. cbn [length Nat.ltb Nat.leb]. by destruct (_ =? 0).
Qed.

(** A busy device, the priority of the report on it, and an idle one. *)
Example busy_device_priority :
  load_priority (cpu_percent (u64 10000) 1000) = 19 /\ load_priority (cpu_percent (u64 10000) 4000) = 10 /\
  load_priority (cpu_percent (u64 10000) 9000) = 0.
Proof. vm_compute. done. Qed.
