(* ===== verification/Upload.v ===== *)
(** * Upload: uploading a report (src/rrd_upload.c, src/uploadRRDLogs.c,
    uploadDebugoutput of src/rrdExecuteScript.c)

    The upload waits until the lock of the uploader is free, hands the archive to the
    library [uploadstblogs_run], and the orchestration runs the whole sequence
    from the configuration to the removal of the report.  The build without IARM
    leaves this to a script. *)

From S2P Require Import Prelude Types OS IssueType Archive Config SysInfo.

Local Open Scope Z_scope.

Section Upload.
Context `{OS}.

(** ** rrd_upload.c *)

(** Status and [*is_locked], when it was written. *)
Definition rrd_upload_check_lock (is_locked : bool) : M (Z * option bool) :=
  if negb is_locked then mret (-1, None) else
  r ← sys_flock;
  match r with
  | LockOpenFailed => mret (-1, None)
  | LockGranted => _ ← sys_funlock; _ ← sys_close_lock; mret (0, Some false)
  | LockWouldBlock => _ ← sys_close_lock; mret (0, Some true)
  | LockError => _ ← sys_close_lock; mret (-1, None)
  end.

(** The attempts that are left; [locked] starts as false in each. *)
Fixpoint wait_loop (attempts : nat) (wait_seconds : Z) : M Z :=
  match attempts with
  | O => mret (-1)
  | S attempts' =>
      '(status, locked) ← rrd_upload_check_lock true;
      if (status =? 0) && negb (default false locked) then mret 0 else
      _ ← sys_sleep wait_seconds;
      wait_loop attempts' wait_seconds
  end.

Definition rrd_upload_wait_for_lock (max_attempts wait_seconds : Z) : M Z :=
  wait_loop (Z.to_nat max_attempts) wait_seconds.

Definition rrd_upload_execute (log_server protocol http_link working_dir archive_filename : option cstr) : M Z :=
  match log_server, protocol, http_link, working_dir, archive_filename with
  | Some (_ :: _), Some protocol, Some http_link, Some working_dir, Some archive_filename =>
      '(status, locked) ← rrd_upload_check_lock true;
      if negb (status =? 0) then mret (-1) else
      wait ← (if default false locked then rrd_upload_wait_for_lock 10 60 else mret 0);
      if negb (wait =? 0) then mret (-2) else
      let archive_fullpath := bounded_copy 512 (working_dir ++ archive_filename) in
      result ← sys_upload {| up_flag := 1; up_dcm_flag := 0; up_on_reboot := false; up_protocol := protocol;
                             up_http_link := http_link; up_ondemand := true; up_rrd_flag := true;
                             up_rrd_file := archive_fullpath |};
      if negb (result =? 0) then mret (-3) else mret 0
  | _, _, _, _, _ => mret (-1)
  end.

Definition rrd_upload_cleanup_source_dir (dir_path : option cstr) : M Z :=
  match dir_path with
  | None => mret (-1)
  | Some d =>
      ret ← sys_system (bounded_copy 1024 (#"rm -rf " ++ d));
      mret (if ret =? 0 then 0 else -1)
  end.

Definition rrd_upload_cleanup_files (archive_path source_dir : option cstr) : M Z :=
  ret ← match archive_path with
        | Some p => ok ← sys_remove p; mret (if (ok : bool) then 0 else -1)
        | None => mret 0
        end;
  _ ← match source_dir with
      | Some d => rrd_upload_cleanup_source_dir (Some d)
      | None => mret 0
      end;
  mret (match archive_path with
        | None => 0
        | Some _ => if ret =? 0 then 0 else -1
        end).

(** ** uploadRRDLogs.c *)

Definition RRD_LOG_DIR : cstr := #"/tmp/rrd/".

Definition rrd_upload_orchestrate (upload_dir issue_type : option cstr) : M Z :=
  match upload_dir, issue_type with
  | Some upload_dir, Some issue_type =>
      '(rc, config) ← rrd_config_load (Some empty_config);
      if negb (rc =? 0) then mret 3 else
      config ← deref config;
      '(rc, mac_addr) ← rrd_sysinfo_get_mac_address true 32;
      if negb (rc =? 0) then mret 4 else
      '(rc, timestamp) ← rrd_sysinfo_get_timestamp true 32;
      if negb (rc =? 0) then mret 5 else
      rc ← rrd_logproc_validate_source (Some upload_dir);
      if negb (rc =? 0) then mret 6 else
      rc ← rrd_logproc_prepare_logs (Some upload_dir) (Some issue_type);
      if negb (rc =? 0) then mret 7 else
      let '(rc, issue_type_sanitized) := rrd_logproc_convert_issue_type (Some issue_type) true 64 in
      if negb (rc =? 0) then mret 8 else
      let issue_type_sanitized := default [] issue_type_sanitized in
      _ ← (if streq issue_type_sanitized #"LOGUPLOAD_ENABLE"
           then rrd_logproc_handle_live_logs (Some upload_dir) else mret 0);
      let '(rc, archive_filename) :=
        rrd_archive_generate_filename mac_addr (Some issue_type_sanitized) timestamp true 256 in
      if negb (rc =? 0) then mret 9 else
      let archive_filename := default [] archive_filename in
      rc ← rrd_archive_create (Some upload_dir) (Some RRD_LOG_DIR) (Some archive_filename);
      if negb (rc =? 0) then mret 10 else
      rc ← rrd_upload_execute (Some (log_server config)) (Some (upload_protocol config))
             (Some (http_upload_link config)) (Some RRD_LOG_DIR) (Some archive_filename);
      let archive_fullpath := bounded_copy 512 (RRD_LOG_DIR ++ archive_filename) in
      if negb (rc =? 0) then
        _ ← rrd_archive_cleanup (Some archive_fullpath);
        _ ← rrd_upload_cleanup_source_dir (Some upload_dir);
        mret 11
      else
      _ ← rrd_archive_cleanup (Some archive_fullpath);
      _ ← rrd_upload_cleanup_source_dir (Some upload_dir);
      mret 0
  | _, _ => mret 1
  end.

(** ** uploadDebugoutput: the status and the issue name after the call *)

Definition RRD_SCRIPT : cstr := #"/lib/rdk/uploadRRDLogs.sh".
Definition UPLOAD_FMT : cstr := #"%s %s %s".

Context `{Device}.

(** The build without IARM leaves the upload to a script. *)
Definition uploadDebugoutput (outdir issuename : option cstr) : M (Z * option cstr) :=
  match outdir, issuename with
  | Some d, Some n =>
      let n := normalizeIssueName n in
      ret ← (if IARMBUS_SUPPORT then rrd_upload_orchestrate (Some d) (Some n)
             else status ← sys_secure_system UPLOAD_FMT [RRD_SCRIPT; d; n];
                  mret (if negb (status =? 0) then 1 else 0));
      mret (ret, Some n)
  | _, _ => mret (0, issuename)
  end.
End Upload.

(** ** Lemmas: the lock *)

(** The events of one test: a lock that is granted is released at once. *)
Definition lock_test (a : lock_result) : trace :=
  EvFlock a :: match a with
               | LockOpenFailed => []
               | LockGranted => [EvFunlock; EvCloseLock]
               | LockWouldBlock | LockError => [EvCloseLock]
               end.

(** The events of refused attempts. *)
Definition refusals (refused : list lock_result) (wait_seconds : Z) : trace :=
  refused ≫= (fun a => lock_test a ++ [EvSleep wait_seconds]).

Lemma refusals_cons a refused s : refusals (a :: refused) s = lock_test a ++ EvSleep s :: refusals refused s.
Proof. unfold refusals. cbn [mbind list_bind]. by rewrite <- app_assoc. Qed.

Lemma check_lock_returns `{OS} :
  returns (rrd_upload_check_lock true) (fun r evs => exists a, evs = lock_test a /\
    r = match a with
        | LockGranted => (0, Some false) | LockWouldBlock => (0, Some true)
        | LockOpenFailed | LockError => (-1, None)
        end).
Proof.
  unfold rrd_upload_check_lock. cbn [negb]. apply returns_act.
  intros a. destruct a eqn:Ha; repeat (apply returns_act; intros _); apply returns_ret; exists a; by subst.
Qed.

Lemma wait_loop_returns `{OS} n s :
  returns (wait_loop n s) (fun r evs => exists refused, Forall (fun a => a <> LockGranted) refused /\
    (r = 0 /\ (length refused < n)%nat /\ evs = refusals refused s ++ lock_test LockGranted \/
     r = -1 /\ length refused = n /\ evs = refusals refused s)).
Proof.
  induction n as [|n IH]; cbn [wait_loop].
  - apply returns_ret. exists []. split; [constructor|]. by right.
  - eapply returns_bind; [apply check_lock_returns|]. intros r evs (a & -> & ->).
    assert (a <> LockGranted -> returns (_ ← sys_sleep s; wait_loop n s) (fun r evs => exists refused,
      Forall (fun a => a <> LockGranted) refused /\
      (r = 0 /\ (length refused < S n)%nat /\ lock_test a ++ evs = refusals refused s ++ lock_test LockGranted \/
       r = -1 /\ length refused = S n /\ lock_test a ++ evs = refusals refused s))) as Hrefused.
    { intros Ha. apply returns_act. intros _. eapply returns_mono; [exact IH|].
      intros r evs (refused & Hf & Hr). exists (a :: refused). split; [by constructor|].
      destruct Hr as [(-> & Hl & ->)|(-> & Hl & ->)]; [left|right];
        rewrite refusals_cons, <- ?app_assoc; split_and!; try done; cbn [length]; lia. }
    destruct a; cbn [Z.eqb default from_option id negb andb]; try by apply Hrefused.
    apply returns_ret. exists []. split; [constructor|]. left. split_and!; [done|cbn; lia|done].
Qed.

(** What an accepted call of [rrd_upload_execute] does. *)
Definition upload_request (protocol http_link path : cstr) : upload_params := {|
  up_flag := 1; up_dcm_flag := 0; up_on_reboot := false; up_protocol := protocol; up_http_link := http_link;
  up_ondemand := true; up_rrd_flag := true; up_rrd_file := path |}.

Definition upload_outcome (p : upload_params) (r : Z) (evs : trace) : Prop :=
  (r = -1 /\ exists a, (a = LockOpenFailed \/ a = LockError) /\ evs = lock_test a) \/
  (r = -2 /\ exists refused, length refused = 10%nat /\ Forall (fun a => a <> LockGranted) refused /\
     evs = lock_test LockWouldBlock ++ refusals refused 60) \/
  ((r = 0 \/ r = -3) /\ exists waited result,
     (waited = [] \/ exists refused, (length refused < 10)%nat /\ Forall (fun a => a <> LockGranted) refused /\
        waited = lock_test LockWouldBlock ++ refusals refused 60) /\
     evs = waited ++ lock_test LockGranted ++ [EvUpload p result] /\ (r = 0 <-> result = 0)).

Lemma upload_execute_returns `{OS} log_server protocol http_link working_dir archive_filename :
  log_server <> [] ->
  returns (rrd_upload_execute (Some log_server) (Some protocol) (Some http_link) (Some working_dir) (Some archive_filename))
    (upload_outcome (upload_request protocol http_link (bounded_copy 512 (working_dir ++ archive_filename)))).
Proof.
  intros Hl. destruct log_server as [|c l]; [done|]. cbn [rrd_upload_execute].
  eapply returns_bind; [apply check_lock_returns|]. intros r evs (a & -> & ->).
  set (p := upload_request _ _ _). fold p.
  assert (forall pre, (pre = lock_test LockGranted \/ exists refused, (length refused < 10)%nat /\
            Forall (fun a => a <> LockGranted) refused /\
            pre = lock_test LockWouldBlock ++ refusals refused 60 ++ lock_test LockGranted) ->
          returns (result ← sys_upload p; if negb (result =? 0) then mret (-3) else mret 0)
            (fun r evs => upload_outcome p r (pre ++ evs))) as Hup.
  { intros pre Hpre. apply returns_act. intros result.
    assert (exists waited, (waited = [] \/ exists refused, (length refused < 10)%nat /\
      Forall (fun a => a <> LockGranted) refused /\ waited = lock_test LockWouldBlock ++ refusals refused 60) /\
      pre = waited ++ lock_test LockGranted) as (waited & Hw & ->).
    { destruct Hpre as [->|(refused & H1 & H2 & ->)]; [by exists []; auto|].
      exists (lock_test LockWouldBlock ++ refusals refused 60). split; [right; by exists refused|done]. }
    destruct (Z.eqb_spec result 0) as [H0|H0]; cbn [negb]; apply returns_ret; right; right; (split; [by auto|]);
      exists waited, result; rewrite <- !app_assoc; split_and!; try done. }
  destruct a; cbn [Z.eqb default from_option id negb].
  - apply returns_ret. left. split; [done|]. exists LockOpenFailed. auto.
  - rewrite <- (app_nil_l (lock_test LockGranted)). apply returns_bind with (Q := fun r evs => r = 0 /\ evs = []);
      [by apply returns_ret|]. intros r evs [-> ->]. cbn [Z.eqb negb]. apply Hup. by left.
  - eapply returns_bind; [apply wait_loop_returns|].
    intros r evs (refused & Hf & [(-> & Hn & ->)|(-> & Hn & ->)]); cbn [Z.eqb negb].
    + eapply returns_mono; [apply (Hup (lock_test LockWouldBlock ++ refusals refused 60 ++ lock_test LockGranted))|].
      * right. by exists refused.
      * intros r evs Ho. exact Ho.
    + apply returns_ret. right; left. split; [done|]. exists refused. split_and!; [done|done|].
      by rewrite app_nil_r.
  - apply returns_ret. left. split; [done|]. exists LockError. auto.
Qed.

(** ** Lemmas: the orchestration *)

(** Before the upload only the configuration queries, the move of the live logs
    and the writing of the archive act on the outside. *)
Definition prep_event (e : event) : Prop :=
  match e with
  | EvPopen _ | EvRename _ _ _ | EvGzopen _ _ | EvGzwrite _ _ | EvGzclose => True
  | _ => False
  end.

Abbreviation prep := (Forall prep_event).

Lemma gz_only_prep evs : gz_only evs -> prep evs.
Proof. unfold gz_only. intros Hg. eapply Forall_impl; [|exact Hg]. intros e. by destruct e. Qed.

Lemma tr181_prep evs : Forall tr181_event evs -> prep evs.
Proof. intros Hg. eapply Forall_impl; [|exact Hg]. by intros e [->| ->]. Qed.

Lemma prep_app e1 e2 : prep e1 -> prep e2 -> prep (e1 ++ e2).
Proof. intros H1 H2. by apply Forall_app. Qed.

(** How an orchestration ends: [early], before the archive was complete, with
    nothing uploaded or removed; or [attempted], with a complete archive, the
    events of the upload, and the removal of the archive and of the report. *)
Definition report_name (mac issue stamp : cstr) : cstr :=
  mac ++ #"_" ++ issue ++ #"_" ++ stamp ++ #"_RRD_DEBUG_LOGS.tgz".

Definition orchestrated (upload_dir issue_type : cstr) (r : Z) (evs : trace) : Prop :=
  (3 <= r <= 10 /\ prep evs) \/
  ((r = 0 \/ r = 11) /\ exists mac stamp protocol link pre mid rc ok st,
     let issue := omap convert_char issue_type in
     let path := RRD_LOG_DIR ++ report_name mac issue stamp in
     prep pre /\ complete pre /\ link <> [] /\ (length (report_name mac issue stamp) < 256)%nat /\
     upload_outcome (upload_request protocol link path) rc mid /\ (r = 0 <-> rc = 0) /\
     evs = pre ++ mid ++ [EvRemove path ok; EvSystem (bounded_copy 1024 (#"rm -rf " ++ upload_dir)) st]).

Lemma mac_returns `{OS} size :
  returns (rrd_sysinfo_get_mac_address true size) (fun r evs => evs = [] /\ (fst r = -1 \/ fst r = 0 /\ exists m, snd r = Some m)).
Proof.
  unfold rrd_sysinfo_get_mac_address. destruct (_ || _); [apply returns_ret; auto|].
  apply returns_ask. intros [|c m]; apply returns_ret; [by auto|]. split; [done|]. right. split; [done|]. by eexists.
Qed.

Lemma timestamp_returns `{OS} size :
  returns (rrd_sysinfo_get_timestamp true size) (fun r evs => evs = [] /\ (fst r = -1 \/ fst r = 0 /\ exists m, snd r = Some m)).
Proof.
  unfold rrd_sysinfo_get_timestamp. destruct (_ || _); [apply returns_ret; auto|].
  apply returns_ask. intros [t|]; apply returns_ret; [|by auto]. split; [done|]. right. split; [done|]. by eexists.
Qed.

Lemma validate_returns `{OS} p :
  returns (rrd_logproc_validate_source (Some p)) (fun r evs => evs = []).
Proof. apply returns_ask. intros [names|]; [|by apply returns_ret]. destruct (existsb _ _); by apply returns_ret. Qed.

Lemma prepare_returns `{OS} p i :
  returns (rrd_logproc_prepare_logs (Some p) (Some i)) (fun r evs => evs = []).
Proof.
  unfold rrd_logproc_prepare_logs. eapply returns_bind; [apply validate_returns|]. intros r evs ->.
  destruct (negb _); by apply returns_ret.
Qed.

Lemma live_logs_returns `{OS} (b : bool) p :
  returns (if b then rrd_logproc_handle_live_logs (Some p) else mret 0) (fun r evs => prep evs /\ complete evs).
Proof.
  destruct b; [|apply returns_ret; split; constructor]. apply returns_act.
  intros [| |]; apply returns_ret; split; repeat constructor.
Qed.

Lemma archive_create_returns `{OS} src wd fn :
  (forall t p, Forall (fun n => n <> []) (default [] (os_readdir t p))) ->
  returns (rrd_archive_create src wd fn) (fun r evs => gz_only evs /\ (r = 0 -> complete evs)).
Proof.
  intros Hn w. destruct (rrd_archive_create_run src wd fn w Hn) as (r & w' & evs & E & T & Hg & _ & _ & Hc).
  exists r, w', evs. split_and!; [done|done|done|]. intros H0. by apply Hc.
Qed.

Lemma convert_full input size : 
  match rrd_logproc_convert_issue_type (Some input) true size with
  | (0, Some out) => out = omap convert_char input
  | (r, _) => r = -1
  end.
Proof.
  unfold rrd_logproc_convert_issue_type. cbn [negb]. destruct (size =? 0)%nat; [done|].
  destruct (size <=? length input)%nat eqn:E; [done|]. apply convert_loop_omap. lia.
Qed.

Lemma generate_filename_spec mac issue stamp :
  match rrd_archive_generate_filename (Some mac) (Some issue) (Some stamp) true 256 with
  | (0, Some fn) => fn = report_name mac issue stamp /\ (length fn < 256)%nat
  | (r, _) => r = -1
  end.
Proof.
  unfold rrd_archive_generate_filename. change (negb true || (256 <? 128)%nat) with false. cbv iota.
  fold (report_name mac issue stamp). destruct (256 <=? length (report_name mac issue stamp))%nat eqn:E; [done|].
  split; [done|]. lia.
Qed.

(** The removal of the archive and of the report, then the status [r]. *)
Lemma cleanup_returns `{OS} path dir (r : Z) :
  returns (_ ← rrd_archive_cleanup (Some path); _ ← rrd_upload_cleanup_source_dir (Some dir); mret r)
    (fun r' evs => r' = r /\ exists ok st, evs = [EvRemove path ok; EvSystem (bounded_copy 1024 (#"rm -rf " ++ dir)) st]).
Proof.
  apply returns_bind with (Q := fun (_ : Z) evs => exists ok, evs = [EvRemove path ok]).
  { apply returns_act. intros [|]; apply returns_ret; by eexists. }
  intros _ evs [ok ->]. apply returns_bind with (Q := fun (_ : Z) evs => exists st, evs = [EvSystem (bounded_copy 1024 (#"rm -rf " ++ dir)) st]).
  { apply returns_act. intros st. apply returns_ret. by exists st. }
  intros _ evs [st ->]. apply returns_ret. split; [done|]. by exists ok, st.
Qed.

(** The end of the orchestration, from the file name on. *)
Lemma finish_returns `{OS} upload_dir issue_type config mac stamp pre0 :
  (forall t p, Forall (fun n => n <> []) (default [] (os_readdir t p))) ->
  prep pre0 -> complete pre0 -> log_server config <> [] -> http_upload_link config <> [] ->
  let issue := omap convert_char issue_type in
  returns
    (let '(rc, archive_filename) := rrd_archive_generate_filename (Some mac) (Some issue) (Some stamp) true 256 in
     if negb (rc =? 0) then mret 9 else
     let archive_filename := default [] archive_filename in
     rc ← rrd_archive_create (Some upload_dir) (Some RRD_LOG_DIR) (Some archive_filename);
     if negb (rc =? 0) then mret 10 else
     rc ← rrd_upload_execute (Some (log_server config)) (Some (upload_protocol config))
            (Some (http_upload_link config)) (Some RRD_LOG_DIR) (Some archive_filename);
     let archive_fullpath := bounded_copy 512 (RRD_LOG_DIR ++ archive_filename) in
     if negb (rc =? 0) then
       _ ← rrd_archive_cleanup (Some archive_fullpath);
       _ ← rrd_upload_cleanup_source_dir (Some upload_dir);
       mret 11
     else
     _ ← rrd_archive_cleanup (Some archive_fullpath);
     _ ← rrd_upload_cleanup_source_dir (Some upload_dir);
     mret 0) (fun r evs => orchestrated upload_dir issue_type r (pre0 ++ evs)).
Proof.
  intros Hn Hpre Hcomp Hls Hlink issue.
  pose proof (generate_filename_spec mac issue stamp) as Hfn.
  destruct (rrd_archive_generate_filename _ _ _ _ _) as [rc o].
  assert (rc = -1 \/ rc = 0 /\ exists fn, o = Some fn /\ fn = report_name mac issue stamp /\ (length fn < 256)%nat)
    as [->|(-> & fn & -> & -> & Hlen)].
  { destruct rc; [destruct o as [fn|]; [right; eauto|done]|by left|by left]. }
  { apply returns_ret. left. rewrite app_nil_r. split; [lia|done]. }
  cbn [Z.eqb negb default from_option id].
  eapply returns_bind; [apply archive_create_returns, Hn|]. intros rc evs (Hg & Hc).
  destruct (Z.eqb_spec rc 0) as [->|Hrc]; cbn [negb].
  2: { apply returns_ret. left. rewrite app_nil_r. split; [lia|]. apply prep_app; [done|by apply gz_only_prep]. }
  eapply returns_bind; [by apply upload_execute_returns|]. intros rc mid Hmid.
  rewrite bounded_copy_id in * by (rewrite length_app; change (length RRD_LOG_DIR) with 9%nat; lia).
  set (path := RRD_LOG_DIR ++ report_name mac issue stamp) in *.
  assert (forall r r' tl, (r = 0 \/ r = 11) -> (r = 0 <-> rc = 0) ->
    (r' = r /\ exists ok st, tl = [EvRemove path ok; EvSystem (bounded_copy 1024 (#"rm -rf " ++ upload_dir)) st]) ->
    orchestrated upload_dir issue_type r' (pre0 ++ evs ++ mid ++ tl)) as Hend.
  { intros r r' tl Hr Hiff (-> & ok & st & ->). right. split; [done|].
    exists mac, stamp, (upload_protocol config), (http_upload_link config), (pre0 ++ evs), mid, rc, ok, st.
    cbv zeta. fold issue. fold path. split_and!; try done.
    - apply prep_app; [done|by apply gz_only_prep].
    - apply complete_app; auto.
    - by rewrite <- app_assoc. }
  destruct (Z.eqb_spec rc 0) as [->|Hrc]; cbn [negb].
  - eapply returns_mono; [apply cleanup_returns|]. intros r tl Htl. apply (Hend 0); auto.
  - eapply returns_mono; [apply cleanup_returns|]. intros r tl Htl. apply (Hend 11); auto. split; done.
Qed.

(** The orchestration as a computation that returns. *)
Lemma rrd_upload_orchestrate_returns `{OS} d i :
  (forall t p, Forall (fun n => n <> []) (default [] (os_readdir t p))) ->
  returns (rrd_upload_orchestrate (Some d) (Some i)) (orchestrated d i).
Proof.
  intros Hn.
  assert (forall r evs, 3 <= r <= 10 -> prep evs -> orchestrated d i r evs) as Hearly by (intros; by left).
  cbn [rrd_upload_orchestrate].
  eapply returns_bind; [apply rrd_config_load_returns|].
  intros [rc o] e0 (config & Ho & (_ & Hev & _) & Hrc). cbn [fst snd] in *. subst o.
  apply tr181_prep in Hev as Hprep0.
  assert (complete e0) as Hc0 by (eapply Forall_impl; [|exact Hev]; by intros e [->| ->]).
  destruct (Z.eqb_spec rc 0) as [->|Hne]; cbn [negb]; [|apply returns_ret; rewrite app_nil_r; apply Hearly; [lia|done]].
  assert (log_server config <> [] /\ http_upload_link config <> []) as [Hls Hlink].
  { destruct (log_server config); [done|]. by destruct (http_upload_link config). }
  eapply returns_bind; [apply deref_returns|]. intros c' e1 [-> ->].
  eapply returns_bind; [apply mac_returns|]. intros [r1 mac] e1 (-> & Hmac). cbn [fst snd] in Hmac.
  destruct Hmac as [->|(-> & mac' & ->)]; [apply returns_ret; rewrite !app_nil_r; apply Hearly; [lia|done]|].
  eapply returns_bind; [apply timestamp_returns|]. intros [r2 stamp] e2 (-> & Hst). cbn [fst snd] in Hst.
  destruct Hst as [->|(-> & stamp' & ->)]; [apply returns_ret; rewrite !app_nil_r; apply Hearly; [lia|done]|].
  cbn [Z.eqb negb].
  eapply returns_bind; [apply validate_returns|]. intros r3 e3 ->.
  destruct (negb (r3 =? 0)); [apply returns_ret; rewrite !app_nil_r; apply Hearly; [lia|done]|].
  eapply returns_bind; [apply prepare_returns|]. intros r4 e4 ->.
  destruct (negb (r4 =? 0)); [apply returns_ret; rewrite !app_nil_r; apply Hearly; [lia|done]|].
  pose proof (convert_full i 64) as Hconv. destruct (rrd_logproc_convert_issue_type _ _ _) as [r5 o5].
  destruct (Z.eqb_spec r5 0) as [->|Hne]; cbn [negb]; [|apply returns_ret; rewrite !app_nil_r; apply Hearly; [lia|done]].
  destruct o5 as [issue|]; [|done]. subst issue. cbn [default from_option id].
  eapply returns_bind; [apply live_logs_returns|]. intros r6 e6 [Hp6 Hc6].
  eapply returns_mono; [apply (finish_returns d i config mac' stamp' (e0 ++ e6) Hn);
    [by apply prep_app|by apply complete_app|done|done]|].
  intros r evs Ho. rewrite !app_nil_l. by rewrite app_assoc.
Qed.

(** ** Properties *)

(** Waiting for the uploader's lock is bounded.  The call makes at most
    [max_attempts] tests of the lock, each refused test is followed by one
    sleep, it returns 0 at the first test that is granted, and -1 after
    [max_attempts] refused ones; a lock file that cannot be opened or locked
    counts as a refusal. *)
Theorem wait_for_lock_bounded `{OS} max_attempts wait_seconds w : 0 <= max_attempts ->
  exists r w' refused, rrd_upload_wait_for_lock max_attempts wait_seconds w = Ret r w' /\
    Forall (fun a => a <> LockGranted) refused /\
    (r = 0 /\ Z.of_nat (length refused) < max_attempts /\
       w_trace w' = w_trace w ++ refusals refused wait_seconds ++ lock_test LockGranted \/
     r = -1 /\ Z.of_nat (length refused) = max_attempts /\ w_trace w' = w_trace w ++ refusals refused wait_seconds).
Proof.
  intros Hm. destruct (wait_loop_returns (Z.to_nat max_attempts) wait_seconds w)
    as (r & w' & evs & E & T & refused & Hf & Hr).
  exists r, w', refused. split_and!; [exact E|done|]. rewrite T.
  destruct Hr as [(-> & Hl & ->)|(-> & Hl & ->)]; [left|right]; (split_and!; [done|lia|done]).
Qed.

(** A lock that is free at the third test. *)
Definition sample_lock_os : OS := demo_os {|
  demo_stat := fun _ => None; demo_dir := fun _ => None; demo_file := fun _ => None; demo_popen := fun _ => None;
  demo_lock := fun t => if (length t <=? 3)%nat then LockWouldBlock else LockGranted; demo_upload := 0 |}.

Lemma wait_for_lock_bounded_witness :
  exists r w', @rrd_upload_wait_for_lock sample_lock_os 10 60 (World [] 0) = Ret r w' /\
    (r = 0 \/ r = -1) /\ (length (w_trace w') <= 30)%nat /\
    @rrd_upload_wait_for_lock sample_lock_os 10 60 (World [] 0) =
      Ret 0 (World (lock_test LockWouldBlock ++ [EvSleep 60] ++ lock_test LockWouldBlock ++ [EvSleep 60] ++
                      lock_test LockGranted) 0).
Proof.
  destruct (@wait_for_lock_bounded sample_lock_os 10 60 (World [] 0) ltac:(lia)) as (r & w' & refused & E & _ & Hr).
  exists r, w'. split; [exact E|]. vm_compute in E. injection E as <- <-.
  split_and!; [by left|vm_compute; lia|vm_compute; reflexivity].
Defined.

(** One upload, and only with the lock free.  A call with all its arguments
    tests the lock once, waits at most ten times a minute when it is held, and
    hands the archive to the uploader exactly once, immediately after a test
    that found the lock free and released it; when the test fails or the wait runs out nothing
    is uploaded.  The request names the path of the archive, and the status
    tells the outcomes apart. *)
Theorem rrd_upload_execute_locked `{OS} log_server protocol http_link working_dir archive_filename w :
  log_server <> [] ->
  exists r w' evs,
    rrd_upload_execute (Some log_server) (Some protocol) (Some http_link) (Some working_dir) (Some archive_filename) w
      = Ret r w' /\ w_trace w' = w_trace w ++ evs /\
    upload_outcome (upload_request protocol http_link (bounded_copy 512 (working_dir ++ archive_filename))) r evs.
Proof. intros Hl. by apply upload_execute_returns. Qed.

Lemma rrd_upload_execute_locked_witness :
  exists r w', @rrd_upload_execute sample_lock_os (Some #"logs.example") (Some #"HTTP") (Some #"https://up")
                 (Some #"/tmp/rrd/") (Some #"a.tgz") (World [] 0) = Ret r w' /\ r = 0 /\
    (forall e, e ∈ w_trace w' -> match e with EvUpload p _ => up_rrd_file p = #"/tmp/rrd/a.tgz" | _ => True end).
Proof.
  destruct (@rrd_upload_execute_locked sample_lock_os #"logs.example" #"HTTP" #"https://up" #"/tmp/rrd/" #"a.tgz"
              (World [] 0) ltac:(done)) as (r & w' & evs & E & _ & _).
  exists r, w'. split; [exact E|]. vm_compute in E. injection E as <- <-. split; [done|].
  apply list.Forall_forall. repeat constructor.
Defined.


(** A device whose report directory holds one file. *)
Definition sample_report_os : OS := demo_os {|
  demo_stat := fun p => snd <$> List.find (fun e => streq (fst e) p)
    [(#"/tmp/rrd/x", sample_stat 0x41ED 4096); (#"/tmp/rrd/x/debug_outputs.txt", sample_stat 0x81A4 5);
     (#"/tmp/rrd//D452EE58F6AE_DEVICE_INFO_2024-02-29-01-05-09PM_RRD_DEBUG_LOGS.tgz", sample_stat 0x81A4 300)];
  demo_dir := fun p => if streq p #"/tmp/rrd/x" then Some [#"debug_outputs.txt"] else None;
  demo_file := fun p => if streq p #"/etc/device.properties"
    then Some (#"LOG_SERVER=logs.example" ++ [NEWLINE] ++ #"HTTP_UPLOAD_LINK=https://up.example" ++ [NEWLINE])
    else if streq p #"/tmp/rrd/x/debug_outputs.txt" then Some #"hello" else None;
  demo_popen := fun _ => None; demo_lock := fun _ => LockGranted; demo_upload := 0 |}.

