(* ===== verification/RunCmd.v ===== *)
(** * RunCmd: running the commands of an issue (executeCommands of
    src/rrdRunCmdThread.c)

    The commands run in a transient systemd service; what they print and the
    journal of the service are collected in a file of the report directory.
    Memory that is only released is not tracked. *)

From S2P Require Import Prelude Types OS CJson CommandSanity SysInfo.

Local Open Scope Z_scope.

(** [issueData]; [None] is [NULL]. *)
Record issueData := IssueData { rfcvalue : option cstr; command : option cstr; timeout : Z }.

Definition RRD_OUTPUT_DIR : cstr := #"/tmp/rrd/".
Definition RRD_OUTPUT_FILE : cstr := #"debug_outputs.txt".
Definition BUF_LEN_256 : nat := 256.

(** [strftime(.., "%Y-%m-%d-%H-%M-%S", t)] *)
Definition strftime_text (t : tm) : cstr :=
  printf_dec 0 (tm_year t + 1900) ++ #"-" ++ printf_dec 2 (tm_mon t + 1) ++ #"-" ++ printf_dec 2 (tm_mday t) ++ #"-" ++
  printf_dec 2 (tm_hour t) ++ #"-" ++ printf_dec 2 (tm_min t) ++ #"-" ++ printf_dec 2 (tm_sec t).

(** [len = snprintf(buf, 256, ..text..); strftime(buf + len, sizeof(buf) - len, ..)]:
    [len] is the length of the whole text, even when it was cut; past the end
    of the array the size that is left wraps around.  Without room for the
    date the contents of the array are indeterminate. *)
Definition stamp_dir (text : cstr) (t : tm) : M cstr :=
  let date := strftime_text t in
  if (BUF_LEN_256 <? length text)%nat then mfault OutOfBounds
  else if (BUF_LEN_256 <=? length text + length date)%nat then mfault UninitRead
  else mret (text ++ date).

Definition SYSTEMD_RUN_FMT : cstr :=
  #"systemd-run -r --unit=%s --service-type=oneshot -p RemainAfterExit=yes /bin/sh -c %s".
Definition JOURNALCTL_FMT : cstr := #"journalctl -a -u %s".
Definition SYSTEMCTL_STOP_FMT : cstr := #"systemctl stop %s".

Section RunCmd.
Context `{OS}.

(** The loop of [fread] into 1024 bytes and [fwrite]; each round takes at least
    one character. *)
Fixpoint copy_loop (fuel : nat) (source destination : cstr) : M unit :=
  match fuel, source with
  | S fuel', _ :: _ =>
      _ ← sys_fwrite destination (take 1024 source);
      copy_loop fuel' (drop 1024 source) destination
  | _, _ => mret tt
  end.

Definition copyDebugLogDestFile (source : option cstr) (destination : cstr) : M unit :=
  match source with
  | Some text => copy_loop (length text) text destination
  | None => mret tt
  end.

(** The command with the placeholder replaced by the directory of the report;
    [None] when the path or the command could not be allocated. *)
Definition located_command (cmd dirname : cstr) : M (option cstr) :=
  match strstr cmd DEFAULT_DIR with
  | Some _ =>
      cwd ← sys_getcwd;
      let pathname := match cwd with
                      | Some p => if (length p <? BUF_LEN_256)%nat then p else []
                      | None => []
                      end in
      ok ← malloc;
      if negb ok then mret None else replaceRRDLocation cmd (pathname ++ #"/" ++ dirname)
  | None => mret (Some cmd)
  end.

(** The part after the output file was opened, up to the result. *)
Definition run_service (rfc cmd finalOutFile : cstr) (timeout : Z) : M bool :=
  _ ← sys_fwrite finalOutFile (#"Executing Debug Commands: " ++ [DQUOTE] ++ cmd ++ [DQUOTE; NEWLINE]);
  epochTime ← sys_time;
  let remoteDebuggerServiceStr := bounded_copy 512 (#"remote_debugger_" ++ rfc ++ printf_dec 0 epochTime) in
  let command := default [] (removeQuotes (Some cmd)) in
  systemdfp ← sys_secure_popen SYSTEMD_RUN_FMT [remoteDebuggerServiceStr; command];
  _ ← copyDebugLogDestFile systemdfp finalOutFile;
  journalctlfp ← sys_secure_popen JOURNALCTL_FMT [remoteDebuggerServiceStr];
  _ ← copyDebugLogDestFile journalctlfp finalOutFile;
  _ ← sys_sleep timeout;
  _ ← sys_secure_system SYSTEMCTL_STOP_FMT [remoteDebuggerServiceStr];
  mret true.

Definition executeCommands (cmdinfo : option issueData) : M bool :=
  cmdData ← deref cmdinfo;
  match command cmdData with
  | None => mret false
  | Some cmd =>
      loc_time ← sys_localtime;
      rfc ← deref (rfcvalue cmdData);
      loc_time ← deref loc_time;
      dirname ← stamp_dir (rfc ++ #"_" ++ printf_dec 0 os_pthread_self ++ #"_") loc_time;
      made ← sys_mkdir dirname;
      if negb made then mret false else
      located ← located_command cmd dirname;
      match located with
      | None => mret false
      | Some cmd =>
          if (BUF_LEN_256 <=? length dirname + 1 + length RRD_OUTPUT_FILE)%nat then mfault OutOfBounds else
          let finalOutFile := dirname ++ #"/" ++ RRD_OUTPUT_FILE in
          opened ← sys_fopen_write finalOutFile;
          if negb opened then mret false else run_service rfc cmd finalOutFile (timeout cmdData)
      end
  end.
End RunCmd.

(** ** Lemmas *)

(** The text written to a file by a run. *)
Definition file_text (f : cstr) (evs : trace) : cstr :=
  mjoin (omap (fun e => match e with EvFwrite p d => if streq p f then Some d else None | _ => None end) evs).

Lemma file_text_app f e1 e2 : file_text f (e1 ++ e2) = file_text f e1 ++ file_text f e2.
Proof. unfold file_text. by rewrite omap_app, join_app. Qed.

Lemma file_text_write f d evs : file_text f (EvFwrite f d :: evs) = d ++ file_text f evs.
Proof. unfold file_text. cbn. unfold streq. by rewrite bool_decide_true by done. Qed.

Lemma file_text_popen f a b c evs : file_text f (EvSecurePopen a b c :: evs) = file_text f evs.
Proof. done. Qed.

Definition is_write (f : cstr) (e : event) : Prop := exists d, e = EvFwrite f d.

Lemma copy_loop_returns `{OS} f fuel : forall text, (length text <= fuel)%nat ->
  returns (copy_loop fuel text f) (fun _ evs => Forall (is_write f) evs /\ file_text f evs = text).
Proof.
  induction fuel as [|fuel IH]; intros [|c text] Hl; cbn [copy_loop length] in *; try lia;
    try (apply returns_ret; by split).
  apply returns_act. intros _. eapply returns_mono; [apply IH|].
  - rewrite length_drop. cbn [length]. lia.
  - intros _ evs [Hw Ht]. split; [constructor; [by eexists|done]|]. rewrite file_text_write, Ht. apply take_drop.
Qed.

Lemma copy_returns `{OS} f source :
  returns (copyDebugLogDestFile source f) (fun _ evs => Forall (is_write f) evs /\ file_text f evs = default [] source).
Proof. destruct source as [text|]; [by apply copy_loop_returns|by apply returns_ret]. Qed.

(** What running the service does to the outside: [exec] is the command the
    shell gets, [unit] the name of the service. *)
Definition served_command (f header exec unit : cstr) (timeout : Z) (evs : trace) : Prop :=
  exists w1 w2 out1 out2 status,
    Forall (is_write f) w1 /\ Forall (is_write f) w2 /\
    evs = EvFwrite f header :: EvSecurePopen SYSTEMD_RUN_FMT [unit; exec] (bool_decide (is_Some out1)) :: w1 ++
          EvSecurePopen JOURNALCTL_FMT [unit] (bool_decide (is_Some out2)) :: w2 ++
          [EvSleep timeout; EvSecureSystem SYSTEMCTL_STOP_FMT [unit] status] /\
    file_text f evs = header ++ default [] out1 ++ default [] out2.

Definition command_header (cmd : cstr) : cstr := #"Executing Debug Commands: " ++ [DQUOTE] ++ cmd ++ [DQUOTE; NEWLINE].

Lemma run_service_returns `{OS} rfc cmd f timeout :
  returns (run_service rfc cmd f timeout) (fun b evs => b = true /\ exists epoch,
    served_command f (command_header cmd) (default [] (removeQuotes (Some cmd)))
      (bounded_copy 512 (#"remote_debugger_" ++ rfc ++ printf_dec 0 epoch)) timeout evs).
Proof.
  unfold run_service. apply returns_act. intros _. apply returns_ask. intros epoch.
  set (unit := bounded_copy 512 _). set (exec := default [] (removeQuotes (Some cmd))).
  apply returns_act. intros out1.
  eapply returns_bind; [apply copy_returns|]. intros _ w1 [Hw1 Ht1].
  apply returns_act. intros out2.
  eapply returns_bind; [apply copy_returns|]. intros _ w2 [Hw2 Ht2].
  apply returns_act. intros _. apply returns_act. intros status. apply returns_ret.
  split; [done|]. exists epoch, w1, w2, out1, out2, status. fold unit. split_and!; [done|done|done|].
  rewrite file_text_write, file_text_popen, file_text_app, file_text_popen, file_text_app, Ht1, Ht2.
  change (file_text f [EvSleep timeout; _]) with (@nil ascii). by rewrite app_nil_r.
Qed.

(** The command that is executed: with the placeholder replaced, if any. *)
Definition located (cmd dirname cmd' : cstr) : Prop :=
  (~ occurs DEFAULT_DIR cmd /\ cmd' = cmd) \/
  exists cwd segs, cmd = join DEFAULT_DIR segs /\ Forall (fun g => ~ occurs DEFAULT_DIR g) segs /\
    cmd' = join (cwd ++ #"/" ++ dirname) segs.

(** Texts that fit the memory of the machine. *)
Definition fits_memory (cmd dirname : cstr) : Prop :=
  forall cwd, (length cwd < BUF_LEN_256)%nat ->
    Z.of_nat (length (replace_loop (length cmd) (cwd ++ #"/" ++ dirname) cmd)) + 1 < SIZE_MOD.

Lemma located_command_returns `{OS} cmd dirname : fits_memory cmd dirname ->
  returns (located_command cmd dirname) (fun r evs => evs = [] /\ match r with Some c => located cmd dirname c | None => True end).
Proof.
  intros Hfit. unfold located_command. destruct (strstr cmd DEFAULT_DIR) as [n|] eqn:E.
  - apply returns_ask. intros cwd. set (pathname := match cwd with Some p => _ | None => _ end).
    assert (length pathname < BUF_LEN_256)%nat as Hp.
    { unfold pathname. destruct cwd as [p|]; [|unfold BUF_LEN_256; cbn; lia]. destruct (length p <? BUF_LEN_256)%nat eqn:El; [lia|].
      unfold BUF_LEN_256. cbn. lia. }
    intros w. unfold malloc, mbind at 1, M_bind. destruct (os_malloc (w_allocs w)); cbn [negb].
    2: { eexists None, _, []. split_and!; [done|by rewrite app_nil_r|done|done]. }
    set (w1 := World _ _). destruct (os_malloc (w_allocs w1)) eqn:Em.
    + destruct (replace_loop_segments (length cmd) (pathname ++ #"/" ++ dirname) cmd) as (segs & Hs & Hne & Hf & Hr & Hc); [done|].
      exists (Some (join (pathname ++ #"/" ++ dirname) segs)), (World (w_trace w) (S (S (w_allocs w)))), [].
      split_and!; [|by rewrite app_nil_r|done|right; by exists pathname, segs].
      unfold replaceRRDLocation, malloc, mbind, M_bind. rewrite Em.
      rewrite replaced_datalen_exact by (specialize (Hfit pathname Hp); lia).
      rewrite Z.mod_small by (specialize (Hfit pathname Hp); lia). rewrite Z.leb_refl, Hr. done.
    + exists None, (World (w_trace w) (S (S (w_allocs w)))), []. split_and!; [|by rewrite app_nil_r|done|done].
      unfold replaceRRDLocation, malloc, mbind, M_bind. by rewrite Em.
  - apply returns_ret. split; [done|]. left. split; [by apply strstr_none|done].
Qed.

(** The directory of a run, and the file that collects its output. *)
Definition run_prefix `{OS} (rfc : cstr) : cstr := rfc ++ #"_" ++ printf_dec 0 os_pthread_self ++ #"_".
Definition run_dir `{OS} (rfc : cstr) (t : tm) : cstr := run_prefix rfc ++ strftime_text t.
Definition run_file (dir : cstr) : cstr := dir ++ #"/" ++ RRD_OUTPUT_FILE.

Definition command_run (rfc cmd dir : cstr) (timeout : Z) (b : bool) (evs : trace) : Prop :=
  if b then
    exists cmd' epoch tl, located cmd dir cmd' /\
      evs = EvMkdir dir true :: EvFopenW (run_file dir) true :: tl /\
      served_command (run_file dir) (command_header cmd') (default [] (removeQuotes (Some cmd')))
        (bounded_copy 512 (#"remote_debugger_" ++ rfc ++ printf_dec 0 epoch)) timeout tl
  else evs = [EvMkdir dir false] \/ evs = [EvMkdir dir true] \/ evs = [EvMkdir dir true; EvFopenW (run_file dir) false].

Lemma executeCommands_runs `{OS} rfc cmd timeout t w :
  os_localtime (w_trace w) = Some t -> (length (run_dir rfc t) + 18 < BUF_LEN_256)%nat ->
  fits_memory cmd (run_dir rfc t) ->
  exists b w' evs, executeCommands (Some (IssueData (Some rfc) (Some cmd) timeout)) w = Ret b w' /\
    w_trace w' = w_trace w ++ evs /\ command_run rfc cmd (run_dir rfc t) timeout b evs.
Proof.
  intros Ht Hlen Hfit. set (dir := run_dir rfc t) in *.
  cut (returns (made ← sys_mkdir dir;
      if negb made then mret false else
      located ← located_command cmd dir;
      match located with
      | None => mret false
      | Some cmd =>
          opened ← sys_fopen_write (run_file dir);
          if negb opened then mret false else run_service rfc cmd (run_file dir) timeout
      end) (command_run rfc cmd dir timeout)).
  { intros Hr. destruct (Hr w) as (b & w' & evs & E & T & HQ). exists b, w', evs. split; [|done]. rewrite <- E.
    unfold executeCommands. cbn [deref]. rewrite bind_ret_l. cbn [command rfcvalue].
    unfold sys_localtime at 1, ask at 1, mbind at 1, M_bind at 1. rewrite Ht. cbn [deref]. rewrite !bind_ret_l.
    fold (run_prefix rfc). unfold stamp_dir.
    assert (length dir = length (run_prefix rfc) + length (strftime_text t))%nat as Hd by apply length_app.
    replace (BUF_LEN_256 <? length (run_prefix rfc))%nat with false by lia.
    replace (BUF_LEN_256 <=? length (run_prefix rfc) + length (strftime_text t))%nat with false by lia.
    rewrite bind_ret_l. fold (run_dir rfc t). fold dir.
    replace (BUF_LEN_256 <=? length dir + 1 + length RRD_OUTPUT_FILE)%nat with false
      by (change (length RRD_OUTPUT_FILE) with 17%nat; lia). done. }
  apply returns_act. intros [|]; cbn [negb]; [|apply returns_ret; by left].
  eapply returns_bind; [by apply located_command_returns|]. intros [cmd'|] evs [-> Hloc]; [|apply returns_ret; by right; left].
  apply returns_act. intros [|]; cbn [negb]; [|apply returns_ret; by right; right].
  eapply returns_mono; [apply run_service_returns|]. intros b tl (-> & epoch & Hs). by exists cmd', epoch, tl.
Qed.

(** The events of running a command. *)
Definition command_event (e : event) : Prop :=
  match e with
  | EvMkdir _ _ | EvFopenW _ _ | EvFwrite _ _ | EvSecurePopen _ _ _ | EvSleep _ | EvSecureSystem _ _ _ => True
  | _ => False
  end.

(** The services a history starts, with the command of each. *)
Definition service_of (e : event) : option cstr :=
  match e with
  | EvSecurePopen fmt [unit; exec] _ => if streq fmt SYSTEMD_RUN_FMT then Some exec else None
  | _ => None
  end.
Definition services (evs : trace) : list cstr := omap service_of evs.

Lemma services_app e1 e2 : services (e1 ++ e2) = services e1 ++ services e2.
Proof. apply omap_app. Qed.

(** The messages a history puts in the queue of the event thread. *)
Definition sent_by (e : event) : option data_buf :=
  match e with EvMsgsnd m true => Some m | _ => None end.
Definition sent (evs : trace) : list data_buf := omap sent_by evs.

Lemma sent_app e1 e2 : sent (e1 ++ e2) = sent e1 ++ sent e2.
Proof. apply omap_app. Qed.

(** The messages sent between two worlds. *)
Definition sent_since (w w' : world) : list data_buf := drop (length (sent (w_trace w))) (sent (w_trace w')).
Arguments sent_since : simpl never.

Lemma sent_since_events w w' evs : w_trace w' = w_trace w ++ evs -> sent_since w w' = sent evs.
Proof. intros T. unfold sent_since. by rewrite T, sent_app, drop_app_length. Qed.

(** A history without events of a kind. *)
Lemma omap_none {A} (P : event -> Prop) (f : event -> option A) evs :
  (forall e, P e -> f e = None) -> Forall P evs -> omap f evs = [].
Proof. intros Hf. induction 1 as [|e evs He _ IH]; [done|]. cbn. by rewrite Hf. Qed.

Lemma command_sends_nothing evs : Forall command_event evs -> sent evs = [].
Proof. apply omap_none. by intros []. Qed.

Lemma services_writes f w : Forall (is_write f) w -> services w = [] /\ Forall command_event w.
Proof.
  induction 1 as [|e w [d ->] _ [IH1 IH2]]; [done|]. split; [exact IH1|]. by constructor.
Qed.

Lemma served_command_services f header exec unit timeout evs :
  served_command f header exec unit timeout evs -> services evs = [exec] /\ Forall command_event evs.
Proof.
  intros (w1 & w2 & out1 & out2 & status & [S1 C1]%services_writes & [S2 C2]%services_writes & -> & _). split.
  - change (EvFwrite f header :: ?a :: ?l) with ([EvFwrite f header; a] ++ l).
    rewrite services_app, services_app, S1.
    change (EvSecurePopen JOURNALCTL_FMT ?a ?b :: ?l) with ([EvSecurePopen JOURNALCTL_FMT a b] ++ l).
    rewrite !services_app, S2. reflexivity.
  - constructor; [done|]. constructor; [done|]. apply Forall_app. split; [done|]. constructor; [done|].
    apply Forall_app. split; [done|]. by repeat constructor.
Qed.

Lemma located_command_yields `{OS} cmd dirname :
  yields (located_command cmd dirname) (fun r evs => evs = [] /\ forall c, r = Some c -> located cmd dirname c).
Proof.
  unfold located_command. destruct (strstr cmd DEFAULT_DIR) as [n|] eqn:E.
  - apply yields_ask. intros cwd. apply yields_malloc. intros ok. set (pathname := match cwd with Some p => _ | None => _ end).
    destruct (negb ok); [by apply yields_ret|]. unfold replaceRRDLocation. apply yields_malloc. intros ok2.
    destruct ok2; [|by apply yields_ret]. destruct (_ <=? _); [|apply yields_fault].
    apply yields_ret. split; [done|]. intros c [= <-]. right.
    destruct (replace_loop_segments (length cmd) (pathname ++ #"/" ++ dirname) cmd) as (segs & Hs & _ & Hf & Hr & _); [done|].
    by exists pathname, segs.
  - apply yields_ret. split; [done|]. intros c [= ->]. left. split; [by apply strstr_none|done].
Qed.

(** What a run of [d] executes: its command with the placeholder replaced by
    the directory of this run, unquoted. *)
Definition executes `{OS} (d : issueData) (exec : cstr) : Prop :=
  exists cmd cmd' rfc t, command d = Some cmd /\ rfcvalue d = Some rfc /\ located cmd (run_dir rfc t) cmd' /\
    exec = default [] (removeQuotes (Some cmd')).

(** At most one service is started, and exactly one when the call returns
    true; its command is the one of the data. *)
Lemma executeCommands_yields `{OS} d :
  yields (executeCommands (Some d)) (fun b evs => Forall command_event evs /\
    if b then exists exec, services evs = [exec] /\ executes d exec else services evs = []).
Proof.
  unfold executeCommands. apply yields_deref. intros d' [= <-]. destruct (command d) as [cmd|] eqn:Hcmd; [|by apply yields_ret].
  apply yields_ask. intros t. apply yields_deref. intros rfc Hrfc. apply yields_deref. intros tm _.
  unfold stamp_dir. destruct (_ <? _)%nat; [done|]. destruct (_ <=? _)%nat; [done|].
  eapply yields_bind; [by apply yields_ret with (Q := fun a evs => a = run_dir rfc tm /\ evs = [])|]. intros dirname evs [-> ->].
  apply yields_act. intros made. destruct made; cbn [negb]; [|by apply yields_ret; repeat constructor].
  eapply yields_bind; [apply located_command_yields|]. intros [cmd'|] evs [-> Hloc]; [|by apply yields_ret; repeat constructor].
  destruct (_ <=? _)%nat; [apply yields_fault|].
  apply yields_act. intros opened. destruct opened; cbn [negb]; [|by apply yields_ret; repeat constructor].
  eapply yields_mono; [apply returns_yields, run_service_returns|].
  intros b evs (-> & epoch & [Hs Hc]%served_command_services). split; [by repeat constructor|].
  exists (default [] (removeQuotes (Some cmd'))). split; [exact Hs|]. exists cmd, cmd', rfc, tm. split_and!; [done|done|by apply Hloc|done].
Qed.

(** ** Properties *)

(** C36: running the commands of an issue, when its name leaves room for the
    paths built from it.  The call returns without a fault.  It returns true
    exactly after this sequence: the directory is made, the output file is
    opened, the command is run in a transient service, the journal of the same
    service is read, and after the timeout the same service is stopped; the
    output file then holds the header, what the service printed and what the
    journal printed, complete and in this order.  The command run is the one
    of the profile, with every placeholder replaced by the directory, after
    [removeQuotes].  When it returns false no service was started. *)
Theorem executeCommands_spec `{OS} rfc cmd timeout t w :
  os_localtime (w_trace w) = Some t -> (length (run_dir rfc t) + 18 < BUF_LEN_256)%nat ->
  fits_memory cmd (run_dir rfc t) ->
  exists b w' evs, executeCommands (Some (IssueData (Some rfc) (Some cmd) timeout)) w = Ret b w' /\
    w_trace w' = w_trace w ++ evs /\ command_run rfc cmd (run_dir rfc t) timeout b evs.
Proof. apply executeCommands_runs. Qed.

Lemma executeCommands_spec_witness :
  exists b w', @executeCommands (demo_os empty_demo)
      (Some (IssueData (Some #"Device.Info") (Some (json_quote #"uptime > RRD_LOCATION/u")) 90)) (World [] 0) = Ret b w' /\
    b = true /\ List.nth 3 (w_trace w') EvGzclose =
      EvSecurePopen SYSTEMD_RUN_FMT
        [#"remote_debugger_Device.Info1709212509"; #"uptime > /tmp/rrd/x/Device.Info_7_2024-02-29-13-05-09/u"] true.
Proof.
  destruct (@executeCommands_spec (demo_os empty_demo) #"Device.Info" (json_quote #"uptime > RRD_LOCATION/u") 90
              (Tm 124 1 29 13 5 9) (World [] 0)) as (b & w' & evs & E & _ & _).
  - reflexivity.
  - vm_compute. lia.
  - intros cwd Hc. assert (Hcut : replace_loop (length (json_quote #"uptime > RRD_LOCATION/u"))
      (cwd ++ #"/" ++ run_dir (H := demo_os empty_demo) #"Device.Info" (Tm 124 1 29 13 5 9)) (json_quote #"uptime > RRD_LOCATION/u")
      = (DQUOTE :: #"uptime > ") ++ (cwd ++ #"/" ++ run_dir (H := demo_os empty_demo) #"Device.Info" (Tm 124 1 29 13 5 9)) ++ #"/u" ++ [DQUOTE])
      by (vm_compute; reflexivity).
    rewrite Hcut, !length_app. change SIZE_MOD with (2 ^ 64).
    assert (length (run_dir (H := demo_os empty_demo) #"Device.Info" (Tm 124 1 29 13 5 9)) = 33%nat) as -> by reflexivity.
    unfold BUF_LEN_256 in Hc.
    change (length (DQUOTE :: #"uptime > ")) with 10%nat. change (length #"/") with 1%nat.
    change (length #"/u") with 2%nat. cbn [length]. lia.
  - exists b, w'. split; [exact E|]. vm_compute in E. injection E as <- <-. split; vm_compute; reflexivity.
Defined.

(** C37: the name of the issue is not checked against the arrays the paths are
    built in.  For every name that does not leave room for the date and the
    file name (so for exactly those that [executeCommands_spec] leaves out),
    once the directory is made, a command without placeholder ends in undefined
    behaviour: the date is written past the end of the array on the stack when
    the name, the thread and two underscores are longer than 256 characters;
    the contents of the array are indeterminate when these fit, but not with
    the date; and when the directory fits, the name of the output file is
    written past the end of its array. *)
Theorem executeCommands_overflow `{OS} rfc cmd timeout t w :
  os_localtime (w_trace w) = Some t -> os_mkdir (w_trace w) (run_dir rfc t) = true -> ~ occurs DEFAULT_DIR cmd ->
  (BUF_LEN_256 <= length (run_dir rfc t) + 18)%nat ->
  executeCommands (Some (IssueData (Some rfc) (Some cmd) timeout)) w =
    Fault (if decide (length (run_prefix rfc) <= BUF_LEN_256 <= length (run_dir rfc t))%nat then UninitRead else OutOfBounds).
Proof.
  intros Ht Hmk Hcmd Hl. unfold executeCommands. cbn [deref]. rewrite bind_ret_l. cbn [command rfcvalue].
  unfold sys_localtime at 1, ask at 1, mbind at 1, M_bind at 1. rewrite Ht. cbn [deref]. rewrite !bind_ret_l.
  fold (run_prefix rfc). unfold stamp_dir. fold (run_dir rfc t).
  assert (length (run_dir rfc t) = length (run_prefix rfc) + length (strftime_text t))%nat as Hd by apply length_app.
  rewrite <- Hd. destruct (Nat.ltb_spec BUF_LEN_256 (length (run_prefix rfc))) as [Hp|Hp];
    [by rewrite decide_False by lia|].
  destruct (Nat.leb_spec BUF_LEN_256 (length (run_dir rfc t))) as [Hr|Hr]; [by rewrite decide_True by lia|].
  rewrite decide_False by lia. rewrite bind_ret_l. fold (run_dir rfc t).
  unfold sys_mkdir, act at 1, mbind at 1, M_bind at 1. rewrite Hmk. cbn [negb].
  unfold located_command. rewrite (proj2 (strstr_none cmd DEFAULT_DIR) Hcmd), bind_ret_l.
  by replace (BUF_LEN_256 <=? length (run_dir rfc t) + 1 + length RRD_OUTPUT_FILE)%nat with true
    by (change (length RRD_OUTPUT_FILE) with 17%nat; lia).
Qed.

Definition long_issue (n : nat) : cstr := #"Device." ++ replicate n "x"%char.

Lemma executeCommands_overflow_witness :
  let run n := @executeCommands (demo_os empty_demo) (Some (IssueData (Some (long_issue n)) (Some #"uptime") 90)) (World [] 0) in
  run 300%nat = Fault OutOfBounds /\ run 235%nat = Fault UninitRead /\ run 215%nat = Fault OutOfBounds.
Proof.
  intros run. assert (~ occurs DEFAULT_DIR #"uptime") as Hno by by apply strstr_none.
  pose proof (fun n => @executeCommands_overflow (demo_os empty_demo) (long_issue n) #"uptime" 90
    (Tm 124 1 29 13 5 9) (World [] 0) eq_refl eq_refl Hno) as Hrun.
  split_and!; (unfold run; rewrite Hrun; [vm_compute; reflexivity|vm_compute; lia]).
Defined.
