(* ===== verification/Profile.v ===== *)
(** * Profile: the profile of the device (src/rrdJsonParser.c)

    Reading the profile, looking an issue up in it, choosing its command and
    time-out, checking the command against the sanity list, running it, and
    reporting.  A profile is an object of categories, each an object of issue
    types, each an array that holds a command and a number. *)

From S2P Require Import Prelude OS CJson CommandSanity IssueType Config RunCmd Upload Types.

Local Open Scope Z_scope.

Definition DEFAULT_TIMEOUT : Z := 90.

Section Profile.
Context `{OS} `{CJSON} `{Device}.

(** ** Reading the profile *)

Definition readJsonFile (jsonfile : cstr) : M (option cstr) :=
  fp ← sys_fopen jsonfile;
  match fp with
  | None => mret None
  | Some content =>
      if (length content <? 1)%nat then mret None else
      ok ← malloc;
      mret (if (ok : bool) then Some content else None)
  end.

Definition readAndParseJSON (jsonFile : cstr) : M (option json) :=
  file_content ← readJsonFile jsonFile;
  match file_content with
  | None => mret None
  | Some content => mret (cJSON_Parse content)
  end.

(** ** findIssueInParsedJSON *)

Definition findIssueInParsedJSON (node : issueNodeData) (jsoncfg : option json) : bool :=
  match Node node with
  | None => false
  | Some n =>
      let category := cJSON_GetObjectItem jsoncfg (Some n) in
      match category with
      | None => false
      | Some _ =>
          let categoryname := cJSON_Print category in
          if match categoryname with Some s => streq s DEEP_SLEEP_STR | None => false end then true
          else match subNode node with
               | None => true
               | Some s =>
                   let type := cJSON_GetObjectItem category (Some s) in
                   match type with
                   | None => false
                   | Some _ => match cJSON_Print type with None => false | Some _ => true end
                   end
               end
      end
  end.

(** ** The command and the time-out of an issue *)

(** The loop over the items of the issue type: a later command replaces an
    earlier one. *)
Fixpoint read_items (type : option json) (idx : list Z) (cmd : option cstr) (tmo : Z) : M (option cstr * Z) :=
  match idx with
  | [] => mret (cmd, tmo)
  | j :: idx' =>
      match cJSON_GetArrayItem type j with
      | None => read_items type idx' cmd tmo
      | Some elem =>
          if bool_decide (json_kind elem = cJSON_Number) then read_items type idx' cmd (json_valueint elem)
          else if bool_decide (json_kind elem = cJSON_String) then
            match cJSON_Print (Some elem) with
            | Some tmpCommand => cmd ← strdup tmpCommand; read_items type idx' cmd tmo
            | None => read_items type idx' cmd tmo
            end
          else read_items type idx' cmd tmo
      end
  end.

Definition read_type (type : option json) : M (option cstr * Z) :=
  read_items type (seqZ 0 (cJSON_GetArraySize type)) None 0.

(** The sanity list of a profile. *)
Definition sanity_commands (jsoncfg : option json) : option json :=
  cJSON_GetObjectItem (cJSON_GetObjectItem (cJSON_GetObjectItem jsoncfg (Some #"Sanity")) (Some #"Check")) (Some #"Commands").

(** The data of an accepted command. *)
Definition accepted_data (buf cmd : cstr) (tmo : Z) : M issueData :=
  rfc ← strdup buf;
  mret (IssueData rfc (Some cmd) (if tmo =? 0 then DEFAULT_TIMEOUT else tmo)).

Definition getIssueCommandInfo (node : issueNodeData) (jsoncfg : option json) (buf : cstr) : M (option issueData) :=
  let category := cJSON_GetObjectItem jsoncfg (Node node) in
  let type := cJSON_GetObjectItem category (subNode node) in
  ok ← malloc;
  if negb ok then mret None else
  '(cmd, tmo) ← read_type type;
  match cmd with
  | None => mret None
  | Some cmd =>
      '(ret, cmd) ← isCommandsValid cmd (sanity_commands jsoncfg);
      if negb (ret =? 0) then mret None
      else d ← accepted_data buf cmd tmo; mret (Some d)
  end.

(** ** invokeSanityandCommandExec: the result and the node after the call *)

Definition invokeSanityandCommandExec (node : issueNodeData) (jsoncfg : option json) (buf : cstr) (deepSleepAwkEvnt : bool)
    : M (bool * issueNodeData) :=
  let root := if deepSleepAwkEvnt then cJSON_GetObjectItem jsoncfg (Some DEEP_SLEEP_STR) else jsoncfg in
  let category := cJSON_GetObjectItem root (Node node) in
  let type := cJSON_GetObjectItem category (subNode node) in
  let node := IssueNode None None in
  ok ← malloc;
  if negb ok then mret (false, node) else
  '(cmd, tmo) ← read_type type;
  match cmd with
  | None => mret (false, node)
  | Some cmd =>
      let check := cJSON_GetObjectItem (cJSON_GetObjectItem jsoncfg (Some #"Sanity")) (Some #"Check") in
      jsoncfg ← match cJSON_Print check with
                | None => readAndParseJSON RRD_JSON_FILE
                | Some _ => mret jsoncfg
                end;
      '(ret, cmd) ← isCommandsValid cmd (sanity_commands jsoncfg);
      if negb (ret =? 0) then mret (false, node)
      else d ← accepted_data buf cmd tmo; r ← executeCommands (Some d); mret (r, node)
  end.

(** ** All the issue types of a category *)

(** The loop over the issue types; [first] is [i == 0], [execstatus] the status
    so far. *)
Fixpoint all_types_loop (jsoncfg mainnode : option json) (rfcbuf : cstr) (idx : list Z) (node : issueNodeData)
    (execstatus : bool) : M (bool * issueNodeData) :=
  match idx with
  | [] => mret (execstatus, node)
  | i :: idx' =>
      match cJSON_GetArrayItem mainnode i with
      | None => all_types_loop jsoncfg mainnode rfcbuf idx' node execstatus
      | Some item =>
          name ← deref (json_string item);
          ok ← malloc;
          if negb ok then mfault NullDeref else
          let issuetype := rfcbuf ++ RFC_DELIM ++ name in
          n ← (if negb (i =? 0) then strdup rfcbuf else mret (Node node));
          s ← strdup name;
          '(execstatus, node) ← invokeSanityandCommandExec (IssueNode n s) jsoncfg issuetype false;
          all_types_loop jsoncfg mainnode rfcbuf idx' node execstatus
      end
  end.

Definition processAllDebugCommand (jsoncfg : option json) (node : issueNodeData) (rfcbuf : cstr) : M (bool * issueNodeData) :=
  let mainnode := cJSON_GetObjectItem jsoncfg (Node node) in
  match mainnode, cJSON_Print mainnode with
  | Some _, Some _ =>
      let subitems := cJSON_GetArraySize mainnode in
      if negb (subitems =? 0) then all_types_loop jsoncfg mainnode rfcbuf (seqZ 0 subitems) node false
      else mret (false, node)
  | _, _ => mret (false, node)
  end.

(** ** The issue types of all categories of the deep sleep section *)

(** The name that is built for an issue type: the lengths of the category and
    of the type are exchanged. *)
Definition deep_sleep_name (category type : cstr) : cstr :=
  take (length type) category ++ RFC_DELIM ++ take (length category) type.

Fixpoint deep_types_loop (jsoncfg categoryNode : option json) (idx : list Z) (node : issueNodeData) (execstatus : bool)
    : M (option bool * issueNodeData) :=
  match idx with
  | [] => mret (Some execstatus, node)
  | i :: idx' =>
      category ← deref categoryNode;
      category_name ← deref (json_string category);
      item ← deref (cJSON_GetArrayItem categoryNode i);
      type_name ← deref (json_string item);
      ok ← malloc;
      if negb ok then mret (None, node) else
      n ← strdup category_name;
      s ← strdup type_name;
      '(execstatus, node) ←
        invokeSanityandCommandExec (IssueNode n s) jsoncfg (deep_sleep_name category_name type_name) true;
      deep_types_loop jsoncfg categoryNode idx' node execstatus
  end.

(** [None] is the early return when an allocation failed. *)
Fixpoint deep_categories_loop (jsoncfg rootNode : option json) (idx : list Z) (node : issueNodeData) (execstatus : bool)
    : M (bool * issueNodeData) :=
  match idx with
  | [] => mret (execstatus, node)
  | m :: idx' =>
      let categoryNode := cJSON_GetArrayItem rootNode m in
      '(r, node) ← deep_types_loop jsoncfg categoryNode (seqZ 0 (cJSON_GetArraySize categoryNode)) node execstatus;
      match r with
      | None => mret (false, node)
      | Some execstatus => deep_categories_loop jsoncfg rootNode idx' node execstatus
      end
  end.

Definition processAllDeepSleepAwkMetricsCommands (jsoncfg : option json) (node : issueNodeData) (rfcbuf : cstr)
    : M (bool * issueNodeData) :=
  let rootNode := cJSON_GetObjectItem jsoncfg (Node node) in
  deep_categories_loop jsoncfg rootNode (seqZ 0 (cJSON_GetArraySize rootNode)) (IssueNode None (subNode node)) false.

(** ** checkIssueNodeInfo: the buffer and the node after the call *)

(** Running the commands of the issue. *)
Definition run_issue (node : issueNodeData) (jsoncfg : option json) (buff : data_buf) (rfcbuf : cstr)
    (isDeepSleepAwakeEventValid : bool) (appendprofiledata : option issueData) : M (bool * issueNodeData) :=
  match subNode node with
  | Some _ =>
      if appendMode buff then
        r ← executeCommands appendprofiledata; mret (r, IssueNode None None)
      else invokeSanityandCommandExec node jsoncfg rfcbuf false
  | None =>
      if isDeepSleepAwakeEventValid then processAllDeepSleepAwkMetricsCommands jsoncfg node rfcbuf
      else processAllDebugCommand jsoncfg node rfcbuf
  end.

(** The upload of the report, when the commands succeeded. *)
Definition upload_report (buff : data_buf) (mdata outdir : cstr) : M Z :=
  let tarName := mdata ++ match suffix buff with Some s => s | None => [] end in
  if (512 <=? length tarName)%nat then mret (-1)
  else '(status, _) ← uploadDebugoutput (Some outdir) (Some tarName); mret status.

Definition checkIssueNodeInfo (node : issueNodeData) (jsoncfg : option json) (buff : data_buf)
    (isDeepSleepAwakeEventValid : bool) (appendprofiledata : option issueData) : M (data_buf * issueNodeData) :=
  mdata ← deref (buf_mdata buff);
  rfcbuf ← strdup mdata;
  match rfcbuf with
  | None => mret (clear_buffer buff, node)
  | Some rfcbuf =>
      ltime ← sys_localtime;
      n ← deref (Node node);
      let isDeepSleepAwakeEventValid :=
        if streq n DEEP_SLEEP_STR || streq n #"deepsleep" then true else isDeepSleepAwakeEventValid in
      ltime ← deref ltime;
      outdir ← stamp_dir (RRD_OUTPUT_DIR ++ n ++ #"-DebugReport-") ltime;
      made ← sys_mkdir outdir;
      if negb made then mret (clear_buffer buff, node) else
      changed ← sys_chdir outdir;
      if negb changed then mret (clear_buffer buff, node) else
      '(execstatus, node) ← run_issue node jsoncfg buff rfcbuf isDeepSleepAwakeEventValid appendprofiledata;
      _ ← (if negb execstatus then mret 0 else upload_report buff mdata outdir);
      mret (clear_buffer buff, node)
  end.

(** ** RRDStoreDeviceInfo: the device type *)

(** The lines [getline] returns. *)
Definition getline_lines (text : cstr) : list cstr := fgets_lines (length text + 2) text.

Definition DEVICE_NAME : cstr := #"DEVICE_NAME=".

Fixpoint device_name_loop (lines : list cstr) : M (option cstr) :=
  match lines with
  | [] => mret None
  | line :: lines' =>
      if starts_with DEVICE_NAME line then
        let valueString := strtok_all NEWLINE (drop (length DEVICE_NAME) line) !! 0%nat in
        ok ← malloc;
        mret (if (ok : bool) then Some match valueString with
                                       | Some v => removeSpecialChar v
                                       | None => []
                                       end
              else None)
      else device_name_loop lines'
  end.

Definition RRDStoreDeviceInfo : M (option cstr) :=
  fp ← sys_fopen RRD_DEVICE_PROP_FILE;
  match fp with
  | None => mret None
  | Some text => device_name_loop (getline_lines text)
  end.
End Profile.

(** ** Lemmas *)

(** The commands and numbers of an issue type, in order. *)
Definition type_commands `{CJSON} (type : option json) : list cstr :=
  omap (fun j => if bool_decide (json_kind j = cJSON_Number) then None
                 else if bool_decide (json_kind j = cJSON_String) then cJSON_Print (Some j) else None) (json_items type).
Definition type_timeouts `{CJSON} (type : option json) : list Z :=
  omap (fun j => if bool_decide (json_kind j = cJSON_Number) then Some (json_valueint j) else None) (json_items type).

(** The last of a list. *)
Definition last_or {A} (d : A) (l : list A) : A := foldl (fun _ x => x) d l.

Lemma omap_omap {A B C} (f : A -> option B) (g : B -> option C) (l : list A) :
  omap g (omap f l) = omap (fun x => y ← f x; g y) l.
Proof.
  induction l as [|x l IH]; [done|]. csimpl. destruct (f x) as [y|]; csimpl; [|done]. by rewrite IH.
Qed.

Lemma read_items_run `{OS} `{CJSON} type idx : (forall k, os_malloc k = true) -> forall cmd tmo w, exists w',
  read_items type idx cmd tmo w =
    Ret (last_or cmd (Some <$> omap (fun i => j ← cJSON_GetArrayItem type i;
                        if bool_decide (json_kind j = cJSON_Number) then None
                        else if bool_decide (json_kind j = cJSON_String) then cJSON_Print (Some j) else None) idx),
         last_or tmo (omap (fun i => j ← cJSON_GetArrayItem type i;
                        if bool_decide (json_kind j = cJSON_Number) then Some (json_valueint j) else None) idx)) w' /\
  w_trace w' = w_trace w.
Proof.
  intros Hm. induction idx as [|i idx IH]; intros cmd tmo w; [by exists w|]. cbn [read_items]. csimpl.
  destruct (cJSON_GetArrayItem type i) as [j|]; csimpl; [|apply IH].
  case_bool_decide as Hn; [apply IH|]. case_bool_decide as Hs; csimpl; [|apply IH].
  destruct (cJSON_Print (Some j)) as [q|]; csimpl; [|apply IH].
  unfold strdup, malloc, mbind, M_bind. rewrite Hm. cbn.
  destruct (IH (Some q) tmo (World (w_trace w) (S (w_allocs w)))) as (w' & E & T). by exists w'.
Qed.

Lemma read_type_run `{OS} `{CJSON} type w : (forall k, os_malloc k = true) -> exists w',
  read_type type w = Ret (last_or None (Some <$> type_commands type), last_or 0 (type_timeouts type)) w' /\
  w_trace w' = w_trace w.
Proof.
  intros Hm. unfold read_type, type_commands, type_timeouts, json_items. rewrite !omap_omap. by apply read_items_run.
Qed.

Lemma read_items_yields `{OS} `{CJSON} type idx : forall cmd tmo,
  (forall c, cmd = Some c -> c ∈ type_commands type) -> (forall i, i ∈ idx -> i ∈ seqZ 0 (cJSON_GetArraySize type)) ->
  yields (read_items type idx cmd tmo) (fun r evs => evs = [] /\ forall c, fst r = Some c -> c ∈ type_commands type).
Proof.
  induction idx as [|i idx IH]; intros cmd tmo Hc Hidx; cbn [read_items]; [by apply yields_ret|].
  assert (forall k, k ∈ idx -> k ∈ seqZ 0 (cJSON_GetArraySize type)) as Hidx'
    by (intros k Hk; apply Hidx; by apply list_elem_of_further).
  destruct (cJSON_GetArrayItem type i) as [j|] eqn:Ej; [|by apply IH].
  destruct (bool_decide (json_kind j = cJSON_Number)) eqn:Hn; [by apply IH|].
  destruct (bool_decide (json_kind j = cJSON_String)) eqn:Hs; [|by apply IH].
  destruct (cJSON_Print (Some j)) as [q|] eqn:Eq; [|by apply IH].
  apply yields_strdup. intros o Ho. apply IH; [|done]. intros c ->. destruct Ho as [[= ->]|]; [|done].
  unfold type_commands, json_items. rewrite omap_omap. apply list_elem_of_omap. exists i.
  split; [apply Hidx, list_elem_of_here|]. rewrite Ej. cbn. by rewrite Hn, Hs.
Qed.

Lemma read_type_yields `{OS} `{CJSON} type :
  yields (read_type type) (fun r evs => evs = [] /\ forall c, fst r = Some c -> c ∈ type_commands type).
Proof. by apply read_items_yields. Qed.

(** The check as a step: nothing is added to the history. *)
Lemma isCommandsValid_yields `{CJSON} cmd l :
  yields (isCommandsValid cmd l) (fun r evs => evs = [] /\
    (fst r = 0 /\ snd r = background_loop cmd /\ (exists w, isCommandsValid cmd l w = Ret r w) \/ fst r = 1)).
Proof.
  intros w [r cmd'] w' E. pose proof E as E0. apply isCommandsValid_world in E as [-> Hr]. exists [].
  rewrite app_nil_r. split_and!; [done|done|]. cbn. destruct Hr as [[-> ->]|]; [left; eauto|by right].
Qed.

Lemma readAndParseJSON_yields `{OS} `{CJSON} f : yields (readAndParseJSON f) (fun _ evs => evs = []).
Proof.
  unfold readAndParseJSON, readJsonFile.
  apply yields_bind with (Q := fun _ evs => evs = []).
  - apply yields_ask. intros [content|]; [|by apply yields_ret]. destruct (_ <? _)%nat; [by apply yields_ret|].
    apply yields_malloc. intros ok. by apply yields_ret.
  - intros [content|] evs ->; by apply yields_ret.
Qed.

(** A profile read from a file. *)
Definition loaded `{OS} `{CJSON} (f : cstr) (cfg : json) : Prop :=
  exists t content, os_fopen t f = Some content /\ cJSON_Parse content = Some cfg.

Lemma readAndParseJSON_loads `{OS} `{CJSON} f :
  yields (readAndParseJSON f) (fun r evs => evs = [] /\ forall cfg, r = Some cfg -> loaded f cfg).
Proof.
  unfold readAndParseJSON, readJsonFile.
  apply yields_bind with (Q := fun r evs => evs = [] /\ forall s, r = Some s -> exists t, os_fopen t f = Some s).
  - apply yields_run_ask. intros t. destruct (os_fopen t f) as [content|] eqn:E; [|by apply yields_ret].
    destruct (_ <? _)%nat; [by apply yields_ret|]. apply yields_malloc. intros ok. apply yields_ret. split; [done|].
    destruct ok; [|done]. intros s [= <-]. by exists t.
  - intros [content|] evs [-> Hc]; apply yields_ret; (split; [done|]); [|done].
    intros cfg Hcfg. destruct (Hc content eq_refl) as [t Ht]. by exists t, content.
Qed.

(** The sanity list a command was checked against: the one of the profile, or,
    when the profile has none to print, that of the file on the device.  When
    this file cannot be read or parsed there is no list, and every command is
    accepted. *)
Definition sanity_check `{CJSON} (jsoncfg : option json) : option cstr :=
  cJSON_Print (cJSON_GetObjectItem (cJSON_GetObjectItem jsoncfg (Some #"Sanity")) (Some #"Check")).

Definition sanity_source `{OS} `{CJSON} (jsoncfg l : option json) : Prop :=
  match sanity_check jsoncfg with
  | Some _ => l = sanity_commands jsoncfg
  | None => exists file w w', readAndParseJSON RRD_JSON_FILE w = Ret file w' /\ l = sanity_commands file
  end.

(** A command a run may execute: one of an issue type of the profile that the
    sanity list accepted, with the placeholder of the directory replaced. *)
Definition checked_command `{OS} `{CJSON} (jsoncfg : option json) (exec : cstr) : Prop :=
  exists root category type cmd l w cmd' rfc tmo,
    (root = jsoncfg \/ root = cJSON_GetObjectItem jsoncfg (Some DEEP_SLEEP_STR)) /\
    cmd ∈ type_commands (cJSON_GetObjectItem (cJSON_GetObjectItem root category) type) /\
    sanity_source jsoncfg l /\ isCommandsValid cmd l w = Ret (0, cmd') w /\
    executes (IssueData rfc (Some cmd') tmo) exec.

(** A command of a profile as the check left it. *)
Definition accepted_in `{CJSON} (cfg : json) (cmd' : cstr) : Prop :=
  exists category type cmd w,
    cmd ∈ type_commands (cJSON_GetObjectItem (cJSON_GetObjectItem (Some cfg) category) type) /\
    isCommandsValid cmd (sanity_commands (Some cfg)) w = Ret (0, cmd') w.

Lemma getIssueCommandInfo_yields `{OS} `{CJSON} node cfg buf :
  yields (getIssueCommandInfo node (Some cfg) buf) (fun r evs => evs = [] /\
    forall d, r = Some d -> exists cmd, command d = Some cmd /\ accepted_in cfg cmd).
Proof.
  unfold getIssueCommandInfo. set (type := cJSON_GetObjectItem (cJSON_GetObjectItem _ _) _).
  apply yields_malloc. intros ok. destruct (negb ok); [by apply yields_ret|].
  eapply yields_bind; [apply read_type_yields|]. intros [[cmd|] tmo] evs [-> Hcmd]; [|by apply yields_ret].
  eapply yields_bind; [apply isCommandsValid_yields|]. intros [ret cmd'] evs [-> Hret]. cbn [fst snd] in Hret.
  destruct (Z.eqb_spec ret 0) as [->|Hne]; cbn [negb]; [|by apply yields_ret].
  destruct Hret as [(_ & _ & w & Hw)|]; [|done].
  unfold accepted_data. eapply yields_bind; [apply yields_strdup; intros rfc _; by apply yields_ret with
    (Q := fun d evs => evs = [] /\ command d = Some cmd')|]. intros d evs [-> Hd]. apply yields_ret. split; [done|].
  intros d' [= <-]. exists cmd'. split; [done|]. exists (Node node), (subNode node), cmd, w. split; [by apply Hcmd|done].
Qed.

Definition ran `{OS} `{CJSON} (jsoncfg : option json) (r : bool * issueNodeData) (evs : trace) : Prop :=
  Forall command_event evs /\ Forall (checked_command jsoncfg) (services evs) /\
  (fst r = true -> services evs <> []).

Lemma ran_app `{OS} `{CJSON} cfg r1 r2 e1 e2 : ran cfg r1 e1 -> ran cfg r2 e2 -> ran cfg r2 (e1 ++ e2).
Proof.
  intros (C1 & S1 & _) (C2 & S2 & N2). split_and!; [by apply Forall_app| |].
  - rewrite services_app. by apply Forall_app.
  - intros Hr. rewrite services_app. destruct (services e1); [|done]. by apply N2.
Qed.

Lemma ran_nothing `{OS} `{CJSON} cfg node : ran cfg (false, node) [].
Proof. split_and!; [constructor|constructor|done]. Qed.

Lemma invoke_yields `{OS} `{CJSON} node cfg buf deep :
  yields (invokeSanityandCommandExec node cfg buf deep) (ran cfg).
Proof.
  unfold invokeSanityandCommandExec.
  set (root := if deep then _ else _). set (type := cJSON_GetObjectItem (cJSON_GetObjectItem root _) _).
  apply yields_malloc. intros ok. destruct (negb ok); [apply yields_ret, ran_nothing|].
  eapply yields_bind; [apply read_type_yields|]. intros [[cmd|] tmo] evs [-> Hcmd]; [|apply yields_ret, ran_nothing].
  set (check := cJSON_GetObjectItem _ (Some #"Check")).
  apply yields_bind with (Q := fun cfg' evs => evs = [] /\ sanity_source cfg (sanity_commands cfg')).
  { unfold sanity_source, sanity_check. fold check. destruct (cJSON_Print check) eqn:Ec; [by apply yields_ret|].
    intros w cfg' w' E. destruct (readAndParseJSON_yields RRD_JSON_FILE w cfg' w' E) as (evs & T & ->).
    exists []. split_and!; [done|done|]. by exists cfg', w, w'. }
  intros cfg' evs [-> Hsrc].
  eapply yields_bind; [apply isCommandsValid_yields|]. intros [ret cmd'] evs [-> Hret]. cbn [fst snd] in Hret.
  destruct (Z.eqb_spec ret 0) as [->|Hne]; cbn [negb]; [|apply yields_ret, ran_nothing].
  destruct Hret as [(_ & Hcmd' & w & Hw)|]; [|done].
  unfold accepted_data. eapply yields_bind; [apply yields_strdup; intros rfc _; apply yields_ret with
    (Q := fun d evs => evs = [] /\ exists rfc tmo, d = IssueData rfc (Some cmd') tmo); by eauto|]. intros d evs [-> (rfc & tm & ->)].
  eapply yields_bind; [apply executeCommands_yields|]. intros r evs [Hc Hr]. apply yields_ret. rewrite app_nil_r.
  change (ran cfg (r, IssueNode None None) evs).
  destruct r; [|unfold ran; rewrite Hr; split_and!; [done|constructor|done]].
  destruct Hr as (exec & Hs & Hexec). unfold ran. rewrite Hs. split_and!; [done| |done]. constructor; [|constructor].
  exists root, (Node node), (subNode node), cmd, (sanity_commands cfg'), w, cmd', rfc, tm. split_and!; try done.
  - unfold root. destruct deep; auto.
  - by apply Hcmd.
Qed.

(** As [ran], for a loop that starts with status [st]. *)
Definition ran_from `{OS} `{CJSON} (cfg : option json) (st : bool) (r : bool * issueNodeData) (evs : trace) : Prop :=
  Forall command_event evs /\ Forall (checked_command cfg) (services evs) /\
  (fst r = true -> st = true \/ services evs <> []).

Lemma ran_from_step `{OS} `{CJSON} cfg st r1 r2 e1 e2 :
  ran cfg r1 e1 -> ran_from cfg (fst r1) r2 e2 -> ran_from cfg st r2 (e1 ++ e2).
Proof.
  intros (C1 & S1 & N1) (C2 & S2 & N2). split_and!; [by apply Forall_app|rewrite services_app; by apply Forall_app|].
  intros Hr. right. rewrite services_app. destruct (services e1) eqn:E1; [|done]. cbn.
  destruct (N2 Hr) as [Hst|]; [|done]. by apply N1 in Hst.
Qed.

Lemma ran_from_nil `{OS} `{CJSON} cfg st node : ran_from cfg st (st, node) [].
Proof. split_and!; [constructor|constructor|]. cbn. auto. Qed.

Lemma all_types_yields `{OS} `{CJSON} cfg mainnode rfcbuf idx : forall node st,
  yields (all_types_loop cfg mainnode rfcbuf idx node st) (ran_from cfg st).
Proof.
  induction idx as [|i idx IH]; intros node st; cbn [all_types_loop]; [apply yields_ret, ran_from_nil|].
  destruct (cJSON_GetArrayItem mainnode i) as [item|]; [|apply IH].
  apply yields_deref. intros name _. apply yields_malloc. intros ok. destruct (negb ok); [apply yields_fault|].
  apply yields_bind with (Q := fun _ evs => evs = []).
  { destruct (negb (i =? 0)); [|by apply yields_ret]. unfold strdup. apply yields_malloc. intros o. by apply yields_ret. }
  intros n evs ->. apply yields_strdup. intros s _.
  eapply yields_bind; [apply invoke_yields|]. intros [st' node'] e1 H1.
  eapply yields_mono; [apply IH|]. intros r e2 H2. by apply (ran_from_step cfg st (st', node') r e1 e2).
Qed.

Lemma ran_from_false `{OS} `{CJSON} cfg r evs : ran_from cfg false r evs -> ran cfg r evs.
Proof. intros (C & S & N). split_and!; [done|done|]. intros Hr. by destruct (N Hr). Qed.

Lemma processAll_yields `{OS} `{CJSON} cfg node rfcbuf : yields (processAllDebugCommand cfg node rfcbuf) (ran cfg).
Proof.
  unfold processAllDebugCommand.
  destruct (cJSON_GetObjectItem cfg (Node node)); [|apply yields_ret, ran_nothing].
  destruct (cJSON_Print _); [|apply yields_ret, ran_nothing].
  destruct (negb _); [|apply yields_ret, ran_nothing].
  eapply yields_mono; [apply all_types_yields|]. intros r evs. apply ran_from_false.
Qed.

Lemma deep_types_yields `{OS} `{CJSON} cfg categoryNode idx : forall node st,
  yields (deep_types_loop cfg categoryNode idx node st) (fun r evs =>
    ran_from cfg st (default false (fst r), snd r) evs).
Proof.
  induction idx as [|i idx IH]; intros node st; cbn [deep_types_loop]; [apply yields_ret, ran_from_nil|].
  apply yields_deref. intros category _. apply yields_deref. intros cname _.
  apply yields_deref. intros item _. apply yields_deref. intros tname _.
  apply yields_malloc. intros ok. destruct (negb ok); [by apply yields_ret; repeat constructor|].
  apply yields_strdup. intros n _. apply yields_strdup. intros s _.
  eapply yields_bind; [apply invoke_yields|]. intros [st' node'] e1 H1.
  eapply yields_mono; [apply IH|]. intros r e2 H2. by apply (ran_from_step cfg st (st', node') (default false (fst r), snd r) e1 e2).
Qed.

Lemma ran_from_trans `{OS} `{CJSON} cfg st st' node r e1 e2 :
  ran_from cfg st (st', node) e1 -> ran_from cfg st' r e2 -> ran_from cfg st r (e1 ++ e2).
Proof.
  intros (C1 & S1 & N1) (C2 & S2 & N2). split_and!; [by apply Forall_app|rewrite services_app; by apply Forall_app|].
  intros Hr. rewrite services_app. destruct (N2 Hr) as [Hst|Hne].
  - destruct (N1 Hst) as [|Hne]; [by left|]. right. by destruct (services e1).
  - right. destruct (services e1); [done|]. done.
Qed.

Lemma deep_categories_yields `{OS} `{CJSON} cfg rootNode idx : forall node st,
  yields (deep_categories_loop cfg rootNode idx node st) (ran_from cfg st).
Proof.
  induction idx as [|m idx IH]; intros node st; cbn [deep_categories_loop]; [apply yields_ret, ran_from_nil|].
  eapply yields_bind; [apply deep_types_yields|]. intros [[st'|] node'] e1 H1.
  - eapply yields_mono; [apply IH|]. intros r e2 H2. by eapply ran_from_trans.
  - apply yields_ret. rewrite app_nil_r. destruct H1 as (C & S & _). by split_and!.
Qed.

Lemma processAllDeepSleep_yields `{OS} `{CJSON} cfg node rfcbuf :
  yields (processAllDeepSleepAwkMetricsCommands cfg node rfcbuf) (ran cfg).
Proof. eapply yields_mono; [apply deep_categories_yields|]. intros r evs. apply ran_from_false. Qed.

(** The commands of an issue: those of the profile, or, for an issue with a type
    in append mode, the one prepared before. *)
Definition issue_command `{OS} `{CJSON} (cfg : option json) (node : issueNodeData) (buff : data_buf) (app : option issueData)
    (exec : cstr) : Prop :=
  match appendMode buff, subNode node with
  | true, Some _ => exists d, app = Some d /\ executes d exec
  | _, _ => checked_command cfg exec
  end.

Definition issue_ran `{OS} `{CJSON} cfg node buff app (r : bool * issueNodeData) (evs : trace) : Prop :=
  Forall command_event evs /\ Forall (issue_command cfg node buff app) (services evs) /\
  (fst r = true -> services evs <> []).

Lemma ran_issue_ran `{OS} `{CJSON} cfg node buff app r evs :
  appendMode buff = false \/ subNode node = None -> ran cfg r evs -> issue_ran cfg node buff app r evs.
Proof.
  intros Hn (C & S & N). split_and!; [done| |done]. eapply Forall_impl; [|exact S]. intros exec Hc.
  unfold issue_command. destruct Hn as [-> | ->]; [done|by destruct (appendMode buff)].
Qed.

Lemma run_issue_yields `{OS} `{CJSON} node cfg buff rfcbuf deep app :
  yields (run_issue node cfg buff rfcbuf deep app) (issue_ran cfg node buff app).
Proof.
  unfold run_issue. destruct (subNode node) eqn:En.
  - destruct (appendMode buff) eqn:Ea; [|eapply yields_mono; [apply invoke_yields|]; intros r evs; apply ran_issue_ran; by left].
    destruct app as [d|]; [|done].
    eapply yields_bind; [apply executeCommands_yields|]. intros r evs [Hc Hr]. apply yields_ret. rewrite app_nil_r.
    unfold issue_ran. destruct r; [|rewrite Hr; by split_and!].
    destruct Hr as (exec & Hs & Hexec). rewrite Hs. split_and!; [done| |done].
    constructor; [|constructor]. unfold issue_command. rewrite Ea, En. by exists d.
  - destruct deep; (eapply yields_mono; [apply processAllDeepSleep_yields || apply processAll_yields|];
      intros r evs; apply ran_issue_ran; by right).
Qed.

(** What [uploadDebugoutput] does: the orchestrated upload, or one call of the
    upload script. *)
Definition uploaded `{Device} (outdir issue : cstr) (r : Z) (evs : trace) : Prop :=
  if IARMBUS_SUPPORT then orchestrated outdir issue r evs
  else exists status, evs = [EvSecureSystem UPLOAD_FMT [RRD_SCRIPT; outdir; issue] status] /\
         r = if status =? 0 then 0 else 1.

(** How the handling of an issue acts on the outside: the report directory is
    made and entered, the commands run, and the report is uploaded. *)
Definition reported `{OS} `{CJSON} `{Device} (cfg : option json) (node : issueNodeData) (buff : data_buf)
    (app : option issueData) (mdata : cstr) (evs : trace) : Prop :=
  evs = [] \/ exists dir,
    evs = [EvMkdir dir false] \/ evs = [EvMkdir dir true; EvChdir dir false] \/
    exists run up, evs = EvMkdir dir true :: EvChdir dir true :: run ++ up /\
      Forall command_event run /\ Forall (issue_command cfg node buff app) (services run) /\
      (up = [] \/ services run <> [] /\
         exists r, uploaded dir (normalizeIssueName (mdata ++ default [] (suffix buff))) r up).

Lemma uploadDebugoutput_yields `{OS} `{Device} d n :
  (forall t p, Forall (fun n => n <> []) (default [] (os_readdir t p))) ->
  yields (uploadDebugoutput (Some d) (Some n)) (fun _ evs => exists r, uploaded d (normalizeIssueName n) r evs).
Proof.
  intros Hn. cbn [uploadDebugoutput]. unfold uploaded.
  eapply yields_bind with (Q := uploaded d (normalizeIssueName n)); unfold uploaded.
  - destruct IARMBUS_SUPPORT; [apply returns_yields, rrd_upload_orchestrate_returns, Hn|].
    apply yields_act. intros status. apply yields_ret. exists status. by destruct (status =? 0).
  - intros ret evs Ho. apply yields_ret. exists ret. by rewrite app_nil_r.
Qed.

Lemma upload_report_yields `{OS} `{Device} buff mdata outdir :
  (forall t p, Forall (fun n => n <> []) (default [] (os_readdir t p))) ->
  yields (upload_report buff mdata outdir) (fun _ evs =>
    evs = [] \/ exists r, uploaded outdir (normalizeIssueName (mdata ++ default [] (suffix buff))) r evs).
Proof.
  intros Hn. unfold upload_report.
  assert (match suffix buff with Some s => s | None => [] end = default [] (suffix buff)) as -> by done.
  destruct (_ <=? _)%nat; [apply yields_ret; by left|].
  eapply yields_bind; [by apply uploadDebugoutput_yields|].
  intros [status o] evs [r Hr]. apply yields_ret. right. exists r. by rewrite app_nil_r.
Qed.

Lemma checkIssueNodeInfo_yields `{OS} `{CJSON} `{Device} node cfg buff deep app mdata :
  (forall t p, Forall (fun n => n <> []) (default [] (os_readdir t p))) -> buf_mdata buff = Some mdata ->
  yields (checkIssueNodeInfo node cfg buff deep app) (fun r evs =>
    fst r = clear_buffer buff /\ reported cfg node buff app mdata evs).
Proof.
  intros Hn Hm. unfold checkIssueNodeInfo. apply yields_deref. intros m Hm'. rewrite Hm in Hm'. injection Hm' as <-.
  apply yields_strdup. intros rfcbuf Hrfc. destruct rfcbuf as [rfcbuf|]; [|apply yields_ret; split; [done|by left]].
  apply yields_ask. intros ltime. apply yields_deref. intros n _.
  set (deep' := if _ || _ then true else deep). apply yields_deref. intros t _.
  unfold stamp_dir. destruct (_ <? _)%nat; [done|]. destruct (_ <=? _)%nat; [done|].
  eapply yields_bind; [by apply yields_ret with (Q := fun a evs => evs = [])|]. intros dir evs ->.
  apply yields_act. intros made. destruct made; cbn [negb];
    [|apply yields_ret; split; [done|]; right; exists dir; by left].
  apply yields_act. intros changed. destruct changed; cbn [negb];
    [|apply yields_ret; split; [done|]; right; exists dir; by right; left].
  eapply yields_bind; [apply run_issue_yields|]. intros [status node'] run (C & S & N). cbn [fst] in N.
  assert (forall up, (up = [] \/ services run <> [] /\
            exists r, uploaded dir (normalizeIssueName (mdata ++ default [] (suffix buff))) r up) ->
          reported cfg node buff app mdata ([] ++ EvMkdir dir true :: EvChdir dir true :: run ++ up)) as Hrep.
  { intros up Hup. right. exists dir. right; right. by exists run, up. }
  destruct status; cbn [negb].
  - eapply yields_bind; [by apply upload_report_yields|]. intros st up Hup. apply yields_ret. split; [done|].
    rewrite app_nil_r. apply Hrep. destruct Hup as [->|Hup]; [by left|]. right. split; [by apply N|done].
  - eapply yields_bind; [by apply yields_ret with (Q := fun a evs => evs = [])|]. intros st evs ->. apply yields_ret.
    split; [done|]. rewrite app_nil_l, app_nil_r. rewrite <- (app_nil_r run). apply Hrep. by left.
Qed.

(** What a run executes, as pieces with the directory in the place of the
    placeholders: no text the list keeps out is in a piece, nor in the whole
    when there is no placeholder. *)
Definition screened `{OS} `{CJSON} (cfg : option json) (exec : cstr) : Prop :=
  exists l dir segs, sanity_source cfg l /\ exec = default [] (removeQuotes (Some (join dir segs))) /\
    forall p, kept_out l p -> Forall (fun g => ~ occurs p g) segs /\ (length segs = 1%nat -> ~ occurs p exec).

Lemma checked_command_safe `{OS} `{CJSON} cfg exec : checked_command cfg exec -> screened cfg exec.
Proof.
  intros (root & category & type & cmd & l & w & cmd' & rfc & tmo & _ & _ & Hl & Hv & cmd0 & cmd'' & rfc' & t & E0 & _ & Hloc & ->).
  cbn in E0. injection E0 as <-. exists l.
  assert (forall p, kept_out l p -> ~ occurs p cmd' /\ ~ occurs p (default [] (removeQuotes (Some cmd')))) as Hsafe.
  { intros p (Hp & Ha & Hq & Hs). split; [by eapply accepted_safe|]. by apply (accepted_executed_safe cmd l w cmd' w). }
  destruct Hloc as [[_ ->]|(cwd & segs & -> & Hf & ->)].
  - exists [], [cmd']. split_and!; [done|done|]. intros p Hp. destruct (Hsafe p Hp) as [H1 H2]. split; [by repeat constructor|done].
  - eexists _, segs. split_and!; [done|done|]. intros p Hp. destruct (Hsafe p Hp) as [H1 H2]. split.
    + apply list.Forall_forall. intros g Hg Hocc. apply H1. by eapply occurs_join.
    + intros Hlen. destruct segs as [|g [|]]; try discriminate Hlen. exact H2.
Qed.

(** What an upload does: it starts no service, sends no message and makes no
    bus call. *)
Definition upload_event (e : event) : Prop :=
  match e with EvSecurePopen _ _ _ | EvMsgsnd _ _ | EvRbus _ _ | EvIarm _ _ => False | _ => True end.

Lemma orchestrated_uploads d n r evs : orchestrated d n r evs -> Forall upload_event evs.
Proof.
  assert (forall pre, prep pre -> Forall upload_event pre) as Hprep.
  { intros pre Hp. eapply Forall_impl; [|exact Hp]. by intros []. }
  assert (forall a, Forall upload_event (lock_test a)) as Htest by (intros []; by repeat constructor).
  assert (forall refused s, Forall upload_event (refusals refused s)) as Href.
  { intros refused s. induction refused as [|a refused IH]; [constructor|]. rewrite refusals_cons.
    apply Forall_app. split; [apply Htest|]. by constructor. }
  intros [[_ Hp]|(_ & mac & stamp & protocol & link & pre & mid & rc & ok & st & Hp & _ & _ & _ & Hmid & _ & ->)].
  - by apply Hprep.
  - apply Forall_app. split; [by apply Hprep|]. apply Forall_app. split; [|by repeat constructor].
    destruct Hmid as [(_ & a & _ & ->)|[(_ & refused & _ & _ & ->)|(_ & waited & result & Hw & -> & _)]].
    + apply Htest.
    + apply Forall_app. split; [apply Htest|apply Href].
    + apply Forall_app. split; [|apply Forall_app; split; [apply Htest|by repeat constructor]].
      destruct Hw as [->|(refused & _ & _ & ->)]; [constructor|]. apply Forall_app. split; [apply Htest|apply Href].
Qed.

Lemma uploaded_events `{Device} d n r evs : uploaded d n r evs -> Forall upload_event evs.
Proof.
  unfold uploaded. destruct IARMBUS_SUPPORT; [apply orchestrated_uploads|].
  intros (status & -> & _). by repeat constructor.
Qed.

(** Every command of a report is one of its issue. *)
Lemma reported_commands `{OS} `{CJSON} `{Device} cfg node buff app mdata evs :
  reported cfg node buff app mdata evs -> Forall (issue_command cfg node buff app) (services evs).
Proof.
  intros [->|(dir & [->|[->|(run & up & -> & _ & Hs & Hup)]])]; [constructor..|].
  assert (services up = []) as Hnone.
  { destruct Hup as [->|(_ & r & Ho)]; [done|]. apply uploaded_events in Ho. eapply omap_none; [|exact Ho]. by intros []. }
  change (EvMkdir dir true :: EvChdir dir true :: run ++ up) with ([EvMkdir dir true; EvChdir dir true] ++ run ++ up).
  by rewrite !services_app, Hnone, app_nil_r.
Qed.

(** Handling an issue sends no message. *)
Lemma reported_sends_nothing `{OS} `{CJSON} `{Device} cfg node buff app mdata evs : reported cfg node buff app mdata evs -> sent evs = [].
Proof.
  intros [->|(dir & [->|[->|(run & up & -> & Hc & _ & Hup)]])]; [done..|].
  assert (sent up = []) as Hnone.
  { destruct Hup as [->|(_ & r & Ho)]; [done|]. apply uploaded_events in Ho. eapply omap_none; [|exact Ho]. by intros []. }
  change (EvMkdir dir true :: EvChdir dir true :: run ++ up) with ([EvMkdir dir true; EvChdir dir true] ++ run ++ up).
  by rewrite !sent_app, (command_sends_nothing run), Hnone.
Qed.

(** ** Properties *)

(** C29: the command chosen for an issue, when no allocation fails and the items
    of the sanity list print.  It is the last command of the issue type in the
    profile, provided that no text of the profile's sanity list occurs in it,
    with its [&;] rewritten; the time-out is the last number of the issue type,
    or 90 seconds when that is absent or zero; there is no result when the
    issue type has no command or its last one is rejected. *)
Theorem getIssueCommandInfo_spec `{OS} `{CJSONLaws} node cfg buf w :
  (forall k, os_malloc k = true) ->
  (forall j, j ∈ json_items (sanity_commands cfg) -> is_Some (cJSON_Print (Some j))) ->
  let type := cJSON_GetObjectItem (cJSON_GetObjectItem cfg (Node node)) (subNode node) in
  exists w', w_trace w' = w_trace w /\
  getIssueCommandInfo node cfg buf w =
    match last_or None (Some <$> type_commands type) with
    | None => Ret None w'
    | Some cmd =>
        if bool_decide (Exists (fun p => occurs p cmd) (sanity_patterns (sanity_commands cfg))) then Ret None w'
        else let tmo := last_or 0 (type_timeouts type) in
             Ret (Some (IssueData (Some buf) (Some (background_loop cmd)) (if tmo =? 0 then 90 else tmo))) w'
    end.
Proof.
  intros Hm Hp type. unfold getIssueCommandInfo. fold type.
  unfold malloc, mbind at 1, M_bind at 1. rewrite Hm. cbn [negb].
  destruct (read_type_run type (World (w_trace w) (S (w_allocs w))) Hm) as (w1 & E1 & T1).
  unfold mbind at 1, M_bind at 1. rewrite E1.
  destruct (last_or None (Some <$> type_commands type)) as [cmd|]; [|by exists w1].
  unfold mbind at 1, M_bind at 1.
  destruct (isCommandsValid_decides cmd (sanity_commands cfg) w1 Hp) as [[-> Hex]|[-> Hall]].
  - rewrite bool_decide_true by done. by exists w1.
  - rewrite bool_decide_false.
    + cbn. unfold accepted_data, strdup, malloc, mbind, M_bind. rewrite Hm. cbn.
      exists (World (w_trace w1) (S (w_allocs w1))). split; [exact T1|]. done.
    + rewrite list.Forall_forall in Hall. intros (p & Hin & Hocc)%list.Exists_exists. by apply (Hall p).
Qed.

Definition sample_profile : Tree.node := Tree.obj [
  Tree.field #"Sanity" (Tree.VObj [Tree.field #"Check" (Tree.VObj [Tree.field #"Commands" (Tree.VArr
    [Tree.str #"rm -rf"; Tree.str #"kill"])])]);
  Tree.field #"Device" (Tree.VObj [
    Tree.field #"Info" (Tree.VArr [Tree.str #"uptime;cat /version.txt"; Tree.Node None (Tree.VNum 10)]);
    Tree.field #"Bad" (Tree.VArr [Tree.str #"rm -rf /opt"])])].

Definition sample_json : CJSON := Tree.tree_CJSON (fun _ => None).

Lemma getIssueCommandInfo_spec_witness :
  exists w', @getIssueCommandInfo (demo_os empty_demo) sample_json (IssueNode (Some #"Device") (Some #"Info"))
     (Some sample_profile) #"Device.Info" (World [] 0) =
     Ret (Some (IssueData (Some #"Device.Info") (Some (json_quote #"uptime;cat /version.txt")) 10)) w'.
Proof.
  destruct (@getIssueCommandInfo_spec (demo_os empty_demo) sample_json (Tree.tree_laws _)
              (IssueNode (Some #"Device") (Some #"Info")) (Some sample_profile) #"Device.Info" (World [] 0)
              ltac:(done) ltac:(by intros j _; destruct j)) as (w' & _ & E).
  exists w'. rewrite E. vm_compute. reflexivity.
Defined.

(** C26: handling an issue, whatever the system and the profile are.  When it
    returns, the buffer has been emptied (so nothing in it can be freed again)
    and the history grew in one of these ways: by nothing; by the failed making
    of the report directory, or the failure to enter it; or by making and
    entering it, then the commands, then at most one upload of this directory
    under the name of the issue and its suffix (without IARM: one call of the
    upload script), which only happens when a command was run.  An issue with a
    type in append mode runs nothing but the command given with it.  In every
    other case a command that was run is one of an issue type of the profile
    that the sanity list of the profile accepted, or, when the profile has no
    list, that of the profile on the device; without either list every command
    is accepted.  What is run is then the accepted command with the placeholders
    replaced by the directory; the pieces between them, and the whole when there
    is no placeholder, contain none of the texts of the list that have no
    ampersand, no quote and no leading blank. *)
Theorem checkIssueNodeInfo_safe `{OS} `{CJSON} `{Device} node cfg buff deep appd mdata w buff' node' w' :
  (forall t p, Forall (fun n => n <> []) (default [] (os_readdir t p))) -> buf_mdata buff = Some mdata ->
  checkIssueNodeInfo node cfg buff deep appd w = Ret (buff', node') w' ->
  buff' = clear_buffer buff /\
  exists evs, w_trace w' = w_trace w ++ evs /\ reported cfg node buff appd mdata evs /\
    forall exec, exec ∈ services evs ->
      if appendMode buff && bool_decide (is_Some (subNode node)) then exists d, appd = Some d /\ executes d exec
      else checked_command cfg exec /\ screened cfg exec.
Proof.
  intros Hn Hm E. destruct (checkIssueNodeInfo_yields node cfg buff deep appd mdata Hn Hm _ _ _ E) as (evs & T & Hb & Hr).
  split; [exact Hb|]. exists evs. split_and!; [done|done|]. intros exec Hin.
  apply reported_commands in Hr. rewrite list.Forall_forall in Hr. specialize (Hr exec Hin).
  unfold issue_command in Hr. destruct (appendMode buff); cbn [andb]; [destruct (subNode node)|]; cbn [andb].
  - by rewrite bool_decide_true by done.
  - rewrite bool_decide_false by (intros [? [=]]). split; [done|by apply checked_command_safe].
  - split; [done|by apply checked_command_safe].
Qed.

Definition sample_buf : data_buf :=
  DataBuf EVENT_MSG (Some #"Device.Info") None false false RRD_DEEPSLEEP_INVALID_DEFAULT None.

Definition sample_build : Device :=
  {| IARMBUS_SUPPORT := true; RRD_DEVICE_PROFILE := []; deviceType := None |}.

Lemma checkIssueNodeInfo_safe_witness :
  exists buff' node' w' evs,
    @checkIssueNodeInfo sample_report_os sample_json sample_build (IssueNode (Some #"Device") (Some #"Info")) (Some sample_profile)
      sample_buf false None (World [] 0) = Ret (buff', node') w' /\ buff' = clear_buffer sample_buf /\
    w_trace w' = evs /\ services evs = [#"uptime;cat /version.txt"].
Proof.
  assert (forall t p, Forall (fun n : cstr => n <> []) (default [] (@os_readdir sample_report_os t p))) as Hn.
  { intros t p. cbn. case_match; repeat constructor; done. }
  destruct (@checkIssueNodeInfo sample_report_os sample_json sample_build (IssueNode (Some #"Device") (Some #"Info")) (Some sample_profile)
      sample_buf false None (World [] 0)) as [[buff' node'] w'| |] eqn:E; [|vm_compute in E; discriminate..].
  destruct (@checkIssueNodeInfo_safe sample_report_os sample_json sample_build _ _ sample_buf _ _ #"Device.Info" _ _ _ _ Hn eq_refl E)
    as (Hb & evs & T & _).
  exists buff', node', w', evs. split_and!; [done|exact Hb|exact T|].
  vm_compute in E. injection E as <- <- <-. cbn in T. subst evs. vm_compute. reflexivity.
Defined.

(** The name of a deep sleep report.  The name built for an issue type is
    the category, a dot and the type exactly when the two have the same
    length; otherwise the longer one is cut to the length of the shorter. *)
Theorem deep_sleep_name_spec category type :
  (deep_sleep_name category type = category ++ RFC_DELIM ++ type <-> length category = length type) /\
  length (deep_sleep_name category type) = (2 * Nat.min (length category) (length type) + 1)%nat.
Proof.
  assert (length (deep_sleep_name category type) = (2 * Nat.min (length category) (length type) + 1)%nat) as Hl.
  { unfold deep_sleep_name. rewrite !length_app, !length_take. change (length RFC_DELIM) with 1%nat. lia. }
  split; [|done]. split.
  - intros E. rewrite E, !length_app in Hl. change (length RFC_DELIM) with 1%nat in Hl. lia.
  - intros E. unfold deep_sleep_name. by rewrite !take_ge by lia.
Qed.
