(* ===== verification/Dynamic.v ===== *)
(** * Dynamic: the profiles of downloaded packages (src/rrdDynamic.c)

    An issue that no profile of the device knows is looked for in a package:
    the download manager is asked for it, and the package and the issue are
    remembered in the cache until the manager reports the installation.  The
    global cache is passed as a state. *)

From S2P Require Import Prelude Types OS CJson IssueType Cache RunCmd Profile.

Local Open Scope Z_scope.

Section Dynamic.
Context `{OS} `{CJSON} `{Device}.

Definition profileName : M cstr := getRrdProfileName RRD_DEVICE_PROFILE deviceType.

Definition DASH : cstr := #"-".

Definition RRDGetDeepSleepdynJSONPathLen : M nat :=
  profile ← profileName;
  mret (length RRD_MEDIA_APPS + length RDM_PKG_PREFIX + length DEEP_SLEEP_STR + length profile
        + length RRD_JSON_FILE + 1)%nat.

Definition RRDGetProfileStringLength (issueStructNode : issueNodeData) (isDeepSleepAwakeEvent : bool) : M Z :=
  let prefixlen := Z.of_nat (length RDM_PKG_PREFIX) in
  let suffixlen := Z.of_nat (length RDM_PKG_SUFFIX) in
  match Node issueStructNode with
  | None => mret (-1)
  | Some n =>
      let boundedNodeLen := Nat.min (length n) (RRD_DYNAMIC_PROFILE_MAX_LENGTH + 1) in
      if (RRD_DYNAMIC_PROFILE_MAX_LENGTH <? boundedNodeLen)%nat then mret (-1) else
      if isDeepSleepAwakeEvent then
        let suffixlen := suffixlen + Z.of_nat (length DEEP_SLEEP_STR) in
        profile ← profileName;
        mret ((if (0 <? length profile)%nat then prefixlen + Z.of_nat (length profile) + suffixlen + 1
               else prefixlen + suffixlen) + 1)
      else mret (prefixlen + Z.of_nat boundedNodeLen + suffixlen + 1)
  end.

(** The name of the package file, and the size of the buffer for the name of
    the package. *)
Definition package_file (n : cstr) (deep : bool) (mSGLength : nat) : M (cstr * nat) :=
  if deep then
    profile ← profileName;
    let msgDataStringSize := (length RDM_PKG_PREFIX + length DEEP_SLEEP_STR + length RDM_PKG_SUFFIX)%nat in
    if (0 <? length profile)%nat then
      paramString ← snprintf mSGLength mSGLength (RDM_PKG_PREFIX ++ profile ++ DASH ++ DEEP_SLEEP_STR ++ RDM_PKG_SUFFIX);
      mret (paramString, msgDataStringSize + (length profile + 1))%nat
    else
      paramString ← snprintf mSGLength mSGLength (RDM_PKG_PREFIX ++ DEEP_SLEEP_STR ++ RDM_PKG_SUFFIX);
      mret (paramString, msgDataStringSize)
  else
    paramString ← snprintf mSGLength mSGLength (RDM_PKG_PREFIX ++ n ++ RDM_PKG_SUFFIX);
    mret (paramString, length RDM_PKG_PREFIX + length n + 1)%nat.

(** Adding the request to the cache: the issue, with the suffix of an append
    request put back. *)
Definition remember_request (rbuf : data_buf) (msgDataString : cstr) (c : cache) : M cache :=
  mdata ← deref (buf_mdata rbuf);
  if appendMode rbuf then
    ok ← malloc;
    if negb ok then mfault NullDeref else
    let appendData := mdata ++ APPEND_SUFFIX in
    pkg ← strdup msgDataString;
    issue ← strdup appendData;
    append_item pkg issue c
  else
    pkg ← strdup msgDataString;
    issue ← strdup mdata;
    append_item pkg issue c.

(** The node and the cache after the call. *)
Definition RRDRdmManagerDownloadRequest (issueStructNode : issueNodeData) (rbuf : data_buf)
    (isDeepSleepAwakeEvent : bool) (c : cache) : M (issueNodeData * cache) :=
  let deep := IARMBUS_SUPPORT && isDeepSleepAwakeEvent in
  mSGLength ← RRDGetProfileStringLength issueStructNode deep;
  c ← (if negb (0 <? mSGLength) then mret c else
       ok ← malloc;
       if negb ok then mret c else
       n ← deref (Node issueStructNode);
       '(paramString, msgDataStringSize) ← package_file n deep (Z.to_nat mSGLength);
       ok ← malloc;
       if negb ok then mret c else
       let msgDataString :=
         if deep then take (msgDataStringSize - length RDM_PKG_SUFFIX) paramString
         else bounded_copy msgDataStringSize (RDM_PKG_PREFIX ++ n) in
       rc ← sys_rbus (RbusSet RDM_MGR_PKG_INST paramString);
       if rc =? 0 then remember_request rbuf msgDataString c else mret c);
  mret (IssueNode None None, c).

(** The text of the profile when it has the issue, and the buffer: the fields
    that are freed are [None]; the code leaves the freed pointers, which no
    caller reads. *)
Definition RRDCheckIssueInDynamicProfile (rbuf : data_buf) (issueStructNode : issueNodeData)
    : M (option cstr * data_buf) :=
  if inDynamic rbuf then
    match jsonPath rbuf with
    | None => mret (None, set_mdata None rbuf)
    | Some path =>
        parsed ← readAndParseJSON path;
        match cJSON_Print parsed with
        | None => mret (None, set_jsonPath None (set_mdata None rbuf))
        | Some jsonParsed =>
            if findIssueInParsedJSON issueStructNode (cJSON_Parse jsonParsed) then mret (Some jsonParsed, rbuf)
            else mret (None, set_jsonPath None (set_mdata None rbuf))
        end
    end
  else mret (None, rbuf).

(** The path of the dynamic profile is built in a buffer of [dynJSONPathLen]
    bytes. *)
Definition deep_sleep_json_path (n : cstr) (dynJSONPathLen : nat) : M cstr :=
  profile ← profileName;
  if (0 <? length profile)%nat then
    snprintf dynJSONPathLen (dynJSONPathLen + 1) (RRD_MEDIA_APPS ++ RDM_PKG_PREFIX ++ profile ++ DASH ++ n ++ RRD_JSON_FILE)
  else snprintf dynJSONPathLen dynJSONPathLen (RRD_MEDIA_APPS ++ RDM_PKG_PREFIX ++ n ++ RRD_JSON_FILE).

Definition RRDProcessDeepSleepAwakeEvents (rbuf : data_buf) (c : cache) : M cache :=
  match buf_mdata rbuf with
  | None => mret c
  | Some mdata =>
      issueStructNode ← getIssueInfo mdata;
      match dsEvent rbuf with
      | RRD_DEEPSLEEP_RDM_DOWNLOAD_PKG_INITIATE =>
          dynJSONPathLen ← RRDGetDeepSleepdynJSONPathLen;
          ok ← malloc;
          if negb ok then mret c else
          n ← deref (Node issueStructNode);
          _ ← deep_sleep_json_path n dynJSONPathLen;
          '(_, c) ← RRDRdmManagerDownloadRequest issueStructNode rbuf true c;
          mret c
      | RRD_DEEPSLEEP_RDM_PKG_INSTALL_COMPLETE =>
          if inDynamic rbuf then
            '(jsonParsed, rbuf) ← RRDCheckIssueInDynamicProfile rbuf issueStructNode;
            match jsonParsed with
            | Some s => _ ← checkIssueNodeInfo issueStructNode (cJSON_Parse s) rbuf true None; mret c
            | None => mret c
            end
          else mret c
      | RRD_DEEPSLEEP_INVALID_DEFAULT => mret c
      end
  end.
End Dynamic.

(** ** Lemmas *)

(** The profile name, when no allocation fails. *)
Definition recognized_profile `{Device} : cstr :=
  match deviceType with
  | Some p => if existsb (fun t => streq t p) (strtok_all "," RRD_DEVICE_PROFILE) then p else []
  | None => []
  end.

Lemma profileName_returns `{OS} `{Device} :
  (forall k, os_malloc k = true) -> returns profileName (fun p evs => p = recognized_profile /\ evs = []).
Proof.
  intros Hm. unfold profileName, getRrdProfileName, recognized_profile. destruct deviceType as [[|a p]|]; cbn [lookupRrdProfileList].
  - apply returns_ret. split; [|done]. by destruct (existsb _ _).
  - intros w. unfold malloc, mbind, M_bind. rewrite Hm.
    exists (if existsb (fun t => streq t (a :: p)) (strtok_all "," RRD_DEVICE_PROFILE) then a :: p else []).
    exists (World (w_trace w) (S (w_allocs w))), []. rewrite app_nil_r. cbn [w_trace].
    split_and!; [|done|done|done]. unfold mret, M_ret. cbn. by destruct (existsb _ _).
  - by apply returns_ret.
Qed.

(** The request of the package of an issue: what is asked for and remembered. *)
Definition requested `{OS} (n m : cstr) (rbuf : data_buf) (c : cache) (l : list entry) (c' : cache) (evs : trace) : Prop :=
  exists rc, evs = [EvRbus (RbusSet RDM_MGR_PKG_INST (RDM_PKG_PREFIX ++ n ++ RDM_PKG_SUFFIX)) rc] /\
    if rc =? 0
    then exists p, repr c' (Entry p (Some (RDM_PKG_PREFIX ++ n))
                              (Some (m ++ if appendMode rbuf then APPEND_SUFFIX else [])) :: l)
    else c' = c.

Lemma append_item_returns `{OS} pkg issue c l :
  (forall k, os_malloc k = true) -> repr c l ->
  returns (append_item pkg issue c) (fun c' evs => evs = [] /\ exists p, repr c' (Entry p pkg issue :: l)).
Proof.
  intros Hm Hr w. destruct (append_item_repr pkg issue c l w Hr) as (c' & E & Hc). rewrite Hm in Hc.
  exists c', (World (w_trace w) (S (w_allocs w))), []. by rewrite app_nil_r.
Qed.

Lemma remember_request_returns `{OS} rbuf m pkg c l :
  (forall k, os_malloc k = true) -> repr c l -> buf_mdata rbuf = Some m ->
  returns (remember_request rbuf pkg c) (fun c' evs => evs = [] /\
    exists p, repr c' (Entry p (Some pkg) (Some (m ++ if appendMode rbuf then APPEND_SUFFIX else [])) :: l)).
Proof.
  intros Hm Hr Hb. unfold remember_request. rewrite Hb. cbn [deref].
  destruct (appendMode rbuf); cbn [negb].
  - apply returns_malloc_ok; [done|]. cbn [negb].
    apply returns_strdup_ok; [done|]. apply returns_strdup_ok; [done|]. by apply append_item_returns.
  - rewrite app_nil_r. apply returns_strdup_ok; [done|]. apply returns_strdup_ok; [done|]. by apply append_item_returns.
Qed.

(** Every buffer of a plain request is as long as its text. *)
Lemma request_returns `{OS} `{Device} node rbuf n m c l :
  (forall k, os_malloc k = true) -> repr c l -> buf_mdata rbuf = Some m -> Node node = Some n ->
  (length n <= RRD_DYNAMIC_PROFILE_MAX_LENGTH)%nat ->
  returns (RRDRdmManagerDownloadRequest node rbuf false c) (fun r evs =>
    fst r = IssueNode None None /\ requested n m rbuf c l (snd r) evs).
Proof.
  intros Hm Hr Hb Hn Hl. unfold RRDRdmManagerDownloadRequest. rewrite andb_false_r. unfold RRDGetProfileStringLength.
  rewrite Hn. set (k := Nat.min _ _). assert (k = length n) as Hk by (unfold k; lia).
  replace (RRD_DYNAMIC_PROFILE_MAX_LENGTH <? k)%nat with false by lia.
  eapply returns_bind; [by apply returns_ret with (Q := fun z evs => z = Z.of_nat (length RDM_PKG_PREFIX) + Z.of_nat k
    + Z.of_nat (length RDM_PKG_SUFFIX) + 1 /\ evs = [])|]. intros len evs [-> ->].
  assert (length (RDM_PKG_PREFIX ++ n ++ RDM_PKG_SUFFIX) = length RDM_PKG_PREFIX + (length n + length RDM_PKG_SUFFIX))%nat
    as Htot by (by rewrite !length_app).
  eapply returns_bind.
  - replace (0 <? _) with true by lia. cbn [negb]. apply returns_malloc_ok; [done|]. cbn [negb].
    cbn [deref]. unfold package_file. intros w. rewrite bind_ret_l, bind_assoc. revert w.
    apply returns_snprintf; [done|]. intros w. rewrite bind_ret_l. revert w.
    apply returns_malloc_ok; [done|]. cbn [negb].
    rewrite !bounded_copy_id by (rewrite ?length_app; lia).
    apply returns_act with (R := fun c' evs => requested n m rbuf c l c' evs). intros rc.
    destruct (rc =? 0) eqn:Erc; [|apply returns_ret; exists rc; by rewrite Erc].
    eapply returns_mono; [by apply remember_request_returns|]. intros c' evs [-> Hc]. exists rc. by rewrite Erc.
  - intros c' evs Hreq. apply returns_ret. rewrite app_nil_r. done.
Qed.

(** A name of more than 34 characters is not requested. *)
Lemma long_request_returns `{OS} `{Device} node rbuf deep n c :
  Node node = Some n -> (RRD_DYNAMIC_PROFILE_MAX_LENGTH < length n)%nat ->
  returns (RRDRdmManagerDownloadRequest node rbuf deep c) (fun r evs => r = (IssueNode None None, c) /\ evs = []).
Proof.
  intros Hn Hl. unfold RRDRdmManagerDownloadRequest, RRDGetProfileStringLength. rewrite Hn.
  set (k := Nat.min _ _). replace (RRD_DYNAMIC_PROFILE_MAX_LENGTH <? k)%nat with true by lia.
  eapply returns_bind; [by apply returns_ret with (Q := fun z evs => z = -1 /\ evs = [])|]. intros len evs [-> ->].
  cbn [negb Z.ltb]. by apply returns_ret.
Qed.

(** The deep sleep package: the profile, when there is one, is part of its name. *)
Definition deep_sleep_package (profile : cstr) : cstr :=
  match profile with [] => DEEP_SLEEP_STR | _ :: _ => profile ++ DASH ++ DEEP_SLEEP_STR end.

Lemma deep_request_returns `{OS} `{Device} node rbuf n m c l :
  IARMBUS_SUPPORT = true -> (forall k, os_malloc k = true) -> repr c l -> buf_mdata rbuf = Some m ->
  Node node = Some n -> (length n <= RRD_DYNAMIC_PROFILE_MAX_LENGTH)%nat ->
  returns (RRDRdmManagerDownloadRequest node rbuf true c) (fun r evs =>
    fst r = IssueNode None None /\ requested (deep_sleep_package recognized_profile) m rbuf c l (snd r) evs).
Proof.
  assert (length DASH = 1)%nat as Hdash by done.
  intros Hi Hm Hr Hb Hn Hl. unfold RRDRdmManagerDownloadRequest. rewrite Hi. cbn [andb]. unfold RRDGetProfileStringLength.
  rewrite Hn. set (k := Nat.min _ _). replace (RRD_DYNAMIC_PROFILE_MAX_LENGTH <? k)%nat with false by lia.
  set (d := deep_sleep_package recognized_profile).
  assert (RDM_PKG_PREFIX ++ d ++ RDM_PKG_SUFFIX = if (0 <? length recognized_profile)%nat
    then RDM_PKG_PREFIX ++ recognized_profile ++ DASH ++ DEEP_SLEEP_STR ++ RDM_PKG_SUFFIX
    else RDM_PKG_PREFIX ++ DEEP_SLEEP_STR ++ RDM_PKG_SUFFIX) as Hd.
  { unfold d, deep_sleep_package. destruct recognized_profile; [done|]. cbn [length Nat.ltb Nat.leb]. by rewrite <- !app_assoc. }
  set (len := (length (RDM_PKG_PREFIX ++ d ++ RDM_PKG_SUFFIX) + 1)%nat).
  eapply returns_bind with (Q := fun z evs => z = Z.of_nat len /\ evs = []).
  { eapply returns_bind; [by apply profileName_returns|]. intros p evs [-> ->]. apply returns_ret. split; [|done].
    unfold len. rewrite Hd. destruct (0 <? length recognized_profile)%nat; lengths. }
  intros z evs [-> ->]. replace (0 <? _) with true by lia. cbn [negb]. rewrite Nat2Z.id.
  eapply returns_bind with (Q := fun c' evs => requested d m rbuf c l c' evs).
  - apply returns_malloc_ok; [done|]. cbn [negb]. cbn [deref]. intros w. rewrite bind_ret_l. revert w.
    eapply returns_bind with (Q := fun r evs => r = (RDM_PKG_PREFIX ++ d ++ RDM_PKG_SUFFIX,
        length (RDM_PKG_PREFIX ++ d) + length RDM_PKG_SUFFIX)%nat /\ evs = []).
    { unfold package_file. eapply returns_bind; [by apply profileName_returns|]. intros p evs [-> ->].
      unfold len in *. clear len. rewrite Hd. unfold d, deep_sleep_package in *.
      destruct recognized_profile as [|a p]; cbn [length Nat.ltb Nat.leb] in *;
        (apply returns_snprintf; [done|]; rewrite bounded_copy_id by lengths; apply returns_ret; split; [|done];
         f_equal; lengths). }
    intros r evs [-> ->]. apply returns_malloc_ok; [done|]. cbn [negb].
    rewrite Nat.add_sub, app_assoc, take_app_length, <- app_assoc.
    apply returns_act with (R := fun c' evs => requested d m rbuf c l c' evs). intros rc.
    destruct (rc =? 0) eqn:Erc; [|apply returns_ret; exists rc; by rewrite Erc].
    eapply returns_mono; [by apply remember_request_returns|]. intros c' evs [-> Hc]. exists rc. by rewrite Erc.
  - intros c' evs Hreq. apply returns_ret. rewrite app_nil_r. done.
Qed.

(** The node of the deep sleep message. *)
Lemma deep_sleep_node `{OS} :
  (forall k, os_malloc k = true) ->
  returns (getIssueInfo DEEP_SLEEP_STR) (fun node evs => node = IssueNode (Some DEEP_SLEEP_STR) None /\ evs = []).
Proof.
  intros Hm. unfold getIssueInfo. change (getParamcount DEEP_SLEEP_STR) with 0%nat.
  change (strtok_all "." DEEP_SLEEP_STR) with [DEEP_SLEEP_STR]. cbn [length Nat.leb Nat.add].
  unfold array_get. cbn [lookup list_lookup]. intros w. rewrite bind_ret_l. revert w. apply returns_malloc_ok; [done|].
  by apply returns_ret.
Qed.

(** The buffer for the path of the deep sleep profile. *)
Lemma path_len_returns `{OS} `{Device} :
  (forall k, os_malloc k = true) ->
  returns RRDGetDeepSleepdynJSONPathLen (fun k evs => evs = [] /\
    k = (length RRD_MEDIA_APPS + length RDM_PKG_PREFIX + length DEEP_SLEEP_STR + length recognized_profile
         + length RRD_JSON_FILE + 1)%nat).
Proof.
  intros Hm. eapply returns_bind; [by apply profileName_returns|]. intros p evs [-> ->]. by apply returns_ret.
Qed.

Lemma deep_sleep_request_returns `{OS} `{CJSON} `{Device} rbuf c l :
  IARMBUS_SUPPORT = true -> (forall k, os_malloc k = true) -> repr c l ->
  buf_mdata rbuf = Some DEEP_SLEEP_STR -> dsEvent rbuf = RRD_DEEPSLEEP_RDM_DOWNLOAD_PKG_INITIATE ->
  recognized_profile = [] ->
  returns (RRDProcessDeepSleepAwakeEvents rbuf c)
    (fun c' evs => requested DEEP_SLEEP_STR DEEP_SLEEP_STR rbuf c l c' evs).
Proof.
  intros Hi Hm Hr Hb Hd Hp. unfold RRDProcessDeepSleepAwakeEvents. rewrite Hb, Hd.
  eapply returns_bind; [by apply deep_sleep_node|]. intros node evs [-> ->].
  eapply returns_bind; [by apply path_len_returns|]. intros k evs [-> ->]. rewrite Hp.
  apply returns_malloc_ok; [done|]. cbn [negb deref Node].
  intros w0. rewrite bind_ret_l. revert w0.
  eapply returns_bind with (Q := fun _ evs => evs = []).
  { eapply returns_bind; [by apply profileName_returns|]. intros q evs [-> ->]. rewrite Hp.
    cbn [length Nat.ltb Nat.leb]. intros w0. rewrite <- (bind_ret_r (snprintf _ _ _)). revert w0.
    apply returns_snprintf; [done|]. by apply returns_ret. }
  intros s evs ->. eapply returns_bind; [by apply (deep_request_returns (IssueNode (Some DEEP_SLEEP_STR) None) rbuf DEEP_SLEEP_STR DEEP_SLEEP_STR c l Hi Hm Hr Hb eq_refl); vm_compute; lia|].
  intros [node c'] evs [_ Hreq]. apply returns_ret. rewrite app_nil_r. by rewrite Hp in Hreq.
Qed.

Lemma deep_sleep_request_faults `{OS} `{CJSON} `{Device} rbuf c :
  (forall k, os_malloc k = true) -> buf_mdata rbuf = Some DEEP_SLEEP_STR ->
  dsEvent rbuf = RRD_DEEPSLEEP_RDM_DOWNLOAD_PKG_INITIATE -> recognized_profile <> [] ->
  faults (RRDProcessDeepSleepAwakeEvents rbuf c) OutOfBounds.
Proof.
  intros Hm Hb Hd Hp. unfold RRDProcessDeepSleepAwakeEvents. rewrite Hb, Hd.
  eapply faults_bind; [by apply deep_sleep_node|]. intros node evs [-> ->].
  eapply faults_bind; [by apply path_len_returns|]. intros k evs [-> ->].
  apply faults_malloc_ok; [done|]. cbn [negb deref Node]. intros w0. rewrite bind_ret_l. revert w0.
  apply faults_here. eapply faults_bind; [by apply profileName_returns|]. intros q evs [-> ->].
  destruct recognized_profile as [|a p]; [done|]. assert (length DASH = 1)%nat as Hdash by done.
  intros w0. cbn [length Nat.ltb Nat.leb]. unfold snprintf.
  match goal with |- context [(?x <? ?y)%nat] => destruct (Nat.ltb_spec x y) as [|Hle]; [done|] end.
  exfalso. revert Hle. lengths.
Qed.

(** ** Requests in general, when allocations may fail *)

(** An entry of the cache for an accepted request. *)
Definition entry_requested (append deep : bool) (evs : trace) (e : entry) : Prop :=
  exists file, EvRbus (RbusSet RDM_MGR_PKG_INST file) 0 ∈ evs /\
    (forall i, e_issue e = Some i -> exists m, i = m ++ if append then APPEND_SUFFIX else []) /\
    (deep = false -> forall pkg, e_pkg e = Some pkg -> exists n, pkg = RDM_PKG_PREFIX ++ n /\ file = pkg ++ RDM_PKG_SUFFIX).

(** How a step changes the cache: entries for accepted requests are added in
    front. *)
Definition cache_grows (append deep : bool) (c c' : cache) (evs : trace) : Prop :=
  forall l, repr c l -> exists new, repr c' (new ++ l) /\ Forall (entry_requested append deep evs) new.

Lemma entry_requested_mono append deep e1 e2 e :
  (forall ev, ev ∈ e1 -> ev ∈ e2) -> entry_requested append deep e1 e -> entry_requested append deep e2 e.
Proof. intros Hsub (file & Hin & Hr). exists file. split; [by apply Hsub|done]. Qed.

Lemma cache_grows_refl append deep c evs : cache_grows append deep c c evs.
Proof. intros l Hr. by exists []. Qed.

Lemma cache_grows_trans append deep c1 c2 c3 e1 e2 :
  cache_grows append deep c1 c2 e1 -> cache_grows append deep c2 c3 e2 -> cache_grows append deep c1 c3 (e1 ++ e2).
Proof.
  intros H1 H2 l (n1 & R1 & F1)%H1. destruct (H2 _ R1) as (n2 & R2 & F2). exists (n2 ++ n1). rewrite <- app_assoc.
  split; [done|]. apply Forall_app. split; (eapply Forall_impl; [|done]); intros e; apply entry_requested_mono;
    intros ev Hin; apply elem_of_app; auto.
Qed.

Lemma read_node_yields c p : yields (read_node c p) (fun _ evs => evs = []).
Proof. unfold read_node. destruct (heap c !! p); [by apply yields_ret|apply yields_fault]. Qed.

Lemma append_item_quiet `{OS} pkg issue c : yields (append_item pkg issue c) (fun _ evs => evs = []).
Proof.
  unfold append_item. eapply yields_bind with (Q := fun _ evs => evs = []).
  { apply yields_malloc. intros ok. destruct ok; by apply yields_ret. }
  intros [[p|] c1] evs ->; [|by apply yields_ret]. destruct (cacheDataNode c1); [|by apply yields_ret].
  eapply yields_bind; [apply read_node_yields|]. intros n evs ->.
  eapply yields_bind; [apply read_node_yields|]. intros n' evs ->. by apply yields_ret.
Qed.

Lemma append_item_yields `{OS} pkg issue c :
  yields (append_item pkg issue c) (fun c' evs => evs = [] /\
    forall l, repr c l -> repr c' l \/ exists p, repr c' (Entry p pkg issue :: l)).
Proof.
  intros w c' w' E. destruct (append_item_quiet _ _ _ _ _ _ E) as (evs & T & ->). exists []. split; [done|].
  split; [done|]. intros l Hr. destruct (append_item_repr pkg issue c l w Hr) as (c1 & E1 & Hc).
  rewrite E in E1. injection E1 as -> ->. destruct (os_malloc (w_allocs w)); [by right|left; by subst].
Qed.

Lemma remember_request_yields `{OS} rbuf pkg c :
  yields (remember_request rbuf pkg c) (fun c' evs => evs = [] /\
    forall l, repr c l -> repr c' l \/
      exists p q i, repr c' (Entry p q i :: l) /\ (q = None \/ q = Some pkg) /\
        forall s, i = Some s -> exists m, s = m ++ if appendMode rbuf then APPEND_SUFFIX else []).
Proof.
  unfold remember_request. apply yields_deref. intros m _.
  assert (forall s, (exists m, s = m ++ if appendMode rbuf then APPEND_SUFFIX else []) ->
    yields (pkg' ← strdup pkg; issue ← strdup s; append_item pkg' issue c) (fun c' evs => evs = [] /\
      forall l, repr c l -> repr c' l \/
        exists p q i, repr c' (Entry p q i :: l) /\ (q = None \/ q = Some pkg) /\
          forall s, i = Some s -> exists m, s = m ++ if appendMode rbuf then APPEND_SUFFIX else [])) as Hadd.
  { intros s Hs. apply yields_strdup. intros q Hq. apply yields_strdup. intros i Hi.
    eapply yields_mono; [apply append_item_yields|]. intros c' evs [-> Hc]. split; [done|]. intros l Hr.
    destruct (Hc l Hr) as [|[p Hp]]; [by left|]. right. exists p, q, i. split; [done|].
    split; [destruct Hq as [->| ->]; auto|]. intros s' ->. destruct Hi as [[= ->]|]; [done|done]. }
  destruct (appendMode rbuf).
  - apply yields_malloc. intros ok. destruct (negb ok); [apply yields_fault|]. apply Hadd. by exists m.
  - apply Hadd. exists m. by rewrite app_nil_r.
Qed.

Lemma profileName_yields `{OS} `{Device} : yields profileName (fun _ evs => evs = []).
Proof.
  unfold profileName, getRrdProfileName, lookupRrdProfileList.
  eapply yields_bind with (Q := fun _ evs => evs = []).
  - destruct deviceType as [[|a p]|]; [by apply yields_ret| |by apply yields_ret]. apply yields_malloc. intros ok.
    destruct ok; by apply yields_ret.
  - intros found evs ->. destruct found; [|by apply yields_ret]. destruct deviceType; [by apply yields_ret|apply yields_fault].
Qed.

Lemma length_yields `{OS} `{Device} node deep n : Node node = Some n ->
  yields (RRDGetProfileStringLength node deep) (fun len evs => evs = [] /\
    (deep = false -> 0 < len -> Z.to_nat len = (length (RDM_PKG_PREFIX ++ n ++ RDM_PKG_SUFFIX) + 1)%nat)).
Proof.
  intros Hn. unfold RRDGetProfileStringLength. rewrite Hn. set (k := Nat.min _ _).
  destruct (_ <? k)%nat eqn:Ek; [by apply yields_ret|]. destruct deep.
  - eapply yields_bind; [apply profileName_yields|]. intros p evs ->. by apply yields_ret.
  - apply yields_ret. split; [done|]. intros _ _. rewrite !length_app. lia.
Qed.

Lemma package_file_yields `{OS} `{Device} n deep len :
  (deep = false -> len = length (RDM_PKG_PREFIX ++ n ++ RDM_PKG_SUFFIX) + 1)%nat ->
  yields (package_file n deep len) (fun r evs => evs = [] /\
    (deep = false -> r = (RDM_PKG_PREFIX ++ n ++ RDM_PKG_SUFFIX, length RDM_PKG_PREFIX + length n + 1)%nat)).
Proof.
  intros Hlen. unfold package_file. destruct deep.
  - eapply yields_bind; [apply profileName_yields|]. intros p evs ->.
    destruct (_ <? _)%nat; apply yields_snprintf; by apply yields_ret.
  - apply yields_snprintf. apply yields_ret. split; [done|]. intros _. rewrite bounded_copy_id by (rewrite Hlen; lia). done.
Qed.

Lemma request_yields `{OS} `{Device} node rbuf deep c :
  yields (RRDRdmManagerDownloadRequest node rbuf deep c) (fun r evs =>
    fst r = IssueNode None None /\ services evs = [] /\ sent evs = [] /\
    cache_grows (appendMode rbuf) (IARMBUS_SUPPORT && deep) c (snd r) evs).
Proof.
  unfold RRDRdmManagerDownloadRequest. set (d := IARMBUS_SUPPORT && deep).
  destruct (Node node) as [n|] eqn:Hn.
  2: { unfold RRDGetProfileStringLength. rewrite Hn. apply yields_ret. split_and!; [done..|apply cache_grows_refl]. }
  eapply yields_bind; [by apply length_yields|]. intros len evs [-> Hlen].
  eapply yields_bind with (Q := fun c' evs => services evs = [] /\ sent evs = [] /\ cache_grows (appendMode rbuf) d c c' evs).
  2: { intros c' evs (Hs & Hsent & Hc). apply yields_ret. rewrite app_nil_l, app_nil_r. done. }
  destruct (0 <? len) eqn:El; cbn [negb]; [|apply yields_ret; split_and!; [done..|apply cache_grows_refl]].
  apply yields_malloc. intros ok. destruct (negb ok); [apply yields_ret; split_and!; [done..|apply cache_grows_refl]|].
  apply yields_deref. intros n' [= <-].
  eapply yields_bind; [apply package_file_yields; intros Hd; by apply Hlen; [|lia]|]. intros [ps sz] evs [-> Hps].
  apply yields_malloc. intros ok2. destruct (negb ok2); [apply yields_ret; split_and!; [done..|apply cache_grows_refl]|].
  apply yields_act. intros rc. destruct (Z.eqb_spec rc 0) as [->|]; [|apply yields_ret; split_and!; [done..|apply cache_grows_refl]].
  eapply yields_mono; [apply remember_request_yields|]. intros c' evs [-> Hc]. split; [done|]. split; [done|].
  intros l Hr. destruct (Hc l Hr) as [|(p & q & i & Hp & Hq & Hi)]; [by exists []|].
  exists [Entry p q i]. split; [done|]. constructor; [|done]. exists ps. cbn [e_issue e_pkg]. split; [apply list_elem_of_here|].
  split; [done|]. intros Hd pkg ->. pose proof (Hps Hd) as Hps1. simplify_eq. rewrite Hd in Hq. destruct Hq as [|[= ->]]; [done|].
  exists n. rewrite bounded_copy_id by lengths. split; [done|]. by rewrite app_assoc.
Qed.

Lemma check_dynamic_yields `{OS} `{CJSON} rbuf node :
  yields (RRDCheckIssueInDynamicProfile rbuf node) (fun r evs => evs = [] /\ (is_Some (fst r) -> snd r = rbuf)).
Proof.
  unfold RRDCheckIssueInDynamicProfile. destruct (inDynamic rbuf); [|by apply yields_ret].
  destruct (jsonPath rbuf); [|apply yields_ret; split; [done|by intros []]].
  eapply yields_bind; [apply readAndParseJSON_loads|]. intros r evs [-> _].
  destruct (cJSON_Print r); [|apply yields_ret; split; [done|by intros []]].
  destruct (findIssueInParsedJSON _ _); apply yields_ret; (split; [done|]); [done|by intros []].
Qed.

(** A deep sleep event sends no message, and adds the entry of an accepted
    request to the cache at most. *)
Lemma deep_sleep_yields `{OS} `{CJSON} `{Device} rbuf c :
  (forall t p, Forall (fun n => n <> []) (default [] (os_readdir t p))) ->
  yields (RRDProcessDeepSleepAwakeEvents rbuf c) (fun c' evs =>
    sent evs = [] /\ cache_grows (appendMode rbuf) IARMBUS_SUPPORT c c' evs).
Proof.
  intros Hn. assert (sent [] = [] /\ cache_grows (appendMode rbuf) IARMBUS_SUPPORT c c []) as Hnone.
  { split; [done|apply cache_grows_refl]. }
  unfold RRDProcessDeepSleepAwakeEvents. destruct (buf_mdata rbuf) as [m|] eqn:Hm; [|by apply yields_ret].
  eapply yields_bind; [apply getIssueInfo_quiet|]. intros node evs ->. destruct (dsEvent rbuf); [by apply yields_ret| |].
  - eapply yields_bind with (Q := fun _ evs => evs = []).
    { eapply yields_bind; [apply profileName_yields|]. intros p evs ->. by apply yields_ret. }
    intros len evs ->. apply yields_malloc. intros [|]; cbn [negb]; [|by apply yields_ret].
    apply yields_deref. intros n _. eapply yields_bind with (Q := fun _ evs => evs = []).
    { eapply yields_bind; [apply profileName_yields|]. intros p evs ->. unfold snprintf.
      repeat case_match; first [apply yields_fault|by apply yields_ret]. }
    intros path evs ->. eapply yields_bind; [apply request_yields|]. intros [node' c'] evs (_ & _ & Hs & Hc).
    apply yields_ret. cbn [snd] in *. rewrite andb_true_r in Hc. by rewrite app_nil_l, app_nil_r.
  - destruct (inDynamic rbuf); [|by apply yields_ret].
    eapply yields_bind; [apply check_dynamic_yields|]. intros [[s|] rbuf'] evs [-> Hb]; [|by apply yields_ret].
    cbn [fst snd] in Hb. rewrite (Hb ltac:(by eexists)). eapply yields_bind; [by apply checkIssueNodeInfo_yields|].
    intros r evs [_ Hr%reported_sends_nothing]. apply yields_ret. rewrite !app_nil_l, app_nil_r.
    split; [done|apply cache_grows_refl].
Qed.

(** ** Properties *)

(** C24: asking for the package of an issue, when no allocation fails.  For a
    category of at most 34 characters the manager is asked exactly once, for
    the file of the package in full, although the name is built in a buffer of
    a precomputed size; when it accepts, the package and the issue, with the
    suffix of an append request put back, are the newest entry of the cache,
    and otherwise the cache is unchanged.  A longer category is not requested.
    In every case the node is emptied, so its strings are not freed again. *)
Theorem download_request_spec `{OS} `{Device} node rbuf n m c l w :
  (forall k, os_malloc k = true) -> repr c l -> buf_mdata rbuf = Some m -> Node node = Some n ->
  exists c' w' evs,
    RRDRdmManagerDownloadRequest node rbuf false c w = Ret (IssueNode None None, c') w' /\
    w_trace w' = w_trace w ++ evs /\
    if (length n <=? RRD_DYNAMIC_PROFILE_MAX_LENGTH)%nat then requested n m rbuf c l c' evs else evs = [] /\ c' = c.
Proof.
  intros Hm Hr Hb Hn. destruct (length n <=? RRD_DYNAMIC_PROFILE_MAX_LENGTH)%nat eqn:El.
  - destruct (request_returns node rbuf n m c l Hm Hr Hb Hn ltac:(lia) w) as ([node' c'] & w' & evs & E & T & Hnode & Hreq).
    cbn in Hnode. subst node'. by exists c', w', evs.
  - destruct (long_request_returns node rbuf false n c Hn ltac:(lia) w) as (r & w' & evs & E & T & -> & ->).
    by exists c, w', [].
Qed.

Definition sample_device : Device := {|
  IARMBUS_SUPPORT := true; RRD_DEVICE_PROFILE := #"RPI,XG1"; deviceType := Some #"XG1" |}.
Definition unknown_device : Device := {|
  IARMBUS_SUPPORT := true; RRD_DEVICE_PROFILE := #"RPI,XG1"; deviceType := None |}.

Lemma download_request_spec_witness :
  exists c' w' rc, @RRDRdmManagerDownloadRequest (demo_os empty_demo) sample_device
      (IssueNode (Some #"Device") (Some #"Info"))
      (DataBuf EVENT_MSG (Some #"Device.Info") None false true RRD_DEEPSLEEP_INVALID_DEFAULT None) false initCache
      (World [] 0) = Ret (IssueNode None None, c') w' /\
    w_trace w' = [EvRbus (RbusSet RDM_MGR_PKG_INST #"RDK-RRD-Device:1.0") rc] /\
    if rc =? 0 then exists p, repr c' [Entry p (Some #"RDK-RRD-Device") (Some #"Device.Info_apnd")] else c' = initCache.
Proof.
  destruct (@download_request_spec (demo_os empty_demo) sample_device
    (IssueNode (Some #"Device") (Some #"Info"))
    (DataBuf EVENT_MSG (Some #"Device.Info") None false true RRD_DEEPSLEEP_INVALID_DEFAULT None)
    #"Device" #"Device.Info" initCache [] (World [] 0)) as (c' & w' & evs & E & T & Hreq).
  - done.
  - apply repr_init.
  - done.
  - done.
  - cbn in Hreq. destruct Hreq as (rc & -> & Hc). exists c', w', rc. split; [exact E|]. split; [exact T|exact Hc].
Defined.

(** C39: the deep sleep request that the power manager triggers, when no
    allocation fails, in the build with IARM.  On a device whose type is not in
    the list of profiles, the package of the deep sleep profile is requested
    and remembered.  On every other device the dynamic path, which holds a
    dash more than was counted, is written one byte past the end of its
    buffer before anything is requested. *)
Theorem deep_sleep_request_spec `{OS} `{CJSON} `{Device} rbuf c l w :
  IARMBUS_SUPPORT = true -> (forall k, os_malloc k = true) -> repr c l ->
  buf_mdata rbuf = Some DEEP_SLEEP_STR -> dsEvent rbuf = RRD_DEEPSLEEP_RDM_DOWNLOAD_PKG_INITIATE ->
  match recognized_profile with
  | [] => exists c' w' evs, RRDProcessDeepSleepAwakeEvents rbuf c w = Ret c' w' /\ w_trace w' = w_trace w ++ evs /\
            requested DEEP_SLEEP_STR DEEP_SLEEP_STR rbuf c l c' evs
  | _ :: _ => RRDProcessDeepSleepAwakeEvents rbuf c w = Fault OutOfBounds
  end.
Proof.
  intros Hi Hm Hr Hb Hd. destruct recognized_profile as [|a p] eqn:Hp.
  - destruct (deep_sleep_request_returns rbuf c l Hi Hm Hr Hb Hd Hp w) as (c' & w' & evs & E & T & HQ). by exists c', w', evs.
  - apply deep_sleep_request_faults; try done. by rewrite Hp.
Qed.

Definition deep_sleep_message : data_buf :=
  DataBuf DEEPSLEEP_EVENT_MSG (Some DEEP_SLEEP_STR) None false false RRD_DEEPSLEEP_RDM_DOWNLOAD_PKG_INITIATE None.

Lemma deep_sleep_request_spec_witness :
  @RRDProcessDeepSleepAwakeEvents (demo_os empty_demo) (Tree.tree_CJSON (fun _ => None)) sample_device deep_sleep_message
    initCache (World [] 0) = Fault OutOfBounds /\
  exists c' w', @RRDProcessDeepSleepAwakeEvents (demo_os empty_demo) (Tree.tree_CJSON (fun _ => None)) unknown_device
    deep_sleep_message initCache (World [] 0) = Ret c' w' /\
    w_trace w' = [EvRbus (RbusSet RDM_MGR_PKG_INST #"RDK-RRD-DEEPSLEEP:1.0") 0].
Proof.
  split.
  - apply (@deep_sleep_request_spec (demo_os empty_demo) _ sample_device deep_sleep_message initCache []); try done.
    apply repr_init.
  - destruct (@deep_sleep_request_spec (demo_os empty_demo) (Tree.tree_CJSON (fun _ => None)) unknown_device
      deep_sleep_message initCache [] (World [] 0)) as (c' & w' & evs & E & T & rc & -> & _); try done; [apply repr_init|].
    exists c', w'. split; [exact E|]. vm_compute in E. injection E as <- <-. reflexivity.
Defined.
