(* ===== verification/Queue.v ===== *)
(** * Queue: the messages to the event thread (src/rrdInterface.c)

    The handlers of the bus events build a message and put it in the queue of
    the event thread.  A failed [msgsnd] ends the process.  The message of an
    installed package is built from the entry of the cache that requested it. *)

From stdpp Require Import gmap.
From S2P Require Import Prelude Types OS IssueType Cache.

Local Open Scope Z_scope.

Definition RRD_SET_ISSUE_EVENT : cstr :=
  #"Device.DeviceInfo.X_RDKCENTRAL-COM_RFC.Feature.RDKRemoteDebugger.IssueType".
Definition RRD_WEBCFG_ISSUE_EVENT : cstr :=
  #"Device.DeviceInfo.X_RDKCENTRAL-COM_RFC.Feature.RDKRemoteDebugger.WebCfgData".
Definition RDM_DOWNLOAD_EVENT : cstr :=
  #"Device.DeviceInfo.X_RDKCENTRAL-COM_RDKDownloadManager.DownloadStatus".

Section Queue.
Context `{OS}.

Definition RRDMsgDeliver (sbuf : data_buf) : M unit :=
  ok ← sys_msgsnd sbuf;
  if (ok : bool) then mret tt else mexit 1.

Definition RRD_data_buff_init (sndtype : message_type_et) (deepSleepEvent : deepsleep_event_et) : data_buf :=
  DataBuf sndtype None None false false deepSleepEvent None.

(** ** Issues from the bus *)

(** A string on the heap; the buffer of the second kind ends with its last
    character, without a terminating NUL. *)
Inductive heap_string := Terminated (s : cstr) | Unterminated (s : cstr).

(** Reading up to the NUL: past the end of a buffer that has none, where the
    read may leave the memory. *)
Definition read_string (s : heap_string) : M cstr :=
  match s with
  | Terminated s => mret s
  | Unterminated s =>
      beyond ← sys_beyond s;
      match beyond with Some t => mret (s ++ t) | None => mfault OutOfBounds end
  end.

(** A NUL fits in the buffer at this position. *)
Definition in_buffer (s : heap_string) (n : nat) : bool :=
  match s with Terminated s => (n <=? length s)%nat | Unterminated s => (n <? length s)%nat end.

(** The log call behind the delivery reads the message again; with its memory it
    is [deliver_logged] of QueueMem. *)
Definition pushIssueTypesToMsgQueue (issueTypeList : heap_string) (sndtype : message_type_et) : M unit :=
  ok ← malloc;
  if negb ok then mret tt else
  s ← read_string issueTypeList;
  let '(append, s) := checkAppendRequest s in
  if append && negb (in_buffer issueTypeList (length s)) then mfault OutOfBounds else
  RRDMsgDeliver (set_appendMode append (set_mdata (Some s) (RRD_data_buff_init sndtype RRD_DEEPSLEEP_INVALID_DEFAULT))).

(** [value] is the string of the event, when it has one. *)
Definition _remoteDebuggerEventHandler (value : option cstr) : M unit :=
  match value with
  | None => mret tt
  | Some v =>
      ok ← malloc;
      if negb ok then mret tt else
      match v with
      | [] => mret tt
      | _ => pushIssueTypesToMsgQueue (Terminated v) EVENT_MSG
      end
  end.

(** The buffer is as long as the string and [strncpy] fills it. *)
Definition _remoteDebuggerWebCfgDataEventHandler (value : option cstr) : M unit :=
  match value with
  | None => mret tt
  | Some v =>
      ok ← malloc;
      if negb ok then mret tt else pushIssueTypesToMsgQueue (Unterminated v) EVENT_WEBCFG_MSG
  end.

(** ** The message of an installed package *)

(** The three fields that both installation handlers set. *)
Definition installed_message (buf : data_buf) (issueString jsonPath : cstr) : data_buf :=
  let '(append, mdata) := checkAppendRequest issueString in
  DataBuf (mtype buf) (Some mdata) (Some jsonPath) (negb append) append (dsEvent buf) (suffix buf).

(** The part of the issue before the first dot. *)
Definition before_dot (s : cstr) : cstr :=
  match strchr s "." with Some n => take n s | None => s end.

Definition _rdmDownloadEventHandler (c : cache) : M cache :=
  value ← sys_rbus_get RRD_SET_ISSUE_EVENT;
  match value with
  | None => mret c
  | Some issue =>
      let issue := before_dot issue in
      ok ← malloc;
      if negb ok then mret c else
      let pkg_name := RDM_PKG_PREFIX ++ issue in
      ok ← malloc;
      if negb ok then mret c else
      let pkg_inst_path := RRD_TMP_DIR ++ pkg_name in
      p ← findPresentInCache pkg_name c;
      match p with
      | None => mret c
      | Some p =>
          node ← read_node c p;
          issueString ← deref (issueString node);
          ok ← malloc;
          if negb ok then mfault NullDeref else
          let sendbuf := RRD_data_buff_init EVENT_MSG RRD_DEEPSLEEP_RDM_PKG_INSTALL_COMPLETE in
          ok ← malloc;
          if negb ok then mret c else
          ok ← malloc;
          if negb ok then mret c else
          _ ← RRDMsgDeliver (installed_message sendbuf issueString (pkg_inst_path ++ RRD_JSON_FILE));
          remove_item (Some p) c
      end
  end.
End Queue.

(** ** Lemmas *)

Lemma checkAppendRequest_suffix s : checkAppendRequest (s ++ APPEND_SUFFIX) = (true, s).
Proof.
  unfold checkAppendRequest. rewrite length_app. replace (_ <=? _)%nat with true by lia.
  rewrite Nat.add_sub, drop_app_length, take_app_length. by rewrite (proj2 (streq_true _ _)).
Qed.

(** The suffix is found exactly at the end. *)
Lemma checkAppendRequest_decides s :
  (exists b, s = b ++ APPEND_SUFFIX /\ checkAppendRequest s = (true, b)) \/
  ((forall b, s <> b ++ APPEND_SUFFIX) /\ checkAppendRequest s = (false, s)).
Proof.
  unfold checkAppendRequest. destruct (_ <=? _)%nat eqn:El.
  - destruct (streq _ _) eqn:Es.
    + left. exists (take (length s - length APPEND_SUFFIX) s). split; [|done]. apply streq_true in Es.
      rewrite <- Es at 2. by rewrite take_drop.
    + right. split; [|done]. intros b ->. apply streq_false in Es. apply Es. by rewrite length_app, Nat.add_sub, drop_app_length.
  - right. split; [|done]. intros b ->. rewrite length_app in El. lia.
Qed.

(** What the event thread gets for the issue of an accepted request. *)
Lemma installed_message_request buf m (append : bool) path :
  (append = false -> forall b, m <> b ++ APPEND_SUFFIX) ->
  installed_message buf (m ++ if append then APPEND_SUFFIX else []) path =
    DataBuf (mtype buf) (Some m) (Some path) (negb append) append (dsEvent buf) (suffix buf).
Proof.
  intros Ha. unfold installed_message. destruct append; [by rewrite checkAppendRequest_suffix|]. rewrite app_nil_r.
  destruct (checkAppendRequest_decides m) as [(b & -> & _)|[_ ->]]; [by destruct (Ha eq_refl b)|done].
Qed.

(** Cutting the suffix of a string that ends with a NUL stays in its buffer. *)
Lemma cut_in_buffer s : in_buffer (Terminated s) (length (checkAppendRequest s).2) = true.
Proof.
  cbn [in_buffer]. destruct (checkAppendRequest_decides s) as [(b & E & ->)|[_ ->]]; cbn [snd]; [|lia].
  subst s. rewrite length_app. lia.
Qed.

(** Sending a string that ends with a NUL. *)
Lemma push_terminated `{OS} s ty w :
  pushIssueTypesToMsgQueue (Terminated s) ty w =
    (ok ← malloc;
     if negb ok then mret tt else
     RRDMsgDeliver (set_appendMode (checkAppendRequest s).1
       (set_mdata (Some (checkAppendRequest s).2) (RRD_data_buff_init ty RRD_DEEPSLEEP_INVALID_DEFAULT)))) w.
Proof.
  unfold pushIssueTypesToMsgQueue, mbind, M_bind. destruct (malloc w) as [ok w'| |]; [|done..]. destruct ok; [|done]. cbn [negb read_string].
  change ((mret s : M cstr) w') with (Ret s w'). cbv beta iota. pose proof (cut_in_buffer s) as Hc.
  destruct (checkAppendRequest s) as [append cut]. cbn [fst snd] in *. by rewrite Hc, andb_false_r.
Qed.

(** Delivering a message: the process goes on, or it ends with status 1. *)
Definition delivered `{OS} {A} (msg : data_buf) (a : A) (w : world) (o : outcome A) : Prop :=
  if os_msgsnd (w_trace w) msg then exists w', o = Ret a w' /\ w_trace w' = w_trace w ++ [EvMsgsnd msg true]
  else exists w', o = Exit 1 w' /\ w_trace w' = w_trace w ++ [EvMsgsnd msg false].

(** The pending entry of a package: the newest one. *)
Lemma find_newest pkg l1 e l2 : e_pkg e = Some pkg -> Forall (fun e => e_pkg e <> Some pkg) l1 ->
  List.find (has_pkg pkg) (l1 ++ e :: l2) = Some e.
Proof.
  intros He. induction 1 as [|e1 l1 Hne _ IH]; cbn [app List.find]; unfold has_pkg at 1.
  - rewrite He. by rewrite (proj2 (streq_true _ _)).
  - destruct (e_pkg e1) as [m|]; [|done]. destruct (streq m pkg) eqn:E; [|done]. apply streq_true in E. by subst.
Qed.

Lemma find_absent pkg l : Forall (fun e => e_pkg e <> Some pkg) l -> List.find (has_pkg pkg) l = None.
Proof.
  induction 1 as [|e l Hne _ IH]; [done|]. cbn [List.find]. unfold has_pkg at 1.
  destruct (e_pkg e) as [m|]; [|done]. destruct (streq m pkg) eqn:E; [|done]. apply streq_true in E. by subst.
Qed.

Lemma deliver_returns `{OS} {A} msg (a : A) (k : M A) w :
  (let w1 := emit (EvMsgsnd msg true) w in exists w2, k w1 = Ret a w2 /\ w_trace w2 = w_trace w1) ->
  delivered msg a w ((_ ← RRDMsgDeliver msg; k) w).
Proof.
  intros (w2 & Hk & T). unfold delivered, RRDMsgDeliver, sys_msgsnd, act, mbind, M_bind.
  destruct (os_msgsnd (w_trace w) msg) eqn:E; cbn; [|by exists (emit (EvMsgsnd msg false) w)].
  exists w2. by rewrite Hk, T.
Qed.

(** Delivering the message of an entry, which then leaves the cache. *)
Lemma deliver_remove `{OS} msg c l1 e l2 w : repr c (l1 ++ e :: l2) ->
  exists c', repr c' (l1 ++ l2) /\ delivered msg c' w ((_ ← RRDMsgDeliver msg; remove_item (Some (e_loc e)) c) w).
Proof.
  intros Hr. destruct (remove_item_repr c l1 e l2 (emit (EvMsgsnd msg true) w) Hr) as (c' & E & Hr').
  exists c'. split; [done|]. apply deliver_returns. by exists (emit (EvMsgsnd msg true) w).
Qed.

(** A successful allocation before the delivery. *)
Lemma delivered_malloc `{OS} {A} msg (a : A) (k : bool -> M A) w :
  (forall n, os_malloc n = true) ->
  (forall w', w_trace w' = w_trace w -> delivered msg a w' (k true w')) -> delivered msg a w ((malloc ≫= k) w).
Proof.
  intros Hm Hk. unfold malloc, mbind, M_bind. rewrite Hm.
  pose proof (Hk (World (w_trace w) (S (w_allocs w))) eq_refl) as Hd. exact Hd.
Qed.

Lemma bind_same {A B} (m m' : M A) (k : A -> M B) w : (forall w, m w = m' w) -> (m ≫= k) w = (m' ≫= k) w.
Proof. intros E. unfold mbind, M_bind. by rewrite E. Qed.

Lemma bind_run {A B} (m : M A) (k : A -> M B) x w w' : m w = Ret x w' -> (m ≫= k) w = k x w'.
Proof. intros E. unfold mbind, M_bind. by rewrite E. Qed.

Lemma bind_ask {A B} (f : trace -> A) (k : A -> M B) w : (ask f ≫= k) w = k (f (w_trace w)) w.
Proof. done. Qed.

Lemma bind_malloc_ok `{OS} {B} (k : bool -> M B) w :
  (forall n, os_malloc n = true) -> (malloc ≫= k) w = k true (World (w_trace w) (S (w_allocs w))).
Proof. intros Hm. unfold malloc, mbind, M_bind. by rewrite Hm. Qed.

(** An issue that is not empty is delivered. *)
Lemma issue_event_delivered `{OS} v append b w :
  (forall k, os_malloc k = true) -> v <> [] -> checkAppendRequest v = (append, b) ->
  delivered (DataBuf EVENT_MSG (Some b) None false append RRD_DEEPSLEEP_INVALID_DEFAULT None) tt w
    (_remoteDebuggerEventHandler (Some v) w).
Proof.
  intros Hm Hv Hc. cbn [_remoteDebuggerEventHandler]. rewrite bind_malloc_ok by done. cbn [negb].
  destruct v as [|x v]; [done|]. rewrite push_terminated, bind_malloc_ok by done. cbn [negb].
  rewrite Hc. cbn [fst snd]. set (msg := set_appendMode _ _). set (w2 := World _ _).
  assert (RRDMsgDeliver msg w2 = (_ ← RRDMsgDeliver msg; mret tt) w2) as ->.
  { unfold RRDMsgDeliver, sys_msgsnd, act, mbind, M_bind. by destruct (os_msgsnd _ _). }
  apply (deliver_returns msg tt (mret tt) w2). by eexists.
Qed.

(** *** What a handler may send, when allocations may fail *)

(** A step whose outcome is known. *)
Lemma yields_eval {A B} (m : M A) x (k : A -> M B) R :
  (forall w, m w = Ret x w) -> yields (k x) R -> yields (m ≫= k) R.
Proof. intros Hm Hk w b w' E. rewrite (bind_run _ _ _ _ _ (Hm w)) in E. by apply Hk. Qed.

Lemma deliver_yields `{OS} msg : yields (RRDMsgDeliver msg) (fun _ evs => evs = [EvMsgsnd msg true]).
Proof. unfold RRDMsgDeliver, sys_msgsnd. apply yields_act. intros [|]; [by apply yields_ret|done]. Qed.

(** The message of an issue list. *)
Definition list_message (t : message_type_et) (s : cstr) (append : bool) : data_buf :=
  DataBuf t (Some s) None false append RRD_DEEPSLEEP_INVALID_DEFAULT None.

Lemma push_yields `{OS} h t :
  yields (pushIssueTypesToMsgQueue h t) (fun _ evs =>
    evs = [] \/ exists s append, evs = [EvMsgsnd (list_message t s append) true]).
Proof.
  unfold pushIssueTypesToMsgQueue. apply yields_malloc. intros ok. destruct ok; cbn [negb]; [|apply yields_ret; by left].
  eapply (yields_bind _ _ (fun _ evs => evs = [])).
  { destruct h as [s|s]; cbn [read_string]; [by apply yields_ret|]. apply yields_ask. intros [beyond|]; [by apply yields_ret|done]. }
  intros s _ ->. destruct (checkAppendRequest s) as [append b]. destruct (_ && _); [done|]. eapply yields_mono; [apply deliver_yields|]. intros _ evs ->. right. by exists b, append.
Qed.

Lemma webcfg_event_yields `{OS} v :
  yields (_remoteDebuggerWebCfgDataEventHandler v) (fun _ evs =>
    evs = [] \/ exists s append, evs = [EvMsgsnd (list_message EVENT_WEBCFG_MSG s append) true]).
Proof.
  destruct v as [v|]; cbn [_remoteDebuggerWebCfgDataEventHandler]; [|apply yields_ret; by left].
  apply yields_malloc. intros ok. destruct ok; cbn [negb]; [apply push_yields|apply yields_ret; by left].
Qed.

Lemma issue_event_yields `{OS} v :
  yields (_remoteDebuggerEventHandler v) (fun _ evs =>
    evs = [] \/ exists s append, evs = [EvMsgsnd (list_message EVENT_MSG s append) true]).
Proof.
  destruct v as [v|]; cbn [_remoteDebuggerEventHandler]; [|apply yields_ret; by left].
  apply yields_malloc. intros ok. destruct ok; cbn [negb]; [|apply yields_ret; by left].
  destruct v; [apply yields_ret; by left|apply push_yields].
Qed.

(** What the report on a package does to the cache: nothing, or an entry
    leaves it, and then its message may be sent. *)
Definition entry_installed (c : cache) (l : list entry) (c' : cache) (evs : trace) : Prop :=
  (repr c' l /\ evs = []) \/
  exists l1 e l2, l = l1 ++ e :: l2 /\ repr c' (l1 ++ l2) /\
    (evs = [] \/ exists buf i path, e_issue e = Some i /\ evs = [EvMsgsnd (installed_message buf i path) true] /\
       suffix buf = None /\
       (mtype buf = EVENT_MSG \/ mtype buf = DEEPSLEEP_EVENT_MSG /\ dsEvent buf = RRD_DEEPSLEEP_RDM_PKG_INSTALL_COMPLETE)).

Lemma remove_yields c l1 e l2 : repr c (l1 ++ e :: l2) ->
  yields (remove_item (Some (e_loc e)) c) (fun c' evs => repr c' (l1 ++ l2) /\ evs = []).
Proof.
  intros Hr w c' w' E. destruct (remove_item_repr c l1 e l2 w Hr) as (c1 & E1 & Hr1). rewrite E1 in E.
  injection E as <- <-. exists []. by rewrite app_nil_r.
Qed.

(** The entry that is found, and its node. *)
Lemma find_yields {B} pkg c l (k : option loc -> M B) R : repr c l ->
  yields (k None) R ->
  (forall l1 e l2, l = l1 ++ e :: l2 -> yields (k (Some (e_loc e))) R) ->
  yields (findPresentInCache pkg c ≫= k) R.
Proof.
  intros Hr Hnone Hsome. eapply yields_eval; [intros w; by apply (findPresentInCache_repr pkg c l w)|].
  pose proof (find_split pkg l) as Hf. destruct (List.find (has_pkg pkg) l) as [e|]; [|done].
  destruct Hf as (l1 & l2 & -> & _). by apply (Hsome l1 e l2).
Qed.

Lemma node_yields {B} c l1 e l2 (k : cacheData -> M B) R : repr c (l1 ++ e :: l2) ->
  (forall n, issueString n = e_issue e -> yields (k n) R) -> yields (read_node c (e_loc e) ≫= k) R.
Proof.
  intros Hr Hk w b w' E. destruct (repr_read c l1 e l2 w Hr) as (n & En & Hn). rewrite (bind_run _ _ _ _ _ En) in E.
  by apply (Hk n Hn).
Qed.

Lemma rdmDownload_yields `{OS} c l : repr c l -> yields (_rdmDownloadEventHandler c) (entry_installed c l).
Proof.
  intros Hr. assert (entry_installed c l c []) as Hnone by (left; split; done).
  unfold _rdmDownloadEventHandler. apply yields_ask. intros [issue|]; [|by apply yields_ret].
  apply yields_malloc. intros [|]; cbn [negb]; [|by apply yields_ret].
  apply yields_malloc. intros [|]; cbn [negb]; [|by apply yields_ret].
  eapply find_yields; [done|by apply yields_ret|]. intros l1 e l2 ->.
  eapply node_yields; [done|]. intros n Hn. apply yields_deref. intros i Hi. rewrite Hn in Hi.
  apply yields_malloc. intros [|]; cbn [negb]; [|done].
  do 2 (apply yields_malloc; intros [|]; cbn [negb]; [|by apply yields_ret]).
  eapply yields_bind; [apply deliver_yields|]. intros _ evs ->. eapply yields_mono; [by apply remove_yields|].
  intros c' evs [Hr' ->]. right. exists l1, e, l2. split; [done|]. split; [done|]. right. eexists _, i, _.
  split; [done|]. split; [done|]. split; [done|by left].
Qed.

(** ** Properties *)

(** The event that a package was downloaded, in the build without IARM,
    when no allocation fails.  The package is the one of the issue that the bus
    reports as current.  If it was requested, exactly one message is sent: it
    carries the issue of the newest request, without the append suffix, and the
    path of the installed profile, and is marked dynamic unless it is an append
    request; then exactly this entry leaves the cache, or the process ends with
    status 1 when the queue refuses the message.  A package that was not
    requested changes nothing. *)
Theorem rdmDownload_spec `{OS} c l issue w :
  (forall k, os_malloc k = true) -> os_rbus_get (w_trace w) RRD_SET_ISSUE_EVENT = Some issue -> repr c l ->
  let pkg := RDM_PKG_PREFIX ++ before_dot issue in
  (forall l1 e l2 i, l = l1 ++ e :: l2 -> Forall (fun e => e_pkg e <> Some pkg) l1 -> e_pkg e = Some pkg ->
     e_issue e = Some i ->
     exists c', repr c' (l1 ++ l2) /\
       delivered (installed_message (RRD_data_buff_init EVENT_MSG RRD_DEEPSLEEP_RDM_PKG_INSTALL_COMPLETE) i
                    (RRD_TMP_DIR ++ pkg ++ RRD_JSON_FILE)) c' w (_rdmDownloadEventHandler c w)) /\
  (Forall (fun e => e_pkg e <> Some pkg) l ->
     exists w', _rdmDownloadEventHandler c w = Ret c w' /\ w_trace w' = w_trace w).
Proof.
  intros Hm Hg Hr pkg. split.
  - intros l1 e l2 i -> Hl1 He Hi. pose (w3 := World (w_trace w) (5 + w_allocs w)).
    destruct (deliver_remove (installed_message (RRD_data_buff_init EVENT_MSG RRD_DEEPSLEEP_RDM_PKG_INSTALL_COMPLETE) i
      ((RRD_TMP_DIR ++ pkg) ++ RRD_JSON_FILE)) c l1 e l2 w3 Hr) as (c' & Hr' & Hd).
    exists c'. split; [done|]. unfold _rdmDownloadEventHandler, sys_rbus_get. rewrite bind_ask, Hg.
    rewrite !bind_malloc_ok by done. cbn [negb]. rewrite bind_malloc_ok by done. cbn [negb].
    rewrite (bind_run _ _ _ _ _ (findPresentInCache_repr _ _ _ _ Hr)), find_newest by done.
    cbn [fmap option_fmap option_map].
    edestruct (repr_read c l1 e l2) as (n & En & Hn); [done|]. rewrite (bind_run _ _ _ _ _ En), Hn, Hi.
    cbn [deref]. rewrite bind_ret_l. do 3 (rewrite bind_malloc_ok by done; cbn [negb]).
    rewrite <- app_assoc in Hd. exact Hd.
  - intros Hl. unfold _rdmDownloadEventHandler, sys_rbus_get. rewrite bind_ask, Hg.
    do 2 (rewrite bind_malloc_ok by done; cbn [negb]).
    rewrite (bind_run _ _ _ _ _ (findPresentInCache_repr _ _ _ _ Hr)), find_absent by done. by eexists.
Qed.

(** A cache with one request. *)
Definition sample_cache : cache :=
  Cache {[ 1%positive := CacheData (Some #"RDK-RRD-Wifi") (Some #"Wifi.Stats_apnd") None None ]} (Some 1%positive).

Lemma sample_cache_repr : repr sample_cache [Entry 1 (Some #"RDK-RRD-Wifi") (Some #"Wifi.Stats_apnd")].
Proof.
  split.
  - exists (Some 1%positive). split; [done|]. by exists None.
  - set_solver.
  - repeat constructor. apply not_elem_of_nil.
Qed.

Definition sample_bus_os : OS := with_rbus_get (fun _ _ => Some #"Wifi.Stats") (demo_os empty_demo).

Lemma rdmDownload_spec_witness :
  exists c' w', @_rdmDownloadEventHandler sample_bus_os sample_cache (World [] 0) = Ret c' w' /\ repr c' [] /\
    w_trace w' = [EvMsgsnd (DataBuf EVENT_MSG (Some #"Wifi.Stats") (Some #"/tmp/RDK-RRD-Wifi/etc/rrd/remote_debugger.json")
                    false true RRD_DEEPSLEEP_RDM_PKG_INSTALL_COMPLETE None) true].
Proof.
  destruct (@rdmDownload_spec sample_bus_os sample_cache _ #"Wifi.Stats" (World [] 0) (fun _ => eq_refl) eq_refl
    sample_cache_repr) as [Hd _].
  destruct (Hd [] _ [] #"Wifi.Stats_apnd" eq_refl) as (c' & Hr & w' & E & T); [constructor|done|done|].
  exists c', w'. split; [exact E|]. split; [exact Hr|]. rewrite T. reflexivity.
Defined.

(** The event that an issue was set, when no allocation fails.  One message
    is sent for a text that is not empty: the text without the append suffix,
    marked as an append request exactly when the suffix was there; or the
    process ends with status 1 when the queue refuses it.  An empty text or an
    event without a value sends nothing. *)
Theorem issue_event_spec `{OS} v w :
  (forall k, os_malloc k = true) -> v <> [] ->
  (forall b, v = b ++ APPEND_SUFFIX ->
     delivered (DataBuf EVENT_MSG (Some b) None false true RRD_DEEPSLEEP_INVALID_DEFAULT None) tt w
       (_remoteDebuggerEventHandler (Some v) w)) /\
  ((forall b, v <> b ++ APPEND_SUFFIX) ->
     delivered (DataBuf EVENT_MSG (Some v) None false false RRD_DEEPSLEEP_INVALID_DEFAULT None) tt w
       (_remoteDebuggerEventHandler (Some v) w)).
Proof.
  intros Hm Hv.
  pose proof (fun append b => issue_event_delivered v append b w Hm Hv) as Hall.
  split.
  - intros b ->. apply Hall. by rewrite checkAppendRequest_suffix.
  - intros Hno. apply Hall. destruct (checkAppendRequest_decides v) as [(b & -> & _)|[_ ->]]; [by destruct (Hno b)|done].
Qed.

Lemma issue_event_spec_witness :
  exists w', @_remoteDebuggerEventHandler (demo_os empty_demo) (Some #"Wifi.Stats_apnd") (World [] 0) = Ret tt w' /\
    w_trace w' = [EvMsgsnd (DataBuf EVENT_MSG (Some #"Wifi.Stats") None false true RRD_DEEPSLEEP_INVALID_DEFAULT None) true].
Proof.
  destruct (@issue_event_spec (demo_os empty_demo) #"Wifi.Stats_apnd" (World [] 0) (fun _ => eq_refl) ltac:(done)) as [Hd _].
  destruct (Hd #"Wifi.Stats" eq_refl) as (w' & E & T). exists w'. split; [exact E|exact T].
Defined.

(** The event that a web configuration was set, when no allocation fails: the
    copy of its text is one byte too short for the terminating NUL and is read
    as a string, so the handler reads past the end of it.  It either leaves the
    memory, or the message is the text with whatever lies behind the buffer
    (unless that ends it with the append suffix, which the handler then cuts off). *)
Theorem webcfg_event_overread `{OS} v w :
  (forall k, os_malloc k = true) ->
  match os_beyond (w_trace w) v with
  | None => _remoteDebuggerWebCfgDataEventHandler (Some v) w = Fault OutOfBounds
  | Some t => (forall b, v ++ t <> b ++ APPEND_SUFFIX) ->
      delivered (list_message EVENT_WEBCFG_MSG (v ++ t) false) tt w (_remoteDebuggerWebCfgDataEventHandler (Some v) w)
  end.
Proof.
  intros Hm. cbn [_remoteDebuggerWebCfgDataEventHandler]. rewrite bind_malloc_ok by done. cbn [negb].
  unfold pushIssueTypesToMsgQueue. rewrite bind_malloc_ok by done. cbn [negb read_string]. unfold sys_beyond.
  destruct (os_beyond (w_trace w) v) as [t|] eqn:E.
  2: { rewrite bind_assoc, bind_ask. cbn [w_trace]. by rewrite E. }
  intros Hno. rewrite bind_assoc, bind_ask. cbn [w_trace]. rewrite E, bind_ret_l.
  destruct (checkAppendRequest_decides (v ++ t)) as [(b & Hb & _)|[_ ->]]; [by destruct (Hno b)|]. cbn [andb].
  set (w2 := World _ _). unfold delivered, RRDMsgDeliver, sys_msgsnd, act, mbind, M_bind.
  change (w_trace w2) with (w_trace w). change (set_appendMode _ _) with (list_message EVENT_WEBCFG_MSG (v ++ t) false).
  by destruct (os_msgsnd _ _); eexists.
Qed.

Lemma webcfg_event_overread_witness :
  @_remoteDebuggerWebCfgDataEventHandler (demo_os_beyond None empty_demo) (Some #"gqA=") (World [] 0) = Fault OutOfBounds /\
  exists w', @_remoteDebuggerWebCfgDataEventHandler (demo_os_beyond (Some #"!") empty_demo) (Some #"gqA=") (World [] 0) = Ret tt w' /\
    w_trace w' = [EvMsgsnd (list_message EVENT_WEBCFG_MSG #"gqA=!" false) true].
Proof.
  split.
  - exact (@webcfg_event_overread (demo_os_beyond None empty_demo) #"gqA=" (World [] 0) (fun _ => eq_refl)).
  - refine (@webcfg_event_overread (demo_os_beyond (Some #"!") empty_demo) #"gqA=" (World [] 0) (fun _ => eq_refl) _).
    intros b Hb. pose proof (checkAppendRequest_suffix b) as Hs. rewrite <- Hb in Hs. discriminate Hs.
Defined.
