(* ===== verification/MsgPack.v ===== *)
(** * MsgPack: the web configuration decoder (src/rrdMsgPackDecoder.c)

    A web configuration is base64 text of a msgpack document, from which the
    list of issue types is taken and handed to the web configuration framework
    as a blob; the framework later calls back to have it executed.

    msgpack-c and the base64 library are the class [MsgPack]; what the theorems
    rely on of them is [MsgPackLaws].  A msgpack string is a pointer into the
    decoded buffer and a size: here the bytes of the buffer from the pointer on
    and the size, so reading past the size is possible and reading past the
    buffer is a fault.  The members of an object's union for strings, binary
    data, arrays and maps share a layout, a size and a pointer: an array or a map
    read as a string is the bytes of its elements.  Reading a pointer of the
    union that was not stored there, or characters as elements, is the fault
    [WrongMember].  [errno] and freeing are left out. *)

From S2P Require Import Prelude Types OS IssueType Queue.

Local Open Scope Z_scope.

Definition NUL : ascii := ascii_of_nat 0.

(** ** The two libraries *)

Inductive msgpack_object_type :=
| MSGPACK_OBJECT_NIL | MSGPACK_OBJECT_BOOLEAN | MSGPACK_OBJECT_POSITIVE_INTEGER | MSGPACK_OBJECT_NEGATIVE_INTEGER
| MSGPACK_OBJECT_FLOAT | MSGPACK_OBJECT_STR | MSGPACK_OBJECT_ARRAY | MSGPACK_OBJECT_MAP | MSGPACK_OBJECT_BIN
| MSGPACK_OBJECT_EXT.

#[export] Instance msgpack_object_type_eq_dec : EqDecision msgpack_object_type.
Proof. solve_decision. Defined.

Record msgpack_str := MsgpackStr { str_mem : list ascii; str_size : nat }.

Inductive msgpack_object :=
| MpNil
| MpBoolean (b : bool)
| MpPositiveInteger (u64 : Z)
| MpNegativeInteger (i64 : Z)
| MpFloat (bits : Z)
| MpStr (s : msgpack_str)
| MpArray (l : list msgpack_object)
| MpMap (l : list (msgpack_object * msgpack_object))
| MpBin (s : msgpack_str)
| MpExt (s : msgpack_str).

Definition msgpack_type (o : msgpack_object) : msgpack_object_type :=
  match o with
  | MpNil => MSGPACK_OBJECT_NIL
  | MpBoolean _ => MSGPACK_OBJECT_BOOLEAN
  | MpPositiveInteger _ => MSGPACK_OBJECT_POSITIVE_INTEGER
  | MpNegativeInteger _ => MSGPACK_OBJECT_NEGATIVE_INTEGER
  | MpFloat _ => MSGPACK_OBJECT_FLOAT
  | MpStr _ => MSGPACK_OBJECT_STR
  | MpArray _ => MSGPACK_OBJECT_ARRAY
  | MpMap _ => MSGPACK_OBJECT_MAP
  | MpBin _ => MSGPACK_OBJECT_BIN
  | MpExt _ => MSGPACK_OBJECT_EXT
  end.

Inductive msgpack_unpack_return :=
| MSGPACK_UNPACK_SUCCESS | MSGPACK_UNPACK_EXTRA_BYTES | MSGPACK_UNPACK_CONTINUE
| MSGPACK_UNPACK_PARSE_ERROR | MSGPACK_UNPACK_NOMEM_ERROR.

#[export] Instance msgpack_unpack_return_eq_dec : EqDecision msgpack_unpack_return.
Proof. solve_decision. Defined.

Class MsgPack := {
  (* unpacking from the first bytes of a buffer: the status, the offset behind the object, and the object *)
  msgpack_unpack_next : list ascii -> nat -> msgpack_unpack_return * nat * msgpack_object;
  via_bits : msgpack_object -> Z;                    (* the member u64 of an object that is not an integer *)
  b64_get_decoded_buffer_size : nat -> nat;
  b64_decode : cstr -> Z * list ascii;               (* the result and the bytes written *)
  element_bytes : msgpack_object -> list ascii;      (* the memory from the first element of an array or a map on *)
  heap_byte : nat -> ascii }.                        (* what fresh memory holds *)

(** The objects inside an object. *)
Inductive contains : msgpack_object -> msgpack_object -> Prop :=
| contains_refl o : contains o o
| contains_array l x y : x ∈ l -> contains x y -> contains (MpArray l) y
| contains_key l k v y : (k, v) ∈ l -> contains k y -> contains (MpMap l) y
| contains_val l k v y : (k, v) ∈ l -> contains v y -> contains (MpMap l) y.

(** Every element of an array takes a byte, and a string its characters as well. *)
Definition array_bytes (l : list msgpack_object) : nat :=
  sum_list_with (fun o => match o with MpStr s => S (str_size s) | _ => 1%nat end) l.

(** The characters of a string or of binary data. *)
Definition characters (o : msgpack_object) (s : msgpack_str) : Prop := o = MpStr s \/ o = MpBin s.

(** The strings of an unpacked object point into the part of the buffer that
    was consumed, and so do the elements of an array, one after the other; what
    was unpacked does not depend on the bytes behind it; an element in memory
    takes at least a byte; base64 stays within the size it announced. *)
Class MsgPackLaws `(MsgPack) := {
  unpack_bounds buf len off o : msgpack_unpack_next buf len = (MSGPACK_UNPACK_SUCCESS, off, o) ->
    (off <= len)%nat /\
    (forall x s, contains o x -> characters x s -> exists p, str_mem s = drop p buf /\ (p + str_size s <= off)%nat) /\
    (forall l, contains o (MpArray l) -> (array_bytes l <= off)%nat);
  unpack_prefix buf len off o len' : msgpack_unpack_next buf len = (MSGPACK_UNPACK_SUCCESS, off, o) ->
    (len <= len')%nat -> msgpack_unpack_next buf len' = (MSGPACK_UNPACK_SUCCESS, off, o);
  element_sizes l : (length l <= length (element_bytes (MpArray l)))%nat;
  entry_sizes l : (length l <= length (element_bytes (MpMap l)))%nat;
  decode_fits s n written : b64_decode s = (n, written) ->
    (length written <= b64_get_decoded_buffer_size (length s))%nat /\ (0 <= n -> n = Z.of_nat (length written)) }.

(** ** The documents *)

Record remotedebuggerparam_t := RemotedebuggerParam { commandList : option cstr; param_length : Z }.

Record remotedebuggerdoc_t := RemotedebuggerDoc {
  param : option remotedebuggerparam_t; entries_count : Z; subdoc_name : option cstr; version : Z; transaction_id : Z }.

(** The memory that [memset] cleared. *)
Definition zero_doc : remotedebuggerdoc_t := RemotedebuggerDoc None 0 None 0 0.

Definition error_texts : list (Z * cstr) :=
  [(0, #"No errors."); (1, #"Out of memory."); (2, #"Invalid first element.");
   (5, #"Invalid 'version' value."); (4, #"Invalid 'value' array.")].

Definition remotedebuggerdoc_strerror (errnum : Z) : cstr :=
  match List.find (fun e => fst e =? errnum) error_texts with Some (_, txt) => txt | None => #"Unknown error." end.

Inductive blob_status := BLOB_EXEC_SUCCESS | SYSCFG_FAILURE.

(** The request to the web configuration framework, without the callbacks,
    which are always the same. *)
Record execData := ExecData {
  txid : Z; exec_version : Z; numOfEntries : Z; exec_subdoc_name : cstr; user_data : remotedebuggerdoc_t }.

(** ** Reading strings in memory *)

(** [strncmp(p, name, n) == 0], where [p] points at [mem]. *)
Fixpoint strncmp_eq (mem : list ascii) (name : cstr) (n : nat) {struct n} : M bool :=
  match n with
  | O => mret true
  | S n' =>
      match mem with
      | [] => mfault OutOfBounds
      | a :: mem' =>
          match name with
          | [] => mret (chareq a NUL)
          | b :: name' => if chareq a b then strncmp_eq mem' name' n' else mret false
          end
      end
  end.

(** The characters up to the first NUL, [n] at most. *)
Fixpoint read_strn (mem : list ascii) (n : nat) {struct n} : M cstr :=
  match n with
  | O => mret []
  | S n' =>
      match mem with
      | [] => mfault OutOfBounds
      | a :: mem' => if chareq a NUL then mret [] else s ← read_strn mem' n'; mret (a :: s)
      end
  end.

(** [strcat] into a buffer of [room] bytes. *)
Definition strcat_into (room : Z) (buf s : cstr) : M cstr :=
  if room <? Z.of_nat (length buf + length s + 1) then mfault OutOfBounds else mret (buf ++ s).

(** The member [str] of the union. *)
Definition via_str `{MsgPack} (o : msgpack_object) : M msgpack_str :=
  match o with
  | MpStr s | MpBin s => mret s
  | MpArray l => mret (MsgpackStr (element_bytes o) (length l))
  | MpMap l => mret (MsgpackStr (element_bytes o) (length l))
  | _ => mfault WrongMember
  end.

(** The member [map]; without elements its pointer is not used. *)
Definition via_map (o : msgpack_object) : M (list (msgpack_object * msgpack_object)) :=
  match o with
  | MpMap l => mret l
  | MpArray [] => mret []
  | MpStr s | MpBin s => if (str_size s =? 0)%nat then mret [] else mfault WrongMember
  | _ => mfault WrongMember
  end.

Definition via_u64 `{MsgPack} (o : msgpack_object) : Z :=
  match o with MpPositiveInteger n => n | MpNegativeInteger n => n mod 2^64 | _ => via_bits o end.

Section MsgPack.
Context `{OS} `{MsgPack}.

(** The macro [match]: the comparison is as long as the key. *)
Definition match_key (k : msgpack_str) (name : cstr) : M bool := strncmp_eq (str_mem k) name (str_size k).

(** The last two branches of the loop are the same. *)
Fixpoint __finder (name : cstr) (expect_type : msgpack_object_type) (map : list (msgpack_object * msgpack_object))
    : M (option msgpack_object) :=
  match map with
  | [] => mret None
  | (key, val) :: map' =>
      match key with
      | MpStr k =>
          found ← (if decide (expect_type = msgpack_type val) then match_key k name
                   else strncmp_eq (str_mem k) name (length name));
          if (found : bool) then mret (Some val) else __finder name expect_type map'
      | _ => __finder name expect_type map'
      end
  end.

(** The structure of type [A] starts as [zero]; [process] gets the variable
    arguments as a list.  The condition of the second branch is the code's. *)
Definition helper_convert {A} (buf : option (list ascii)) (len : nat) (zero : A) (wrapper : option cstr)
    (expect_type : msgpack_object_type) (optional : bool)
    (process : A -> list (option msgpack_object) -> M (Z * A)) : M (option A) :=
  ok ← malloc;
  if negb ok then mret None else
  match buf with
  | Some b =>
      if negb (0 <? len)%nat then mret (Some zero) else
      let '(mp_rv, offset, data) := msgpack_unpack_next b len in
      match mp_rv, data, wrapper with
      | MSGPACK_UNPACK_SUCCESS, MpMap map, Some wrapper =>
          if (offset =? 0)%nat then mret None else
          let convert inner args :=
            match inner with
            | Some _ => '(rc, p) ← process zero args; mret (if rc =? 0 then Some p else None)
            | None => mret (if optional then Some zero else None)
            end in
          if starts_with #"parameters" wrapper then
            inner ← __finder wrapper expect_type map;
            convert inner [inner]
          else if negb (streq wrapper #"parameters") then
            inner ← __finder wrapper expect_type map;
            subdoc_name ← __finder #"subdoc_name" expect_type map;
            version ← __finder #"version" expect_type map;
            transaction_id ← __finder #"transaction_id" expect_type map;
            convert inner [inner; subdoc_name; version; transaction_id]
          else mret None
      | _, _, _ => mret None
      end
  | None => mret (Some zero)
  end.

Definition get_msgpack_unpack_status (decodedbuf : option (list ascii)) (size : Z) : msgpack_unpack_return :=
  match decodedbuf with
  | None => MSGPACK_UNPACK_NOMEM_ERROR
  | Some buf =>
      if size =? 0 then MSGPACK_UNPACK_NOMEM_ERROR
      else let '(unpack_ret, _, _) := msgpack_unpack_next buf (Z.to_nat size) in unpack_ret
  end.

(** ** The list of issue types *)

(** The value of a 32-bit [int]. *)
Definition to_int (z : Z) : Z := (z + 2^31) mod 2^32 - 2^31.

Fixpoint issue_sizes (size : Z) (arr : list msgpack_object) : Z :=
  match arr with
  | [] => size
  | MpStr s :: arr' => issue_sizes (to_int (size + Z.of_nat (str_size s))) arr'
  | _ :: arr' => issue_sizes size arr'
  end.

Definition getReqTotalSizeOfIssueTypesStr (arr : list msgpack_object) : Z :=
  to_int (issue_sizes 0 arr + Z.of_nat (length arr) + 1).

(** The loop over the array from [index] on; [n] is its size. *)
Fixpoint command_list_loop (room : Z) (n index : nat) (arr : list msgpack_object) (buf : cstr) : M cstr :=
  match arr with
  | [] => mret buf
  | MpStr s :: arr' =>
      text ← read_strn (str_mem s) (str_size s);
      buf ← strcat_into room buf text;
      buf ← (if (index <? n - 1)%nat then strcat_into room buf #"," else mret buf);
      command_list_loop room n (S index) arr' buf
  | _ :: arr' => command_list_loop room n (S index) arr' buf
  end.

(** The loop ends with the first entry that is the list of issue types.  A
    negative number of bytes is too many for [calloc].  A map whose size does
    not fit an [int] does not fit the decoded buffer. *)
Fixpoint process_remotedebuggerparams (rrdParam : remotedebuggerparam_t)
    (map : list (msgpack_object * msgpack_object)) : M (Z * remotedebuggerparam_t) :=
  match map with
  | [] => mret (-1, rrdParam)
  | (key, val) :: map' =>
      match key, val with
      | MpStr k, MpArray arr =>
          found ← match_key k #"IssueType";
          if (found : bool) then
            let resultLen := getReqTotalSizeOfIssueTypesStr arr in
            ok ← malloc;
            if ok && (0 <=? resultLen + 1) then
              buf ← command_list_loop (resultLen + 1) (length arr) 0 arr [];
              if resultLen <? 0 then mfault OutOfBounds
              else mret (0, RemotedebuggerParam (Some (take (Z.to_nat resultLen) buf)) resultLen)
            else mret (-1, RemotedebuggerParam None resultLen)
          else process_remotedebuggerparams rrdParam map'
      | _, _ => process_remotedebuggerparams rrdParam map'
      end
  end.

(** Four variable arguments are read.  The length of a fresh parameter is not
    initialised; it is only read once it was set. *)
Definition process_remotedebuggerdoc (ld : remotedebuggerdoc_t) (args : list (option msgpack_object))
    : M (Z * remotedebuggerdoc_t) :=
  match args with
  | obj :: obj1 :: obj2 :: obj3 :: _ =>
      o1 ← deref obj1;
      s1 ← via_str o1;
      name ← read_strn (str_mem s1) (str_size s1);
      subdoc_name ← strdup name;
      o2 ← deref obj2;
      let version := via_u64 o2 mod 2^32 in
      o3 ← deref obj3;
      let transaction_id := via_u64 o3 mod 2^16 in
      ok ← malloc;
      if negb ok then mret (-1, RemotedebuggerDoc None 1 subdoc_name version transaction_id) else
      o ← deref obj;
      mapobj ← via_map o;
      '(rc, p) ← process_remotedebuggerparams (RemotedebuggerParam None 0) mapobj;
      mret (if rc =? 0 then 0 else -1, RemotedebuggerDoc (Some p) 1 subdoc_name version transaction_id)
  | _ => mfault UninitRead
  end.

Definition remotedebuggerdoc_convert (buf : list ascii) (len : nat) : M (option remotedebuggerdoc_t) :=
  helper_convert (Some buf) len zero_doc (Some #"remotedebugger") MSGPACK_OBJECT_MAP true process_remotedebuggerdoc.

(** ** Decoding and executing *)

(** The buffer after the decoding: what was written, the rest of the fresh
    memory, and the NUL at its end. *)
Definition decoded_buffer (decodeMsgSize : nat) (written : list ascii) : list ascii :=
  written ++ drop (length written) ((heap_byte <$> seq 0 decodeMsgSize) ++ [NUL]).

(** The buffer and the size, when it succeeds; [buffer] and [size] are not [NULL]. *)
Definition get_base64_decodedbuffer (pString : option cstr) : M (option (list ascii * Z)) :=
  match pString with
  | None => mret None
  | Some s =>
      let decodeMsgSize := b64_get_decoded_buffer_size (length s) in
      ok ← malloc;
      if negb ok then mret None else
      let '(size, written) := b64_decode s in
      if (decodeMsgSize + 1 <? length written)%nat then mfault OutOfBounds else
      if size <? 0 then mret None else
      mret (Some (decoded_buffer decodeMsgSize written, size))
  end.

(** A negative length is too much for [malloc]. *)
Definition PrepareDataToPush (param : remotedebuggerparam_t) : M unit :=
  let issueTypeListLen := param_length param in
  ok ← malloc;
  if negb ok || (issueTypeListLen <? 0) then mret tt else
  commands ← deref (commandList param);
  pushIssueTypesToMsgQueue (Terminated (take (Z.to_nat issueTypeListLen) commands)) EVENT_MSG.

(** The callback of the framework. *)
Definition Process_RemoteDebugger_WebConfigRequest (Data : option remotedebuggerdoc_t) : M (option blob_status) :=
  ok ← malloc;
  if negb ok then mret None else
  match Data with
  | Some doc =>
      match param doc with
      | Some p =>
          match commandList p with
          | Some _ => _ ← PrepareDataToPush p; mret (Some BLOB_EXEC_SUCCESS)
          | None => mret (Some SYSCFG_FAILURE)
          end
      | None => mret (Some SYSCFG_FAILURE)
      end
  | None => mret (Some SYSCFG_FAILURE)
  end.

Definition rollback_Debugger : Z := 0.

(** The status, and the request that is pushed to the framework. *)
Definition decodeWebCfgData (pString : option cstr) : M (Z * option execData) :=
  decoded ← get_base64_decodedbuffer pString;
  match decoded with
  | None => mret (-1, None)
  | Some (decodeMsg, size) =>
      if decide (get_msgpack_unpack_status (Some decodeMsg) size = MSGPACK_UNPACK_SUCCESS) then
        info ← remotedebuggerdoc_convert decodeMsg (Z.to_nat (size + 1));
        match info with
        | None => mret (-1, None)
        | Some doc =>
            let doc := RemotedebuggerDoc (param doc) 1 (subdoc_name doc) (version doc) (transaction_id doc) in
            ok ← malloc;
            if negb ok then mret (-1, None) else
            mret (0, Some (ExecData (transaction_id doc) (version doc) (entries_count doc) #"remotedebugger" doc))
        end
      else mret (-1, None)
  end.
End MsgPack.

(** ** Lemmas *)

(** [quiet F m Q]: [m] makes no system call; if it faults, the fault is one of
    [F], and if it returns, [Q] holds of the result. *)
Definition quiet {A} (F : fault -> Prop) (m : M A) (Q : A -> Prop) : Prop :=
  forall w, match m w with Ret a w' => w_trace w' = w_trace w /\ Q a | Exit _ _ => False | Fault f => F f end.

Lemma quiet_ret {A} F (a : A) (Q : A -> Prop) : Q a -> quiet F (mret a) Q.
Proof. by intros HQ w. Qed.

Lemma quiet_fault {A} (F : fault -> Prop) f (Q : A -> Prop) : F f -> quiet F (mfault f) Q.
Proof. by intros Hf w. Qed.

Lemma quiet_bind {A B} F (m : M A) (k : A -> M B) (Q : A -> Prop) R :
  quiet F m Q -> (forall a, Q a -> quiet F (k a) R) -> quiet F (m ≫= k) R.
Proof.
  intros Hm Hk w. specialize (Hm w). unfold mbind, M_bind. destruct (m w) as [a w'| |]; [|done|done].
  destruct Hm as [T HQ]. specialize (Hk a HQ w'). destruct (k a w'); [|done|done]. by rewrite <- T.
Qed.

Lemma quiet_mono {A} F (m : M A) (Q R : A -> Prop) : quiet F m Q -> (forall a, Q a -> R a) -> quiet F m R.
Proof. intros Hm HQR w. specialize (Hm w). destruct (m w) as [a w'| |]; [|done|done]. destruct Hm. auto. Qed.

Lemma quiet_malloc `{OS} {B} F (k : bool -> M B) R : (forall ok, quiet F (k ok) R) -> quiet F (malloc ≫= k) R.
Proof. intros Hk w. apply (Hk _ (World (w_trace w) (S (w_allocs w)))). Qed.

Lemma quiet_deref {A B} (F : fault -> Prop) (p : option A) (k : A -> M B) R :
  F NullDeref -> (forall a, p = Some a -> quiet F (k a) R) -> quiet F (deref p ≫= k) R.
Proof. intros Hf Hk. destruct p as [a|]; intros w; [|done]. by apply Hk. Qed.

(** *** Strings that lie in a buffer that ends with a NUL *)

Definition ends_with_nul (mem : list ascii) : Prop := exists m, mem = m ++ [NUL].

Definition readable (s : msgpack_str) : Prop := ends_with_nul (str_mem s) /\ (str_size s <= length (str_mem s))%nat.

(** Every string in the object can be read. *)
Definition all_readable (o : msgpack_object) : Prop := forall x s, contains o x -> characters x s -> readable s.

Lemma ends_with_nul_tail a m : ends_with_nul (a :: m) -> m = [] /\ a = NUL \/ ends_with_nul m.
Proof. intros [[|b m'] [= -> ->]]; [by left|right]. by exists m'. Qed.

Lemma strncmp_quiet F mem name n : ends_with_nul mem -> NUL ∉ name -> quiet F (strncmp_eq mem name n) (fun _ => True).
Proof.
  revert name n. induction mem as [|a mem IH]; intros name n He Hn; [by destruct He as [[] ?]|].
  destruct n as [|n]; [by apply quiet_ret|]. cbn [strncmp_eq]. destruct name as [|b name]; [by apply quiet_ret|].
  apply not_elem_of_cons in Hn as [Hb Hn]. destruct (chareq a b) eqn:E; [|by apply quiet_ret].
  apply chareq_true in E as ->. destruct (ends_with_nul_tail _ _ He) as [[_ ->]|]; [done|]. by apply IH.
Qed.

Lemma read_strn_quiet F mem n : (n <= length mem)%nat -> quiet F (read_strn mem n) (fun s => (length s <= n)%nat).
Proof.
  revert mem. induction n as [|n IH]; intros mem Hl; cbn [read_strn]; [apply quiet_ret, Nat.le_0_l|].
  destruct mem as [|a mem]; [cbn in Hl; lia|]. destruct (chareq a NUL); [apply quiet_ret, Nat.le_0_l|].
  eapply quiet_bind; [apply IH; cbn in Hl; lia|]. intros s Hs. apply quiet_ret. cbn in *. lia.
Qed.

Lemma strcat_quiet F room buf s :
  Z.of_nat (length buf + length s) < room -> quiet F (strcat_into room buf s) (fun r => r = buf ++ s).
Proof. intros Hl. unfold strcat_into. replace (room <? _) with false by lia. by apply quiet_ret. Qed.

(** *** The steps of the decoder *)

Section Steps.
Context `{OS} `{MsgPack}.
Variable F : fault -> Prop.
Hypothesis null_deref : F NullDeref.
Hypothesis wrong_member : F WrongMember.
Hypothesis elements_fit : forall l, (length l <= length (element_bytes (MpArray l)))%nat.
Hypothesis entries_fit : forall l, (length l <= length (element_bytes (MpMap l)))%nat.

(** What holds of a map holds of its tail. *)
Lemma contains_tail e map y : contains (MpMap map) y -> y = MpMap map \/ contains (MpMap (e :: map)) y.
Proof.
  intros Hy. inversion Hy; subst; [by left|right; eapply contains_key|right; eapply contains_val]; try eassumption; by right.
Qed.

Lemma all_readable_tail e map : all_readable (MpMap (e :: map)) -> all_readable (MpMap map).
Proof.
  intros Hr x s Hx Hs. destruct (contains_tail e _ _ Hx) as [->|Hx']; [by destruct Hs|by eapply Hr].
Qed.

Lemma finder_quiet name ty map : NUL ∉ name -> all_readable (MpMap map) ->
  quiet F (__finder name ty map) (fun r => forall o, r = Some o -> exists k, (k, o) ∈ map).
Proof.
  intros Hn. induction map as [|[key val] map IH]; intros Hr; cbn [__finder]; [by apply quiet_ret|].
  assert (quiet F (__finder name ty map) (fun r => forall o, r = Some o -> exists k, (k, o) ∈ (key, val) :: map)) as Hrest.
  { eapply quiet_mono; [by apply IH; eapply all_readable_tail|]. intros r Hf o Ho. destruct (Hf o Ho) as [k Hk].
    exists k. by right. }
  destruct key; try done.
  assert (readable s) as [Hnul Hsz] by (eapply Hr; [eapply contains_key; [left|constructor]|by left]).
  eapply quiet_bind with (Q := fun _ => True).
  { destruct (decide _); by apply strncmp_quiet. }
  intros [|] _; [|done]. apply quiet_ret. intros o [= <-]. eexists. left.
Qed.

Lemma issue_sizes_sum arr : forall size, 0 <= size -> size + Z.of_nat (array_bytes arr) < 2^31 ->
  issue_sizes size arr + Z.of_nat (length arr) = size + Z.of_nat (array_bytes arr).
Proof.
  unfold array_bytes. induction arr as [|o arr IH]; intros size Hs Hb; cbn [issue_sizes sum_list_with length] in *; [lia|].
  destruct o; try (specialize (IH size Hs ltac:(lia)); lia).
  assert (to_int (size + Z.of_nat (str_size s)) = size + Z.of_nat (str_size s)) as ->.
  { unfold to_int. rewrite Z.mod_small by lia. lia. }
  pose proof (IH (size + Z.of_nat (str_size s)) ltac:(lia) ltac:(lia)). lia.
Qed.

Lemma required_size arr : Z.of_nat (array_bytes arr) + 1 < 2^31 ->
  getReqTotalSizeOfIssueTypesStr arr = Z.of_nat (array_bytes arr) + 1.
Proof.
  intros Hb. unfold getReqTotalSizeOfIssueTypesStr. rewrite issue_sizes_sum by lia. unfold to_int.
  rewrite Z.mod_small by lia. lia.
Qed.

(** The commands fit the buffer whose size was computed. *)
Lemma command_list_quiet room n arr : all_readable (MpArray arr) -> forall index buf,
  Z.of_nat (length buf + array_bytes arr) < room ->
  quiet F (command_list_loop room n index arr buf) (fun r => Z.of_nat (length r) < room).
Proof.
  unfold array_bytes. induction arr as [|o arr IH]; intros Hr index buf Hb; cbn [command_list_loop sum_list_with] in *.
  { apply quiet_ret. lia. }
  assert (all_readable (MpArray arr)) as Hr'.
  { intros x s Hx Hs. inversion Hx; subst; [by destruct Hs|]. eapply Hr; [eapply contains_array; [by right|eassumption]|done]. }
  destruct o; try (apply IH; [done|lia]).
  assert (readable s) as [_ Hsz] by (eapply Hr; [eapply contains_array; [left|constructor]|by left]).
  eapply quiet_bind; [by apply read_strn_quiet|]. intros text Ht. cbn beta in Ht.
  eapply quiet_bind; [apply strcat_quiet; lia|]. intros b1 ->.
  eapply quiet_bind with (Q := fun b2 => (length b2 <= length buf + length text + 1)%nat).
  - destruct (_ <? _)%nat; [|apply quiet_ret; rewrite length_app; lia].
    eapply quiet_mono; [apply strcat_quiet|]; [rewrite length_app; change (length #",") with 1%nat; lia|].
    intros b2 ->. rewrite !length_app. change (length #",") with 1%nat. lia.
  - intros b2 Hb2. cbn beta in Hb2. apply IH; [done|lia].
Qed.

(** A parameter that was read: all its characters are sent. *)
Definition param_ok (p : remotedebuggerparam_t) : Prop :=
  forall cmds, commandList p = Some cmds -> Z.of_nat (length cmds) <= param_length p.

Lemma params_quiet p map : commandList p = None -> all_readable (MpMap map) ->
  (forall l, contains (MpMap map) (MpArray l) -> Z.of_nat (array_bytes l) + 2 < 2^31) ->
  quiet F (process_remotedebuggerparams p map) (fun r =>
    (fst r = 0 -> is_Some (commandList (snd r))) /\ param_ok (snd r)).
Proof.
  intros Hp. induction map as [|[key val] map IH]; intros Hr Hb; cbn [process_remotedebuggerparams].
  { apply quiet_ret. split; [done|]. intros cmds. cbn [snd]. by rewrite Hp. }
  assert (quiet F (process_remotedebuggerparams p map) (fun r =>
    (fst r = 0 -> is_Some (commandList (snd r))) /\ param_ok (snd r))) as Hrest.
  { apply IH.
    - by eapply all_readable_tail.
    - intros l Hl. apply Hb. by destruct (contains_tail (key, val) _ _ Hl). }
  destruct key; try done. destruct val as [| | | | | |arr| | |]; try done.
  assert (readable s) as [Hnul _] by (eapply Hr; [eapply contains_key; [left|constructor]|by left]).
  eapply quiet_bind; [apply strncmp_quiet; [done|]; by apply (bool_decide_unpack _)|].
  intros [|] _; [|done]. apply quiet_malloc. intros ok.
  assert (Z.of_nat (array_bytes arr) + 2 < 2^31) as Harr by (apply Hb; eapply contains_val; [left|constructor]).
  rewrite required_size by lia. replace (0 <=? _) with true by lia. rewrite andb_true_r.
  destruct ok; [|apply quiet_ret; by split].
  eapply quiet_bind; [apply (command_list_quiet _ _ arr)|].
  - intros x s' Hx. apply Hr. eapply contains_val; [left|done].
  - cbn [length]. lia.
  - intros cmds Hc. replace (_ <? 0) with false by lia. apply quiet_ret. split; [by eexists|].
    intros cmds' [= <-]. cbn [snd param_length]. rewrite length_take. lia.
Qed.

Lemma via_map_quiet o : quiet F (via_map o) (fun map => o = MpMap map \/ map = []).
Proof.
  destruct o as [| | | | |s|[|x l]|map|s|]; cbn [via_map]; try (by intros w); try (apply quiet_ret; by auto);
    (destruct (_ =? _)%nat; [apply quiet_ret; by auto|by intros w]).
Qed.

(** What every converted document satisfies: the framework's callback finds
    the list whole, or no parameter at all. *)
Definition doc_ok (d : remotedebuggerdoc_t) : Prop :=
  forall p, param d = Some p -> is_Some (commandList p) /\ param_ok p.

(** What is read as a string: only scalars are no string. *)
Lemma via_str_quiet o : all_readable o ->
  quiet F (via_str o) (fun s => (str_size s <= length (str_mem s))%nat).
Proof.
  intros Hr. destruct o; cbn [via_str]; try (by intros w); apply quiet_ret; cbn; [|done|done|].
  - eapply (Hr (MpStr s)); [constructor|by left].
  - eapply (Hr (MpBin s)); [constructor|by right].
Qed.

Lemma doc_quiet obj obj1 obj2 obj3 :
  (forall o, obj = Some o \/ obj1 = Some o -> all_readable o) ->
  (forall o l, obj = Some o -> contains o (MpArray l) -> Z.of_nat (array_bytes l) + 2 < 2^31) ->
  quiet F (process_remotedebuggerdoc zero_doc [obj; obj1; obj2; obj3]) (fun r => fst r = 0 -> doc_ok (snd r)).
Proof.
  intros Hr Hb. cbn [process_remotedebuggerdoc]. apply quiet_deref; [done|]. intros o1 E1.
  eapply quiet_bind; [apply via_str_quiet, Hr; by right|]. intros s Hs.
  eapply quiet_bind; [by apply read_strn_quiet|]. intros name _.
  eapply quiet_bind with (Q := fun _ => True).
  { unfold strdup. apply quiet_malloc. intros ok. by apply quiet_ret. }
  intros sub _. apply quiet_deref; [done|]. intros o2 E2. apply quiet_deref; [done|]. intros o3 E3.
  apply quiet_malloc. intros ok. destruct ok; cbn [negb]; [|by apply quiet_ret].
  apply quiet_deref; [done|]. intros o E.
  eapply quiet_bind; [apply (via_map_quiet o)|]. intros map Hmap.
  eapply quiet_bind; [apply (params_quiet (RemotedebuggerParam None 0) map); [done| |]|].
  { destruct Hmap as [->| ->]; [apply Hr; by left|]. intros x s' Hx. inversion Hx as [|? ? ? Hin|? ? ? ? Hin|? ? ? ? Hin]; subst; [by intros [|]|..]; by apply elem_of_nil in Hin. }
  { destruct Hmap as [->| ->]; [intros l; by apply Hb|]. intros l Hl. inversion Hl as [|? ? ? Hin|? ? ? ? Hin|? ? ? ? Hin]; subst; by apply elem_of_nil in Hin. }
  intros [rc p] [Hc Hok]. apply quiet_ret. cbn [fst snd] in *. intros Hrc p' [= <-]. split; [|done]. apply Hc.
  by destruct (Z.eqb_spec rc 0).
Qed.

Lemma convert_quiet buf len :
  (forall off map, msgpack_unpack_next buf len = (MSGPACK_UNPACK_SUCCESS, off, MpMap map) ->
     all_readable (MpMap map) /\ forall l, contains (MpMap map) (MpArray l) -> Z.of_nat (array_bytes l) + 2 < 2^31) ->
  quiet F (remotedebuggerdoc_convert buf len) (fun r => forall d, r = Some d -> doc_ok d).
Proof.
  intros Hu. unfold remotedebuggerdoc_convert, helper_convert. apply quiet_malloc. intros ok.
  destruct ok; cbn [negb]; [|by apply quiet_ret].
  assert (doc_ok zero_doc) as Hzero by done.
  destruct (negb _); [apply quiet_ret; by intros d [= <-]|].
  destruct (msgpack_unpack_next buf len) as [[rv off] data] eqn:E. destruct rv; try by apply quiet_ret.
  destruct data as [| | | | | | |map| |]; try by apply quiet_ret. destruct (off =? 0)%nat; [by apply quiet_ret|].
  destruct (Hu off map eq_refl) as [Hr Hb].
  change (starts_with #"parameters" #"remotedebugger") with false.
  change (negb (streq #"remotedebugger" #"parameters")) with true. cbn iota.
  assert (forall name, NUL ∉ name -> quiet F (__finder name MSGPACK_OBJECT_MAP map) (fun r => forall o, r = Some o ->
    all_readable o /\ forall l, contains o (MpArray l) -> Z.of_nat (array_bytes l) + 2 < 2^31)) as Hf.
  { intros name Hn. eapply quiet_mono; [by apply finder_quiet|]. intros r Hf o Ho. destruct (Hf o Ho) as [k Hk].
    split; [intros x s Hx; apply Hr|intros l Hl; apply Hb]; by eapply contains_val. }
  eapply quiet_bind; [apply Hf; by apply (bool_decide_unpack _)|]. intros inner Hinner.
  eapply quiet_bind; [apply Hf; by apply (bool_decide_unpack _)|]. intros sub Hsub.
  do 2 (eapply quiet_bind; [apply Hf; by apply (bool_decide_unpack _)|]; intros ? _).
  destruct inner as [o|]; [|apply quiet_ret; by intros d [= <-]].
  eapply quiet_bind; [apply doc_quiet|].
  - intros o' [[= <-]|E']; [by apply Hinner|by apply Hsub].
  - intros o' l [= <-]. by apply Hinner.
  - intros [rc d] Hd. apply quiet_ret. destruct (Z.eqb_spec rc 0); [|done]. intros d' [= <-]. by apply Hd.
Qed.
End Steps.

(** The buffer of the decoded text ends with a NUL. *)
Lemma decoded_buffer_nul `{MsgPack} n written : (length written <= n)%nat ->
  length (decoded_buffer n written) = S n /\ exists m, decoded_buffer n written = m ++ [NUL] /\ length m = n.
Proof.
  intros Hl. unfold decoded_buffer. rewrite drop_app_le by (rewrite length_fmap, length_seq; lia). rewrite app_assoc.
  set (m := written ++ _). assert (length m = n) as Hm.
  { unfold m. rewrite length_app, length_drop, length_fmap, length_seq. lia. }
  split; [rewrite length_app; cbn [length]; lia|]. by exists m.
Qed.

Lemma unpacked_readable `{MsgPackLaws} n written len off o : (length written <= n)%nat -> (len <= n)%nat ->
  msgpack_unpack_next (decoded_buffer n written) len = (MSGPACK_UNPACK_SUCCESS, off, o) -> all_readable o.
Proof.
  intros Hw Hl (Hoff & Hs & _)%unpack_bounds x s Hx Hc. destruct (Hs x s Hx Hc) as (p & Ep & Hp).
  destruct (decoded_buffer_nul n written Hw) as (Hlen & m & E & Hm). split.
  - rewrite Ep, E, drop_app_le by lia. by exists (drop p m).
  - rewrite Ep, length_drop. lia.
Qed.

Section Safe.
Context `{OS} `{MsgPackLaws}.

(** What a run of the decoder answers. *)
Definition decoded_ok (r : Z * option execData) : Prop :=
  (r.1 = 0 /\ exists e, r.2 = Some e /\ doc_ok (user_data e)) \/ (r.1 = -1 /\ r.2 = None).

Lemma decode_quiet s :
  Z.of_nat (b64_get_decoded_buffer_size (length s)) + 2 < 2^31 ->
  quiet (fun f => f = NullDeref \/ f = WrongMember) (decodeWebCfgData (Some s)) decoded_ok.
Proof.
  intros Hsize. set (n := b64_get_decoded_buffer_size (length s)) in *. unfold decodeWebCfgData.
  destruct (b64_decode s) as [size written] eqn:Ed. destruct (decode_fits _ _ _ Ed) as [Hw Hn]. fold n in Hw.
  eapply quiet_bind with (Q := fun r => r = None \/ r = Some (decoded_buffer n written, size) /\ 0 <= size).
  { cbn [get_base64_decodedbuffer]. apply quiet_malloc. intros ok. destruct ok; cbn [negb]; [|apply quiet_ret; by left].
    rewrite Ed. fold n. replace (n + 1 <? length written)%nat with false by lia.
    destruct (Z.ltb_spec size 0); apply quiet_ret; [by left|by right]. }
  intros r [-> | [-> Hpos]]; [apply quiet_ret; by right|].
  destruct (decide _) as [Hst|]; [|apply quiet_ret; by right].
  unfold get_msgpack_unpack_status in Hst. destruct (size =? 0); [done|].
  destruct (msgpack_unpack_next _ (Z.to_nat size)) as [[rv off0] o0] eqn:E0. subst rv. specialize (Hn Hpos).
  eapply quiet_bind; [apply (convert_quiet _ (or_introl eq_refl) (or_intror eq_refl) element_sizes entry_sizes)|].
  - intros off map E. rewrite (unpack_prefix _ _ _ _ (Z.to_nat (size + 1)) E0) in E by lia. injection E as -> ->.
    split; [by apply (unpacked_readable n written (Z.to_nat size) _ _ Hw ltac:(lia) E0)|].
    intros l Hl. apply unpack_bounds in E0 as (Hoff & _ & Ha). specialize (Ha l Hl). lia.
  - intros [d|] Hd; [|apply quiet_ret; by right]. apply quiet_malloc. intros ok.
    destruct ok; cbn [negb]; [|apply quiet_ret; by right]. apply quiet_ret. left. split; [done|].
    eexists. split; [done|]. intros p Hp. by apply (Hd d eq_refl).
Qed.
End Safe.

(** The callback of the framework: the whole list is delivered as one message. *)
Lemma blob_delivered `{OS} d p cmds w :
  (forall k, os_malloc k = true) -> param d = Some p -> commandList p = Some cmds -> param_ok p ->
  delivered (DataBuf EVENT_MSG (Some (snd (checkAppendRequest cmds))) None false (fst (checkAppendRequest cmds))
      RRD_DEEPSLEEP_INVALID_DEFAULT None)
    (Some BLOB_EXEC_SUCCESS) w (Process_RemoteDebugger_WebConfigRequest (Some d) w).
Proof.
  intros Hm Hp Hc Hok. unfold Process_RemoteDebugger_WebConfigRequest. apply delivered_malloc; [done|]. intros w1 T1.
  cbn [negb]. rewrite Hp, Hc. unfold PrepareDataToPush. rewrite bind_assoc. apply delivered_malloc; [done|].
  intros w2 T2. specialize (Hok cmds Hc). cbn [negb orb]. replace (_ <? 0) with false by lia. rewrite Hc. cbn [deref].
  rewrite bind_assoc, bind_ret_l, (bind_same _ _ _ _ (push_terminated _ _)), bind_assoc. apply delivered_malloc; [done|].
  intros w3 T3. cbn [negb]. rewrite take_ge by lia. apply deliver_returns. by eexists.
Qed.

Lemma read_total mem n : (n <= length mem)%nat -> exists s, forall w, read_strn mem n w = Ret s w.
Proof.
  revert mem. induction n as [|n IH]; intros mem Hl; [by exists []|]. destruct mem as [|a mem]; [cbn in Hl; lia|].
  cbn [read_strn]. destruct (chareq a NUL); [by exists []|]. destruct (IH mem) as [s Hs]; [cbn in Hl; lia|].
  exists (a :: s). intros w. by rewrite (bind_run _ _ _ _ _ (Hs w)).
Qed.

(** *** The decoder on a well-formed document *)

(** The object is a string with this text. *)
Definition is_text (t : cstr) (o : msgpack_object) : Prop :=
  exists s rest, o = MpStr s /\ str_mem s = t ++ rest /\ str_size s = length t.

Lemma strncmp_same t rest w : strncmp_eq (t ++ rest) t (length t) w = Ret true w.
Proof. induction t as [|a t IH]; [done|]. cbn [app length strncmp_eq]. by rewrite chareq_refl. Qed.

Lemma strncmp_other a t rest b name n w : a <> b -> (0 < n)%nat -> strncmp_eq (a :: t ++ rest) (b :: name) n w = Ret false w.
Proof. intros Hab Hn. destruct n as [|n]; [lia|]. cbn [strncmp_eq]. by rewrite (proj2 (chareq_false _ _) Hab). Qed.

(** Names that differ in their first character. *)
Definition head_differs (s t : cstr) : Prop :=
  match s, t with a :: _, b :: _ => a <> b | _, _ => False end.

Definition fields_of (fields : list (cstr * msgpack_object)) (map : list (msgpack_object * msgpack_object)) : Prop :=
  Forall2 (fun f kv => is_text f.1 kv.1 /\ kv.2 = f.2) fields map.

Lemma finder_field `{OS} `{MsgPack} name ty o fields map w :
  fields_of fields map -> (name, o) ∈ fields ->
  Forall (fun f => f = (name, o) \/ head_differs f.1 name) fields ->
  __finder name ty map w = Ret (Some o) w.
Proof.
  intros Hf. induction Hf as [|[n v] [key val] fields map [Hk Hv] Hf IH]; intros Hin Hd.
  { by apply elem_of_nil in Hin. }
  cbn [fst snd] in *. subst val. destruct Hk as (s & rest & -> & Hmem & Hsz). apply Forall_cons_iff in Hd as [Hd Hds]. cbn [__finder]. unfold match_key. rewrite Hmem, Hsz.
  destruct Hd as [[= -> ->]|Hd].
  - assert ((if decide (ty = msgpack_type o) then strncmp_eq (name ++ rest) name (length name)
             else strncmp_eq (name ++ rest) name (length name)) w = Ret true w) as E by (destruct (decide _); apply strncmp_same).
    by rewrite (bind_run _ _ _ _ _ E).
  - cbn [fst] in Hd. destruct n as [|a n], name as [|b name]; [done..|]. cbn [head_differs] in Hd.
    assert ((if decide (ty = msgpack_type v) then strncmp_eq ((a :: n) ++ rest) (b :: name) (length (a :: n))
             else strncmp_eq ((a :: n) ++ rest) (b :: name) (length (b :: name))) w = Ret false w) as E.
    { destruct (decide _); apply strncmp_other; (done || (cbn; lia)). }
    rewrite (bind_run _ _ _ _ _ E). apply IH; [|done]. apply elem_of_cons in Hin as [[= -> ->]|]; [by destruct Hd|done].
Qed.

Lemma read_text t rest w : NUL ∉ t -> read_strn (t ++ rest) (length t) w = Ret t w.
Proof.
  induction t as [|a t IH]; intros Hn; [done|]. apply not_elem_of_cons in Hn as [Ha Hn]. cbn [app length read_strn].
  rewrite (proj2 (chareq_false a NUL)) by done. by rewrite (bind_run _ _ _ _ _ (IH Hn)).
Qed.

Lemma strcat_fits room buf s w : Z.of_nat (length buf + length s) < room -> strcat_into room buf s w = Ret (buf ++ s) w.
Proof. intros Hl. unfold strcat_into. by replace (room <? _) with false by lia. Qed.

(** An array of texts. *)
Definition texts_of (texts : list cstr) (arr : list msgpack_object) : Prop :=
  Forall2 (fun t o => is_text t o /\ NUL ∉ t) texts arr.

Lemma texts_bytes texts arr : texts_of texts arr -> texts <> [] ->
  array_bytes arr = S (length (join #"," texts)).
Proof.
  intros Ht. unfold array_bytes. induction Ht as [|t o texts arr [(s & rest & -> & Hmem & Hsz) Hn] Ht IH]; [done|]. intros _.
  cbn [sum_list_with]. rewrite Hsz. destruct texts as [|t' texts].
  - inversion Ht; subst. cbn [sum_list_with join]. lia.
  - rewrite join_cons by done. rewrite IH by done. rewrite !length_app. change (length #",") with 1%nat. lia.
Qed.

Lemma command_list_texts texts arr room n w : texts_of texts arr -> forall index buf,
  (index + length arr = n)%nat -> Z.of_nat (length buf + length (join #"," texts)) < room ->
  command_list_loop room n index arr buf w = Ret (buf ++ join #"," texts) w.
Proof.
  intros Ht. induction Ht as [|t o texts arr [(s & rest & -> & Hmem & Hsz) Hn] Ht IH]; intros index buf Hi Hb.
  { cbn. by rewrite app_nil_r. }
  cbn [command_list_loop length] in *. rewrite Hmem, Hsz. rewrite (bind_run _ _ _ _ _ (read_text t rest w Hn)).
  destruct texts as [|t' texts].
  - inversion Ht; subst. cbn [join length] in *. rewrite (bind_run _ _ _ _ _ (strcat_fits room buf t w ltac:(lia))).
    replace (index <? _)%nat with false by lia. by rewrite bind_ret_l.
  - rewrite join_cons in * by done. rewrite !length_app in Hb. change (length #",") with 1%nat in Hb.
    rewrite (bind_run _ _ _ _ _ (strcat_fits room buf t w ltac:(lia))).
    apply Forall2_length in Ht as Hlen. cbn [length] in Hlen. replace (index <? _)%nat with true by lia.
    rewrite (bind_run _ _ _ _ _ (strcat_fits room (buf ++ t) #"," w ltac:(rewrite length_app; change (length #",") with 1%nat; lia))).
    rewrite IH.
    + by rewrite <- !app_assoc.
    + lia.
    + rewrite !length_app. change (length #",") with 1%nat. lia.
Qed.

Lemma params_texts `{OS} `{MsgPack} texts key arr map w :
  (forall k, os_malloc k = true) -> is_text #"IssueType" key -> texts_of texts arr -> texts <> [] ->
  Z.of_nat (length (join #"," texts)) + 3 < 2^31 ->
  exists len w', process_remotedebuggerparams (RemotedebuggerParam None 0) ((key, MpArray arr) :: map) w =
    Ret (0, RemotedebuggerParam (Some (join #"," texts)) len) w' /\ w_trace w' = w_trace w /\
    Z.of_nat (length (join #"," texts)) <= len.
Proof.
  intros Hm (s & rest & -> & Hmem & Hsz) Ht Hne Hl. pose proof (texts_bytes _ _ Ht Hne) as Hb.
  exists (Z.of_nat (array_bytes arr) + 1), (World (w_trace w) (S (w_allocs w))). cbn [process_remotedebuggerparams].
  unfold match_key. rewrite Hmem, Hsz. rewrite (bind_run _ _ _ _ _ (strncmp_same _ rest w)).
  rewrite bind_malloc_ok by done. rewrite required_size by lia. replace (0 <=? _) with true by lia. cbn [andb].
  rewrite (bind_run _ _ _ _ _ (command_list_texts texts arr (Z.of_nat (array_bytes arr) + 1 + 1) (length arr) _ Ht 0%nat []
    eq_refl ltac:(cbn [length]; lia))).
  replace (_ <? 0) with false by lia. cbn [app]. rewrite take_ge by lia. split_and!; [done|done|lia].
Qed.

Lemma doc_texts `{OS} `{MsgPack} texts key arr rest obj1 s1 name o2 o3 ld w :
  (forall k, os_malloc k = true) -> is_text #"IssueType" key -> texts_of texts arr -> texts <> [] ->
  Z.of_nat (length (join #"," texts)) + 3 < 2^31 ->
  via_str obj1 = mret s1 -> (forall w, read_strn (str_mem s1) (str_size s1) w = Ret name w) ->
  exists len w', process_remotedebuggerdoc ld [Some (MpMap ((key, MpArray arr) :: rest)); Some obj1; Some o2; Some o3] w =
    Ret (0, RemotedebuggerDoc (Some (RemotedebuggerParam (Some (join #"," texts)) len)) 1 (Some name)
              (via_u64 o2 mod 2^32) (via_u64 o3 mod 2^16)) w' /\
    w_trace w' = w_trace w /\ Z.of_nat (length (join #"," texts)) <= len.
Proof.
  intros Hm Hk Ht Hne Hl Hs1 Hread. cbn [process_remotedebuggerdoc deref].
  rewrite bind_ret_l, Hs1, bind_ret_l, (bind_run _ _ _ _ _ (Hread w)). unfold strdup. rewrite bind_assoc.
  rewrite bind_malloc_ok, !bind_ret_l, bind_malloc_ok by done. cbn [negb]. rewrite bind_ret_l. cbn [via_map].
  rewrite bind_ret_l.
  set (w2 := World _ _). destruct (params_texts texts key arr rest w2 Hm Hk Ht Hne Hl) as (len & w' & E & T & Hlen).
  exists len, w'. rewrite (bind_run _ _ _ _ _ E). by rewrite T.
Qed.

(** The fields of a document, in any order. *)
Definition document_fields (inner sub : msgpack_object) (v t : Z) : list (cstr * msgpack_object) :=
  [(#"remotedebugger", inner); (#"subdoc_name", sub); (#"version", MpPositiveInteger v);
   (#"transaction_id", MpPositiveInteger t)].

Lemma document_finds `{OS} `{MsgPack} inner sub v t fields map ty :
  fields ≡ₚ document_fields inner sub v t -> fields_of fields map ->
  (forall w, __finder #"remotedebugger" ty map w = Ret (Some inner) w) /\
  (forall w, __finder #"subdoc_name" ty map w = Ret (Some sub) w) /\
  (forall w, __finder #"version" ty map w = Ret (Some (MpPositiveInteger v)) w) /\
  (forall w, __finder #"transaction_id" ty map w = Ret (Some (MpPositiveInteger t)) w).
Proof.
  intros Hp Hf.
  assert (forall name o, (name, o) ∈ document_fields inner sub v t ->
    Forall (fun f => f = (name, o) \/ head_differs f.1 name) (document_fields inner sub v t) ->
    forall w, __finder name ty map w = Ret (Some o) w) as Hall.
  { intros name o Hin Hd w. apply (finder_field _ _ _ fields); [done|by rewrite Hp|by rewrite Hp]. }
  unfold document_fields in *. split_and!; (apply Hall; [set_solver|]);
    repeat (apply Forall_cons_2; [first [by left | by right]|]); apply Forall_nil_2.
Qed.

(** The conversion of a document whose four values are found. *)
Lemma convert_found `{OS} `{MsgPack} buf len off map inner_key arr inner_rest texts sub s1 name o2 o3 w :
  (forall k, os_malloc k = true) -> (0 < len)%nat -> off <> 0%nat ->
  msgpack_unpack_next buf len = (MSGPACK_UNPACK_SUCCESS, off, MpMap map) ->
  (forall w, __finder #"remotedebugger" MSGPACK_OBJECT_MAP map w = Ret (Some (MpMap ((inner_key, MpArray arr) :: inner_rest))) w) ->
  (forall w, __finder #"subdoc_name" MSGPACK_OBJECT_MAP map w = Ret (Some sub) w) ->
  (forall w, __finder #"version" MSGPACK_OBJECT_MAP map w = Ret (Some o2) w) ->
  (forall w, __finder #"transaction_id" MSGPACK_OBJECT_MAP map w = Ret (Some o3) w) ->
  is_text #"IssueType" inner_key -> texts_of texts arr -> texts <> [] ->
  Z.of_nat (length (join #"," texts)) + 3 < 2^31 ->
  via_str sub = mret s1 -> (forall w, read_strn (str_mem s1) (str_size s1) w = Ret name w) ->
  exists l w', remotedebuggerdoc_convert buf len w =
    Ret (Some (RemotedebuggerDoc (Some (RemotedebuggerParam (Some (join #"," texts)) l)) 1 (Some name)
                 (via_u64 o2 mod 2^32) (via_u64 o3 mod 2^16))) w' /\
    w_trace w' = w_trace w /\ Z.of_nat (length (join #"," texts)) <= l.
Proof.
  intros Hm Hlen Hoff Hu F1 F2 F3 F4 Hk Ht Hne Hl Hs1 Hread. unfold remotedebuggerdoc_convert, helper_convert.
  rewrite bind_malloc_ok by done. cbn [negb]. replace (0 <? len)%nat with true by lia. cbn [negb]. rewrite Hu.
  rewrite (proj2 (Nat.eqb_neq _ _)) by done.
  change (starts_with #"parameters" #"remotedebugger") with false.
  change (negb (streq #"remotedebugger" #"parameters")) with true. cbn iota.
  rewrite (bind_run _ _ _ _ _ (F1 _)), (bind_run _ _ _ _ _ (F2 _)), (bind_run _ _ _ _ _ (F3 _)), (bind_run _ _ _ _ _ (F4 _)).
  set (w1 := World _ _).
  destruct (doc_texts texts inner_key arr inner_rest sub s1 name o2 o3 zero_doc w1 Hm Hk Ht Hne Hl Hs1 Hread) as (l & w' & E & T & Hle).
  exists l, w'. rewrite (bind_run _ _ _ _ _ E). split_and!; [done|by rewrite T|done].
Qed.

Lemma convert_document `{OS} `{MsgPack} buf len off map inner_key arr inner_rest texts sub name v t fields w :
  (forall k, os_malloc k = true) -> (0 < len)%nat -> off <> 0%nat ->
  msgpack_unpack_next buf len = (MSGPACK_UNPACK_SUCCESS, off, MpMap map) ->
  fields ≡ₚ document_fields (MpMap ((inner_key, MpArray arr) :: inner_rest)) sub v t -> fields_of fields map ->
  is_text #"IssueType" inner_key -> texts_of texts arr -> texts <> [] ->
  Z.of_nat (length (join #"," texts)) + 3 < 2^31 -> is_text name sub -> NUL ∉ name ->
  exists l w', remotedebuggerdoc_convert buf len w =
    Ret (Some (RemotedebuggerDoc (Some (RemotedebuggerParam (Some (join #"," texts)) l)) 1 (Some name) (v mod 2^32) (t mod 2^16))) w' /\
    w_trace w' = w_trace w /\ Z.of_nat (length (join #"," texts)) <= l.
Proof.
  intros Hm Hlen Hoff Hu Hp Hf Hk Ht Hne Hl (s & r & -> & Hmem & Hsz) Hn.
  destruct (document_finds _ _ _ _ _ _ MSGPACK_OBJECT_MAP Hp Hf) as (F1 & F2 & F3 & F4).
  apply (convert_found buf len off map inner_key arr inner_rest texts (MpStr s) s name (MpPositiveInteger v) (MpPositiveInteger t));
    try done. intros w'. rewrite Hmem, Hsz. by apply read_text.
Qed.

(** Splitting the list again. *)
Lemma join_tokens texts : Forall (fun t => t <> [] /\ ","%char ∉ t) texts -> strtok_all "," (join #"," texts) = texts.
Proof.
  induction 1 as [|t texts [Hne Hc] Hts IH]; [done|]. destruct texts as [|t' texts].
  - cbn [join]. by apply strtok_all_single.
  - rewrite join_cons by done. change (t ++ #"," ++ ?r) with (t ++ ","%char :: r). unfold strtok_all at 1.
    rewrite tok_loop_word by done. by rewrite IH.
Qed.

(** *** The decoder makes no system call *)

Definition silent {A} (m : M A) : Prop := yields m (fun _ evs => evs = []).

Lemma silent_ret {A} (a : A) : silent (mret a).
Proof. by apply yields_ret. Qed.

Lemma silent_fault {A} f : silent (mfault f : M A).
Proof. apply yields_fault. Qed.

Lemma silent_bind {A B} (m : M A) (k : A -> M B) : silent m -> (forall a, silent (k a)) -> silent (m ≫= k).
Proof. intros Hm Hk. eapply yields_bind; [exact Hm|]. intros a evs ->. apply Hk. Qed.

Lemma silent_malloc `{OS} : silent malloc.
Proof. intros w a w' [= <- <-]. exists []. by rewrite app_nil_r. Qed.

Lemma silent_deref {A} (p : option A) : silent (deref p).
Proof. destruct p; [apply silent_ret|apply silent_fault]. Qed.

Create HintDb silent discriminated.
#[export] Hint Resolve silent_ret silent_fault silent_malloc silent_deref : silent.

Ltac silent := repeat first [ progress intros | solve [auto with silent] | apply silent_bind | case_match ].

Lemma silent_strncmp mem name n : silent (strncmp_eq mem name n).
Proof. revert mem name. induction n; intros [|a mem] [|b name]; cbn [strncmp_eq]; silent. Qed.

Lemma silent_read mem n : silent (read_strn mem n).
Proof. revert mem. induction n; intros [|a mem]; cbn [read_strn]; silent. Qed.

Lemma silent_strcat room buf s : silent (strcat_into room buf s).
Proof. unfold strcat_into. silent. Qed.

#[export] Hint Resolve silent_strncmp silent_read silent_strcat : silent.

Lemma silent_finder `{OS} `{MsgPack} name ty map : silent (__finder name ty map).
Proof. induction map as [|[[] val] map IH]; cbn [__finder]; unfold match_key; silent. Qed.

Lemma silent_command_list room n arr : forall index buf, silent (command_list_loop room n index arr buf).
Proof. induction arr as [|[] arr IH]; intros index buf; cbn [command_list_loop]; silent. Qed.

#[export] Hint Resolve silent_finder silent_command_list : silent.

Lemma silent_params `{OS} `{MsgPack} p map : silent (process_remotedebuggerparams p map).
Proof. induction map as [|[[] []] map IH]; cbn [process_remotedebuggerparams]; unfold match_key; silent. Qed.

#[export] Hint Resolve silent_params : silent.

Lemma silent_doc `{OS} `{MsgPack} ld args : silent (process_remotedebuggerdoc ld args).
Proof.
  unfold process_remotedebuggerdoc, via_str, via_map, strdup. silent.
Qed.

#[export] Hint Resolve silent_doc : silent.

Lemma silent_decode `{OS} `{MsgPack} s : silent (decodeWebCfgData s).
Proof.
  unfold decodeWebCfgData, get_base64_decodedbuffer, remotedebuggerdoc_convert, helper_convert. silent.
Qed.

Lemma blob_yields `{OS} doc :
  yields (Process_RemoteDebugger_WebConfigRequest doc) (fun _ evs =>
    evs = [] \/ exists s append, evs = [EvMsgsnd (list_message EVENT_MSG s append) true]).
Proof.
  unfold Process_RemoteDebugger_WebConfigRequest. apply yields_malloc. intros [|]; cbn [negb]; [|apply yields_ret; by left].
  repeat (case_match; [|apply yields_ret; by left]).
  eapply yields_bind with (Q := fun _ evs => evs = [] \/ exists s append, evs = [EvMsgsnd (list_message EVENT_MSG s append) true]).
  - unfold PrepareDataToPush. apply yields_malloc. intros ok. destruct (_ || _); [apply yields_ret; by left|].
    apply yields_deref. intros commands _. apply push_yields.
  - intros _ evs Hevs. apply yields_ret. by rewrite app_nil_r.
Qed.

(** A text that is unpacked: the decoder converts the buffer, as long as the
    text or a byte longer. *)
Lemma decode_unpacked `{OS} `{MsgPackLaws} s written off data w :
  (forall k, os_malloc k = true) -> b64_decode s = (Z.of_nat (length written), written) -> written <> [] ->
  let buf := decoded_buffer (b64_get_decoded_buffer_size (length s)) written in
  msgpack_unpack_next buf (length written) = (MSGPACK_UNPACK_SUCCESS, off, data) ->
  exists len w1, (0 < len)%nat /\ msgpack_unpack_next buf len = (MSGPACK_UNPACK_SUCCESS, off, data) /\ w_trace w1 = w_trace w /\
    (forall f, remotedebuggerdoc_convert buf len w1 = Fault f -> decodeWebCfgData (Some s) w = Fault f) /\
    (forall d w2, remotedebuggerdoc_convert buf len w1 = Ret (Some d) w2 -> exists w3, w_trace w3 = w_trace w2 /\
       decodeWebCfgData (Some s) w =
         Ret (0, Some (ExecData (transaction_id d) (version d) 1 #"remotedebugger"
           (RemotedebuggerDoc (param d) 1 (subdoc_name d) (version d) (transaction_id d)))) w3).
Proof.
  intros Hm Hd Hw buf Hu. set (n := b64_get_decoded_buffer_size (length s)) in *.
  destruct (decode_fits _ _ _ Hd) as [Hfit _]. fold n in Hfit.
  assert (0 < length written)%nat as Hpos by (destruct written; [done|cbn; lia]).
  exists (Z.to_nat (Z.of_nat (length written) + 1)), (World (w_trace w) (S (w_allocs w))).
  split; [lia|]. split; [apply (unpack_prefix _ _ _ _ _ Hu); lia|]. split; [done|].
  unfold decodeWebCfgData. cbn [get_base64_decodedbuffer]. rewrite bind_assoc, bind_malloc_ok by done. cbn [negb]. rewrite Hd.
  fold n. replace (n + 1 <? length written)%nat with false by lia. replace (_ <? 0) with false by lia. rewrite bind_ret_l.
  fold buf. rewrite decide_True.
  2: { unfold get_msgpack_unpack_status. rewrite (proj2 (Z.eqb_neq _ _)) by lia. by rewrite Nat2Z.id, Hu. }
  split; [intros f E|intros d w2 E].
  - unfold mbind, M_bind at 1. by rewrite E.
  - rewrite (bind_run _ _ _ _ _ E), bind_malloc_ok by done. eexists. split; [|done]. done.
Qed.

(** ** Properties *)

(** C18: decoding a web configuration never reads or writes outside a buffer.
    Whatever text is given (below 2 GB) and whatever memory fails, the decoder
    makes no system call and ends in one of three ways: with -1 and nothing
    pushed; with 0 and one request pushed, whose list of issue types, when it
    has one, is complete; or, for a document in which a key is missing or has a
    value of the wrong type, by using a missing pointer or the wrong member of
    a union. *)
Theorem decodeWebCfgData_safe `{OS} `{MsgPackLaws} s w :
  Z.of_nat (b64_get_decoded_buffer_size (length s)) + 2 < 2^31 ->
  match decodeWebCfgData (Some s) w with
  | Ret (rc, pushed) w' => w_trace w' = w_trace w /\
      ((rc = -1 /\ pushed = None) \/
       (rc = 0 /\ exists e, pushed = Some e /\ forall p, param (user_data e) = Some p ->
          exists cmds, commandList p = Some cmds /\ Z.of_nat (length cmds) <= param_length p))
  | Exit _ _ => False
  | Fault f => f = NullDeref \/ f = WrongMember
  end.
Proof.
  intros Hs. pose proof (decode_quiet s Hs w) as Hq. destruct (decodeWebCfgData (Some s) w) as [[rc pushed] w'| |]; [|done|done].
  destruct Hq as [T Hq]. unfold decoded_ok in Hq. cbn [fst snd] in Hq. split; [done|].
  destruct Hq as [[-> (e & -> & He)]|[-> ->]]; [right|by left].
  split; [done|]. exists e. split; [done|]. intros p Hp. destruct (He p Hp) as [[cmds Hc] Hok]. exists cmds. by rewrite Hc; auto.
Qed.

(** Elements whose bytes are all zero. *)
Definition blank_elements (o : msgpack_object) : list ascii :=
  match o with MpArray l => replicate (length l) NUL | MpMap l => replicate (length l) NUL | _ => [] end.

Lemma blank_array l : (length l <= length (blank_elements (MpArray l)))%nat.
Proof. cbn. by rewrite length_replicate. Qed.

Lemma blank_map l : (length l <= length (blank_elements (MpMap l)))%nat.
Proof. cbn. by rewrite length_replicate. Qed.

(** A library that knows one document, for witnesses: the text lists its
    strings, each behind one byte, and base64 is the identity. *)
Definition sample_text : cstr :=
  #"_remotedebugger_IssueType_Device.Info_System_subdoc_name_remotedebugger_version_transaction_id".

Definition sample_string (buf : list ascii) (p n : nat) : msgpack_object := MpStr (MsgpackStr (drop p buf) n).

Definition sample_inner (buf : list ascii) : msgpack_object :=
  MpMap [(sample_string buf 16 9, MpArray [sample_string buf 26 11; sample_string buf 38 6])].

Definition sample_map (buf : list ascii) : list (msgpack_object * msgpack_object) :=
  [(sample_string buf 72 7, MpPositiveInteger 3); (sample_string buf 1 14, sample_inner buf);
   (sample_string buf 45 11, sample_string buf 57 14); (sample_string buf 80 14, MpPositiveInteger 65537)].

Definition sample_msgpack : MsgPack := {|
  msgpack_unpack_next := fun buf len =>
    if (94 <=? len)%nat then (MSGPACK_UNPACK_SUCCESS, 94%nat, MpMap (sample_map buf))
    else (MSGPACK_UNPACK_CONTINUE, 0%nat, MpNil);
  via_bits := fun _ => 0; b64_get_decoded_buffer_size := fun n => n;
  b64_decode := fun s => (Z.of_nat (length s), s);
  element_bytes := blank_elements; heap_byte := fun _ => NUL |}.

(** The objects of the document. *)
Lemma contains_sample buf o : contains (MpMap (sample_map buf)) o ->
  o = MpMap (sample_map buf) \/ o = sample_inner buf \/ o = MpArray [sample_string buf 26 11; sample_string buf 38 6] \/
  o = MpPositiveInteger 3 \/ o = MpPositiveInteger 65537 \/ o = sample_string buf 72 7 \/ o = sample_string buf 1 14 \/
  o = sample_string buf 45 11 \/ o = sample_string buf 57 14 \/ o = sample_string buf 80 14 \/
  o = sample_string buf 16 9 \/ o = sample_string buf 26 11 \/ o = sample_string buf 38 6.
Proof.
  assert (forall p n y, contains (sample_string buf p n) y -> y = sample_string buf p n) as Hstr by (by inversion 1).
  assert (forall n y, contains (MpPositiveInteger n) y -> y = MpPositiveInteger n) as Hint by (by inversion 1).
  assert (forall y, contains (MpArray [sample_string buf 26 11; sample_string buf 38 6]) y ->
    y = MpArray [sample_string buf 26 11; sample_string buf 38 6] \/ y = sample_string buf 26 11 \/ y = sample_string buf 38 6) as Harr.
  { inversion 1 as [|l x y' Hin Hx| |]; subst; [by left|]. rewrite !elem_of_cons, elem_of_nil in Hin.
    destruct Hin as [-> |[-> |[]]]; apply Hstr in Hx; auto. }
  assert (forall y, contains (sample_inner buf) y -> y = sample_inner buf \/ y = sample_string buf 16 9 \/
    contains (MpArray [sample_string buf 26 11; sample_string buf 38 6]) y) as Hinner.
  { inversion 1 as [|l x y' Hin Hx|l k v y' Hin Hx|l k v y' Hin Hx]; subst; [by left|..];
      apply list_elem_of_singleton in Hin; injection Hin as -> ->; auto. }
  unfold sample_map. inversion 1 as [|l x y' Hin Hx|l k v y' Hin Hx|l k v y' Hin Hx]; subst; [by left|..];
    rewrite !elem_of_cons, elem_of_nil in Hin; destruct Hin as [[= -> ->]|[[= -> ->]|[[= -> ->]|[[= -> ->]|[]]]]].
  all: try apply Hstr in Hx; try apply Hint in Hx; try (apply Hinner in Hx as [Hx|[Hx|Hx%Harr]]); tauto.
Qed.

Lemma sample_msgpack_laws : MsgPackLaws sample_msgpack.
Proof.
  split.
  - intros buf len off o. cbn [msgpack_unpack_next sample_msgpack]. destruct (Nat.leb_spec 94 len); [|done]. intros [= <- <-].
    split; [done|]. split.
    + intros x s Hx%contains_sample Hc. repeat destruct Hx as [Hx|Hx]; subst x; destruct Hc as [Hs|Hs]; try done; injection Hs as <-;
        (eexists; split; [reflexivity|]); cbn [str_size]; lia.
    + intros l Hs%contains_sample. repeat destruct Hs as [Hs|Hs]; try done. injection Hs as ->. vm_compute. lia.
  - intros buf len off o len'. cbn [msgpack_unpack_next sample_msgpack]. destruct (Nat.leb_spec 94 len); [|done].
    intros [= <- <-] Hl. by replace (94 <=? len')%nat with true by lia.
  - apply blank_array.
  - apply blank_map.
  - intros s n written. cbn. intros [= <- <-]. done.
Qed.

Lemma decodeWebCfgData_safe_witness :
  match @decodeWebCfgData (demo_os empty_demo) sample_msgpack (Some #"gqA=") (World [] 0) with
  | Ret (rc, pushed) w' => w_trace w' = [] /\ rc = -1
  | _ => False
  end.
Proof.
  pose proof (@decodeWebCfgData_safe (demo_os empty_demo) sample_msgpack sample_msgpack_laws #"gqA=" (World [] 0) eq_refl) as Hs.
  vm_compute in Hs |- *. destruct Hs as [T _]. done.
Defined.

(** C10: a web configuration reaches the event thread.  For a document with the
    four keys, in any order, and issue types that are not empty and hold no
    comma or NUL, the decoder pushes one request with the version and the
    transaction at their widths; when the framework calls back, one message is
    delivered whose text, cut at commas as the event thread cuts it, is exactly
    the list of issue types; a last issue that ends with the append suffix loses
    it and makes the message an append request. *)
Theorem webcfg_roundtrip `{OS} `{MsgPackLaws} s written off map inner_key arr inner_rest texts sub name v t fields w :
  (forall k, os_malloc k = true) -> b64_decode s = (Z.of_nat (length written), written) -> written <> [] ->
  msgpack_unpack_next (decoded_buffer (b64_get_decoded_buffer_size (length s)) written) (length written)
    = (MSGPACK_UNPACK_SUCCESS, off, MpMap map) -> off <> 0%nat ->
  fields ≡ₚ document_fields (MpMap ((inner_key, MpArray arr) :: inner_rest)) sub v t -> fields_of fields map ->
  is_text #"IssueType" inner_key -> texts_of texts arr -> texts <> [] ->
  Forall (fun t => t <> [] /\ ","%char ∉ t) texts ->
  Z.of_nat (length (join #"," texts)) + 3 < 2^31 -> is_text name sub -> NUL ∉ name ->
  exists doc w', decodeWebCfgData (Some s) w =
      Ret (0, Some (ExecData (t mod 2^16) (v mod 2^32) 1 #"remotedebugger" doc)) w' /\ w_trace w' = w_trace w /\
    (forall w2, exists append m,
       delivered (DataBuf EVENT_MSG (Some m) None false append RRD_DEEPSLEEP_INVALID_DEFAULT None)
         (Some BLOB_EXEC_SUCCESS) w2 (Process_RemoteDebugger_WebConfigRequest (Some doc) w2) /\
       join #"," texts = m ++ (if append then APPEND_SUFFIX else []) /\
       (append = false -> forall w3, exists w4, issueTypeSplitter (Some m) "," w3 = Ret texts w4)).
Proof.
  intros Hm Hd Hw Hu Hoff Hp Hf Hk Ht Hne Hts Hl Hs Hn.
  destruct (decode_unpacked s written off _ w Hm Hd Hw Hu) as (len & w1 & Hpos & Hu' & T1 & _ & Hc).
  destruct (convert_document _ len _ _ _ _ _ _ _ _ _ _ _ w1 Hm Hpos Hoff Hu' Hp Hf Hk Ht Hne Hl Hs Hn) as (l & w2 & E & T & Hle).
  destruct (Hc _ _ E) as (w3' & T3 & E3). eexists _, w3'. split; [exact E3|]. split; [by rewrite T3, T|].
  intros w3. exists (fst (checkAppendRequest (join #"," texts))), (snd (checkAppendRequest (join #"," texts))). split_and!.
  - eapply blob_delivered; [done|done|done|]. by intros cmds [= <-].
  - destruct (checkAppendRequest_decides (join #"," texts)) as [(b & E1 & ->)|[_ ->]]; [done|by rewrite app_nil_r].
  - destruct (checkAppendRequest_decides (join #"," texts)) as [(b & E1 & ->)|[_ ->]]; [done|]. intros _ w4. cbn [snd].
    pose proof (join_tokens _ Hts) as Hj.
    destruct (issueTypeSplitter_returns (join #"," texts) "," Hm ltac:(by rewrite Hj) w4) as (toks & w5 & evs & E5 & _ & -> & _).
    exists w5. by rewrite E5, Hj.
Qed.

Lemma sample_is_text buf p t rest : drop p buf = t ++ rest -> is_text t (sample_string buf p (length t)).
Proof. intros E. by exists (MsgpackStr (drop p buf) (length t)), rest. Qed.

Lemma webcfg_roundtrip_witness :
  exists doc w', @decodeWebCfgData (demo_os empty_demo) sample_msgpack (Some sample_text) (World [] 0) =
      Ret (0, Some (ExecData 1 3 1 #"remotedebugger" doc)) w' /\
    exists w2, @Process_RemoteDebugger_WebConfigRequest (demo_os empty_demo) (Some doc) (World [] 0) =
        Ret (Some BLOB_EXEC_SUCCESS) w2 /\
      w_trace w2 = [EvMsgsnd (DataBuf EVENT_MSG (Some #"Device.Info,System") None false false
                      RRD_DEEPSLEEP_INVALID_DEFAULT None) true].
Proof.
  set (buf := sample_text ++ [NUL]).
  destruct (@webcfg_roundtrip (demo_os empty_demo) sample_msgpack sample_msgpack_laws sample_text sample_text 94 (sample_map buf)
      (sample_string buf 16 9) [sample_string buf 26 11; sample_string buf 38 6] [] [#"Device.Info"; #"System"]
      (sample_string buf 57 14) #"remotedebugger" 3 65537
      [(#"version", MpPositiveInteger 3); (#"remotedebugger", sample_inner buf);
       (#"subdoc_name", sample_string buf 57 14); (#"transaction_id", MpPositiveInteger 65537)] (World [] 0))
    as (doc & w' & E & _ & Hd); try done.
  - unfold document_fields. etrans; [apply Permutation_swap|]. apply perm_skip. apply Permutation_swap.
  - constructor; [|constructor; [|constructor; [|constructor; [|constructor]]]]; (split; [|done]); cbn [fst].
    + by apply (sample_is_text buf 72 #"version" (drop 79 buf)).
    + by apply (sample_is_text buf 1 #"remotedebugger" (drop 15 buf)).
    + by apply (sample_is_text buf 45 #"subdoc_name" (drop 56 buf)).
    + by apply (sample_is_text buf 80 #"transaction_id" (drop 94 buf)).
  - by apply (sample_is_text buf 16 #"IssueType" (drop 25 buf)).
  - constructor; [|constructor; [|constructor]]; (split; [|by apply (bool_decide_unpack _)]).
    + by apply (sample_is_text buf 26 #"Device.Info" (drop 37 buf)).
    + by apply (sample_is_text buf 38 #"System" (drop 44 buf)).
  - constructor; [|constructor; [|constructor]]; (split; [done|by apply (bool_decide_unpack _)]).
  - by apply (sample_is_text buf 57 #"remotedebugger" (drop 71 buf)).
  - by apply (bool_decide_unpack _).
  - exists doc, w'. split; [exact E|]. destruct (Hd (World [] 0)) as (append & m & (w2 & E2 & T2) & Hm & _).
    exists w2. assert (append = false /\ m = #"Device.Info,System") as [-> ->].
    { destruct append; [|by rewrite app_nil_r in Hm]. exfalso.
      assert (checkAppendRequest (join #"," [#"Device.Info"; #"System"]) = (true, m)) as Hc by (by rewrite Hm, checkAppendRequest_suffix).
      done. }
    split; [exact E2|]. rewrite T2. done.
Defined.

(** C40: documents without the keys the decoder reads.  When no allocation fails, a
    document whose only key is the name of the subdocument makes the decoder use
    the missing name through a null pointer.  A key matches every name it is a
    prefix of, and the type of what is found is not checked: a document whose
    only key is empty is found under all four names; its map is taken for the
    subdocument, for its name (the bytes of its entries), for the version and
    for the transaction, and its list of issues is pushed to the framework. *)
Theorem incomplete_document `{OS} `{MsgPackLaws} s written off key inner w :
  (forall k, os_malloc k = true) -> b64_decode s = (Z.of_nat (length written), written) -> written <> [] ->
  msgpack_unpack_next (decoded_buffer (b64_get_decoded_buffer_size (length s)) written) (length written)
    = (MSGPACK_UNPACK_SUCCESS, off, MpMap [(key, MpMap inner)]) -> off <> 0%nat ->
  (is_text #"remotedebugger" key -> decodeWebCfgData (Some s) w = Fault NullDeref) /\
  (is_text [] key -> forall inner_key arr inner_rest texts, inner = (inner_key, MpArray arr) :: inner_rest ->
     is_text #"IssueType" inner_key -> texts_of texts arr -> texts <> [] ->
     Z.of_nat (length (join #"," texts)) + 3 < 2^31 ->
     exists name len w', let bits := via_bits (MpMap inner) in
       (forall w, read_strn (element_bytes (MpMap inner)) (length inner) w = Ret name w) /\
       decodeWebCfgData (Some s) w =
         Ret (0, Some (ExecData (bits mod 2^16) (bits mod 2^32) 1 #"remotedebugger"
           (RemotedebuggerDoc (Some (RemotedebuggerParam (Some (join #"," texts)) len)) 1 (Some name)
              (bits mod 2^32) (bits mod 2^16)))) w' /\
       w_trace w' = w_trace w).
Proof.
  intros Hm Hd Hw Hu Hoff. destruct (decode_unpacked s written off _ w Hm Hd Hw Hu) as (len & w1 & Hpos & Hu' & T1 & Hfault & Hret).
  split.
  - intros (k & rest & -> & Hmem & Hsz). apply Hfault. unfold remotedebuggerdoc_convert, helper_convert.
    rewrite bind_malloc_ok by done. cbn [negb]. replace (0 <? len)%nat with true by lia. cbn [negb].
    rewrite Hu', (proj2 (Nat.eqb_neq _ _)) by done. change (starts_with #"parameters" #"remotedebugger") with false.
    change (negb (streq #"remotedebugger" #"parameters")) with true. cbn iota. cbn [__finder msgpack_type].
    rewrite decide_True by done. unfold match_key. rewrite Hmem, Hsz. set (w2 := World _ _).
    rewrite bind_assoc, (bind_run _ _ _ _ _ (strncmp_same #"remotedebugger" rest w2)). done.
  - intros (k & rest & -> & Hmem & Hsz) inner_key arr inner_rest texts Hin Hk Ht Hne Hl.
    assert (exists name, forall w, read_strn (element_bytes (MpMap inner)) (length inner) w = Ret name w) as [name Hname]
      by apply read_total, entry_sizes.
    assert (forall name w, __finder name MSGPACK_OBJECT_MAP [(MpStr k, MpMap inner)] w = Ret (Some (MpMap inner)) w) as Hf.
    { intros n w'. cbn [__finder msgpack_type]. rewrite decide_True by done. unfold match_key. by rewrite Hsz. }
    subst inner. destruct (convert_found _ len off _ inner_key arr inner_rest texts (MpMap ((inner_key, MpArray arr) :: inner_rest))
      (MsgpackStr (element_bytes (MpMap ((inner_key, MpArray arr) :: inner_rest))) (length ((inner_key, MpArray arr) :: inner_rest)))
      name _ _ w1 Hm Hpos Hoff Hu' (Hf _) (Hf _) (Hf _) (Hf _) Hk Ht Hne Hl eq_refl Hname) as (l & w2 & E & T & _).
    destruct (Hret _ _ E) as (w3 & T3 & E3). exists name, l, w3. split; [done|]. split; [exact E3|]. by rewrite T3, T.
Qed.

(** A document with one entry, whose key is a prefix of the text. *)
Definition small_msgpack (n : nat) : MsgPack := {|
  msgpack_unpack_next := fun buf len =>
    if (14 <=? len)%nat then (MSGPACK_UNPACK_SUCCESS, 14%nat, MpMap [(sample_string buf 0 n, MpMap [])])
    else (MSGPACK_UNPACK_CONTINUE, 0%nat, MpNil);
  via_bits := fun _ => 0; b64_get_decoded_buffer_size := fun n => n;
  b64_decode := fun s => (Z.of_nat (length s), s);
  element_bytes := blank_elements; heap_byte := fun _ => NUL |}.

Lemma small_msgpack_laws n : (n <= 14)%nat -> MsgPackLaws (small_msgpack n).
Proof.
  intros Hn14. split.
  - intros buf len off o. cbn [msgpack_unpack_next small_msgpack]. destruct (Nat.leb_spec 14 len); [|done]. intros [= <- <-].
    assert (forall y, contains (MpMap [(sample_string buf 0 n, MpMap [])]) y ->
      y = MpMap [(sample_string buf 0 n, MpMap [])] \/ y = MpMap [] \/ y = sample_string buf 0 n) as Hall.
    { intros y Hy. inversion Hy as [|? ? ? ? Hc|? ? ? ? Hin Hc|? ? ? ? Hin Hc]; subst; [by left|..];
        apply list_elem_of_singleton in Hin; injection Hin as -> ->; inversion Hc as [|? ? ? Hi|? ? ? ? Hi|? ? ? ? Hi]; subst;
        try (by apply elem_of_nil in Hi); auto. }
    split; [done|]. split.
    + intros x s Hx%Hall Hc. repeat destruct Hx as [Hx|Hx]; subst x; destruct Hc as [Hs|Hs]; try done; injection Hs as <-.
      exists 0%nat. split; [done|]. cbn [str_size]. lia.
    + intros l Hl%Hall. by repeat destruct Hl as [Hl|Hl].
  - intros buf len off o len'. cbn [msgpack_unpack_next small_msgpack]. destruct (Nat.leb_spec 14 len); [|done].
    intros [= <- <-] Hl. by replace (14 <=? len')%nat with true by lia.
  - apply blank_array.
  - apply blank_map.
  - intros s k written. cbn. intros [= <- <-]. done.
Qed.

(** A document with the empty key and a list of issues: its text is one byte,
    the name of the list, one byte and the issue. *)
Definition unnamed_inner (buf : list ascii) : list (msgpack_object * msgpack_object) :=
  [(sample_string buf 1 9, MpArray [sample_string buf 11 10])].

Definition unnamed_msgpack : MsgPack := {|
  msgpack_unpack_next := fun buf len =>
    if (21 <=? len)%nat then (MSGPACK_UNPACK_SUCCESS, 21%nat, MpMap [(sample_string buf 0 0, MpMap (unnamed_inner buf))])
    else (MSGPACK_UNPACK_CONTINUE, 0%nat, MpNil);
  via_bits := fun _ => 7; b64_get_decoded_buffer_size := fun n => n;
  b64_decode := fun s => (Z.of_nat (length s), s);
  element_bytes := blank_elements; heap_byte := fun _ => NUL |}.

Lemma contains_unnamed buf o : contains (MpMap [(sample_string buf 0 0, MpMap (unnamed_inner buf))]) o ->
  o = MpMap [(sample_string buf 0 0, MpMap (unnamed_inner buf))] \/ o = MpMap (unnamed_inner buf) \/
  o = MpArray [sample_string buf 11 10] \/ o = sample_string buf 0 0 \/ o = sample_string buf 1 9 \/ o = sample_string buf 11 10.
Proof.
  assert (forall p n y, contains (sample_string buf p n) y -> y = sample_string buf p n) as Hstr by (by inversion 1).
  inversion 1 as [| |? ? ? ? Hin Hx|? ? ? ? Hin Hx]; subst; [by left|..]; apply list_elem_of_singleton in Hin;
    injection Hin as -> ->; [apply Hstr in Hx; tauto|].
  inversion Hx as [| |? ? ? ? Hin Hy|? ? ? ? Hin Hy]; subst; [tauto|..]; apply list_elem_of_singleton in Hin;
    injection Hin as -> ->; [apply Hstr in Hy; tauto|].
  inversion Hy as [|? ? ? Hin Hz| |]; subst; [tauto|]. apply list_elem_of_singleton in Hin as ->. apply Hstr in Hz. tauto.
Qed.

Lemma unnamed_msgpack_laws : MsgPackLaws unnamed_msgpack.
Proof.
  split.
  - intros buf len off o. cbn [msgpack_unpack_next unnamed_msgpack]. destruct (Nat.leb_spec 21 len); [|done]. intros [= <- <-].
    split; [done|]. split.
    + intros x s Hx%contains_unnamed Hc. repeat destruct Hx as [Hx|Hx]; subst x; destruct Hc as [Hs|Hs]; try done; injection Hs as <-;
        (eexists; split; [reflexivity|]); cbn [str_size]; lia.
    + intros l Hs%contains_unnamed. repeat destruct Hs as [Hs|Hs]; try done. injection Hs as ->. vm_compute. lia.
  - intros buf len off o len'. cbn [msgpack_unpack_next unnamed_msgpack]. destruct (Nat.leb_spec 21 len); [|done].
    intros [= <- <-] Hl. by replace (21 <=? len')%nat with true by lia.
  - apply blank_array.
  - apply blank_map.
  - intros s n written. cbn. intros [= <- <-]. done.
Qed.

Lemma incomplete_document_witness :
  @decodeWebCfgData (demo_os empty_demo) (small_msgpack 14) (Some #"remotedebugger") (World [] 0) = Fault NullDeref /\
  exists name len w', @decodeWebCfgData (demo_os empty_demo) unnamed_msgpack (Some #"_IssueType_Wifi.Stats") (World [] 0) =
    Ret (0, Some (ExecData 7 7 1 #"remotedebugger"
      (RemotedebuggerDoc (Some (RemotedebuggerParam (Some #"Wifi.Stats") len)) 1 (Some name) 7 7))) w'.
Proof.
  split.
  - apply (@incomplete_document (demo_os empty_demo) (small_msgpack 14) (small_msgpack_laws 14 ltac:(lia))
      #"remotedebugger" #"remotedebugger" 14 (sample_string (#"remotedebugger" ++ [NUL]) 0 14) [] (World [] 0)); try done.
    by apply (sample_is_text _ 0 #"remotedebugger" [NUL]).
  - set (text := #"_IssueType_Wifi.Stats"). set (buf := text ++ [NUL]).
    destruct (proj2 (@incomplete_document (demo_os empty_demo) unnamed_msgpack unnamed_msgpack_laws text text 21
      (sample_string buf 0 0) (unnamed_inner buf) (World [] 0) (fun _ => eq_refl) eq_refl ltac:(done) eq_refl ltac:(done))
      (sample_is_text buf 0 [] buf eq_refl) (sample_string buf 1 9) [sample_string buf 11 10] [] [#"Wifi.Stats"] eq_refl)
      as (name & len & w' & _ & E & _).
    + by apply (sample_is_text buf 1 #"IssueType" (drop 10 buf)).
    + constructor; [|constructor]. split; [|by apply (bool_decide_unpack _)]. by apply (sample_is_text buf 11 #"Wifi.Stats" (drop 21 buf)).
    + done.
    + done.
    + exists name, len, w'. exact E.
Defined.
