(* ===== verification/EventProcess.v ===== *)
(** * EventProcess: the issue events (src/rrdEventProcess.c)

    A message holds a list of issue types.  Each is looked up in the profile it
    calls for: the profile of a package that was just installed, the static
    profile of the device, or the profile of a package that is already there;
    and when it is in none, the package is requested.  An append request joins
    the commands of the dynamic and of the static profile.

    The functions return the buffer and the node as the code leaves them: a
    field the code frees is set to [NULL], here [None].  The arguments of a log
    call are evaluated, so a [NULL] structure is a fault there. *)

From S2P Require Import Prelude Types OS CJson CommandSanity IssueType Cache RunCmd Profile Dynamic MsgPack.

Local Open Scope Z_scope.

Definition COMMAND_DELIM : ascii := ";".

Section EventProcess.
Context `{OS} `{CJSON} `{Device}.

Definition dynJSONPath (n : cstr) : cstr :=
  (if IARMBUS_SUPPORT then RRD_MEDIA_APPS else RRD_TMP_DIR) ++ RDM_PKG_PREFIX ++ n ++ RRD_JSON_FILE.

Definition processIssueTypeInInstalledPackage (rbuf : data_buf) (node : issueNodeData) (c : cache)
    : M (data_buf * issueNodeData * cache) :=
  n ← deref (Node node);
  ok ← malloc;
  if negb ok then mret (rbuf, node, c) else
  jsonParsed ← readAndParseJSON (dynJSONPath n);
  match jsonParsed with
  | None => '(node, c) ← RRDRdmManagerDownloadRequest node rbuf false c; mret (rbuf, node, c)
  | Some _ =>
      if findIssueInParsedJSON node jsonParsed then
        '(rbuf, node) ← checkIssueNodeInfo node jsonParsed rbuf false None; mret (rbuf, node, c)
      else '(node, c) ← RRDRdmManagerDownloadRequest node rbuf false c; mret (rbuf, node, c)
  end.

Definition processIssueTypeInStaticProfile (rbuf : data_buf) (node : issueNodeData) (c : cache)
    : M (data_buf * issueNodeData * cache) :=
  jsonParsed ← readAndParseJSON RRD_JSON_FILE;
  match jsonParsed with
  | None => processIssueTypeInInstalledPackage rbuf node c
  | Some _ =>
      if findIssueInParsedJSON node jsonParsed then
        '(rbuf, node) ← checkIssueNodeInfo node jsonParsed rbuf false None; mret (rbuf, node, c)
      else processIssueTypeInInstalledPackage rbuf node c
  end.

Definition processIssueTypeInDynamicProfile (rbuf : data_buf) (node : issueNodeData)
    : M (data_buf * issueNodeData) :=
  match jsonPath rbuf with
  | None => mret (set_mdata None rbuf, node)
  | Some path =>
      jsonParsed ← readAndParseJSON path;
      match jsonParsed with
      | None => mret (set_jsonPath None (set_mdata None rbuf), node)
      | Some _ =>
          if negb (findIssueInParsedJSON node jsonParsed) then mret (set_jsonPath None (set_mdata None rbuf), node)
          else checkIssueNodeInfo node jsonParsed rbuf false None
      end
  end.

Definition processIssueTypeInDynamicProfileappend (rbuf : data_buf) (node : issueNodeData) (c : cache)
    : M (option issueData * issueNodeData * cache) :=
  n ← deref (Node node);
  ok ← malloc;
  if negb ok then mret (None, node, c) else
  jsonParsed ← readAndParseJSON (dynJSONPath n);
  match jsonParsed with
  | None => '(node, c) ← RRDRdmManagerDownloadRequest node rbuf false c; mret (None, node, c)
  | Some _ =>
      if findIssueInParsedJSON node jsonParsed then
        mdata ← deref (buf_mdata rbuf);
        dynamicdata ← getIssueCommandInfo node jsonParsed mdata;
        d ← deref dynamicdata;
        mret (Some d, node, c)
      else mret (None, node, c)
  end.

Definition processIssueTypeInStaticProfileappend (rbuf : data_buf) (node : issueNodeData) : M (option issueData) :=
  jsonParsed ← readAndParseJSON RRD_JSON_FILE;
  match jsonParsed with
  | None => mret None
  | Some _ =>
      if findIssueInParsedJSON node jsonParsed then
        mdata ← deref (buf_mdata rbuf);
        staticdata ← getIssueCommandInfo node jsonParsed mdata;
        d ← deref staticdata;
        mret (Some d)
      else mret None
  end.

(** ** Joining the commands of an append request *)

Definition drop_last_quote (s : cstr) : cstr :=
  if (0 <? length s)%nat && bool_decide (s !! (length s - 1)%nat = Some DQUOTE) then take (length s - 1) s else s.

Definition delimit_first_quote (s : cstr) : cstr :=
  match s with
  | a :: s' => if chareq a DQUOTE then COMMAND_DELIM :: s' else s
  | [] => []
  end.

(** [realloc] makes room for both texts, then [strcat]. *)
Definition append_commands (static dynamic : cstr) : cstr := drop_last_quote static ++ delimit_first_quote dynamic.

Definition run_appended (dynamicdata staticdata : issueData) (rbuf : data_buf) (node : issueNodeData)
    : M (data_buf * issueNodeData) :=
  match command dynamicdata, command staticdata with
  | Some dcmd, Some scmd =>
      ok ← malloc;
      if negb ok then mret (rbuf, node)
      else checkIssueNodeInfo node None rbuf false
             (Some (IssueData (rfcvalue staticdata) (Some (append_commands scmd dcmd)) (timeout staticdata)))
  | _, _ => mret (rbuf, node)
  end.

(** ** One issue *)

Definition processIssueType (rbuf : data_buf) (c : cache) : M (data_buf * cache) :=
  match buf_mdata rbuf with
  | None => mret (rbuf, c)
  | Some mdata =>
      ok ← malloc;
      if negb ok then mret (rbuf, c) else
      node ← getIssueInfo mdata;
      if appendMode rbuf then
        '(dynamicprofiledata, node, c) ← processIssueTypeInDynamicProfileappend rbuf node c;
        match dynamicprofiledata with
        | None => mret (rbuf, c)
        | Some dynamicdata =>
            staticprofiledata ← processIssueTypeInStaticProfileappend rbuf node;
            match staticprofiledata with
            | None => mret (rbuf, c)
            | Some staticdata => '(rbuf, _) ← run_appended dynamicdata staticdata rbuf node; mret (rbuf, c)
            end
        end
      else if inDynamic rbuf then
        '(rbuf, _) ← processIssueTypeInDynamicProfile rbuf node; mret (rbuf, c)
      else
        '(rbuf, _, c) ← processIssueTypeInStaticProfile rbuf node c; mret (rbuf, c)
  end.

(** ** A list of issues *)

(** The buffer of one issue; [None] when the copy of the path fails. *)
Definition issue_buffer (rbuf : data_buf) : M (option data_buf) :=
  match inDynamic rbuf, jsonPath rbuf with
  | true, Some path =>
      p ← strdup path;
      mret (match p with
            | None => None
            | Some p => Some (DataBuf EVENT_MSG None (Some p) true (appendMode rbuf) RRD_DEEPSLEEP_INVALID_DEFAULT None)
            end)
  | d, _ => mret (Some (DataBuf EVENT_MSG None None d (appendMode rbuf) RRD_DEEPSLEEP_INVALID_DEFAULT None))
  end.

(** One round of the loop of [processIssueTypeEvent], on the token [cmd]. *)
Definition process_token (rbuf : data_buf) (cmd : cstr) (c : cache) : M cache :=
  ok ← malloc;
  if negb ok then mret c else
  let '(base, local_suffix) := split_issue_type (Some cmd) (Some []) 128 (Some []) 128 in
  match base with
  | None | Some [] => mret c
  | Some base =>
      match removeSpecialCharacterfromIssueTypeList base with
      | [] => mret c
      | base =>
          cmdBuff ← issue_buffer rbuf;
          match cmdBuff with
          | None => mret c
          | Some cmdBuff =>
              mdata_ok ← malloc;
              suffix ← match local_suffix with
                       | None | Some [] => mret None
                       | Some s => strdup s
                       end;
              if (mdata_ok : bool) then
                '(_, c) ← processIssueType (set_suffix suffix (set_mdata (Some base) cmdBuff)) c;
                mret c
              else mret c
          end
      end
  end.

Fixpoint process_tokens (rbuf : data_buf) (cmdMap : list cstr) (c : cache) : M cache :=
  match cmdMap with
  | [] => mret c
  | cmd :: cmdMap' => c ← process_token rbuf cmd c; process_tokens rbuf cmdMap' c
  end.

Definition processIssueTypeEvent (rbuf : data_buf) (c : cache) : M cache :=
  cmdMap ← issueTypeSplitter (buf_mdata rbuf) ",";
  process_tokens rbuf cmdMap c.

(** The request that is pushed to the web configuration framework, if any. *)
Definition processWebCfgTypeEvent `{MsgPack} (rbuf : data_buf) : M (option execData) :=
  match buf_mdata rbuf with
  | None => mret None
  | Some mdata => '(_, pushed) ← decodeWebCfgData (Some mdata); mret pushed
  end.
End EventProcess.

(** ** What an event may do *)

Section Safety.
Context `{OS} `{CJSONLaws} `{Device}.

(** The profile files an issue is looked up in. *)
Definition profile_path (rbuf : data_buf) (path : cstr) : Prop :=
  if inDynamic rbuf then jsonPath rbuf = Some path else path = RRD_JSON_FILE \/ exists n, path = dynJSONPath n.

Definition profile_command (rbuf : data_buf) (exec : cstr) : Prop :=
  exists path cfg, profile_path rbuf path /\ loaded path cfg /\ checked_command (Some cfg) exec /\ screened (Some cfg) exec.

(** A joined command: each part was accepted by the list of its profile. *)
Definition appended_command (exec : cstr) : Prop :=
  exists n scfg dcfg scmd dcmd rfc tmo,
    loaded RRD_JSON_FILE scfg /\ loaded (dynJSONPath n) dcfg /\ accepted_in scfg scmd /\ accepted_in dcfg dcmd /\
    executes (IssueData rfc (Some (append_commands scmd dcmd)) tmo) exec.

Definition event_command (rbuf : data_buf) (exec : cstr) : Prop :=
  if appendMode rbuf then appended_command exec else profile_command rbuf exec.

Definition handled (rbuf : data_buf) (c c' : cache) (evs : trace) : Prop :=
  cache_grows (appendMode rbuf) false c c' evs /\ Forall (event_command rbuf) (services evs) /\ sent evs = [].

Lemma handled_nothing rbuf c : handled rbuf c c [].
Proof. split_and!; [apply cache_grows_refl|constructor|done]. Qed.

Lemma handled_trans rbuf c1 c2 c3 e1 e2 :
  handled rbuf c1 c2 e1 -> handled rbuf c2 c3 e2 -> handled rbuf c1 c3 (e1 ++ e2).
Proof.
  intros (C1 & S1 & M1) (C2 & S2 & M2). split_and!; [by eapply cache_grows_trans| |by rewrite sent_app, M1, M2].
  rewrite services_app. by apply Forall_app.
Qed.

(** Directory entries have names. *)
Hypothesis names : forall t p, Forall (fun n => n <> []) (default [] (os_readdir t p)).

Lemma request_handled node rbuf c :
  yields (RRDRdmManagerDownloadRequest node rbuf false c) (fun r evs => handled rbuf c (snd r) evs).
Proof.
  eapply yields_mono; [apply request_yields|]. intros r evs (_ & Hs & Hm & Hc). rewrite andb_false_r in Hc.
  split_and!; [done| |done]. rewrite Hs. constructor.
Qed.

Lemma check_handled node path cfg rbuf m c :
  appendMode rbuf = false -> buf_mdata rbuf = Some m -> profile_path rbuf path -> loaded path cfg ->
  yields (checkIssueNodeInfo node (Some cfg) rbuf false None) (fun _ evs => handled rbuf c c evs).
Proof.
  intros Ha Hm Hp Hl. eapply yields_mono; [by apply checkIssueNodeInfo_yields|]. intros r evs [_ Hr].
  pose proof (reported_sends_nothing _ _ _ _ _ _ Hr) as Hsent. apply reported_commands in Hr.
  split_and!; [apply cache_grows_refl| |done]. eapply Forall_impl; [|exact Hr]. intros exec Hexec.
  unfold issue_command in Hexec. unfold event_command. rewrite Ha in *. cbn in Hexec. exists path, cfg.
  split_and!; [done|done|exact Hexec|by apply checked_command_safe].
Qed.

Lemma read_profile {B} f (k : option json -> M B) R :
  (forall r, (forall cfg, r = Some cfg -> loaded f cfg) -> yields (k r) R) -> yields (readAndParseJSON f ≫= k) R.
Proof. intros Hk. eapply yields_bind; [apply readAndParseJSON_loads|]. intros r evs [-> Hr]. by apply Hk. Qed.

Lemma installed_handled rbuf node c m :
  appendMode rbuf = false -> inDynamic rbuf = false -> buf_mdata rbuf = Some m ->
  yields (processIssueTypeInInstalledPackage rbuf node c) (fun r evs => handled rbuf c (snd r) evs).
Proof.
  intros Ha Hd Hm. unfold processIssueTypeInInstalledPackage. apply yields_deref. intros n _.
  apply yields_malloc. intros ok. destruct (negb ok); [apply yields_ret, handled_nothing|].
  assert (yields ('(node0, c0) ← RRDRdmManagerDownloadRequest node rbuf false c; mret (rbuf, node0, c0))
    (fun r evs => handled rbuf c (snd r) evs)) as Hreq.
  { eapply yields_bind; [apply request_handled|]. intros [node' c'] evs Hh. apply yields_ret. by rewrite app_nil_r. }
  apply read_profile. intros [cfg|] Hl; [|done]. destruct (findIssueInParsedJSON _ _); [|done].
  eapply yields_bind; [apply (check_handled _ (dynJSONPath n) cfg rbuf m c); try done|].
  - unfold profile_path. rewrite Hd. eauto.
  - by apply Hl.
  - intros [b' node'] evs Hh. apply yields_ret. by rewrite app_nil_r.
Qed.

Lemma static_handled rbuf node c m :
  appendMode rbuf = false -> inDynamic rbuf = false -> buf_mdata rbuf = Some m ->
  yields (processIssueTypeInStaticProfile rbuf node c) (fun r evs => handled rbuf c (snd r) evs).
Proof.
  intros Ha Hd Hm. unfold processIssueTypeInStaticProfile.
  apply read_profile. intros [cfg|] Hl; [|by eapply installed_handled].
  destruct (findIssueInParsedJSON _ _); [|by eapply installed_handled].
  eapply yields_bind; [apply (check_handled _ RRD_JSON_FILE cfg rbuf m c); try done|].
  - unfold profile_path. rewrite Hd. auto.
  - by apply Hl.
  - intros [b' node'] evs Hh. apply yields_ret. by rewrite app_nil_r.
Qed.

Lemma dynamic_handled rbuf node c m :
  appendMode rbuf = false -> inDynamic rbuf = true -> buf_mdata rbuf = Some m ->
  yields (processIssueTypeInDynamicProfile rbuf node) (fun _ evs => handled rbuf c c evs).
Proof.
  intros Ha Hd Hm. unfold processIssueTypeInDynamicProfile.
  destruct (jsonPath rbuf) as [path|] eqn:Hp; [|apply yields_ret, handled_nothing].
  apply read_profile. intros [cfg|] Hl; [|apply yields_ret, handled_nothing].
  destruct (negb _); [apply yields_ret, handled_nothing|].
  apply (check_handled _ path cfg rbuf m c); try done; [|by apply Hl]. unfold profile_path. by rewrite Hd.
Qed.

(** The data of an append request, from one profile. *)
Definition append_data (path : cstr) (r : option issueData) : Prop :=
  forall d, r = Some d -> exists cfg cmd, loaded path cfg /\ command d = Some cmd /\ accepted_in cfg cmd.

Lemma dynamic_append_handled rbuf node c :
  yields (processIssueTypeInDynamicProfileappend rbuf node c) (fun r evs =>
    handled rbuf c (snd r) evs /\ exists n, append_data (dynJSONPath n) (fst (fst r))).
Proof.
  unfold processIssueTypeInDynamicProfileappend. apply yields_deref. intros n _.
  assert (handled rbuf c c [] /\ exists n, append_data (dynJSONPath n) None) as Hnone.
  { split; [apply handled_nothing|]. by exists n. }
  apply yields_malloc. intros ok. destruct (negb ok); [apply yields_ret, Hnone|].
  apply read_profile. intros [cfg|] Hl.
  - destruct (findIssueInParsedJSON _ _); [|apply yields_ret, Hnone]. apply yields_deref. intros mdata _.
    eapply yields_bind; [apply getIssueCommandInfo_yields|]. intros r evs [-> Hr].
    apply yields_deref. intros d ->. apply yields_ret. split; [apply handled_nothing|]. exists n. intros d' [= <-].
    destruct (Hr d eq_refl) as (cmd & Hc & Hacc). exists cfg, cmd. split; [by apply Hl|done].
  - eapply yields_bind; [apply request_handled|]. intros [node' c'] evs Hh. apply yields_ret. rewrite app_nil_r.
    split; [done|]. by exists n.
Qed.

Lemma static_append_handled rbuf node :
  yields (processIssueTypeInStaticProfileappend rbuf node) (fun r evs => evs = [] /\ append_data RRD_JSON_FILE r).
Proof.
  unfold processIssueTypeInStaticProfileappend. apply read_profile. intros [cfg|] Hl; [|by apply yields_ret].
  destruct (findIssueInParsedJSON _ _); [|by apply yields_ret]. apply yields_deref. intros mdata _.
  eapply yields_bind; [apply getIssueCommandInfo_yields|]. intros r evs [-> Hr].
  apply yields_deref. intros d ->. apply yields_ret. split; [done|]. intros d' [= <-].
  destruct (Hr d eq_refl) as (cmd & Hc & Hacc). exists cfg, cmd. split; [by apply Hl|done].
Qed.

(** An absent profile has no commands. *)
Lemma no_commands exec : ~ checked_command None exec.
Proof.
  intros (root & category & type & cmd & l & w & cmd' & rfc & tmo & Hroot & Hin & _).
  assert (root = None) as -> by (destruct Hroot as [->| ->]; [done|apply get_object_null]).
  rewrite !get_object_null in Hin. unfold type_commands, json_items in Hin. rewrite array_size_null in Hin.
  by apply elem_of_nil in Hin.
Qed.

Lemma run_appended_handled dyn st n rbuf node m c :
  appendMode rbuf = true -> buf_mdata rbuf = Some m ->
  append_data (dynJSONPath n) (Some dyn) -> append_data RRD_JSON_FILE (Some st) ->
  yields (run_appended dyn st rbuf node) (fun _ evs => handled rbuf c c evs).
Proof.
  intros Ha Hm Hd Hs. unfold run_appended.
  destruct (Hd dyn eq_refl) as (dcfg & dcmd & Hdl & -> & Hdacc).
  destruct (Hs st eq_refl) as (scfg & scmd & Hsl & -> & Hsacc).
  apply yields_malloc. intros ok. destruct (negb ok); [apply yields_ret, handled_nothing|].
  eapply yields_mono; [by apply checkIssueNodeInfo_yields|]. intros r evs [_ Hr].
  pose proof (reported_sends_nothing _ _ _ _ _ _ Hr) as Hsent. apply reported_commands in Hr.
  split_and!; [apply cache_grows_refl| |done]. eapply Forall_impl; [|exact Hr]. intros exec Hexec.
  unfold issue_command in Hexec. unfold event_command. rewrite Ha in *.
  destruct (subNode node); [destruct Hexec as (d & [= <-] & Hexec)|by apply no_commands in Hexec].
  by exists n, scfg, dcfg, scmd, dcmd, (rfcvalue st), (timeout st).
Qed.

Lemma issue_handled rbuf c :
  yields (processIssueType rbuf c) (fun r evs => handled rbuf c (snd r) evs).
Proof.
  unfold processIssueType. destruct (buf_mdata rbuf) as [m|] eqn:Hm; [|apply yields_ret, handled_nothing].
  apply yields_malloc. intros ok. destruct (negb ok); [apply yields_ret, handled_nothing|].
  eapply yields_bind; [apply getIssueInfo_quiet|]. intros node evs ->. destruct (appendMode rbuf) eqn:Ha.
  - eapply yields_bind; [apply dynamic_append_handled|]. intros [[dyn node'] c'] e1 [Hd1 [n Hdyn]]. cbn [fst snd] in *.
    destruct dyn as [dyn|]; [|apply yields_ret; by rewrite app_nil_l, app_nil_r].
    eapply yields_bind; [apply static_append_handled|]. intros [st|] evs [-> Hst];
      [|apply yields_ret; by rewrite app_nil_l, app_nil_r].
    eapply yields_bind; [by apply (run_appended_handled dyn st n rbuf node' m c')|]. intros [b' node''] e2 Hd2.
    apply yields_ret. rewrite !app_nil_l, app_nil_r. by eapply handled_trans.
  - destruct (inDynamic rbuf) eqn:Hd.
    + eapply yields_bind; [by apply (dynamic_handled rbuf node c m)|]. intros [b' node'] evs Hh. apply yields_ret.
      by rewrite app_nil_l, app_nil_r.
    + eapply yields_bind; [by apply (static_handled rbuf node c m)|]. intros [[b' node'] c'] evs Hh. apply yields_ret.
      by rewrite app_nil_l, app_nil_r.
Qed.
(** The buffer of one issue of a list keeps the mode and the profile. *)
Definition part_of (rbuf b : data_buf) : Prop :=
  appendMode b = appendMode rbuf /\ inDynamic b = inDynamic rbuf /\ (jsonPath b = None \/ jsonPath b = jsonPath rbuf).

Lemma handled_part rbuf b c c' evs : part_of rbuf b -> handled b c c' evs -> handled rbuf c c' evs.
Proof.
  intros (Ha & Hd & Hp) (Hc & Hs & Hm). unfold handled. rewrite <- Ha. split_and!; [done| |done]. eapply Forall_impl; [|exact Hs].
  intros exec. unfold event_command. rewrite Ha. destruct (appendMode rbuf); [done|].
  intros (path & cfg & Hpath & Hl). exists path, cfg. split; [|done]. unfold profile_path in *. rewrite Hd in Hpath.
  destruct (inDynamic rbuf); [|done]. by destruct Hp as [E|E]; rewrite E in Hpath.
Qed.

Lemma issue_buffer_yields rbuf :
  yields (issue_buffer rbuf) (fun r evs => evs = [] /\ forall b, r = Some b -> part_of rbuf b).
Proof.
  unfold issue_buffer, part_of. destruct (inDynamic rbuf) eqn:Hd; [destruct (jsonPath rbuf) as [path|] eqn:Hp|].
  - apply yields_strdup. intros o [-> | ->]; apply yields_ret; (split; [done|]); [|done]. intros b [= <-]. auto.
  - apply yields_ret. split; [done|]. intros b [= <-]. auto.
  - apply yields_ret. split; [done|]. intros b [= <-]. auto.
Qed.

Lemma token_handled rbuf cmd c : yields (process_token rbuf cmd c) (fun c' evs => handled rbuf c c' evs).
Proof.
  unfold process_token. apply yields_malloc. intros ok. destruct (negb ok); [apply yields_ret, handled_nothing|].
  destruct (split_issue_type _ _ _ _ _) as [[[|a base]|] sfx]; [apply yields_ret, handled_nothing| |apply yields_ret, handled_nothing].
  destruct (removeSpecialCharacterfromIssueTypeList _) as [|a' base']; [apply yields_ret, handled_nothing|].
  eapply yields_bind; [apply issue_buffer_yields|]. intros [b|] evs [-> Hb]; [|apply yields_ret, handled_nothing].
  apply yields_malloc. intros mok.
  eapply yields_bind with (Q := fun _ evs => evs = []).
  { destruct sfx as [[|x s]|]; [by apply yields_ret| |by apply yields_ret].
    unfold strdup. apply yields_malloc. intros ok2. by apply yields_ret. }
  intros suffix evs ->. destruct mok; [|apply yields_ret, handled_nothing].
  eapply yields_bind; [apply issue_handled|]. intros [b' c'] evs Hh. apply yields_ret. rewrite !app_nil_l, app_nil_r.
  eapply handled_part; [|exact Hh]. exact (Hb b eq_refl).
Qed.

Lemma tokens_handled rbuf cmdMap : forall c, yields (process_tokens rbuf cmdMap c) (fun c' evs => handled rbuf c c' evs).
Proof.
  induction cmdMap as [|cmd cmdMap IH]; intros c; cbn [process_tokens]; [apply yields_ret, handled_nothing|].
  eapply yields_bind; [apply token_handled|]. intros c1 e1 Hc1. eapply yields_mono; [apply IH|].
  intros c2 e2 Hc2. by eapply handled_trans.
Qed.

Lemma event_handled rbuf c : yields (processIssueTypeEvent rbuf c) (fun c' evs => handled rbuf c c' evs).
Proof.
  unfold processIssueTypeEvent. eapply yields_bind; [apply issueTypeSplitter_quiet|]. intros cmdMap evs ->.
  apply tokens_handled.
Qed.
End Safety.

(** ** The joined command *)

Lemma append_quoted s d : append_commands (quoted s) (quoted d) = quoted (s ++ COMMAND_DELIM :: d).
Proof.
  unfold append_commands, quoted. cbn [delimit_first_quote]. rewrite chareq_refl.
  assert (drop_last_quote (DQUOTE :: s ++ [DQUOTE]) = DQUOTE :: s) as ->.
  { unfold drop_last_quote. cbn [length]. rewrite length_app. cbn [length].
    replace (S (length s + 1) - 1)%nat with (length (DQUOTE :: s)) by (cbn [length]; lia).
    change (DQUOTE :: s ++ [DQUOTE]) with ((DQUOTE :: s) ++ [DQUOTE]).
    rewrite lookup_app_r, Nat.sub_diag, take_app_length by done. by rewrite bool_decide_true. }
  cbn [app]. f_equal. rewrite <- app_assoc. done.
Qed.

Lemma unescape_delim s c d : c <> DQUOTE -> c <> BACKSLASH ->
  unescape (s ++ c :: d) = unescape s ++ c :: unescape d.
Proof.
  intros Hq Hb. induction s as [|a|a b s IH IH'] using cstr_ind2.
  - cbn [app]. by rewrite unescape_other.
  - cbn [app]. rewrite unescape_cons2. unfold chareq. rewrite (bool_decide_false (c = DQUOTE)) by done.
    by rewrite andb_false_r, unescape_other.
  - cbn [app]. rewrite !unescape_cons2. destruct (chareq a BACKSLASH && chareq b DQUOTE).
    + by rewrite IH.
    + change (b :: s ++ c :: d) with ((b :: s) ++ c :: d). by rewrite IH'.
Qed.

(** ** Issues that no profile knows *)

(** An issue: a category and, when it names one, a type. *)
Definition issue_text (i : cstr * option cstr) : cstr :=
  fst i ++ match snd i with Some u => "."%char :: u | None => [] end.

Definition word (s : cstr) : Prop := s <> [] /\ Forall (fun c => isalnum c = true) s.

Record plain_issue (i : cstr * option cstr) : Prop := {
  plain_category : word (fst i);
  plain_type : forall u, snd i = Some u -> word u;
  plain_short : (length (fst i) <= RRD_DYNAMIC_PROFILE_MAX_LENGTH)%nat;
  plain_fits : (length (issue_text i) < 128)%nat }.

(** A test of the shape of an issue. *)
Definition plain_issueb (i : cstr * option cstr) : bool :=
  let wordb s := negb (length s =? 0)%nat && forallb isalnum s in
  wordb (fst i) && match snd i with Some u => wordb u | None => true end &&
  (length (fst i) <=? RRD_DYNAMIC_PROFILE_MAX_LENGTH)%nat && (length (issue_text i) <? 128)%nat.

Lemma plain_check i : plain_issueb i = true -> plain_issue i.
Proof.
  assert (forall s, negb (length s =? 0)%nat && forallb isalnum s = true -> word s) as Hw.
  { intros s [Hl Hs]%andb_true_iff. split; [by destruct s|]. apply list.Forall_forall. intros c Hin%list_elem_of_In.
    rewrite forallb_forall in Hs. by apply Hs. }
  unfold plain_issueb. intros [[[H1 H2]%andb_true_iff H3]%andb_true_iff H4]%andb_true_iff.
  split; [by apply Hw| |lia|lia]. intros u Hu. rewrite Hu in H2. by apply Hw.
Qed.

Lemma word_free s c : word s -> isalnum c = false -> c ∉ s.
Proof. intros [_ Hs] Hc Hin. rewrite list.Forall_forall in Hs. specialize (Hs c Hin). congruence. Qed.

Lemma plain_chars i : plain_issue i -> Forall (fun c => isalnum c = true \/ c = "."%char) (issue_text i).
Proof.
  intros [[_ Hn] Ht _ _]. unfold issue_text. apply Forall_app. split; [eapply Forall_impl; [|exact Hn]; auto|].
  destruct (snd i) as [u|]; [|constructor]. constructor; [by right|]. eapply Forall_impl; [|exact (proj2 (Ht u eq_refl))]. auto.
Qed.

Lemma plain_free i c : plain_issue i -> isalnum c = false -> c <> "."%char -> c ∉ issue_text i.
Proof.
  intros Hi Hc Hd Hin. pose proof (plain_chars i Hi) as Hall. rewrite list.Forall_forall in Hall.
  destruct (Hall c Hin); congruence.
Qed.

Lemma plain_nonempty i : plain_issue i -> issue_text i <> [].
Proof. intros [[Hn _] _ _ _]. unfold issue_text. by destruct (fst i). Qed.

Lemma plain_tokens i : plain_issue i ->
  strtok_all "." (issue_text i) = fst i :: match snd i with Some u => [u] | None => [] end /\
  getParamcount (issue_text i) = match snd i with Some _ => 1%nat | None => 0%nat end.
Proof.
  intros [Hn Ht _ _]. rewrite getParamcount_count. unfold issue_text. pose proof (word_free _ "." Hn eq_refl) as Hd.
  destruct (snd i) as [u|].
  - pose proof (word_free u "." (Ht u eq_refl) eq_refl) as Hu. split.
    + unfold strtok_all. rewrite tok_loop_word by first [done | exact (proj1 Hn)]. f_equal.
      apply strtok_all_single; [done|]. apply (Ht u eq_refl).
    + rewrite List.filter_app. cbn [List.filter]. rewrite chareq_refl, length_app. cbn [length].
      assert (forall s, "."%char ∉ s -> List.filter (fun c => chareq c ".") s = []) as Hf.
      { clear. intros s Hs. apply nil_length_inv. rewrite <- getParamcount_count. by apply getParamcount_zero. }
      by rewrite !Hf.
  - rewrite app_nil_r. split; [apply strtok_all_single; [done|apply Hn]|].
    rewrite <- getParamcount_count. by apply getParamcount_zero.
Qed.

Lemma plain_node `{OS} i : (forall k, os_malloc k = true) -> plain_issue i ->
  returns (getIssueInfo (issue_text i)) (fun node evs => node = IssueNode (Some (fst i)) (snd i) /\ evs = []).
Proof.
  intros Hm Hi. destruct (plain_tokens i Hi) as [Ht Hp]. unfold getIssueInfo. rewrite Ht, Hp.
  destruct (snd i) as [u|]; cbn [length Nat.leb Nat.add Nat.eqb negb]; unfold array_get; cbn [lookup list_lookup].
  - intros w. rewrite bind_ret_l. revert w. apply returns_malloc_ok; [done|]. cbn [negb].
    intros w. rewrite bind_ret_l. revert w. apply returns_malloc_ok; [done|]. by apply returns_ret.
  - intros w. rewrite bind_ret_l. revert w. apply returns_malloc_ok; [done|]. by apply returns_ret.
Qed.

Lemma returns_yields_and {A} (m : M A) (Q R : A -> trace -> Prop) :
  returns m Q -> yields m R -> returns m (fun a evs => Q a evs /\ R a evs).
Proof.
  intros HQ HR w. destruct (HQ w) as (a & w' & evs & E & T & Ha). destruct (HR _ _ _ E) as (evs' & T' & Hb).
  rewrite T in T'. apply app_inv_head in T' as <-. exists a, w', evs. auto.
Qed.

Lemma readAndParseJSON_returns `{OS} `{CJSON} f :
  returns (readAndParseJSON f) (fun r evs => evs = [] /\ forall cfg, r = Some cfg -> loaded f cfg).
Proof.
  eapply returns_mono; [apply (returns_yields_and _ (fun _ _ => True)); [|apply readAndParseJSON_loads]|by intros a evs []].
  unfold readAndParseJSON, readJsonFile. eapply returns_bind with (Q := fun _ _ => True).
  - apply returns_ask. intros [content|]; [|by apply returns_ret]. destruct (_ <? _)%nat; [by apply returns_ret|].
    intros w. unfold malloc, mbind, M_bind. exists (if os_malloc (w_allocs w) then Some content else None), (World (w_trace w) (S (w_allocs w))), []. by rewrite app_nil_r.
  - intros [s|] evs _; by apply returns_ret.
Qed.

Section Unknown.
Context `{OS} `{CJSON} `{Device}.
Hypothesis memory : forall k, os_malloc k = true.

(** No profile file that can be read has the issue. *)
Definition unknown_issue (i : cstr * option cstr) : Prop :=
  forall path cfg, path = RRD_JSON_FILE \/ path = dynJSONPath (fst i) -> loaded path cfg ->
    findIssueInParsedJSON (IssueNode (Some (fst i)) (snd i)) (Some cfg) = false.

(** A message that is neither dynamic nor an append request. *)
Definition plain_message (rbuf : data_buf) : Prop := appendMode rbuf = false /\ inDynamic rbuf = false.

Lemma installed_requests rbuf i m c l :
  plain_issue i -> unknown_issue i -> buf_mdata rbuf = Some m -> repr c l ->
  returns (processIssueTypeInInstalledPackage rbuf (IssueNode (Some (fst i)) (snd i)) c)
    (fun r evs => requested (fst i) m rbuf c l (snd r) evs).
Proof.
  intros Hi Hu Hm Hr. unfold processIssueTypeInInstalledPackage. cbn [Node deref]. intros w. rewrite bind_ret_l. revert w.
  apply returns_malloc_ok; [done|]. cbn [negb].
  assert (returns ('(node0, c0) ← RRDRdmManagerDownloadRequest (IssueNode (Some (fst i)) (snd i)) rbuf false c;
                   mret (rbuf, node0, c0)) (fun r evs => requested (fst i) m rbuf c l (snd r) evs)) as Hreq.
  { eapply returns_bind; [by apply (request_returns _ rbuf (fst i) m c l); [..|apply Hi]|].
    intros [node' c'] evs [_ Hq]. apply returns_ret. by rewrite app_nil_r. }
  eapply returns_bind; [apply readAndParseJSON_returns|]. intros [cfg|] evs [-> Hl]; [|done].
  by rewrite (Hu (dynJSONPath (fst i)) cfg (or_intror eq_refl) (Hl cfg eq_refl)).
Qed.

Lemma static_requests rbuf i m c l :
  plain_issue i -> unknown_issue i -> buf_mdata rbuf = Some m -> repr c l ->
  returns (processIssueTypeInStaticProfile rbuf (IssueNode (Some (fst i)) (snd i)) c)
    (fun r evs => requested (fst i) m rbuf c l (snd r) evs).
Proof.
  intros Hi Hu Hm Hr. unfold processIssueTypeInStaticProfile.
  eapply returns_bind; [apply readAndParseJSON_returns|]. intros [cfg|] evs [-> Hl]; [|by apply installed_requests].
  rewrite (Hu RRD_JSON_FILE cfg (or_introl eq_refl) (Hl cfg eq_refl)). by apply installed_requests.
Qed.

Lemma issue_requests rbuf i c l :
  plain_issue i -> unknown_issue i -> plain_message rbuf -> buf_mdata rbuf = Some (issue_text i) -> repr c l ->
  returns (processIssueType rbuf c) (fun r evs => requested (fst i) (issue_text i) rbuf c l (snd r) evs).
Proof.
  intros Hi Hu [Ha Hd] Hm Hr. unfold processIssueType. rewrite Hm. apply returns_malloc_ok; [done|]. cbn [negb].
  eapply returns_bind; [by apply plain_node|]. intros node evs [-> ->]. rewrite Ha, Hd.
  eapply returns_bind; [by apply static_requests|]. intros [[b node'] c'] evs Hq. apply returns_ret.
  by rewrite app_nil_l, app_nil_r.
Qed.

Lemma plain_split i : plain_issue i ->
  split_issue_type (Some (issue_text i)) (Some []) 128 (Some []) 128 = (Some (issue_text i), Some []) /\
  removeSpecialCharacterfromIssueTypeList (issue_text i) = issue_text i.
Proof.
  intros Hi. split.
  - rewrite split_issue_type_no_suffix by (lia || by apply (plain_free i)). by rewrite bounded_copy_id by apply Hi.
  - apply bfilter_id. intros c Hin. pose proof (plain_chars i Hi) as Hall. rewrite list.Forall_forall in Hall.
    unfold issue_char. destruct (Hall c Hin) as [-> | ->]; [done|]. rewrite chareq_refl. by rewrite orb_true_r.
Qed.

Lemma token_requests rbuf i c l :
  plain_issue i -> unknown_issue i -> plain_message rbuf -> repr c l ->
  returns (process_token rbuf (issue_text i) c) (fun c' evs => requested (fst i) (issue_text i) rbuf c l c' evs).
Proof.
  intros Hi Hu Hp Hr. destruct (plain_split i Hi) as [Hs Hf]. unfold process_token. apply returns_malloc_ok; [done|].
  cbn [negb]. rewrite Hs, Hf. pose proof (plain_nonempty i Hi) as Hne. destruct (issue_text i) as [|a s] eqn:Et; [done|].
  destruct Hp as [Ha Hd]. unfold issue_buffer. rewrite Hd, Ha. intros w. rewrite bind_ret_l. revert w.
  apply returns_malloc_ok; [done|]. intros w. rewrite bind_ret_l. revert w.
  eapply returns_bind; [apply (issue_requests _ i c l); try done; cbn [set_suffix set_mdata buf_mdata]; by rewrite Et|].
  intros [b c'] evs Hq. apply returns_ret. rewrite app_nil_r. rewrite Et in Hq. destruct Hq as (rc & -> & Hc).
  exists rc. split; [done|]. by rewrite Ha.
Qed.

(** The requests of a list of issues, with the answers of the manager. *)
Definition request_event (i : cstr * option cstr) (rc : Z) : event :=
  EvRbus (RbusSet RDM_MGR_PKG_INST (RDM_PKG_PREFIX ++ fst i ++ RDM_PKG_SUFFIX)) rc.

(** What is remembered of an accepted request. *)
Definition remembered (i : cstr * option cstr) (rc : Z) : option (option cstr * option cstr) :=
  if rc =? 0 then Some (Some (RDM_PKG_PREFIX ++ fst i), Some (issue_text i)) else None.

Definition cached (e : entry) : option cstr * option cstr := (e_pkg e, e_issue e).

Lemma tokens_request rbuf issues : plain_message rbuf -> Forall plain_issue issues -> Forall unknown_issue issues ->
  forall c l, repr c l ->
  returns (process_tokens rbuf (issue_text <$> issues) c) (fun c' evs => exists rcs new,
    length rcs = length issues /\ evs = zip_with request_event issues rcs /\ repr c' (new ++ l) /\
    cached <$> new = reverse (omap id (zip_with remembered issues rcs))).
Proof.
  intros Hp. induction issues as [|i issues IH]; intros Hi Hu c l Hr; cbn [fmap list_fmap process_tokens].
  { apply returns_ret. by exists [], []. }
  apply Forall_cons_iff in Hi as [Hi His], Hu as [Hu Hus].
  eapply returns_bind; [by apply (token_requests rbuf i c l)|]. intros c1 e1 (rc & -> & Hc).
  assert (exists new1, repr c1 (new1 ++ l) /\ cached <$> new1 = option_list (remembered i rc)) as (new1 & Hr1 & Hnew1).
  { unfold remembered. destruct Hp as [Ha _]. rewrite Ha, app_nil_r in Hc. destruct (rc =? 0).
    - destruct Hc as [p Hc]. by exists [Entry p (Some (RDM_PKG_PREFIX ++ fst i)) (Some (issue_text i))].
    - subst c1. by exists []. }
  eapply returns_mono; [by apply (IH His Hus c1 (new1 ++ l))|]. intros c2 e2 (rcs & new & Hlen & -> & Hr2 & Hnew).
  exists (rc :: rcs), (new ++ new1). split; [cbn; by rewrite Hlen|]. split; [done|].
  split; [by rewrite <- app_assoc|]. rewrite fmap_app, Hnew, Hnew1. cbn [zip_with].
  cbn [omap list_omap]. unfold id at 2. destruct (remembered i rc); [by rewrite reverse_cons|by rewrite app_nil_r].
Qed.
End Unknown.

Lemma event_requests `{OS} `{CJSON} `{Device} rbuf mdata issues c l :
  (forall k, os_malloc k = true) -> plain_message rbuf -> buf_mdata rbuf = Some mdata ->
  strtok_all "," mdata = issue_text <$> issues -> issues <> [] ->
  Forall plain_issue issues -> Forall unknown_issue issues -> repr c l ->
  returns (processIssueTypeEvent rbuf c) (fun c' evs => exists rcs new,
    length rcs = length issues /\ evs = zip_with request_event issues rcs /\ repr c' (new ++ l) /\
    cached <$> new = reverse (omap id (zip_with remembered issues rcs))).
Proof.
  intros Hm Hp Hd Ht Hne Hi Hu Hr. unfold processIssueTypeEvent. rewrite Hd.
  eapply returns_bind; [apply issueTypeSplitter_returns; [done|]; rewrite Ht; by destruct issues|].
  intros tokens evs [-> ->]. rewrite Ht. by apply tokens_request.
Qed.

(** ** Properties *)

(** C38: an append request runs the command of the static profile, then the
    command of the dynamic profile.  When both commands, quoted as cJSON prints
    strings, were accepted by the sanity list of their profile, the joined
    command reaches the shell as the two commands separated by a semicolon, and
    a text both lists forbid does not occur in it, not even across the join,
    unless it holds a semicolon, an ampersand, a quote or a leading blank. *)
Theorem append_commands_safe `{CJSON} rs rd sl dl w s d :
  isCommandsValid rs sl w = Ret (0, quoted s) w -> isCommandsValid rd dl w = Ret (0, quoted d) w ->
  exists sexec dexec,
    removeQuotes (Some (quoted s)) = Some sexec /\ removeQuotes (Some (quoted d)) = Some dexec /\
    removeQuotes (Some (append_commands (quoted s) (quoted d))) = Some (sexec ++ COMMAND_DELIM :: dexec) /\
    forall p, p ∈ sanity_patterns sl -> p ∈ sanity_patterns dl ->
      COMMAND_DELIM ∉ p -> "&"%char ∉ p -> DQUOTE ∉ p -> p !! 0%nat <> Some " "%char ->
      ~ occurs p (sexec ++ COMMAND_DELIM :: dexec).
Proof.
  intros Hs Hd. exists (unescape s), (unescape d). rewrite append_quoted, !removeQuotes_quoted.
  rewrite unescape_delim by done. split_and!; [done..|]. intros p Hps Hpd Hdelim Ha Hq Hb Hocc.
  apply occurs_delim in Hocc as [Hocc|Hocc]; [| |done]; revert Hocc.
  - by apply (accepted_executed_safe rs sl w (quoted s) w); [|apply removeQuotes_quoted|].
  - by apply (accepted_executed_safe rd dl w (quoted d) w); [|apply removeQuotes_quoted|].
Qed.

Lemma append_commands_safe_witness :
  removeQuotes (Some (append_commands (quoted #"uptime") (quoted #"cat /version.txt"))) = Some #"uptime;cat /version.txt" /\
  ~ occurs #"rm -rf" #"uptime;cat /version.txt".
Proof.
  destruct (@append_commands_safe (Tree.tree_CJSON (fun _ => None)) (quoted #"uptime") (quoted #"cat /version.txt")
    (Some sample_sanity) (Some sample_sanity) (World [] 0) #"uptime" #"cat /version.txt") as (se & de & Es & Ed & E & Hp);
    [vm_compute; reflexivity..|].
  vm_compute in Es, Ed. injection Es as <-. injection Ed as <-. split; [exact E|].
  apply (Hp #"rm -rf"); vm_compute; try left; set_solver.
Defined.

(** C11: handling a message with a list of issues, whatever the system, the
    profiles and the message are.  When it returns, the cache represents the
    old list with new entries in front, each for a package that the download
    manager accepted to install in this very run, under the name of the package
    and with the issue, which ends in the append suffix in append mode.  Every
    command that was run comes from a profile file the message calls for (the
    profile named by the message when it is marked dynamic, else the static
    profile or that of an installed package) and was accepted by the sanity list
    of that profile, or, when that has none, of the static profile; when this
    has none either, or cannot be read, every command is accepted.  What is run
    is the accepted command with the placeholders replaced by the directory of
    the run, and holds none of the texts the list keeps out.  In append mode it
    is the join of two commands, each accepted by the list of its own profile
    only (by none, when the profile has no list). *)
Theorem processIssueTypeEvent_safe `{OS} `{CJSONLaws} `{Device} rbuf c l w c' w' :
  (forall t p, Forall (fun n => n <> []) (default [] (os_readdir t p))) -> repr c l ->
  processIssueTypeEvent rbuf c w = Ret c' w' ->
  exists evs new, w_trace w' = w_trace w ++ evs /\ repr c' (new ++ l) /\
    Forall (entry_requested (appendMode rbuf) false evs) new /\ Forall (event_command rbuf) (services evs).
Proof.
  intros Hn Hr E. destruct (event_handled Hn rbuf c _ _ _ E) as (evs & T & Hc & Hs & _).
  destruct (Hc l Hr) as (new & Hr' & Hnew). by exists evs, new.
Qed.

Definition sample_event_json : CJSON := Tree.tree_CJSON (fun s => if streq s #"profile" then Some sample_profile else None).

Definition sample_event_os : OS := demo_os {|
  demo_stat := fun _ => None;
  demo_dir := fun _ => None;
  demo_file := fun p => if streq p RRD_JSON_FILE then Some #"profile" else None;
  demo_popen := fun _ => None; demo_lock := fun _ => LockGranted; demo_upload := 0 |}.

Definition issue_message (s : cstr) : data_buf :=
  DataBuf EVENT_MSG (Some s) None false false RRD_DEEPSLEEP_INVALID_DEFAULT None.

Lemma processIssueTypeEvent_safe_witness :
  exists c' w' new, @processIssueTypeEvent sample_event_os sample_event_json sample_device
      (issue_message #"Device.Info,Device.Bad,Wifi.Stats") initCache (World [] 0) = Ret c' w' /\
    repr c' (new ++ []) /\ services (w_trace w') = [#"uptime;cat /version.txt"] /\
    List.last (w_trace w') EvGzclose = EvRbus (RbusSet RDM_MGR_PKG_INST #"RDK-RRD-Wifi:1.0") 0.
Proof.
  destruct (@processIssueTypeEvent sample_event_os sample_event_json sample_device
      (issue_message #"Device.Info,Device.Bad,Wifi.Stats") initCache (World [] 0)) as [c' w'| |] eqn:E;
    [|vm_compute in E; discriminate..].
  destruct (@processIssueTypeEvent_safe sample_event_os sample_event_json (Tree.tree_laws _) sample_device
      _ initCache [] _ c' w' (fun _ _ => list.Forall_nil_2 _) repr_init E) as (evs & new & _ & Hr & _).
  exists c', w', new. split; [done|]. split; [exact Hr|].
  vm_compute in E. injection E as <- <-. split; vm_compute; reflexivity.
Defined.

(** C19: a message of issues that neither the static profile nor an installed
    package has, when no allocation fails.  The handling returns.  It does
    nothing but ask the download manager for the package of each issue's
    category, in the order of the message; the cache remembers exactly the
    requests the manager accepted, each with its issue, the newest first. *)
Theorem unknown_issues_requested `{OS} `{CJSON} `{Device} rbuf mdata issues c l w :
  (forall k, os_malloc k = true) -> plain_message rbuf -> buf_mdata rbuf = Some mdata ->
  strtok_all "," mdata = issue_text <$> issues -> issues <> [] ->
  Forall plain_issue issues -> Forall unknown_issue issues -> repr c l ->
  exists c' w' rcs new, processIssueTypeEvent rbuf c w = Ret c' w' /\
    length rcs = length issues /\ w_trace w' = w_trace w ++ zip_with request_event issues rcs /\
    repr c' (new ++ l) /\ cached <$> new = reverse (omap id (zip_with remembered issues rcs)).
Proof.
  intros Hm Hp Hd Ht Hne Hi Hu Hr.
  destruct (event_requests rbuf mdata issues c l Hm Hp Hd Ht Hne Hi Hu Hr w) as (c' & w' & evs & E & T & rcs & new & Hl & -> & Hq).
  by exists c', w', rcs, new.
Qed.

Lemma unknown_issues_requested_witness :
  exists c' w' rcs new,
    @processIssueTypeEvent (demo_os empty_demo) sample_event_json sample_device
      (issue_message #"Wifi.Stats,,Audio,") initCache (World [] 0) = Ret c' w' /\
    w_trace w' = zip_with request_event [(#"Wifi", Some #"Stats"); (#"Audio", None)] rcs /\
    rcs = [0; 0] /\ repr c' (new ++ []) /\
    cached <$> new = [(Some #"RDK-RRD-Audio", Some #"Audio"); (Some #"RDK-RRD-Wifi", Some #"Wifi.Stats")].
Proof.
  destruct (@unknown_issues_requested (demo_os empty_demo) sample_event_json sample_device
      (issue_message #"Wifi.Stats,,Audio,") #"Wifi.Stats,,Audio," [(#"Wifi", Some #"Stats"); (#"Audio", None)]
      initCache [] (World [] 0)) as (c' & w' & rcs & new & E & Hl & T & Hr & Hc).
  - done.
  - by split.
  - done.
  - vm_compute. reflexivity.
  - done.
  - repeat (constructor; [by apply plain_check|]). constructor.
  - repeat (constructor; [intros path cfg _ (t & s & Hs & _); done|]). constructor.
  - apply repr_init.
  - exists c', w', rcs, new. split; [exact E|]. split; [exact T|]. vm_compute in E. injection E as <- <-.
    destruct rcs as [|a [|b [|]]]; try discriminate Hl. cbn in T. injection T as <- <-.
    split; [done|]. split; [exact Hr|]. rewrite Hc. vm_compute. reflexivity.
Defined.
