(* ===== verification/Iarm.v ===== *)
(** * Iarm: the events of the IARM bus (src/rrdIarmEvents.c)

    The build with IARM.  The handlers report the installation of a package and
    the end of a deep sleep.  The power states come over IARM or, in the build
    with the plugin, from the power controller, to which a thread of its own
    connects.  The names and numbers of the bus are constants of its library:
    the class [Iarm], with the symbol [PWRMGR_PLUGIN] of the build. *)

From stdpp Require Import gmap.
From S2P Require Import Prelude Types OS IssueType Cache Queue.

Local Open Scope Z_scope.

Class Iarm := {
  PWRMGR_PLUGIN : bool;
  IARM_BUS_RDMMGR_NAME : cstr;
  IARM_BUS_PWRMGR_NAME : cstr;
  IARM_BUS_RDMMGR_EVENT_APP_INSTALLATION_STATUS : Z;
  IARM_BUS_PWRMGR_EVENT_MODECHANGED : Z;
  IARM_BUS_PWRMGR_POWERSTATE_STANDBY_DEEP_SLEEP : Z;
  RDM_PKG_INSTALL_COMPLETE : Z;
}.

Definition RETRYSLEEP : Z := 300 * 1000.

Definition RDK_REMOTE_DEBUGGER_NAME : cstr := #"REMOTE_DEBUGGER".
Definition RRD_WEBCFG_FORCE_SYNC : cstr := #"Device.X_RDK_WebConfig.ForceSync".

(** The data of the two events. *)
Record rdm_event := RdmEvent { pkg_name : cstr; pkg_inst_path : cstr; pkg_inst_status : Z }.
Record pwr_event := PwrEvent { curState : Z; newState : Z }.

Section Iarm.
Context `{OS} `{Iarm}.

Definition RRD_IARM_subscribe : M Z :=
  ret ← sys_iarm (IarmInit RDK_REMOTE_DEBUGGER_NAME);
  if negb (ret =? 0) then mret ret else
  ret ← sys_iarm IarmConnect;
  if negb (ret =? 0) then mret ret else
  ret ← sys_iarm (IarmRegisterEventHandler IARM_BUS_RDMMGR_NAME IARM_BUS_RDMMGR_EVENT_APP_INSTALLATION_STATUS);
  if negb (ret =? 0) then mret ret else
  if PWRMGR_PLUGIN then mret ret else
  sys_iarm (IarmRegisterEventHandler IARM_BUS_PWRMGR_NAME IARM_BUS_PWRMGR_EVENT_MODECHANGED).

(** The loop that connects to the power controller; [fuel] bounds the attempts. *)
Fixpoint connect_loop (fuel : nat) : M unit :=
  match fuel with
  | O => mfault OutOfFuel
  | S fuel' =>
      rc ← sys_iarm PwrConnect;
      if rc =? 0 then mret tt else _ ← sys_usleep RETRYSLEEP; connect_loop fuel'
  end.

(** The thread that the subscription starts with the plugin; when it returns,
    [isPwrCtlInterface] is set. *)
Definition getPwrCtrlInterface (fuel : nat) : M Z :=
  _ ← sys_sleep 5;
  _ ← sys_iarm PwrInit;
  _ ← connect_loop fuel;
  sys_iarm PwrRegisterCallback.

Definition RRD_IARM_unsubscribe (isPwrCtlInterface : bool) : M Z :=
  ret ← sys_iarm IarmDisconnect;
  if negb (ret =? 0) then mret ret else
  ret ← sys_iarm IarmTerm;
  if negb (ret =? 0) then mret ret else
  ret ← sys_iarm (IarmUnRegisterEventHandler IARM_BUS_RDMMGR_NAME IARM_BUS_RDMMGR_EVENT_APP_INSTALLATION_STATUS);
  if negb (ret =? 0) then mret ret else
  if PWRMGR_PLUGIN then
    if isPwrCtlInterface then ret ← sys_iarm PwrUnRegisterCallback; _ ← sys_iarm PwrTerm; mret ret else mret ret
  else sys_iarm (IarmUnRegisterEventHandler IARM_BUS_PWRMGR_NAME IARM_BUS_PWRMGR_EVENT_MODECHANGED).

(** The end of a deep sleep: the web configuration is synchronised and the
    event thread told to ask for the deep sleep package. *)
Definition power_mode_changed (curState newState : Z) : M unit :=
  if (curState =? IARM_BUS_PWRMGR_POWERSTATE_STANDBY_DEEP_SLEEP)
     && negb (newState =? IARM_BUS_PWRMGR_POWERSTATE_STANDBY_DEEP_SLEEP) then
    rc ← sys_rbus (RbusSet RRD_WEBCFG_FORCE_SYNC #"root");
    if negb (rc =? 0) then mret tt else
    ok ← malloc;
    if negb ok then mret tt else
    ok ← malloc;
    if negb ok then mret tt else
    RRDMsgDeliver (set_mdata (Some DEEP_SLEEP_STR)
      (RRD_data_buff_init DEEPSLEEP_EVENT_MSG RRD_DEEPSLEEP_RDM_DOWNLOAD_PKG_INITIATE))
  else mret tt.

(** The handler of the build with the plugin. *)
Definition _pwrManagerEventHandler_plugin (currentState newState : Z) : M unit :=
  power_mode_changed currentState newState.

Definition _pwrManagerEventHandler (owner : cstr) (data : option pwr_event) : M unit :=
  if streq owner IARM_BUS_PWRMGR_NAME then
    match data with
    | Some eventData => power_mode_changed (curState eventData) (newState eventData)
    | None => mret tt
    end
  else mret tt.

(** The message type of an installed package. *)
Definition installed_buffer (issueString : cstr) : data_buf :=
  if streq issueString DEEP_SLEEP_STR
  then RRD_data_buff_init DEEPSLEEP_EVENT_MSG RRD_DEEPSLEEP_RDM_PKG_INSTALL_COMPLETE
  else RRD_data_buff_init EVENT_MSG RRD_DEEPSLEEP_INVALID_DEFAULT.

Definition _rdmManagerEventHandler (owner : cstr) (eventId : Z) (data : rdm_event) (c : cache) : M cache :=
  if streq owner IARM_BUS_RDMMGR_NAME then
    if eventId =? IARM_BUS_RDMMGR_EVENT_APP_INSTALLATION_STATUS then
      p ← findPresentInCache (pkg_name data) c;
      match p with
      | None => mret c
      | Some p =>
          if pkg_inst_status data =? RDM_PKG_INSTALL_COMPLETE then
            node ← read_node c p;
            issueString ← deref (issueString node);
            ok ← malloc;
            if negb ok then mret c else
            ok ← malloc;
            if negb ok then mret c else
            ok ← malloc;
            if negb ok then mret c else
            _ ← RRDMsgDeliver (installed_message (installed_buffer issueString) issueString
                                 (pkg_inst_path data ++ RRD_JSON_FILE));
            remove_item (Some p) c
          else remove_item (Some p) c
      end
    else mret c
  else mret c.
End Iarm.

(** ** Lemmas *)

(** A complete installation: the message of the newest request is delivered. *)
Lemma rdm_installed `{OS} `{Iarm} data c l1 e l2 i w :
  (forall k, os_malloc k = true) -> repr c (l1 ++ e :: l2) -> Forall (fun e => e_pkg e <> Some (pkg_name data)) l1 ->
  e_pkg e = Some (pkg_name data) -> e_issue e = Some i -> pkg_inst_status data = RDM_PKG_INSTALL_COMPLETE ->
  exists c', repr c' (l1 ++ l2) /\
    delivered (installed_message (installed_buffer i) i (pkg_inst_path data ++ RRD_JSON_FILE)) c' w
      (_rdmManagerEventHandler IARM_BUS_RDMMGR_NAME IARM_BUS_RDMMGR_EVENT_APP_INSTALLATION_STATUS data c w).
Proof.
  intros Hm Hr Hl1 He Hi Hst. unfold _rdmManagerEventHandler. rewrite (proj2 (streq_true _ _)), Z.eqb_refl by done.
  rewrite (bind_run _ _ _ _ _ (findPresentInCache_repr _ _ _ _ Hr)), find_newest by done.
  cbn [fmap option_fmap option_map]. rewrite Hst, Z.eqb_refl.
  destruct (deliver_remove (installed_message (installed_buffer i) i (pkg_inst_path data ++ RRD_JSON_FILE)) c l1 e l2
    (World (w_trace w) (3 + w_allocs w)) Hr) as (c' & Hr' & Hd).
  exists c'. split; [done|]. edestruct (repr_read c l1 e l2) as (n & En & Hn); [done|].
  rewrite (bind_run _ _ _ _ _ En), Hn, Hi. cbn [deref]. rewrite bind_ret_l.
  do 3 (rewrite bind_malloc_ok by done; cbn [negb]). exact Hd.
Qed.

(** *** What the handlers may send, when allocations may fail *)

Lemma rdmManager_yields `{OS} `{Iarm} owner eventId data c l : repr c l ->
  yields (_rdmManagerEventHandler owner eventId data c) (entry_installed c l).
Proof.
  intros Hr. assert (entry_installed c l c []) as Hnone by (left; split; done).
  unfold _rdmManagerEventHandler. destruct (streq _ _); [|by apply yields_ret]. destruct (_ =? _); [|by apply yields_ret].
  eapply find_yields; [done|by apply yields_ret|]. intros l1 e l2 ->. destruct (_ =? _).
  - eapply node_yields; [done|]. intros n Hn. apply yields_deref. intros i Hi. rewrite Hn in Hi.
    do 3 (apply yields_malloc; intros [|]; cbn [negb]; [|by apply yields_ret]).
    eapply yields_bind; [apply deliver_yields|]. intros _ evs ->. eapply yields_mono; [by apply remove_yields|].
    intros c' evs [Hr' ->]. right. exists l1, e, l2. split; [done|]. split; [done|]. right. exists (installed_buffer i), i.
    eexists. split; [done|]. split; [done|]. unfold installed_buffer. destruct (streq i DEEP_SLEEP_STR); (split; [done|]); auto.
  - eapply yields_mono; [by apply remove_yields|]. intros c' evs [Hr' ->]. right. exists l1, e, l2.
    split; [done|]. split; [done|by left].
Qed.

(** The message of the power manager. *)
Definition awake_message : data_buf :=
  set_mdata (Some DEEP_SLEEP_STR) (RRD_data_buff_init DEEPSLEEP_EVENT_MSG RRD_DEEPSLEEP_RDM_DOWNLOAD_PKG_INITIATE).

(** What the end of a deep sleep does. *)
Definition awakened (evs : trace) : Prop :=
  exists pre, (forall e, e ∈ pre -> exists rc, e = EvRbus (RbusSet RRD_WEBCFG_FORCE_SYNC #"root") rc) /\
    (evs = pre \/ evs = pre ++ [EvMsgsnd awake_message true]).

Lemma awakened_nothing : awakened [].
Proof. exists []. split; [|by left]. intros e He. by apply elem_of_nil in He. Qed.

Lemma power_yields `{OS} `{Iarm} cur new : yields (power_mode_changed cur new) (fun _ evs => awakened evs).
Proof.
  unfold power_mode_changed. destruct (_ && _); [|apply yields_ret, awakened_nothing].
  apply yields_act. intros rc.
  assert (forall e, e ∈ [EvRbus (RbusSet RRD_WEBCFG_FORCE_SYNC #"root") rc] -> exists rc,
    e = EvRbus (RbusSet RRD_WEBCFG_FORCE_SYNC #"root") rc) as Hone.
  { intros e ->%list_elem_of_singleton. by exists rc. }
  destruct (negb _); [apply yields_ret; eexists; split; [exact Hone|by left]|].
  do 2 (apply yields_malloc; intros [|]; cbn [negb]; [|apply yields_ret; eexists; split; [exact Hone|by left]]).
  eapply yields_mono; [apply deliver_yields|]. intros _ evs ->. eexists. split; [exact Hone|by right].
Qed.

Lemma pwrManager_yields `{OS} `{Iarm} owner data :
  yields (_pwrManagerEventHandler owner data) (fun _ evs => awakened evs).
Proof.
  unfold _pwrManagerEventHandler. destruct (streq _ _); [|apply yields_ret, awakened_nothing].
  destruct data; [apply power_yields|apply yields_ret, awakened_nothing].
Qed.

(** The connection to the power controller: when an attempt succeeds at last,
    the thread ends, after that attempt and a pause after each earlier one. *)
Lemma connect_loop_ends `{OS} n : forall fuel w,
  (forall k, (k < n)%nat -> os_iarm (w_trace w ++ concat (replicate k [EvIarm PwrConnect (-1); EvUsleep RETRYSLEEP])) PwrConnect = -1) ->
  os_iarm (w_trace w ++ concat (replicate n [EvIarm PwrConnect (-1); EvUsleep RETRYSLEEP])) PwrConnect = 0 -> (n < fuel)%nat ->
  exists w', connect_loop fuel w = Ret tt w' /\
    w_trace w' = w_trace w ++ concat (replicate n [EvIarm PwrConnect (-1); EvUsleep RETRYSLEEP]) ++ [EvIarm PwrConnect 0].
Proof.
  induction n as [|n IH]; intros [|fuel] w Hfail Hok Hf; [lia| |lia|]; cbn [connect_loop]; unfold sys_iarm, sys_usleep, act, mbind at 1, M_bind at 1.
  - cbn [replicate concat] in *. rewrite app_nil_r in Hok. rewrite Hok. cbn [Z.eqb]. eexists. split; [done|]. done.
  - pose proof (Hfail 0%nat ltac:(lia)) as H0. cbn [replicate concat] in H0. rewrite app_nil_r in H0. rewrite H0.
    change (-1 =? 0) with false. cbv iota. unfold mbind at 1, M_bind at 1.
    set (w1 := emit _ _).
    assert (w_trace w1 = w_trace w ++ [EvIarm PwrConnect (-1); EvUsleep RETRYSLEEP]) as T1 by (cbn; by rewrite <- app_assoc).
    destruct (IH fuel w1) as (w' & E & T).
    + intros k Hk. rewrite T1, <- app_assoc. exact (Hfail (S k) ltac:(lia)).
    + rewrite T1, <- app_assoc. exact Hok.
    + lia.
    + exists w'. split; [exact E|]. rewrite T, T1, <- app_assoc. by cbn [replicate concat]; rewrite <- app_assoc.
Qed.

(** ** Properties *)

(** C15: the event that the download manager reports on a package, when no
    allocation fails.  The newest request of the package leaves the cache in
    any case.  When the installation is complete, one message is sent first:
    it carries the issue of the request without the append suffix, the path of
    the installed profile, the deep sleep type for the deep sleep package, and
    is marked dynamic unless it is an append request; if the queue refuses it,
    the process ends with status 1.  When the installation failed, nothing is
    sent.  An event of another owner, another event or a package that was not
    requested changes nothing. *)
Theorem rdmManager_spec `{OS} `{Iarm} owner eventId data c l w :
  (forall k, os_malloc k = true) -> repr c l ->
  (owner = IARM_BUS_RDMMGR_NAME -> eventId = IARM_BUS_RDMMGR_EVENT_APP_INSTALLATION_STATUS ->
   forall l1 e l2 i, l = l1 ++ e :: l2 -> Forall (fun e => e_pkg e <> Some (pkg_name data)) l1 ->
     e_pkg e = Some (pkg_name data) -> e_issue e = Some i ->
     exists c', repr c' (l1 ++ l2) /\
       if pkg_inst_status data =? RDM_PKG_INSTALL_COMPLETE
       then delivered (installed_message (installed_buffer i) i (pkg_inst_path data ++ RRD_JSON_FILE)) c' w
              (_rdmManagerEventHandler owner eventId data c w)
       else _rdmManagerEventHandler owner eventId data c w = Ret c' w) /\
  (owner <> IARM_BUS_RDMMGR_NAME \/ eventId <> IARM_BUS_RDMMGR_EVENT_APP_INSTALLATION_STATUS \/
   Forall (fun e => e_pkg e <> Some (pkg_name data)) l ->
   _rdmManagerEventHandler owner eventId data c w = Ret c w).
Proof.
  intros Hm Hr. split.
  - intros -> -> l1 e l2 i -> Hl1 He Hi. destruct (Z.eqb_spec (pkg_inst_status data) RDM_PKG_INSTALL_COMPLETE) as [Hst|Hst].
    + by apply (rdm_installed data c l1 e l2 i w).
    + destruct (remove_item_repr c l1 e l2 w Hr) as (c' & E & Hr'). exists c'. split; [done|].
      unfold _rdmManagerEventHandler. rewrite (proj2 (streq_true _ _)), Z.eqb_refl by done.
      rewrite (bind_run _ _ _ _ _ (findPresentInCache_repr _ _ _ _ Hr)), find_newest by done.
      cbn [fmap option_fmap option_map]. by rewrite (proj2 (Z.eqb_neq _ _) Hst).
  - unfold _rdmManagerEventHandler. destruct (streq owner IARM_BUS_RDMMGR_NAME) eqn:Eo; [apply streq_true in Eo|done].
    destruct (Z.eqb_spec eventId IARM_BUS_RDMMGR_EVENT_APP_INSTALLATION_STATUS) as [Ee|]; [|done].
    intros [|[|Hl]]; [done|done|].
    by rewrite (bind_run _ _ _ _ _ (findPresentInCache_repr _ _ _ _ Hr)), find_absent.
Qed.

Definition sample_iarm : Iarm := {|
  PWRMGR_PLUGIN := false; IARM_BUS_RDMMGR_NAME := #"RDMMgr"; IARM_BUS_PWRMGR_NAME := #"PWRMgr";
  IARM_BUS_RDMMGR_EVENT_APP_INSTALLATION_STATUS := 0; IARM_BUS_PWRMGR_EVENT_MODECHANGED := 0;
  IARM_BUS_PWRMGR_POWERSTATE_STANDBY_DEEP_SLEEP := 4; RDM_PKG_INSTALL_COMPLETE := 5 |}.

Lemma rdmManager_spec_witness :
  (exists c' w', @_rdmManagerEventHandler (demo_os empty_demo) sample_iarm #"RDMMgr" 0
      (RdmEvent #"RDK-RRD-Wifi" #"/media/apps/RDK-RRD-Wifi" 5) sample_cache (World [] 0) = Ret c' w' /\ repr c' [] /\
    w_trace w' = [EvMsgsnd (DataBuf EVENT_MSG (Some #"Wifi.Stats")
                    (Some #"/media/apps/RDK-RRD-Wifi/etc/rrd/remote_debugger.json")
                    false true RRD_DEEPSLEEP_INVALID_DEFAULT None) true]) /\
  @_rdmManagerEventHandler (demo_os empty_demo) sample_iarm #"RDMMgr" 0
      (RdmEvent #"RDK-RRD-Audio" #"/media/apps/RDK-RRD-Audio" 5) sample_cache (World [] 0) = Ret sample_cache (World [] 0).
Proof.
  split.
  - destruct (@rdmManager_spec (demo_os empty_demo) sample_iarm #"RDMMgr" 0
      (RdmEvent #"RDK-RRD-Wifi" #"/media/apps/RDK-RRD-Wifi" 5) sample_cache _ (World [] 0) (fun _ => eq_refl)
      sample_cache_repr) as [Hd _].
    destruct (Hd eq_refl eq_refl [] _ [] #"Wifi.Stats_apnd" eq_refl) as (c' & Hr & w' & E & T); [constructor|done|done|].
    exists c', w'. split; [exact E|]. split; [exact Hr|]. rewrite T. reflexivity.
  - apply (@rdmManager_spec (demo_os empty_demo) sample_iarm #"RDMMgr" 0
      (RdmEvent #"RDK-RRD-Audio" #"/media/apps/RDK-RRD-Audio" 5) sample_cache _ (World [] 0) (fun _ => eq_refl)
      sample_cache_repr).
    right; right. by repeat constructor.
Defined.
