(* ===== verification/Interface.v ===== *)
(** * Interface: the bus interface of the daemon (src/rrdInterface.c)

    Subscribing to and leaving the buses, the version of the web configuration,
    and the two RBUS properties that select a profile category and list its
    issue types.  The category is a global that is also kept in a file.  The
    profile file does not change while it is read; creating cJSON nodes does
    not fail. *)

From S2P Require Import Prelude Types OS CJson IssueType Config RunCmd Profile Queue Iarm.

Local Open Scope Z_scope.

Definition REMOTE_DEBUGGER_RBUS_HANDLE_NAME : cstr := #"rdkRrdRbus".
Definition RRD_SET_PROFILE_EVENT : cstr :=
  #"Device.DeviceInfo.X_RDKCENTRAL-COM_RFC.Feature.RDKRemoteDebugger.setProfileData".
Definition RRD_GET_PROFILE_EVENT : cstr :=
  #"Device.DeviceInfo.X_RDKCENTRAL-COM_RFC.Feature.RDKRemoteDebugger.getProfileData".
Definition RRD_PROFILE_CATEGORY_FILE : cstr := #"/tmp/rrd_profile_category".
Definition MAX_PROFILE_JSON_SIZE : nat := Z.to_nat 32768.

Inductive rbusError_t := RBUS_ERROR_SUCCESS | RBUS_ERROR_INVALID_INPUT | RBUS_ERROR_BUS_ERROR.

(** [rbusValue_t]: a string (its pointer may be [NULL]) or another type. *)
Inductive rbusValue_t := RBUS_STRING (s : option cstr) | RBUS_OTHER.

Record rbusProperty_t := RbusProperty { prop_name : option cstr; prop_value : option rbusValue_t }.

(** Printing the two shapes of response the handler builds: an array of
    strings, and an object of such arrays. *)
Class CJSONBuild := {
  print_array : list cstr -> option cstr;
  print_object : list (cstr * list cstr) -> option cstr }.

Section Interface.
Context `{OS} `{CJSON} `{CJSONBuild} `{Device} `{Iarm}.

(** ** The category and its file *)

(** [strchr] of the newline, which is overwritten by a NUL. *)
Definition cut_newline (s : cstr) : cstr :=
  match strchr s NEWLINE with Some n => take n s | None => s end.

Definition load_profile_category : M (Z * cstr) :=
  fp ← sys_fopen RRD_PROFILE_CATEGORY_FILE;
  match fp with
  | Some text =>
      match fgets_lines 256 text with
      | line :: _ => mret (0, cut_newline line)
      | [] => mret (-1, #"all")
      end
  | None => mret (-1, #"all")
  end.

Definition save_profile_category (RRDProfileCategory : cstr) : M Z :=
  fd ← sys_open_write RRD_PROFILE_CATEGORY_FILE;
  if negb fd then mret (-1) else
  fp ← sys_fdopen RRD_PROFILE_CATEGORY_FILE;
  if negb fp then mret (-1) else
  n ← sys_fprintf RRD_PROFILE_CATEGORY_FILE (RRDProfileCategory ++ [NEWLINE]);
  mret (if 0 <? n then 0 else -1).

(** ** Subscribing *)

Definition webconfigFrameworkInit : M unit :=
  ok ← malloc;
  if negb ok then mfault NullDeref else sys_register_sub_docs #"remotedebugger".

(** The subscriptions: the installation event comes over RBUS only without IARM. *)
Definition subscribed_events : list cstr :=
  RRD_SET_ISSUE_EVENT :: RRD_WEBCFG_ISSUE_EVENT :: if IARMBUS_SUPPORT then [] else [RDM_DOWNLOAD_EVENT].

(** The result and the category; [category] is its value before. *)
Definition RRD_subscribe (category : cstr) : M (Z * cstr) :=
  ret ← (if IARMBUS_SUPPORT then RRD_IARM_subscribe else mret 0);
  if negb (ret =? 0) then mret (ret, category) else
  ret ← sys_rbus (RbusOpen REMOTE_DEBUGGER_RBUS_HANDLE_NAME);
  if negb (ret =? 0) then mret (ret, category) else
  ret ← sys_rbus (RbusSubscribeEx subscribed_events 60);
  '(_, category) ← load_profile_category;
  res ← sys_rbus (RbusRegDataElements [RRD_SET_PROFILE_EVENT; RRD_GET_PROFILE_EVENT]);
  let ret := if negb (res =? 0) && (ret =? 0) then res else ret in
  _ ← webconfigFrameworkInit;
  mret (ret, category).

(** The global array [subscriptions] has three elements. *)
Definition subscriptions : list (option cstr) :=
  take 3 ((Some <$> subscribed_events) ++ [None; None; None]).

Definition RRD_unsubscribe (isPwrCtlInterface : bool) : M Z :=
  ret ← (if IARMBUS_SUPPORT then RRD_IARM_unsubscribe isPwrCtlInterface else mret 0);
  if negb (ret =? 0) then mret ret else
  ret ← sys_rbus (RbusUnsubscribeEx subscriptions);
  if negb (ret =? 0) then mret ret else
  _ ← sys_rbus (RbusUnregDataElements [RRD_SET_PROFILE_EVENT; RRD_GET_PROFILE_EVENT]);
  sys_rbus RbusClose.

(** The version of the web configuration, a global. *)
Definition getBlobVersion (gWebCfgBloBVersion : Z) : Z := gWebCfgBloBVersion.
Definition setBlobVersion (version gWebCfgBloBVersion : Z) : Z * Z := (0, version).

(** ** Selecting the category *)

Definition rrd_SetHandler (prop : option rbusProperty_t) (category : cstr) : M (rbusError_t * cstr) :=
  match prop with
  | None => mret (RBUS_ERROR_INVALID_INPUT, category)
  | Some prop =>
      match prop_name prop, prop_value prop with
      | Some propertyName, Some value =>
          if streq propertyName RRD_SET_PROFILE_EVENT then
            match value with
            | RBUS_STRING (Some str) =>
                if (255 <? length str)%nat then mret (RBUS_ERROR_INVALID_INPUT, category) else
                let category := bounded_copy 256 str in
                saved ← save_profile_category category;
                mret (if saved =? 0 then RBUS_ERROR_SUCCESS else RBUS_ERROR_BUS_ERROR, category)
            | RBUS_STRING None => mret (RBUS_ERROR_INVALID_INPUT, category)
            | RBUS_OTHER => mret (RBUS_ERROR_INVALID_INPUT, category)
            end
          else mret (RBUS_ERROR_INVALID_INPUT, category)
      | _, _ => mret (RBUS_ERROR_INVALID_INPUT, category)
      end
  end.

(** ** Listing the issue types *)

Definition is_object (j : json) : bool := bool_decide (json_kind j = cJSON_Object).
Definition is_string (j : json) : bool := bool_decide (json_kind j = cJSON_String).

Definition has_direct_commands (category : option json) : bool :=
  match category with
  | None => false
  | Some _ =>
      existsb (fun item => is_object item &&
                 match cJSON_GetObjectItem (Some item) (Some #"Commands") with
                 | Some commands => is_string commands
                 | None => false
                 end) (json_items category)
  end.

Definition read_profile_json_file (filename : cstr) : M (option cstr) :=
  fp ← sys_fopen filename;
  match fp with
  | None => mret None
  | Some text =>
      if (length text <=? 0)%nat || (MAX_PROFILE_JSON_SIZE <=? length text)%nat then mret None else
      ok ← malloc;
      mret (if (ok : bool) then Some text else None)
  end.

(** The names of the issue types of a category, in order. *)
Definition issue_types (category : json) : list cstr :=
  omap (fun issueType => if is_object issueType then json_string issueType else None) (json_items (Some category)).

(** The response for one category. *)
Definition category_entry (category : json) : option (cstr * list cstr) :=
  match json_string category with
  | Some name =>
      if is_object category && has_direct_commands (Some category) && (0 <? length (issue_types category))%nat
      then Some (name, issue_types category) else None
  | None => None
  end.

Definition get_all_categories_json (j : option json) : option cstr :=
  match j with
  | None => print_object []
  | Some _ => print_object (omap category_entry (json_items j))
  end.

Definition get_specific_category_json (j : option json) (category_name : cstr) : option cstr :=
  match cJSON_GetObjectItem j (Some category_name) with
  | Some category =>
      if is_object category then
        if has_direct_commands (Some category) then print_array (issue_types category) else print_array []
      else get_all_categories_json j
  | None => get_all_categories_json j
  end.

(** The error and the value of the property after the call. *)
Definition set_rbus_response (prop : rbusProperty_t) (json_str : option cstr) : M (rbusError_t * rbusProperty_t) :=
  match json_str with
  | None => mret (RBUS_ERROR_BUS_ERROR, prop)
  | Some s =>
      ok ← malloc;
      mret (if (ok : bool) then (RBUS_ERROR_SUCCESS, RbusProperty (prop_name prop) (Some (RBUS_STRING (Some s))))
            else (RBUS_ERROR_BUS_ERROR, prop))
  end.

Definition rrd_GetHandler (prop : rbusProperty_t) (category : cstr) : M (rbusError_t * rbusProperty_t) :=
  propertyName ← deref (prop_name prop);
  if negb (streq propertyName RRD_GET_PROFILE_EVENT) then mret (RBUS_ERROR_INVALID_INPUT, prop) else
  jsonBuffer ← read_profile_json_file RRD_JSON_FILE;
  match jsonBuffer with
  | None => mret (RBUS_ERROR_BUS_ERROR, prop)
  | Some text =>
      match cJSON_Parse text with
      | None => mret (RBUS_ERROR_BUS_ERROR, prop)
      | Some j =>
          set_rbus_response prop
            (if (length category =? 0)%nat || streq category #"all" then get_all_categories_json (Some j)
             else get_specific_category_json (Some j) category)
      end
  end.
End Interface.

(** ** Lemmas *)

Lemma cut_newline_line s rest : NEWLINE ∉ s -> cut_newline (s ++ NEWLINE :: rest) = s.
Proof. intros Hn. unfold cut_newline. rewrite strchr_app by done. by rewrite take_app_length. Qed.

Lemma cut_newline_none s : NEWLINE ∉ s -> cut_newline s = s.
Proof. intros Hn. unfold cut_newline. by rewrite (proj2 (strchr_none _ _)). Qed.

(** The file that was written is read back. *)
Lemma load_saved `{OS} str w : NEWLINE ∉ str -> (length str <= 255)%nat ->
  os_fopen (w_trace w) RRD_PROFILE_CATEGORY_FILE = Some (str ++ [NEWLINE]) ->
  load_profile_category w = Ret (0, str) w.
Proof.
  intros Hn Hl Hf. unfold load_profile_category, sys_fopen. rewrite bind_ask, Hf. unfold fgets_lines.
  destruct (decide (length str = 255)%nat) as [E|E].
  - rewrite fgets_full by done. cbn [app]. by rewrite cut_newline_none.
  - rewrite fgets_first by (done || lia). cbn [app]. by rewrite cut_newline_line.
Qed.

(** ** Properties *)

(** C27: selecting a profile category over the bus.  A string of at most 255
    characters becomes the category; the handler reports success exactly when
    the file could be opened and the line could be written to it, but the
    category is changed even when it reports an error.  After a success, a
    daemon that starts with the file as it was written has the same category,
    for every string without a newline, the empty one and the longest one
    included.  Everything else is refused, and changes neither the category nor
    the file. *)
Theorem set_category_spec `{OS} name value category w :
  match name, value with
  | Some n, Some (RBUS_STRING (Some str)) =>
      if streq n RRD_SET_PROFILE_EVENT && (length str <=? 255)%nat then
        exists r w' evs, rrd_SetHandler (Some (RbusProperty name value)) category w = Ret (r, str) w' /\
          w_trace w' = w_trace w ++ evs /\
          (r = RBUS_ERROR_SUCCESS <->
             exists n, evs = [EvOpenW RRD_PROFILE_CATEGORY_FILE true;
                              EvFprintf RRD_PROFILE_CATEGORY_FILE (str ++ [NEWLINE]) n] /\ 0 < n) /\
          (NEWLINE ∉ str -> forall w2, os_fopen (w_trace w2) RRD_PROFILE_CATEGORY_FILE = Some (str ++ [NEWLINE]) ->
             load_profile_category w2 = Ret (0, str) w2)
      else rrd_SetHandler (Some (RbusProperty name value)) category w = Ret (RBUS_ERROR_INVALID_INPUT, category) w
  | _, _ => rrd_SetHandler (Some (RbusProperty name value)) category w = Ret (RBUS_ERROR_INVALID_INPUT, category) w
  end.
Proof.
  destruct name as [n|]; [|done]. destruct value as [[[str|]|]|]; cbn [rrd_SetHandler prop_name prop_value];
    [|by destruct (streq n _)..|done].
  destruct (streq n RRD_SET_PROFILE_EVENT); cbn [andb]; [|done].
  destruct (255 <? length str)%nat eqn:El.
  { replace (length str <=? 255)%nat with false by lia. done. }
  replace (length str <=? 255)%nat with true by lia. rewrite bounded_copy_id by lia.
  cut (returns (saved ← save_profile_category str;
        mret (if saved =? 0 then RBUS_ERROR_SUCCESS else RBUS_ERROR_BUS_ERROR, str)) (fun r evs => snd r = str /\
        (fst r = RBUS_ERROR_SUCCESS <->
             exists n, evs = [EvOpenW RRD_PROFILE_CATEGORY_FILE true;
                              EvFprintf RRD_PROFILE_CATEGORY_FILE (str ++ [NEWLINE]) n] /\ 0 < n))).
  { intros Hr. destruct (Hr w) as ([r s] & w' & evs & E & T & Hs & Hiff). cbn in Hs. subst s.
    exists r, w', evs. split_and!; [done|done|exact Hiff|]. intros Hn w2 Hf. apply load_saved; [done|lia|done]. }
  apply returns_bind with (Q := fun z evs => z = 0 <->
    exists n, evs = [EvOpenW RRD_PROFILE_CATEGORY_FILE true;
                     EvFprintf RRD_PROFILE_CATEGORY_FILE (str ++ [NEWLINE]) n] /\ 0 < n).
  - apply returns_act. intros [|]; cbn [negb]; [|apply returns_ret; split; [done|by intros (? & ? & _)]].
    apply returns_ask. intros [|]; cbn [negb]; [|apply returns_ret; split; [done|by intros (? & ? & _)]].
    apply returns_act. intros k. apply returns_ret. destruct (Z.ltb_spec 0 k) as [|].
    + split; [|done]. intros _. by exists k.
    + split; [done|]. intros (k' & [= ->] & ?). lia.
  - intros z evs Hz. apply returns_ret. rewrite app_nil_r. cbn [fst snd]. split; [done|]. rewrite <- Hz.
    destruct (Z.eqb_spec z 0); done.
Qed.

(** The status of a bus call. *)
Definition call_status (e : event) : option Z :=
  match e with EvRbus _ rc => Some rc | EvIarm _ rc => Some rc | _ => None end.

(** A status is that of the first call that failed, or 0. *)
Definition first_failure (evs : trace) (ret : Z) : Prop :=
  if ret =? 0 then Forall (fun rc => rc = 0) (omap call_status evs)
  else exists pre post, omap call_status evs = pre ++ ret :: post /\ Forall (fun rc => rc = 0) pre.

Lemma first_failure_one e rc : call_status e = Some rc -> first_failure [e] rc.
Proof.
  intros E. unfold first_failure. cbn. rewrite E. cbn. destruct (Z.eqb_spec rc 0) as [->|]; [by constructor|].
  by exists [], [].
Qed.

Lemma first_failure_cons e evs ret : call_status e = Some 0 -> first_failure evs ret -> first_failure (e :: evs) ret.
Proof.
  intros E. unfold first_failure. cbn. rewrite E. cbn. destruct (ret =? 0); [by constructor|].
  intros (pre & post & -> & Hp). exists (0 :: pre), post. split; [done|by constructor].
Qed.

Definition is_iarm (e : event) : Prop := match e with EvIarm _ _ => True | _ => False end.

Lemma iarm_subscribe_returns `{OS} `{Iarm} :
  returns RRD_IARM_subscribe (fun ret evs => first_failure evs ret /\ (ret = 0 -> length evs = if PWRMGR_PLUGIN then 3%nat else 4%nat) /\ Forall is_iarm evs).
Proof.
  unfold RRD_IARM_subscribe.
  do 3 (apply returns_act; intros rc; destruct (Z.eqb_spec rc 0) as [->|]; cbn [negb];
    [|apply returns_ret; split_and!; [|done|by repeat constructor];
      repeat (apply first_failure_cons; [done|]); by apply first_failure_one]).
  destruct PWRMGR_PLUGIN; [apply returns_ret; split_and!; [by repeat constructor|done|by repeat constructor]|].
  intros w. rewrite <- bind_ret_r. revert w. apply returns_act. intros rc. apply returns_ret.
  split_and!; [|done|by repeat constructor]. repeat (apply first_failure_cons; [done|]). by apply first_failure_one.
Qed.

Lemma load_returns `{OS} : returns load_profile_category (fun _ evs => evs = []).
Proof.
  apply returns_ask. intros [text|]; [|by apply returns_ret]. destruct (fgets_lines 256 text); by apply returns_ret.
Qed.

Lemma first_failure_app e1 e2 ret : first_failure e1 0 -> first_failure e2 ret -> first_failure (e1 ++ e2) ret.
Proof.
  unfold first_failure. cbn. intros H1. rewrite omap_app. destruct (ret =? 0); [by intros; apply Forall_app|].
  intros (pre & post & -> & Hp). exists (omap call_status e1 ++ pre), post. rewrite <- app_assoc. split; [done|by apply Forall_app].
Qed.

(** The part of the subscription that uses RBUS. *)
Definition rbus_subscribed `{Device} (evs : trace) (ret : Z) : Prop :=
  exists rc1 rc2 rc3,
    evs = EvRbus (RbusOpen REMOTE_DEBUGGER_RBUS_HANDLE_NAME) rc1 ::
      (if rc1 =? 0 then
         [EvRbus (RbusSubscribeEx subscribed_events 60) rc2;
          EvRbus (RbusRegDataElements [RRD_SET_PROFILE_EVENT; RRD_GET_PROFILE_EVENT]) rc3;
          EvRegisterSubDocs #"remotedebugger"]
       else []) /\
    ret = if rc1 =? 0 then if rc2 =? 0 then rc3 else rc2 else rc1.

Lemma rbus_subscribed_failure `{Device} evs ret : rbus_subscribed evs ret -> first_failure evs ret.
Proof.
  intros (rc1 & rc2 & rc3 & -> & ->). destruct (Z.eqb_spec rc1 0) as [->|]; [|by apply first_failure_one].
  unfold first_failure. cbn. destruct (Z.eqb_spec rc2 0) as [->|Hrc2].
  - destruct (Z.eqb_spec rc3 0) as [->|]; [by repeat constructor|]. exists [0; 0], []. split; [done|by repeat constructor].
  - destruct (Z.eqb_spec rc2 0); [done|]. exists [0], [rc3]. split; [done|by repeat constructor].
Qed.

Lemma rbus_subscribe_returns `{OS} `{Device} category : (forall k, os_malloc k = true) ->
  returns (ret ← sys_rbus (RbusOpen REMOTE_DEBUGGER_RBUS_HANDLE_NAME);
    if negb (ret =? 0) then mret (ret, category) else
    ret ← sys_rbus (RbusSubscribeEx subscribed_events 60);
    '(_, category) ← load_profile_category;
    res ← sys_rbus (RbusRegDataElements [RRD_SET_PROFILE_EVENT; RRD_GET_PROFILE_EVENT]);
    let ret := if negb (res =? 0) && (ret =? 0) then res else ret in
    _ ← webconfigFrameworkInit;
    mret (ret, category)) (fun r evs => rbus_subscribed evs (fst r)).
Proof.
  intros Hm. unfold rbus_subscribed. apply returns_act. intros rc1.
  destruct (Z.eqb_spec rc1 0) as [->|]; cbn [negb]; [|apply returns_ret; exists rc1, 0, 0; by destruct (Z.eqb_spec rc1 0)].
  apply returns_act. intros rc2. eapply returns_bind; [apply load_returns|]. intros [r category'] evs ->.
  apply returns_act. intros rc3. unfold webconfigFrameworkInit. intros w. rewrite bind_assoc. revert w.
  apply returns_malloc_ok; [done|]. cbn [negb]. apply returns_act. intros _. apply returns_ret.
  exists 0, rc2, rc3. split; [done|]. cbn [fst Z.eqb].
  destruct (Z.eqb_spec rc3 0), (Z.eqb_spec rc2 0); cbn [negb andb]; congruence.
Qed.

(** Joining the buses, when no allocation fails.  The status is that of the
    first call that failed, and 0 when none failed.  With IARM, the RBUS part
    is only tried when the IARM calls succeeded, four of them, or three with the
    plugin of the power manager.  When the RBUS handle
    cannot be opened, nothing else is tried; when it can, the subscription, the
    registration of the two properties and the registration with the web
    configuration framework are all tried, whatever the others answer. *)
Theorem RRD_subscribe_spec `{OS} `{Device} `{Iarm} category w :
  (forall k, os_malloc k = true) ->
  exists ret category' w' e1 e2, RRD_subscribe category w = Ret (ret, category') w' /\
    w_trace w' = w_trace w ++ e1 ++ e2 /\ first_failure (e1 ++ e2) ret /\ Forall is_iarm e1 /\
    (if IARMBUS_SUPPORT then
       (first_failure e1 0 /\ length e1 = (if PWRMGR_PLUGIN then 3%nat else 4%nat) /\ rbus_subscribed e2 ret) \/ (ret <> 0 /\ e2 = [])
     else e1 = [] /\ rbus_subscribed e2 ret).
Proof.
  intros Hm. pose proof (rbus_subscribe_returns category Hm) as Hr. unfold RRD_subscribe. destruct IARMBUS_SUPPORT.
  - destruct (iarm_subscribe_returns w) as (ret1 & w1 & e1 & E1 & T1 & Hf & Hl & Hi).
    rewrite (bind_run _ _ _ _ _ E1). destruct (Z.eqb_spec ret1 0) as [->|Hne]; cbn [negb].
    + destruct (Hr w1) as ([ret c'] & w2 & e2 & E2 & T2 & Hsub). exists ret, c', w2, e1, e2.
      split_and!; [exact E2|by rewrite T2, T1, app_assoc| |done|left; by split_and!; [|apply Hl|]].
      apply first_failure_app; [done|]. by apply rbus_subscribed_failure in Hsub.
    + exists ret1, category, w1, e1, []. rewrite app_nil_r. by split_and!; [..|right].
  - rewrite bind_ret_l. cbn [Z.eqb negb]. destruct (Hr w) as ([ret c'] & w2 & e2 & E2 & T2 & Hsub).
    exists ret, c', w2, [], e2. split_and!; try done. by apply rbus_subscribed_failure in Hsub.
Qed.

Lemma RRD_subscribe_spec_witness :
  exists c' w', @RRD_subscribe (demo_os empty_demo) {| IARMBUS_SUPPORT := true; RRD_DEVICE_PROFILE := []; deviceType := None |}
      sample_iarm #"all" (World [] 0) = Ret (0, c') w' /\ first_failure (w_trace w') 0 /\ length (w_trace w') = 8%nat.
Proof.
  destruct (@RRD_subscribe_spec (demo_os empty_demo) {| IARMBUS_SUPPORT := true; RRD_DEVICE_PROFILE := []; deviceType := None |}
      sample_iarm #"all" (World [] 0) (fun _ => eq_refl)) as (ret & c' & w' & e1 & e2 & E & T & Hf & _).
  exists c', w'. cbn [w_trace app] in T. rewrite <- T in Hf. vm_compute in E. injection E as <- <- <-.
  split; [done|]. split; [exact Hf|done].
Defined.

(** What the handler lists for all categories. *)
Definition listing `{CJSON} (j : json) : list (cstr * list cstr) := omap category_entry (json_items (Some j)).

(** Names that cJSON finds again: no name is used twice in the profile or in
    one of its categories. *)
Definition names_found `{CJSON} (j : json) : Prop :=
  forall obj item n, obj = j \/ obj ∈ json_items (Some j) -> item ∈ json_items (Some obj) -> json_string item = Some n ->
    cJSON_GetObjectItem (Some obj) (Some n) = Some item.

Lemma elem_of_listing `{CJSON} j name types : (name, types) ∈ listing j ->
  exists category, category ∈ json_items (Some j) /\ json_string category = Some name /\ is_object category = true /\
    has_direct_commands (Some category) = true /\ types = issue_types category.
Proof.
  intros (category & Hin & He)%list_elem_of_omap. exists category. revert He. unfold category_entry.
  destruct (json_string category) as [n|] eqn:En; [|done]. case_match eqn:Eb; [|done]. intros [= -> <-].
  apply andb_true_iff in Eb as [[]%andb_true_iff _]. done.
Qed.

(** A type that is listed is found by the lookup of an issue. *)
Lemma listed_found `{CJSON} j name types ty : names_found j -> (forall x, is_Some (cJSON_Print (Some x))) ->
  (name, types) ∈ listing j -> ty ∈ types ->
  findIssueInParsedJSON (IssueNode (Some name) (Some ty)) (Some j) = true.
Proof.
  intros Hu Hp (category & Hin & Hname & _ & _ & ->)%elem_of_listing Hty. unfold findIssueInParsedJSON. cbn [Node subNode].
  rewrite (Hu j category name) by (done || by left). destruct (Hp category) as [s ->]. destruct (streq s _); [done|].
  apply list_elem_of_omap in Hty as (item & Hi & He). destruct (is_object item); [|done].
  rewrite (Hu category item ty) by (done || by right). by destruct (Hp item) as [s' ->].
Qed.

(** C28: reading the profile data over the bus, when no allocation and no
    printing fails and the profile file has between 1 and 32767 bytes.  For the
    category [all] or none the handler answers every category with commands and
    its issue types; for one of these categories it answers exactly that
    category's list; and every issue type it lists is one that an issue event
    finds in the profile. *)
Theorem get_profile_spec `{OS} `{CJSON} `{CJSONBuild} prop category text j w :
  (forall k, os_malloc k = true) -> (forall x, is_Some (cJSON_Print (Some x))) ->
  (forall l, is_Some (print_array l)) -> (forall l, is_Some (print_object l)) -> names_found j ->
  prop_name prop = Some RRD_GET_PROFILE_EVENT -> os_fopen (w_trace w) RRD_JSON_FILE = Some text ->
  (0 < length text < MAX_PROFILE_JSON_SIZE)%nat -> cJSON_Parse text = Some j ->
  exists resp w', rrd_GetHandler prop category w =
      Ret (RBUS_ERROR_SUCCESS, RbusProperty (prop_name prop) (Some (RBUS_STRING (Some resp)))) w' /\
    w_trace w' = w_trace w /\
    (category = [] \/ category = #"all" -> print_object (listing j) = Some resp) /\
    (forall types, (category, types) ∈ listing j -> category <> [] -> category <> #"all" -> print_array types = Some resp) /\
    (forall name types ty, (name, types) ∈ listing j -> ty ∈ types ->
       findIssueInParsedJSON (IssueNode (Some name) (Some ty)) (Some j) = true).
Proof.
  intros Hm Hp Ha Ho Hu Hname Hf Hlen Hj.
  set (answer := if (length category =? 0)%nat || streq category #"all" then get_all_categories_json (Some j)
                 else get_specific_category_json (Some j) category).
  assert (is_Some answer) as [resp Hresp].
  { unfold answer, get_specific_category_json, get_all_categories_json. repeat case_match; auto. }
  exists resp, (World (w_trace w) (S (S (w_allocs w)))). split; [|split; [done|split; [|split]]].
  - unfold rrd_GetHandler, read_profile_json_file. rewrite Hname. cbn [deref]. rewrite bind_ret_l.
    rewrite (proj2 (streq_true _ _)) by done. cbn [negb]. unfold sys_fopen. rewrite bind_assoc, bind_ask, Hf.
    replace ((length text <=? 0)%nat || (MAX_PROFILE_JSON_SIZE <=? length text)%nat) with false by lia.
    rewrite bind_assoc, bind_malloc_ok, bind_ret_l, Hj by done. fold answer. rewrite Hresp. cbn [set_rbus_response].
    rewrite bind_malloc_ok by done. by rewrite Hname.
  - intros [-> | ->]; exact Hresp.
  - intros types Hin Hne Hall. unfold answer in Hresp. destruct category as [|a s]; [done|]. cbn [length Nat.eqb orb] in Hresp.
    rewrite (proj2 (streq_false _ _)) in Hresp by done. unfold get_specific_category_json in Hresp.
    apply elem_of_listing in Hin as (cat & Hin & Hn & Hobj & Hd & ->). rewrite (Hu j cat _ (or_introl eq_refl) Hin Hn), Hobj, Hd in Hresp. done.
  - intros name types ty. by apply listed_found.
Qed.

Definition sample_build : CJSONBuild := {|
  print_array := fun l => Some (#"[" ++ join #"," l ++ #"]");
  print_object := fun l => Some (#"{" ++ join #"," ((fun e => fst e ++ #":[" ++ join #"," (snd e) ++ #"]") <$> l) ++ #"}") |}.

Definition sample_listed : Tree.node := Tree.obj [
  Tree.field #"Sanity" (Tree.VObj [Tree.field #"Check" (Tree.VObj [Tree.field #"Commands" (Tree.VArr [])])]);
  Tree.field #"Device" (Tree.VObj [
    Tree.field #"Info" (Tree.VObj [Tree.field #"Commands" (Tree.VStr #"uptime"); Tree.field #"Timeout" (Tree.VNum 10)]);
    Tree.field #"Uptime" (Tree.VObj [Tree.field #"Commands" (Tree.VStr #"uptime")])])].

Definition sample_listing_os : OS := demo_os {|
  demo_stat := fun _ => None; demo_dir := fun _ => None;
  demo_file := fun p => if streq p RRD_JSON_FILE then Some #"{profile}" else None;
  demo_popen := fun _ => None; demo_lock := fun _ => LockGranted; demo_upload := 0 |}.

Lemma get_profile_spec_witness :
  exists w', @rrd_GetHandler sample_listing_os (Tree.tree_CJSON (fun _ => Some sample_listed)) sample_build
      (RbusProperty (Some RRD_GET_PROFILE_EVENT) None) #"all" (World [] 0) =
      Ret (RBUS_ERROR_SUCCESS, RbusProperty (Some RRD_GET_PROFILE_EVENT) (Some (RBUS_STRING (Some #"{Device:[Info,Uptime]}")))) w'.
Proof.
  destruct (@get_profile_spec sample_listing_os (Tree.tree_CJSON (fun _ => Some sample_listed)) sample_build
      (RbusProperty (Some RRD_GET_PROFILE_EVENT) None) #"all" #"{profile}" sample_listed (World [] 0))
    as (resp & w' & E & _ & Hall & _).
  - done.
  - intros x. by eexists.
  - intros l. by eexists.
  - intros l. by eexists.
  - intros obj item n Hobj Hin%list_elem_of_In E. rewrite list_elem_of_In in Hobj. cbn in E.
    vm_compute in Hobj. destruct Hobj as [->|[<-|[<-|[]]]]; vm_compute in Hin;
      repeat (destruct Hin as [<-|Hin]; [injection E as <-; reflexivity|]); destruct Hin.
  - done.
  - done.
  - unfold MAX_PROFILE_JSON_SIZE. change (length _) with 9%nat. lia.
  - done.
  - exists w'. rewrite E. specialize (Hall (or_intror eq_refl)). vm_compute in Hall. injection Hall as <-. done.
Defined.
