(* ===== verification/Main.v ===== *)
(** * Main: the event thread and the whole daemon (src/rrdMain.c)

    The start of the daemon, the loop of the event thread, and the daemon as a
    transition system: the callbacks of the buses put messages in the queue, the
    event thread takes the oldest one, and all share the cache of pending
    requests.  A step is one callback or one message, taken as a whole; a
    callback that ends the process or commits a fault is not a step. *)

From stdpp Require Import relations.
From S2P Require Import Prelude Types OS CJson IssueType Cache RunCmd Profile.
From S2P Require Import Dynamic Queue MsgPack EventProcess Iarm Interface.

Local Open Scope Z_scope.

(** What the start of the daemon asks: the parameter of the remote feature
    control (build with IARM; [None] when it cannot be read), the system
    configuration (the other build; the value is empty when it cannot be read),
    and whether the message queue can be made. *)
Class Rfc := {
  rfc_param : option cstr;
  syscfg_init : bool;
  syscfg_value : cstr;
  msgget : bool }.

Section Main.
Context `{OS} `{CJSON} `{CJSONBuild} `{MsgPack} `{Iarm} `{Rfc}.

(** [strcasecmp(a, b) == 0] *)
Definition strcasecmp_eq (a b : cstr) : bool := streq (toupper <$> a) (toupper <$> b).

Definition isRRDEnabled `{Device} : bool :=
  if IARMBUS_SUPPORT then
    match rfc_param with Some v => negb (strcasecmp_eq #"false" v) | None => true end
  else if syscfg_init then negb (length syscfg_value =? 0)%nat && starts_with #"true" syscfg_value
  else true.

(** The [switch] on the type of a message: the cache, and the request that is
    pushed to the web configuration framework. *)
Definition handle_message `{Device} (rbuf : data_buf) (c : cache) : M (cache * option execData) :=
  match mtype rbuf with
  | EVENT_MSG => c ← processIssueTypeEvent rbuf c; mret (c, None)
  | EVENT_WEBCFG_MSG => pushed ← processWebCfgTypeEvent rbuf; mret (c, pushed)
  | DEEPSLEEP_EVENT_MSG =>
      if IARMBUS_SUPPORT then c ← RRDProcessDeepSleepAwakeEvents rbuf c; mret (c, None) else mret (c, None)
  | DEFAULT => mret (c, None)
  end.

(** [received] are the messages that [msgrcv] delivers before it fails. *)
Fixpoint RRDEventThreadFunc `{Device} (received : list data_buf) (c : cache) : M (cache * list execData) :=
  match received with
  | [] => mret (c, [])
  | rbuf :: received' =>
      '(c, pushed) ← handle_message rbuf c;
      '(c, more) ← RRDEventThreadFunc received' c;
      mret (c, option_list pushed ++ more)
  end.

(** The event thread runs to its end before the daemon leaves the buses;
    [isPwrCtlInterface] is the flag of the power controller thread then. *)
Definition main (support isPwrCtlInterface : bool) (profiles : cstr) (received : list data_buf) : M Z :=
  type ← RRDStoreDeviceInfo;
  let device := {| IARMBUS_SUPPORT := support; RRD_DEVICE_PROFILE := profiles; deviceType := type |} in
  if negb isRRDEnabled then mexit 0 else
  if negb msgget then mexit 1 else
  _ ← RRD_subscribe #"all";
  _ ← RRDEventThreadFunc received initCache;
  _ ← RRD_unsubscribe isPwrCtlInterface;
  mret 0.

(** ** The daemon as a transition system *)

(** [s_received] are the messages the event thread has taken, oldest first;
    [s_blobs] the requests that wait in the web configuration framework. *)
Record system := System {
  s_world : world; s_queue : list data_buf; s_received : list data_buf; s_cache : cache; s_category : cstr;
  s_blobs : list execData }.

Definition history (s : system) : trace := w_trace (s_world s).

(** After a callback that ends in the world [w]: what it sent is in the queue. *)
Definition advance (s : system) (w : world) (c : cache) (category : cstr) (blobs : list execData) : system :=
  System w (s_queue s ++ sent_since (s_world s) w) (s_received s) c category blobs.

(** The event thread takes the oldest message. *)
Definition take_message (s : system) (m : data_buf) (queue : list data_buf) : system :=
  System (s_world s) queue (s_received s ++ [m]) (s_cache s) (s_category s) (s_blobs s).

Context `{Device}.

(** A callback that returns, or the event thread handling a message.  The
    callback of a web configuration reads past its buffer; it returns when the
    memory goes on there, with the text that [os_beyond] tells. *)
Inductive step (s : system) : system -> Prop :=
| step_issue v w' : _remoteDebuggerEventHandler v (s_world s) = Ret tt w' ->
    step s (advance s w' (s_cache s) (s_category s) (s_blobs s))
| step_webcfg value w' : _remoteDebuggerWebCfgDataEventHandler value (s_world s) = Ret tt w' ->
    step s (advance s w' (s_cache s) (s_category s) (s_blobs s))
| step_download c' w' : IARMBUS_SUPPORT = false -> _rdmDownloadEventHandler (s_cache s) (s_world s) = Ret c' w' ->
    step s (advance s w' c' (s_category s) (s_blobs s))
| step_rdm owner eventId data c' w' : IARMBUS_SUPPORT = true ->
    _rdmManagerEventHandler owner eventId data (s_cache s) (s_world s) = Ret c' w' ->
    step s (advance s w' c' (s_category s) (s_blobs s))
| step_power owner data w' : IARMBUS_SUPPORT = true -> PWRMGR_PLUGIN = false ->
    _pwrManagerEventHandler owner data (s_world s) = Ret tt w' ->
    step s (advance s w' (s_cache s) (s_category s) (s_blobs s))
| step_power_plugin cur new w' : IARMBUS_SUPPORT = true -> PWRMGR_PLUGIN = true ->
    _pwrManagerEventHandler_plugin cur new (s_world s) = Ret tt w' ->
    step s (advance s w' (s_cache s) (s_category s) (s_blobs s))
| step_set prop r category' w' : rrd_SetHandler prop (s_category s) (s_world s) = Ret (r, category') w' ->
    step s (advance s w' (s_cache s) category' (s_blobs s))
| step_get prop r w' : rrd_GetHandler prop (s_category s) (s_world s) = Ret r w' ->
    step s (advance s w' (s_cache s) (s_category s) (s_blobs s))
| step_blob e blobs r w' : s_blobs s = e :: blobs ->
    Process_RemoteDebugger_WebConfigRequest (Some (user_data e)) (s_world s) = Ret r w' ->
    step s (advance s w' (s_cache s) (s_category s) blobs)
| step_message m queue c' pushed w' : s_queue s = m :: queue ->
    handle_message m (s_cache s) (s_world s) = Ret (c', pushed) w' ->
    step s (advance (take_message s m queue) w' c' (s_category s) (s_blobs s ++ option_list pushed)).

(** The daemon when the event thread starts: [w] is the world in which the
    buses were joined. *)
Definition started (w : world) (category : cstr) : system := System w [] [] initCache category [].

Definition reachable (s : system) : Prop :=
  exists w category, sent (w_trace w) = [] /\ rtc step (started w category) s.
End Main.

(** ** The invariant *)

(** The download manager accepted a request. *)
Definition accepted (t : trace) : Prop := exists file, EvRbus (RbusSet RDM_MGR_PKG_INST file) 0 ∈ t.

(** An entry of the cache comes from an accepted request. *)
Definition justified (t : trace) (e : entry) : Prop := exists append deep, entry_requested append deep t e.

(** The shapes of messages the event thread is written for. *)
Record message_ok (t : trace) (m : data_buf) : Prop := {
  ok_text : is_Some (buf_mdata m);
  ok_type : mtype m <> DEFAULT;
  ok_path : match jsonPath m with
            | Some _ => inDynamic m = negb (appendMode m) /\ accepted t
            | None => inDynamic m = false
            end;
  ok_deep : mtype m = DEEPSLEEP_EVENT_MSG ->
            match jsonPath m with
            | Some _ => dsEvent m = RRD_DEEPSLEEP_RDM_PKG_INSTALL_COMPLETE
            | None => dsEvent m = RRD_DEEPSLEEP_RDM_DOWNLOAD_PKG_INITIATE /\ buf_mdata m = Some DEEP_SLEEP_STR
            end;
  ok_suffix : suffix m = None }.

(** Nothing is lost in the queue and the order is kept; every message was
    well-formed when it was sent; the cache is a list of accepted requests. *)
Record invariant (s : system) : Prop := {
  inv_cache : exists l, repr (s_cache s) l /\ Forall (justified (history s)) l;
  inv_queue : sent (history s) = s_received s ++ s_queue s;
  inv_sent : forall pre m post, history s = pre ++ EvMsgsnd m true :: post -> message_ok pre m }.

Lemma justified_mono t evs e : justified t e -> justified (t ++ evs) e.
Proof.
  intros (append & deep & He). exists append, deep. eapply entry_requested_mono; [|exact He].
  intros ev Hin. apply elem_of_app. by left.
Qed.

Lemma justified_list_mono t evs l : Forall (justified t) l -> Forall (justified (t ++ evs)) l.
Proof. apply Forall_impl. intros e. apply justified_mono. Qed.

Lemma justified_accepted t e : justified t e -> accepted t.
Proof. intros (append & deep & file & Hin & _). by exists file. Qed.

Lemma sent_nothing evs m : sent evs = [] -> EvMsgsnd m true ∉ evs.
Proof.
  intros Hs Hin. assert (m ∈ sent evs) as Hm by (apply list_elem_of_omap; by exists (EvMsgsnd m true)).
  rewrite Hs in Hm. by apply elem_of_nil in Hm.
Qed.

(** What a step must show of its events. *)
Definition sends_ok (t evs : trace) : Prop :=
  forall pre m post, evs = pre ++ EvMsgsnd m true :: post -> message_ok (t ++ pre) m.

Lemma sends_nothing t evs : sent evs = [] -> sends_ok t evs.
Proof. intros Hs pre m post ->. destruct (sent_nothing _ m Hs). set_solver. Qed.

Lemma sends_one t pre m : sent pre = [] -> message_ok (t ++ pre) m -> sends_ok t (pre ++ [EvMsgsnd m true]).
Proof.
  intros Hp Hm pre' m' post E. destruct post as [|e post _] using rev_ind.
  - apply app_inj_tail in E as [-> [= ->]]. done.
  - rewrite app_comm_cons, app_assoc in E. apply app_inj_tail in E as [-> _]. destruct (sent_nothing _ m' Hp). set_solver.
Qed.

Lemma inv_step s w' evs c' category blobs :
  invariant s -> w_trace w' = history s ++ evs ->
  (forall l, repr (s_cache s) l -> Forall (justified (history s)) l ->
     exists l', repr c' l' /\ Forall (justified (history s ++ evs)) l') ->
  sends_ok (history s) evs -> invariant (advance s w' c' category blobs).
Proof.
  intros [(l & Hr & Hl) Hq Hs] T Hc Hm.
  assert (history (advance s w' c' category blobs) = history s ++ evs) as Hh by exact T. split; rewrite ?Hh.
  - by apply (Hc l).
  - unfold advance. cbn [s_queue s_received]. by rewrite (sent_since_events _ _ _ T), sent_app, Hq, app_assoc.
  - intros pre m post E. apply app_eq_app in E as (k & [[E1 E]|[-> E]]).
    + destruct k as [|e k].
      * rewrite app_nil_r in E1. subst pre. specialize (Hm [] m post (eq_sym E)). by rewrite app_nil_r in Hm.
      * injection E as <- ->. by apply (Hs pre m k).
    + by apply (Hm k m post).
Qed.

(** A step that leaves the cache alone. *)
Lemma inv_quiet_cache s w' evs category blobs :
  invariant s -> w_trace w' = history s ++ evs -> sends_ok (history s) evs ->
  invariant (advance s w' (s_cache s) category blobs).
Proof.
  intros Hi T Hm. eapply inv_step; [done..| |done]. intros l Hr Hl. exists l. split; [done|]. by apply justified_list_mono.
Qed.

Lemma inv_take s m queue : invariant s -> s_queue s = m :: queue -> invariant (take_message s m queue).
Proof.
  intros [Hc Hq Hs] E. split; unfold history; cbn; [exact Hc| |exact Hs]. unfold history in Hq. by rewrite Hq, E, <- app_assoc.
Qed.

Lemma list_message_ok t ty s append : ty = EVENT_MSG \/ ty = EVENT_WEBCFG_MSG -> message_ok t (list_message ty s append).
Proof. intros Hty. split; cbn; try done; [by destruct Hty as [-> | ->]..]. Qed.

Lemma installed_message_ok t buf i path :
  accepted t -> suffix buf = None ->
  (mtype buf = EVENT_MSG \/ mtype buf = DEEPSLEEP_EVENT_MSG /\ dsEvent buf = RRD_DEEPSLEEP_RDM_PKG_INSTALL_COMPLETE) ->
  message_ok t (installed_message buf i path).
Proof.
  intros Ha Hsuf Hty. unfold installed_message. destruct (checkAppendRequest i) as [append b]. split; cbn; try done.
  - destruct Hty as [->|[-> _]]; done.
  - destruct Hty as [->|[_ ->]]; done.
Qed.

Section Reachable.
Context `{OS} `{CJSONLaws} `{CJSONBuild} `{MsgPack} `{Iarm} `{Device}.

(** Directory entries have names. *)
Hypothesis names : forall t p, Forall (fun n => n <> []) (default [] (os_readdir t p)).

(** A report on a package. *)
Lemma inv_installed s w' evs c' category blobs :
  invariant s -> w_trace w' = history s ++ evs ->
  (forall l, repr (s_cache s) l -> entry_installed (s_cache s) l c' evs) ->
  invariant (advance s w' c' category blobs).
Proof.
  intros Hi T Hc. pose proof Hi as [(l & Hr & Hl) _ _].
  destruct (Hc l Hr) as [[Hr' ->]|(l1 & e & l2 & -> & Hr' & Hevs)].
  - eapply inv_step; [done..| |by apply sends_nothing]. intros _ _ _. exists l. split; [done|]. by apply justified_list_mono.
  - apply Forall_app in Hl as [Hl1 [He Hl2]%Forall_cons_iff].
    eapply inv_step; [done..| |].
    + intros _ _ _. exists (l1 ++ l2). split; [done|]. apply justified_list_mono. by apply Forall_app.
    + destruct Hevs as [->|(buf & i & path & _ & -> & Hsuf & Hty)]; [by apply sends_nothing|].
      apply (sends_one _ []); [done|]. rewrite app_nil_r. apply installed_message_ok; [by eapply justified_accepted|done..].
Qed.

(** A step that adds the entries of accepted requests. *)
Lemma inv_grows append deep s w' evs c' category blobs :
  invariant s -> w_trace w' = history s ++ evs -> cache_grows append deep (s_cache s) c' evs -> sent evs = [] ->
  invariant (advance s w' c' category blobs).
Proof.
  intros Hi T Hc Hs. eapply inv_step; [done..| |by apply sends_nothing]. intros l Hr Hl.
  destruct (Hc l Hr) as (new & Hr' & Hnew). exists (new ++ l). split; [done|]. apply Forall_app.
  split; [|by apply justified_list_mono]. eapply Forall_impl; [|exact Hnew]. intros e He. exists append, deep.
  eapply entry_requested_mono; [|exact He]. set_solver.
Qed.

Lemma set_yields prop category :
  yields (rrd_SetHandler prop category) (fun _ evs => sent evs = []).
Proof.
  unfold rrd_SetHandler, save_profile_category. repeat (case_match; try by apply yields_ret).
  eapply yields_bind with (Q := fun _ evs => sent evs = []); [|intros saved evs Hs; apply yields_ret; by rewrite app_nil_r].
  apply yields_act. intros [|]; cbn [negb]; [|by apply yields_ret].
  apply yields_ask. intros [|]; cbn [negb]; [|by apply yields_ret].
  apply yields_act. intros n. by apply yields_ret.
Qed.

Lemma get_yields prop category : yields (rrd_GetHandler prop category) (fun _ evs => evs = []).
Proof.
  unfold rrd_GetHandler, read_profile_json_file. apply yields_deref. intros n _.
  destruct (negb _); [by apply yields_ret|]. eapply yields_bind with (Q := fun _ evs => evs = []).
  - apply yields_ask. intros [text|]; [|by apply yields_ret]. destruct (_ || _); [by apply yields_ret|].
    apply yields_malloc. intros ok. by apply yields_ret.
  - intros r evs ->. repeat (case_match; try by apply yields_ret).
    all: unfold set_rbus_response; case_match; [apply yields_malloc; intros ok|]; by apply yields_ret.
Qed.

(** A message the event thread handles. *)
Lemma message_yields m c :
  yields (handle_message m c) (fun r evs => sent evs = [] /\ exists append deep, cache_grows append deep c (fst r) evs).
Proof.
  unfold handle_message. destruct (mtype m).
  - apply yields_ret. split; [done|]. exists false, false. apply cache_grows_refl.
  - eapply yields_bind; [by apply event_handled|]. intros c' evs (Hc & _ & Hs). apply yields_ret. rewrite app_nil_r.
    split; [done|]. by exists (appendMode m), false.
  - eapply yields_bind with (Q := fun _ evs => evs = []).
    + unfold processWebCfgTypeEvent. destruct (buf_mdata m); [|by apply yields_ret].
      eapply yields_bind; [apply silent_decode|]. intros [rc pushed] evs ->. by apply yields_ret.
    + intros pushed evs ->. apply yields_ret. split; [done|]. exists false, false. apply cache_grows_refl.
  - destruct IARMBUS_SUPPORT eqn:Ei.
    + eapply yields_bind; [by apply deep_sleep_yields|]. intros c' evs [Hs Hc]. apply yields_ret. rewrite app_nil_r.
      split; [done|]. by eexists _, _.
    + apply yields_ret. split; [done|]. exists false, false. apply cache_grows_refl.
Qed.

(** The messages of a list of issues. *)
Lemma inv_list_message s w' evs ty category blobs :
  ty = EVENT_MSG \/ ty = EVENT_WEBCFG_MSG ->
  invariant s -> w_trace w' = history s ++ evs ->
  (evs = [] \/ exists str append, evs = [EvMsgsnd (list_message ty str append) true]) ->
  invariant (advance s w' (s_cache s) category blobs).
Proof.
  intros Hty Hi T Hevs. eapply inv_quiet_cache; [done..|]. destruct Hevs as [->|(str & append & ->)]; [by apply sends_nothing|].
  apply (sends_one _ []); [done|]. by apply list_message_ok.
Qed.

(** The end of a deep sleep. *)
Lemma inv_awakened s w' evs category blobs :
  invariant s -> w_trace w' = history s ++ evs -> awakened evs -> invariant (advance s w' (s_cache s) category blobs).
Proof.
  intros Hi T (pre & Hpre & Hevs). eapply inv_quiet_cache; [done..|].
  assert (sent pre = []) as Hs.
  { clear -Hpre. induction pre as [|e pre IH]; [done|]. destruct (Hpre e ltac:(left)) as [rc ->]. apply IH. set_solver. }
  destruct Hevs as [->| ->]; [by apply sends_nothing|]. apply sends_one; [done|]. by split.
Qed.

Lemma step_invariant s s' : step s s' -> invariant s -> invariant s'.
Proof.
  intros Hstep Hi. destruct Hstep as [v w' E|text w' E|c' w' _ E|owner eventId data c' w' _ E|owner data w' _ _ E
    |cur new w' _ _ E|prop r category' w' E|prop r w' E|e blobs r w' _ E|m queue c' pushed w' Eq E].
  - destruct (issue_event_yields _ _ _ _ E) as (evs & T & Hevs). eapply inv_list_message; [|done..|exact Hevs]. by left.
  - destruct (webcfg_event_yields _ _ _ _ E) as (evs & T & Hevs). eapply inv_list_message; [|done..|exact Hevs]. by right.
  - pose proof Hi as [(l & Hr & _) _ _]. destruct (rdmDownload_yields _ l Hr _ _ _ E) as (evs & T & _).
    eapply inv_installed; [done..|]. intros l' Hr'. destruct (rdmDownload_yields _ l' Hr' _ _ _ E) as (evs' & T' & Hc).
    rewrite T in T'. by apply app_inv_head in T' as ->.
  - pose proof Hi as [(l & Hr & _) _ _]. destruct (rdmManager_yields owner eventId data _ l Hr _ _ _ E) as (evs & T & _).
    eapply inv_installed; [done..|]. intros l' Hr'.
    destruct (rdmManager_yields owner eventId data _ l' Hr' _ _ _ E) as (evs' & T' & Hc).
    rewrite T in T'. by apply app_inv_head in T' as ->.
  - destruct (pwrManager_yields _ _ _ _ _ E) as (evs & T & Hevs). by eapply inv_awakened.
  - destruct (power_yields _ _ _ _ _ E) as (evs & T & Hevs). by eapply inv_awakened.
  - destruct (set_yields _ _ _ _ _ E) as (evs & T & Hs). eapply inv_quiet_cache; [done..|]. by apply sends_nothing.
  - destruct (get_yields _ _ _ _ _ E) as (evs & T & ->). eapply inv_quiet_cache; [done..|]. by apply sends_nothing.
  - destruct (blob_yields _ _ _ _ E) as (evs & T & Hevs). eapply inv_list_message; [|done..|exact Hevs]. by left.
  - destruct (message_yields _ _ _ _ _ E) as (evs & T & Hs & append & deep & Hc).
    eapply inv_grows; [by apply inv_take|exact T|exact Hc|done].
Qed.

Lemma started_invariant w category : sent (w_trace w) = [] -> invariant (started w category).
Proof.
  intros Hs. split.
  - exists []. split; [apply repr_init|constructor].
  - exact Hs.
  - intros pre m post E. unfold history, started in E. cbn [s_world] in E. destruct (sent_nothing _ m Hs). rewrite E. set_solver.
Qed.

Lemma reachable_invariant s : reachable s -> invariant s.
Proof.
  intros (w & category & Hs & Hrun). pose proof (started_invariant w category Hs) as Hi. revert Hi.
  induction Hrun as [|s1 s2 s3 Hstep _ IH]; [done|]. intros Hi. apply IH. by eapply step_invariant.
Qed.
End Reachable.

(** ** Runs *)

Section Runs.
Context `{OS} `{CJSONLaws} `{CJSONBuild} `{MsgPack} `{Iarm} `{Device}.
Hypothesis names : forall t p, Forall (fun n => n <> []) (default [] (os_readdir t p)).

Lemma advance_queue s w' evs c category blobs :
  w_trace w' = history s ++ evs -> s_queue (advance s w' c category blobs) = s_queue s ++ sent evs.
Proof. intros T. unfold advance. cbn [s_queue]. by rewrite (sent_since_events _ _ _ T). Qed.

(** The loop of the event thread is a sequence of steps. *)
Lemma event_thread_run queue : forall s c blobs w',
  s_queue s = queue -> RRDEventThreadFunc queue (s_cache s) (s_world s) = Ret (c, blobs) w' ->
  exists s', rtc step s s' /\ s_queue s' = [] /\ s_received s' = s_received s ++ queue /\ s_cache s' = c /\
    s_category s' = s_category s /\ s_blobs s' = s_blobs s ++ blobs /\ s_world s' = w'.
Proof.
  induction queue as [|m queue IH]; intros s c blobs w' Hq E; cbn [RRDEventThreadFunc] in E.
  { injection E as <- <- <-. exists s. rewrite !app_nil_r. by split_and!. }
  unfold mbind at 1, M_bind at 1 in E. destruct (handle_message m (s_cache s) (s_world s)) as [[c1 pushed] w1| |] eqn:E1; [|done|done].
  unfold mbind, M_bind in E. destruct (RRDEventThreadFunc queue c1 w1) as [[c2 more] w2| |] eqn:E2; [|done|done].
  injection E as <- <- <-. destruct (message_yields names _ _ _ _ _ E1) as (evs & T & Hs & _).
  set (s1 := advance (take_message s m queue) w1 c1 (s_category s) (s_blobs s ++ option_list pushed)).
  destruct (IH s1 c2 more w2) as (s' & Hrun & Hq' & Hr' & Hc' & Hcat & Hb & Hw).
  - unfold s1. rewrite (advance_queue (take_message s m queue) w1 evs) by exact T. by rewrite Hs, app_nil_r.
  - exact E2.
  - exists s'. split; [by eapply rtc_l; [apply (step_message s m queue c1 pushed w1)|]|]. split; [done|].
    split; [rewrite Hr'; cbn; by rewrite <- app_assoc|]. split; [done|]. split; [done|].
    split; [rewrite Hb; cbn; by rewrite <- app_assoc|done].
Qed.

Lemma plain_no_suffix i : plain_issue i -> checkAppendRequest (issue_text i) = (false, issue_text i).
Proof.
  intros Hi. destruct (checkAppendRequest_decides (issue_text i)) as [(b & E & _)|[_ ->]]; [|done].
  destruct (plain_free i "_" Hi eq_refl ltac:(done)). rewrite E. apply elem_of_app. right. by apply (bool_decide_unpack _).
Qed.

(** An issue arrives and is taken by the event thread: its package is requested. *)
Lemma issue_requested s i l :
  (forall k, os_malloc k = true) -> (forall t m, os_msgsnd t m = true) ->
  plain_issue i -> unknown_issue i -> s_queue s = [] -> repr (s_cache s) l ->
  exists rc s1, rtc step s s1 /\ s_queue s1 = [] /\
    history s1 = history s ++ [EvMsgsnd (issue_message (issue_text i)) true; request_event i rc] /\
    s_received s1 = s_received s ++ [issue_message (issue_text i)] /\
    (rc = 0 -> exists p, repr (s_cache s1) (Entry p (Some (RDM_PKG_PREFIX ++ fst i)) (Some (issue_text i)) :: l)).
Proof.
  intros Hm Hsnd Hi Hu Hq Hr.
  pose proof (issue_event_delivered (issue_text i) false (issue_text i) (s_world s) Hm (plain_nonempty i Hi) (plain_no_suffix i Hi)) as Hd.
  unfold delivered in Hd. rewrite Hsnd in Hd. destruct Hd as (w1 & E1 & T1).
  set (s1 := advance s w1 (s_cache s) (s_category s) (s_blobs s)).
  assert (s_queue s1 = [issue_message (issue_text i)]) as Hq1.
  { unfold s1. rewrite (advance_queue s w1 _ _ _ _ T1), Hq. done. }
  assert (strtok_all "," (issue_text i) = issue_text <$> [i]) as Htok.
  { apply strtok_all_single; [by apply (plain_free i)|by apply plain_nonempty]. }
  destruct (event_requests (issue_message (issue_text i)) (issue_text i) [i] (s_cache s) l Hm (conj eq_refl eq_refl) eq_refl Htok
    ltac:(done) (proj2 (Forall_singleton _ _) Hi) (proj2 (Forall_singleton _ _) Hu) Hr w1)
    as (c2 & w2 & evs & E2 & T2 & rcs & new & Hlen & -> & Hr2 & Hnew).
  destruct rcs as [|rc [|]]; try discriminate Hlen.
  exists rc, (advance (take_message s1 (issue_message (issue_text i)) []) w2 c2 (s_category s1) (s_blobs s1 ++ [])). split_and!.
  - eapply rtc_l; [by apply (step_issue s (Some (issue_text i)) w1)|]. apply rtc_once.
    apply (step_message s1 _ [] c2 None w2 Hq1). unfold handle_message. cbn [issue_message mtype].
    by rewrite (bind_run _ _ _ _ _ E2).
  - by rewrite (advance_queue (take_message s1 (issue_message (issue_text i)) []) w2 [request_event i rc]) by exact T2.
  - change (w_trace w2 = history s ++ [EvMsgsnd (issue_message (issue_text i)) true; request_event i rc]).
    by rewrite T2, T1, <- app_assoc.
  - done.
  - intros ->. cbn in Hnew. destruct new as [|[p q j] [|]]; try discriminate Hnew. injection Hnew as -> ->. by exists p.
Qed.

(** The package arrives: the message with its profile is in the queue. *)
Lemma package_installed s i l p data :
  (forall k, os_malloc k = true) -> (forall t m, os_msgsnd t m = true) -> IARMBUS_SUPPORT = true ->
  plain_issue i -> issue_text i <> DEEP_SLEEP_STR -> s_queue s = [] ->
  repr (s_cache s) (Entry p (Some (pkg_name data)) (Some (issue_text i)) :: l) ->
  pkg_inst_status data = RDM_PKG_INSTALL_COMPLETE ->
  exists s', rtc step s s' /\ repr (s_cache s') l /\
    s_queue s' = [DataBuf EVENT_MSG (Some (issue_text i)) (Some (pkg_inst_path data ++ RRD_JSON_FILE)) true false
                    RRD_DEEPSLEEP_INVALID_DEFAULT None].
Proof.
  intros Hm Hsnd Hia Hi Hds Hq Hr Hst.
  destruct (rdm_installed data (s_cache s) [] _ l (issue_text i) (s_world s) Hm Hr (List.Forall_nil _) eq_refl eq_refl Hst)
    as (c' & Hr' & Hd).
  unfold delivered in Hd. rewrite Hsnd in Hd. destruct Hd as (w' & E & T).
  exists (advance s w' c' (s_category s) (s_blobs s)). split_and!.
  - apply rtc_once. by apply (step_rdm s IARM_BUS_RDMMGR_NAME IARM_BUS_RDMMGR_EVENT_APP_INSTALLATION_STATUS data c' w' Hia).
  - done.
  - rewrite (advance_queue s w' _ _ _ _ T), Hq. unfold installed_message, installed_buffer.
    rewrite (plain_no_suffix i Hi), (proj2 (streq_false _ _) Hds). done.
Qed.
End Runs.

(** ** Properties *)

(** A daemon that got one issue. *)
Definition sample_rfc : Rfc := {| rfc_param := None; syscfg_init := true; syscfg_value := #"true"; msgget := true |}.

Definition sample_start : system := started (World [] 0) #"all".

Definition sample_world : world := World [EvMsgsnd (issue_message #"Wifi.Stats") true] 2.

Definition sample_state : system := advance sample_start sample_world initCache #"all" [].

Lemma sample_step :
  @step (demo_os empty_demo) sample_event_json sample_build sample_msgpack sample_iarm sample_device sample_start sample_state.
Proof. apply step_issue with (v := Some #"Wifi.Stats"). reflexivity. Qed.

Lemma sample_reachable :
  @reachable (demo_os empty_demo) sample_event_json sample_build sample_msgpack sample_iarm sample_device sample_state.
Proof. exists (World [] 0), #"all". split; [done|]. apply rtc_once, sample_step. Qed.

(** C1: the messages of the event thread.  In every state the daemon reaches,
    whatever the system answers and however its callbacks and the event thread
    interleave, every message that was put in the queue had one of the shapes
    the event thread is written for when it was sent: it has a text and a type;
    it has the path of a profile only after the download manager had accepted a
    request, and is then marked as dynamic exactly when it is not an append
    request; without a path it is not dynamic; a deep sleep message either asks
    for the package or reports its installation with the path. *)
Theorem reachable_messages `{OS} `{CJSONLaws} `{CJSONBuild} `{MsgPack} `{Iarm} `{Device} s m :
  (forall t p, Forall (fun n => n <> []) (default [] (os_readdir t p))) -> reachable s ->
  m ∈ s_received s ++ s_queue s ->
  exists pre post, history s = pre ++ EvMsgsnd m true :: post /\ message_ok pre m.
Proof.
  intros Hn Hs Hin. destruct (reachable_invariant Hn s Hs) as [_ Hq Hm]. rewrite <- Hq in Hin.
  apply list_elem_of_omap in Hin as (e & He & Es). destruct e as [| | | | | | | | | | | | | | | | | | | |m' [|]| | | | |]; try discriminate Es.
  injection Es as ->. apply list_elem_of_split in He as (pre & post & E). exists pre, post. split; [done|]. by apply (Hm pre m post).
Qed.

Lemma reachable_messages_witness :
  exists pre post, history sample_state = pre ++ EvMsgsnd (issue_message #"Wifi.Stats") true :: post /\
    message_ok pre (issue_message #"Wifi.Stats").
Proof.
  apply (@reachable_messages (demo_os empty_demo) sample_event_json (Tree.tree_laws _) sample_build sample_msgpack sample_iarm
    sample_device sample_state (issue_message #"Wifi.Stats")).
  - intros t p. constructor.
  - apply sample_reachable.
  - cbn. left.
Defined.

(** C14: the shared state of the daemon.  In every reachable state the messages
    the event thread has taken, followed by those in the queue, are exactly the
    messages sent so far, in order: none is lost, invented or overtaken; and
    the cache is a well-formed list whose every entry comes from a request the
    download manager accepted. *)
Theorem reachable_state `{OS} `{CJSONLaws} `{CJSONBuild} `{MsgPack} `{Iarm} `{Device} s :
  (forall t p, Forall (fun n => n <> []) (default [] (os_readdir t p))) -> reachable s ->
  sent (history s) = s_received s ++ s_queue s /\
  exists l, repr (s_cache s) l /\ Forall (justified (history s)) l.
Proof. intros Hn Hs. by destruct (reachable_invariant Hn s Hs) as [Hc Hq _]. Qed.

Lemma reachable_state_witness :
  sent (history sample_state) = [issue_message #"Wifi.Stats"] /\
  exists l, repr (s_cache sample_state) l /\ Forall (justified (history sample_state)) l.
Proof.
  apply (@reachable_state (demo_os empty_demo) sample_event_json (Tree.tree_laws _) sample_build sample_msgpack sample_iarm
    sample_device sample_state).
  - intros t p. constructor.
  - apply sample_reachable.
Defined.

(** C9: an issue that no profile knows leads to its package, when memory and
    queue suffice.  From every state with an empty queue the daemon can take
    the issue and ask the download manager for the package; if the manager
    accepts, then from there, when it reports the installation, a message is in
    the queue that carries the issue again with the path of the installed
    profile, marked dynamic, and the cache is as it was before. *)
Theorem issue_reaches_package `{OS} `{CJSONLaws} `{CJSONBuild} `{MsgPack} `{Iarm} `{Device} s i l :
  (forall k, os_malloc k = true) -> (forall t m, os_msgsnd t m = true) -> IARMBUS_SUPPORT = true ->
  plain_issue i -> unknown_issue i -> issue_text i <> DEEP_SLEEP_STR -> s_queue s = [] -> repr (s_cache s) l ->
  exists rc s1, rtc step s s1 /\
    history s1 = history s ++ [EvMsgsnd (issue_message (issue_text i)) true; request_event i rc] /\
    (rc = 0 -> forall path, exists s2, rtc step s1 s2 /\ repr (s_cache s2) l /\
       s_queue s2 = [DataBuf EVENT_MSG (Some (issue_text i)) (Some (path ++ RRD_JSON_FILE)) true false
                       RRD_DEEPSLEEP_INVALID_DEFAULT None]).
Proof.
  intros Hm Hsnd Hia Hi Hu Hds Hq Hr.
  destruct (issue_requested s i l Hm Hsnd Hi Hu Hq Hr) as (rc & s1 & Hrun & Hq1 & Hh & _ & Hc).
  exists rc, s1. split; [done|]. split; [done|]. intros Hrc path. destruct (Hc Hrc) as [p Hr1].
  by apply (package_installed s1 i l p (RdmEvent (RDM_PKG_PREFIX ++ fst i) path RDM_PKG_INSTALL_COMPLETE)).
Qed.

Lemma issue_reaches_package_witness :
  exists rc s1 s2,
    rtc (@step (demo_os empty_demo) sample_event_json sample_build sample_msgpack sample_iarm sample_device) sample_start s1 /\
    history s1 = [EvMsgsnd (issue_message #"Wifi.Stats") true; EvRbus (RbusSet RDM_MGR_PKG_INST #"RDK-RRD-Wifi:1.0") rc] /\
    (rc = 0 -> rtc (@step (demo_os empty_demo) sample_event_json sample_build sample_msgpack sample_iarm sample_device) s1 s2 /\
       s_queue s2 = [DataBuf EVENT_MSG (Some #"Wifi.Stats") (Some #"/media/apps/RDK-RRD-Wifi/etc/rrd/remote_debugger.json")
                       true false RRD_DEEPSLEEP_INVALID_DEFAULT None]).
Proof.
  destruct (@issue_reaches_package (demo_os empty_demo) sample_event_json (Tree.tree_laws _) sample_build sample_msgpack
      sample_iarm sample_device sample_start (#"Wifi", Some #"Stats") []) as (rc & s1 & Hrun & Hh & Hc); try done.
  - by apply plain_check.
  - intros path cfg _ (t & str & Hs & _). done.
  - apply repr_init.
  - exists rc, s1. destruct (decide (rc = 0)) as [Hrc|Hrc].
    + destruct (Hc Hrc #"/media/apps/RDK-RRD-Wifi") as (s2 & Hrun2 & _ & Hq). exists s2. split; [exact Hrun|].
      split; [exact Hh|]. intros _. split; [exact Hrun2|exact Hq].
    + exists s1. split; [exact Hrun|]. split; [exact Hh|]. intros Hrc'. by destruct Hrc.
Defined.

Lemma store_info_returns `{OS} : (forall k, os_malloc k = true) -> returns RRDStoreDeviceInfo (fun _ evs => evs = []).
Proof.
  intros Hm. unfold RRDStoreDeviceInfo. apply returns_ask. intros [text|]; [|by apply returns_ret].
  induction (getline_lines text) as [|line lines IH]; cbn [device_name_loop]; [by apply returns_ret|].
  destruct (starts_with _ _); [|exact IH]. apply returns_malloc_ok; [done|]. by apply returns_ret.
Qed.

Lemma subscribe_returns `{OS} `{Device} `{Iarm} category : (forall k, os_malloc k = true) ->
  returns (RRD_subscribe category) (fun _ _ => True).
Proof.
  intros Hm. unfold RRD_subscribe. eapply returns_bind with (Q := fun _ _ => True).
  - destruct IARMBUS_SUPPORT; [|by apply returns_ret]. eapply returns_mono; [apply iarm_subscribe_returns|done].
  - intros ret evs _. destruct (negb _); [by apply returns_ret|]. eapply returns_mono; [by apply rbus_subscribe_returns|done].
Qed.

Lemma unsubscribe_returns `{OS} `{Device} `{Iarm} flag : returns (RRD_unsubscribe flag) (fun _ _ => True).
Proof.
  assert (returns (RRD_IARM_unsubscribe flag) (fun _ _ => True)) as Hiarm.
  { unfold RRD_IARM_unsubscribe. do 3 (apply returns_act; intros ?; destruct (negb _); [by apply returns_ret|]).
    destruct PWRMGR_PLUGIN; [destruct flag; [|by apply returns_ret]|].
    - do 2 (apply returns_act; intros ?). by apply returns_ret.
    - intros w. rewrite <- bind_ret_r. revert w. apply returns_act. intros ?. by apply returns_ret. }
  unfold RRD_unsubscribe. eapply returns_bind with (Q := fun _ _ => True).
  - destruct IARMBUS_SUPPORT; [exact Hiarm|by apply returns_ret].
  - intros ret evs _. destruct (negb _); [by apply returns_ret|].
    apply returns_act. intros rc. destruct (negb _); [by apply returns_ret|].
    apply returns_act. intros rc2. intros w. rewrite <- bind_ret_r. revert w. apply returns_act. intros rc3. by apply returns_ret.
Qed.

(** The status of the daemon, when no allocation fails.  When the remote
    feature control has turned it off, it ends with 0 before it touches the
    queue or a bus; when the queue cannot be made, it ends with 1, also without
    touching a bus; otherwise it ends with 0 once the event thread has ended,
    whatever the buses answered, even when it could not be subscribed at all. *)
Theorem main_status `{OS} `{CJSON} `{MsgPack} `{Iarm} `{Rfc} support flag profiles w :
  (forall k, os_malloc k = true) ->
  if @isRRDEnabled _ {| IARMBUS_SUPPORT := support; RRD_DEVICE_PROFILE := profiles; deviceType := None |} then
    if msgget then exists w', main support flag profiles [] w = Ret 0 w'
    else exists w', main support flag profiles [] w = Exit 1 w' /\ w_trace w' = w_trace w
  else exists w', main support flag profiles [] w = Exit 0 w' /\ w_trace w' = w_trace w.
Proof.
  intros Hm. unfold main. destruct (store_info_returns Hm w) as (type & w1 & evs & E & T & ->). rewrite app_nil_r in T.
  rewrite (bind_run _ _ _ _ _ E).
  set (device := {| IARMBUS_SUPPORT := support; RRD_DEVICE_PROFILE := profiles; deviceType := type |}).
  change (@isRRDEnabled _ {| IARMBUS_SUPPORT := support; RRD_DEVICE_PROFILE := profiles; deviceType := None |})
    with (@isRRDEnabled _ device).
  destruct isRRDEnabled; cbn [negb]; [|by exists w1]. destruct msgget; cbn [negb]; [|by exists w1].
  destruct (subscribe_returns #"all" Hm w1) as (r & w2 & e2 & E2 & _). rewrite (bind_run _ _ _ _ _ E2).
  cbn [RRDEventThreadFunc]. rewrite bind_ret_l.
  destruct (unsubscribe_returns flag w2) as (r3 & w3 & e3 & E3 & _). rewrite (bind_run _ _ _ _ _ E3). by exists w3.
Qed.

Lemma main_status_witness :
  exists w', @main (demo_os empty_demo) sample_event_json sample_msgpack sample_iarm sample_rfc true false #"XG1" [] (World [] 0) =
    Ret 0 w' /\ length (w_trace w') = 15%nat.
Proof.
  destruct (@main_status (demo_os empty_demo) sample_event_json sample_msgpack sample_iarm sample_rfc true false #"XG1" (World [] 0)
    (fun _ => eq_refl)) as (w' & E).
  exists w'. split; [exact E|]. vm_compute in E. injection E as <-. reflexivity.
Defined.
