(* ===== verification/HeapSafety.v ===== *)
(** * HeapSafety: the event thread makes no heap fault of its own

    On values, the only blocks are the entries of the cache.  A computation is
    [tame] when it neither uses nor frees a block that is not allocated, on
    every input and whatever the system calls return; it may exit, and it may
    fault in other ways.  Everything the event thread does is tame as long as
    the cache is a well-formed list, and it keeps the list well formed. *)

From S2P Require Import Prelude Types OS CJson CommandSanity IssueType Archive Cache Config SysInfo Load Upload RunCmd.
From S2P Require Import Profile Dynamic Queue MsgPack EventProcess Iarm Interface Main.

Local Open Scope Z_scope.

(** ** Heap faults *)

Definition heap_fault (f : fault) : bool := match f with UseAfterFree | DoubleFree => true | _ => false end.

(** No heap fault, and [Q] holds of the result. *)
Definition tame {A} (m : M A) (Q : A -> Prop) : Prop :=
  forall w, match m w with Ret a _ => Q a | Exit _ _ => True | Fault f => heap_fault f = false end.

Abbreviation any := (fun _ => True).

Lemma tame_ret {A} (a : A) (Q : A -> Prop) : Q a -> tame (mret a) Q.
Proof. by intros HQ w. Qed.

Lemma tame_bind {A B} (m : M A) (k : A -> M B) (Q : A -> Prop) R :
  tame m Q -> (forall a, Q a -> tame (k a) R) -> tame (m ≫= k) R.
Proof.
  intros Hm Hk w. specialize (Hm w). unfold mbind, M_bind. destruct (m w) as [a w'| |]; [by apply Hk|done|done].
Qed.

Lemma tame_any {A B} (m : M A) (k : A -> M B) R : tame m any -> (forall a, tame (k a) R) -> tame (m ≫= k) R.
Proof. intros Hm Hk. eapply tame_bind; [exact Hm|]. intros a _. apply Hk. Qed.

Lemma tame_mono {A} (m : M A) (Q R : A -> Prop) : tame m Q -> (forall a, Q a -> R a) -> tame m R.
Proof. intros Hm HQR w. specialize (Hm w). destruct (m w); [by apply HQR|done|done]. Qed.

Lemma tame_fault {A} f (Q : A -> Prop) : heap_fault f = false -> tame (mfault f) Q.
Proof. by intros Hf w. Qed.

Lemma tame_exit {A} s (Q : A -> Prop) : tame (mexit s) Q.
Proof. by intros w. Qed.

Lemma tame_ask {A} (f : trace -> A) : tame (ask f) any.
Proof. by intros w. Qed.

Lemma tame_act `{OS} {A} (f : trace -> A) e : tame (act f e) any.
Proof. by intros w. Qed.

Lemma tame_malloc `{OS} : tame malloc any.
Proof. by intros w. Qed.

Lemma tame_deref {A} (p : option A) : tame (deref p) any.
Proof. by destruct p; intros w. Qed.

Create HintDb tame.
#[export] Hint Resolve tame_ask tame_act tame_malloc tame_deref tame_exit : tame.
#[export] Hint Extern 1 (tame (mfault _) _) => apply tame_fault; reflexivity : tame.

(** Walking through a computation whose result does not matter: what has no
    lemma of its own is unfolded. *)
Ltac head_of m := match m with ?f _ => head_of f | _ => m end.
Ltac tame_step :=
  match goal with
  | |- tame (mret _) any => apply tame_ret; exact I
  | |- tame (_ ≫= _) any => apply tame_any; [|intros ?]
  | |- tame (match ?x with _ => _ end) any => destruct x
  | |- _ => solve [auto with tame]
  | |- tame ?m any => let f := head_of m in unfold f
  end.
Ltac tame := repeat (cbv zeta beta; tame_step).

(** ** The loops *)

Section Loops.
Context `{OS} `{CJSON} `{Device} `{MsgPack}.

Lemma sanity_loop_tame cmd l idx : tame (sanity_loop cmd l idx) any.
Proof. induction idx; cbn [sanity_loop]; tame. Qed.

Lemma split_loop_tame d n : forall s, tame (split_loop d n s) any.
Proof. induction n; intros s; cbn [split_loop]; tame. Qed.

Lemma write_zeros_loop_tame fuel : forall size, tame (write_zeros_loop fuel size) any.
Proof. induction fuel; intros size; cbn [write_zeros_loop]; tame. Qed.

Lemma copy_chunks_tame chunks : tame (copy_chunks chunks) any.
Proof. induction chunks; cbn [copy_chunks]; tame. Qed.

Lemma wait_loop_tame n s : tame (wait_loop n s) any.
Proof. induction n; cbn [wait_loop]; tame. Qed.

Lemma copy_loop_tame fuel : forall s d, tame (copy_loop fuel s d) any.
Proof. induction fuel; intros s d; cbn [copy_loop]; tame. Qed.

Lemma read_items_tame type idx : forall cmd tmo, tame (read_items type idx cmd tmo) any.
Proof. induction idx; intros cmd tmo; cbn [read_items]; tame. Qed.
#[local] Hint Resolve write_zeros_loop_tame copy_chunks_tame : tame.

Lemma archive_entries_tame rec root rel names :
  (forall p, tame (rec p) any) -> tame (archive_entries rec root rel names) any.
Proof. intros Hrec. induction names; cbn [archive_entries]; tame. Qed.

Lemma archive_path_recursive_tame fuel : forall root rel, tame (archive_path_recursive fuel root rel) any.
Proof. induction fuel; intros root rel; cbn [archive_path_recursive]; tame. apply archive_entries_tame. auto. Qed.

Lemma dir_size_loop_tame rec dir names : (forall p, tame (rec p) any) -> forall size, tame (dir_size_loop rec dir size names) any.
Proof. intros Hrec. induction names; intros size; cbn [dir_size_loop]; tame. Qed.

Lemma get_dir_size_tame fuel : forall dir, tame (get_dir_size fuel dir) any.
Proof. induction fuel; intros dir; cbn [get_dir_size]; tame. apply dir_size_loop_tame. auto. Qed.

Lemma strncmp_eq_tame mem : forall name n, tame (strncmp_eq mem name n) any.
Proof. induction mem; intros name n; destruct n; cbn [strncmp_eq]; tame. Qed.

Lemma read_strn_tame n : forall mem, tame (read_strn mem n) any.
Proof. induction n; intros mem; cbn [read_strn]; tame. Qed.
#[local] Hint Resolve strncmp_eq_tame read_strn_tame : tame.

Lemma finder_tame name ty map : tame (__finder name ty map) any.
Proof. induction map; cbn [__finder]; tame. Qed.

Lemma command_list_loop_tame room n arr : forall i buf, tame (command_list_loop room n i arr buf) any.
Proof. induction arr; intros i buf; cbn [command_list_loop]; tame. Qed.
#[local] Hint Resolve command_list_loop_tame : tame.

Lemma params_tame p map : tame (process_remotedebuggerparams p map) any.
Proof. induction map; cbn [process_remotedebuggerparams]; tame. Qed.
End Loops.

#[export] Hint Resolve sanity_loop_tame split_loop_tame write_zeros_loop_tame copy_chunks_tame wait_loop_tame copy_loop_tame
  read_items_tame archive_path_recursive_tame get_dir_size_tame strncmp_eq_tame read_strn_tame finder_tame
  command_list_loop_tame params_tame : tame.

(** ** The calls *)

Section Calls.
Context `{OS} `{CJSON} `{Device}.

Lemma uploadDebugoutput_tame outdir issue : tame (uploadDebugoutput outdir issue) any.
Proof. tame. Qed.

Lemma executeCommands_tame d : tame (executeCommands d) any.
Proof. tame. Qed.

Lemma invoke_tame n cfg buf deep : tame (invokeSanityandCommandExec n cfg buf deep) any.
Proof. tame. Qed.

Lemma all_types_loop_tame cfg main buf idx : forall n st, tame (all_types_loop cfg main buf idx n st) any.
Proof. induction idx; intros n st; cbn [all_types_loop]; tame. Qed.
#[local] Hint Resolve uploadDebugoutput_tame executeCommands_tame invoke_tame all_types_loop_tame : tame.

Lemma deep_types_loop_tame cfg cat idx : forall n st, tame (deep_types_loop cfg cat idx n st) any.
Proof. induction idx; intros n st; cbn [deep_types_loop]; tame. Qed.
#[local] Hint Resolve deep_types_loop_tame : tame.

Lemma deep_categories_loop_tame cfg root idx : forall n st, tame (deep_categories_loop cfg root idx n st) any.
Proof. induction idx; intros n st; cbn [deep_categories_loop]; tame. Qed.
#[local] Hint Resolve deep_categories_loop_tame : tame.

Lemma checkIssueNodeInfo_tame n cfg b deep ad : tame (checkIssueNodeInfo n cfg b deep ad) any.
Proof. tame. Qed.
End Calls.

#[export] Hint Resolve uploadDebugoutput_tame executeCommands_tame invoke_tame all_types_loop_tame deep_types_loop_tame
  deep_categories_loop_tame checkIssueNodeInfo_tame : tame.

(** ** The cache *)

(** The list of the cache is well formed. *)
Definition well_formed (c : cache) : Prop := exists l, repr c l.

(** The same walk for a computation that passes the cache on. *)
Ltac cached_step :=
  match goal with
  | Hc : well_formed ?c |- tame (mret _) _ => apply tame_ret; exact Hc
  | |- tame (match ?x with _ => _ end) _ => destruct x
  | |- _ => solve [eauto with tame]
  | |- tame (?m ≫= _) _ =>
      first [ eapply tame_bind; [solve [eauto with tame]|intros [? ?] ?; cbn [fst snd] in *]
            | eapply tame_bind; [solve [eauto with tame]|intros ? ?]
            | eapply (tame_bind _ _ well_formed); [|intros ? ?]
            | apply tame_any; [solve [tame]|intros ?] ]
  end.
Ltac cached := repeat (cbv zeta beta; cached_step).

Section Cached.
Context `{OS} `{CJSON} `{Device} `{MsgPack}.

Lemma append_item_tame pkg issue c : well_formed c -> tame (append_item pkg issue c) well_formed.
Proof.
  intros [l Hr] w. destruct (append_item_repr pkg issue c l w Hr) as (c' & -> & Hc). destruct (os_malloc _).
  - destruct Hc as [p Hc]. by eexists.
  - subst. by eexists.
Qed.
#[local] Hint Resolve append_item_tame : tame.

Lemma remember_request_tame b pkg c : well_formed c -> tame (remember_request b pkg c) well_formed.
Proof. intros Hc. unfold remember_request. cached. Qed.
#[local] Hint Resolve remember_request_tame : tame.

Lemma request_tame n b deep c : well_formed c -> tame (RRDRdmManagerDownloadRequest n b deep c) (fun r => well_formed r.2).
Proof.
  intros Hc. unfold RRDRdmManagerDownloadRequest. cached.
Qed.
#[local] Hint Resolve request_tame : tame.

Lemma installed_tame b n c : well_formed c -> tame (processIssueTypeInInstalledPackage b n c) (fun r => well_formed r.2).
Proof. intros Hc. unfold processIssueTypeInInstalledPackage. cached. Qed.
#[local] Hint Resolve installed_tame : tame.

Lemma static_tame b n c : well_formed c -> tame (processIssueTypeInStaticProfile b n c) (fun r => well_formed r.2).
Proof. intros Hc. unfold processIssueTypeInStaticProfile. cached. Qed.

Lemma dynamic_append_tame b n c :
  well_formed c -> tame (processIssueTypeInDynamicProfileappend b n c) (fun r => well_formed r.2).
Proof. intros Hc. unfold processIssueTypeInDynamicProfileappend. cached. Qed.
#[local] Hint Resolve static_tame dynamic_append_tame : tame.

Lemma processIssueType_tame b c : well_formed c -> tame (processIssueType b c) (fun r => well_formed r.2).
Proof. intros Hc. unfold processIssueType. cached. Qed.
#[local] Hint Resolve processIssueType_tame : tame.

Lemma process_token_tame b cmd c : well_formed c -> tame (process_token b cmd c) well_formed.
Proof. intros Hc. unfold process_token. cached. Qed.
#[local] Hint Resolve process_token_tame : tame.

Lemma process_tokens_tame b cmds : forall c, well_formed c -> tame (process_tokens b cmds c) well_formed.
Proof. induction cmds; intros c Hc; cbn [process_tokens]; cached. Qed.
#[local] Hint Resolve process_tokens_tame : tame.

Lemma processIssueTypeEvent_tame b c : well_formed c -> tame (processIssueTypeEvent b c) well_formed.
Proof. intros Hc. unfold processIssueTypeEvent. cached. Qed.

Lemma deep_sleep_tame b c : well_formed c -> tame (RRDProcessDeepSleepAwakeEvents b c) well_formed.
Proof. intros Hc. unfold RRDProcessDeepSleepAwakeEvents. cached. Qed.
#[local] Hint Resolve processIssueTypeEvent_tame deep_sleep_tame : tame.

Lemma handle_message_tame b c : well_formed c -> tame (handle_message b c) (fun r => well_formed r.1).
Proof. intros Hc. unfold handle_message. cached. Qed.
#[local] Hint Resolve handle_message_tame : tame.

(** The whole thread. *)
Lemma thread_tame received : forall c, well_formed c -> tame (RRDEventThreadFunc received c) (fun r => well_formed r.1).
Proof. induction received; intros c Hc; cbn [RRDEventThreadFunc]; cached. Qed.

(** ** The handlers of the buses *)

(** A pending entry is a node that can be read and removed. *)
Lemma find_tame pkg c : well_formed c ->
  tame (findPresentInCache pkg c) (fun p => forall q, p = Some q -> tame (read_node c q) any /\ tame (remove_item (Some q) c) well_formed).
Proof.
  intros [l Hr] w. rewrite (findPresentInCache_repr _ _ _ _ Hr). intros q Eq. pose proof (find_split pkg l) as Hf.
  destruct (List.find (has_pkg pkg) l) as [e|]; [|done]. injection Eq as <-. destruct Hf as (l1 & l2 & -> & _).
  split; intros w'.
  - destruct (repr_read _ _ _ _ w' Hr) as (n & -> & _). done.
  - destruct (remove_item_repr _ _ _ _ w' Hr) as (c' & -> & Hc). by eexists.
Qed.

Lemma deliver_tame b : tame (RRDMsgDeliver b) any.
Proof. tame. Qed.
#[local] Hint Resolve deliver_tame : tame.

Lemma issue_event_tame value : tame (_remoteDebuggerEventHandler value) any.
Proof. tame. Qed.

Lemma webcfg_event_tame value : tame (_remoteDebuggerWebCfgDataEventHandler value) any.
Proof. tame. Qed.

Lemma rdmDownload_tame c : well_formed c -> tame (_rdmDownloadEventHandler c) well_formed.
Proof.
  intros Hc. unfold _rdmDownloadEventHandler. apply tame_any; [tame|]. intros [issue|]; [|by apply tame_ret].
  apply tame_any; [tame|]. intros [|]; cbn [negb]; [|by apply tame_ret].
  apply tame_any; [tame|]. intros [|]; cbn [negb]; [|by apply tame_ret].
  eapply tame_bind; [by apply find_tame|]. intros [p|] Hp; [|by apply tame_ret]. destruct (Hp p eq_refl) as [Hread Hremove].
  apply tame_any; [exact Hread|]. intros n. apply tame_any; [tame|]. intros s. cached.
Qed.

Lemma rdmManager_tame `{Iarm} owner id data c : well_formed c -> tame (_rdmManagerEventHandler owner id data c) well_formed.
Proof.
  intros Hc. unfold _rdmManagerEventHandler. destruct (streq _ _); [|by apply tame_ret]. destruct (_ =? _); [|by apply tame_ret].
  eapply tame_bind; [by apply find_tame|]. intros [p|] Hp; [|by apply tame_ret]. destruct (Hp p eq_refl) as [Hread Hremove].
  destruct (_ =? _); [|exact Hremove]. apply tame_any; [exact Hread|]. intros n. apply tame_any; [tame|]. intros s. cached.
Qed.

Lemma pwrManager_tame `{Iarm} owner data : tame (_pwrManagerEventHandler owner data) any.
Proof. tame. Qed.

Lemma pwrManager_plugin_tame `{Iarm} cur new : tame (_pwrManagerEventHandler_plugin cur new) any.
Proof. tame. Qed.

Lemma set_handler_tame prop category : tame (rrd_SetHandler prop category) any.
Proof. tame. Qed.

Lemma get_handler_tame `{CJSONBuild} prop category : tame (rrd_GetHandler prop category) any.
Proof. tame. Qed.

Lemma request_handler_tame d : tame (Process_RemoteDebugger_WebConfigRequest d) any.
Proof. tame. Qed.
End Cached.
