(* ===== verification/Heap.v ===== *)
(** * Heap: explicit memory for the structures of the daemon

    The other files pass strings and structures by value.  Here they live in
    blocks of a memory, so that every [malloc], [free] and access through a
    pointer is visible: a block that was freed is gone, and using or freeing it
    again is a fault.  A separation logic describes memories: an assertion is a
    set of memories, [p ↦ b] is the memory of one block, and the separating
    conjunction splits a memory; it is linear, so an assertion accounts for
    every block that is allocated.  [simwp m v Q] says that the computation
    [m] on memory does what the computation [v] on values does, with the same
    calls and the same faults, and ends in a memory that [Q] describes. *)

From stdpp Require Import gmap.
From iris.proofmode Require Import proofmode.
From S2P Require Import Prelude Types OS Cache MsgPack.

(** ** Blocks *)

(** [data_buf], [issueNodeData] and [issueData]: their strings are pointers. *)
Record buf_cell := BufCell {
  c_mtype : message_type_et; c_mdata : option loc; c_jsonPath : option loc; c_inDynamic : bool;
  c_appendMode : bool; c_dsEvent : deepsleep_event_et; c_suffix : option loc }.
Record node_cell := NodeCell { c_Node : option loc; c_subNode : option loc }.
Record issue_cell := IssueCell { c_rfcvalue : option loc; c_command : option loc; c_timeout : Z }.

(** [remotedebuggerparam_t], [remotedebuggerdoc_t] and [execData]. *)
Record param_cell := ParamCell { c_commandList : option loc; c_length : Z }.
Record doc_cell := DocCell {
  c_param : option loc; c_entries_count : Z; c_subdoc_name : option loc; c_version : Z; c_transaction_id : Z }.
Record exec_cell := ExecCell {
  c_txid : Z; c_exec_version : Z; c_numOfEntries : Z; c_exec_name : cstr; c_user_data : option loc }.

(** [cacheData]: a node of the list of pending packages. *)
Record entry_cell := EntryCell { c_data : option loc; c_issueString : option loc; c_next : option loc; c_prev : option loc }.

Inductive block :=
| BString (s : cstr)
| BBuf (b : buf_cell)
| BNode (n : node_cell)
| BIssue (d : issue_cell)
| BArray (l : list (option loc))
| BParam (p : param_cell)
| BDoc (d : doc_cell)
| BExec (e : exec_cell)
| BErr (s : blob_status)
| BEntry (e : entry_cell).

Definition memory := gmap loc block.

(** ** Computations on memory *)

Definition MM (A : Type) : Type := memory -> M (A * memory).

#[export] Instance MM_ret : MRet MM := fun A a h => mret (a, h).
#[export] Instance MM_bind : MBind MM := fun A B k m h => m h ≫= fun '(a, h') => k a h'.

(** A computation that does not use the memory. *)
Definition lift {A} (m : M A) : MM A := fun h => a ← m; mret (a, h).
Definition hfault {A} (f : fault) : MM A := lift (mfault f).

(** [malloc] of a block that is then filled with [b]. *)
Definition alloc `{OS} (b : block) : MM (option loc) := fun h =>
  ok ← malloc;
  if (ok : bool) then let p := fresh (dom h) in mret (Some p, <[p := b]> h) else mret (None, h).

(** [free(NULL)] does nothing. *)
Definition free (p : option loc) : MM unit := fun h =>
  match p with
  | None => mret (tt, h)
  | Some p => match h !! p with Some _ => mret (tt, delete p h) | None => mfault DoubleFree end
  end.

Definition load (p : option loc) : MM block := fun h =>
  match p with
  | None => mfault NullDeref
  | Some p => match h !! p with Some b => mret (b, h) | None => mfault UseAfterFree end
  end.

Definition store (p : option loc) (b : block) : MM unit := fun h =>
  match p with
  | None => mfault NullDeref
  | Some p => match h !! p with Some _ => mret (tt, <[p := b]> h) | None => mfault UseAfterFree end
  end.

(** [realloc] moves the block; when it fails the old block stays. *)
Definition realloc `{OS} (p : option loc) : MM (option loc) :=
  b ← load p;
  q ← alloc b;
  match q with Some _ => _ ← free p; mret q | None => mret None end.

(** A local structure whose address is taken: its block and the end of it. *)
Definition enter (b : block) : MM (option loc) := fun h => let p := fresh (dom h) in mret (Some p, <[p := b]> h).
Definition leave (p : option loc) : MM unit := free p.

(** Access through a pointer of a type. *)
Definition load_string (p : option loc) : MM cstr :=
  b ← load p; match b with BString s => mret s | _ => hfault WrongMember end.
Definition load_buf (p : option loc) : MM buf_cell :=
  b ← load p; match b with BBuf c => mret c | _ => hfault WrongMember end.
Definition load_node (p : option loc) : MM node_cell :=
  b ← load p; match b with BNode c => mret c | _ => hfault WrongMember end.
Definition load_issue (p : option loc) : MM issue_cell :=
  b ← load p; match b with BIssue c => mret c | _ => hfault WrongMember end.
Definition load_array (p : option loc) : MM (list (option loc)) :=
  b ← load p; match b with BArray l => mret l | _ => hfault WrongMember end.
Definition load_param (p : option loc) : MM param_cell :=
  b ← load p; match b with BParam c => mret c | _ => hfault WrongMember end.
Definition load_doc (p : option loc) : MM doc_cell :=
  b ← load p; match b with BDoc c => mret c | _ => hfault WrongMember end.
Definition load_exec (p : option loc) : MM exec_cell :=
  b ← load p; match b with BExec c => mret c | _ => hfault WrongMember end.

Definition load_entry (p : option loc) : MM entry_cell :=
  b ← load p; match b with BEntry c => mret c | _ => hfault WrongMember end.

(** ** Assertions on memories *)

Record heapProp := HeapProp { holds : memory -> Prop }.

Section Ofe.
#[local] Instance heapProp_equiv : Equiv heapProp := fun P Q => forall h, holds P h <-> holds Q h.
#[local] Instance heapProp_equivalence : Equivalence (≡@{heapProp}).
Proof. split; [by intros P h|by intros P Q H h; rw (H h)|by intros P Q R H1 H2 h; rw (H1 h) (H2 h)]. Qed.
#[local] Instance heapProp_dist : Dist heapProp := fun _ => (≡@{heapProp}).
Canonical Structure heapPropO : ofe := Ofe heapProp (discrete_ofe_mixin heapProp_equivalence).
End Ofe.

Inductive heap_entails (P Q : heapProp) : Prop := HeapEntails { entails_holds h : holds P h -> holds Q h }.

Definition heap_emp : heapProp := HeapProp (fun h => h = ∅).
Definition heap_pure (φ : Prop) : heapProp := HeapProp (fun _ => φ).
Definition heap_and (P Q : heapProp) : heapProp := HeapProp (fun h => holds P h /\ holds Q h).
Definition heap_or (P Q : heapProp) : heapProp := HeapProp (fun h => holds P h \/ holds Q h).
Definition heap_impl (P Q : heapProp) : heapProp := HeapProp (fun h => holds P h -> holds Q h).
Definition heap_forall {A} (Ψ : A -> heapProp) : heapProp := HeapProp (fun h => forall a, holds (Ψ a) h).
Definition heap_exist {A} (Ψ : A -> heapProp) : heapProp := HeapProp (fun h => exists a, holds (Ψ a) h).
Definition heap_sep (P Q : heapProp) : heapProp :=
  HeapProp (fun h => exists h1 h2, h = h1 ∪ h2 /\ h1 ##ₘ h2 /\ holds P h1 /\ holds Q h2).
Definition heap_wand (P Q : heapProp) : heapProp :=
  HeapProp (fun h => forall h', h ##ₘ h' -> holds P h' -> holds Q (h ∪ h')).
Definition heap_persistently (P : heapProp) : heapProp := heap_pure (heap_entails heap_emp P).
Definition heap_later (P : heapProp) : heapProp := P.

Section Bi.
Lemma heap_bi_mixin :
  BiMixin heap_entails heap_emp heap_pure heap_and heap_or heap_impl (@heap_forall) (@heap_exist) heap_sep heap_wand.
Proof.
  split.
  - split; [by intros P; split|]. intros P Q R [H1] [H2]. split. eauto.
  - intros P Q. split; [intros H; split; split; intros h; apply H|]. intros [[H1] [H2]] h. split; auto.
  - intros n φ ψ H. by intros h.
  - intros n P P' HP Q Q' HQ h. cbn. by rw (HP h) (HQ h).
  - intros n P P' HP Q Q' HQ h. cbn. by rw (HP h) (HQ h).
  - intros n P P' HP Q Q' HQ h. cbn. by rw (HP h) (HQ h).
  - intros A n Ψ Ψ' H h. cbn. split; intros Ha a; apply (H a h), Ha.
  - intros A n Ψ Ψ' H h. cbn. split; intros [a Ha]; exists a; by apply (H a h).
  - intros n P P' HP Q Q' HQ h. cbn. split; intros (h1 & h2 & ? & ? & ? & ?); exists h1, h2; split_and!; try done;
      by apply HP || by apply HQ.
  - intros n P P' HP Q Q' HQ h. cbn. split; intros H h' Hd HP'; apply HQ, H; try done; by apply HP.
  - intros φ P Hφ. by split.
  - intros φ P H. split. intros h Hφ. by apply (entails_holds _ _ (H Hφ)).
  - intros P Q. split. by intros h [].
  - intros P Q. split. by intros h [].
  - intros P Q R [H1] [H2]. split. intros h. split; auto.
  - intros P Q. split. by left.
  - intros P Q. split. by right.
  - intros P Q R [H1] [H2]. split. intros h []; auto.
  - intros P Q R [H]. split. intros h HP HQ. by apply H.
  - intros P Q R [H]. split. intros h [HP HQ]. by apply H.
  - intros A P Ψ H. split. intros h HP a. by apply H.
  - intros A Ψ a. split. intros h H. apply H.
  - intros A Ψ a. split. intros h H. by exists a.
  - intros A Φ Q H. split. intros h [a Ha]. by apply (H a).
  - intros P P' Q Q' [H1] [H2]. split. intros h (h1 & h2 & ? & ? & ? & ?). exists h1, h2. split_and!; auto.
  - intros P. split. intros h HP. exists ∅, h. rw left_id_L. split_and!; [done|apply map_disjoint_empty_l|done|done].
  - intros P. split. intros h (h1 & h2 & -> & _ & -> & HP). by rw left_id_L.
  - intros P Q. split. intros h (h1 & h2 & -> & Hd & HP & HQ). exists h2, h1. by rw map_union_comm.
  - intros P Q R. split. intros h (h12 & h3 & -> & Hd & (h1 & h2 & -> & Hd' & HP & HQ) & HR).
    apply map_disjoint_union_l in Hd as [Hd1 Hd2]. exists h1, (h2 ∪ h3). rw assoc_L. split_and!; [done| |done|].
    + by apply map_disjoint_union_r_2.
    + by exists h2, h3.
  - intros P Q R [H]. split. intros h HP h' Hd HQ. apply H. by exists h, h'.
  - intros P Q R [H]. split. intros h (h1 & h2 & -> & Hd & HP & HQ). by apply H.
Qed.

Lemma heap_bi_persistently_mixin :
  BiPersistentlyMixin heap_entails heap_emp heap_and (@heap_exist) heap_sep heap_persistently.
Proof.
  eapply bi_persistently_mixin_discrete; [done| |done|apply heap_bi_mixin].
  intros A Φ [H]. destruct (H ∅ eq_refl) as [a Ha]. exists a. split. by intros h ->.
Qed.

Lemma heap_bi_later_mixin :
  BiLaterMixin heap_entails heap_pure heap_or heap_impl (@heap_forall) (@heap_exist) heap_sep heap_persistently heap_later.
Proof. by eapply bi_later_mixin_id, heap_bi_mixin. Qed.
End Bi.

Canonical Structure heapPropI : bi :=
  {| bi_ofe_mixin := ofe_mixin_of heapProp; bi_bi_mixin := heap_bi_mixin;
     bi_bi_persistently_mixin := heap_bi_persistently_mixin; bi_bi_later_mixin := heap_bi_later_mixin |}.

#[export] Instance heap_pure_forall : BiPureForall heapPropI.
Proof. intros A φ. split. by intros h. Qed.

(** The memory of one block. *)
Definition points_to (p : loc) (b : block) : heapPropI := HeapProp (fun h => h = {[p := b]}).
Notation "p ↦ b" := (points_to p b) (at level 20, format "p  ↦  b") : bi_scope.

(** ** Simulation *)

Definition simwp {A B} (m : MM A) (v : M B) (Q : A -> B -> heapPropI) : heapPropI :=
  HeapProp (fun h => forall hf w, h ##ₘ hf ->
    match v w with
    | Ret b w' => exists a h', m (h ∪ hf) w = Ret (a, h' ∪ hf) w' /\ h' ##ₘ hf /\ holds (Q a b) h'
    | Exit s w' => m (h ∪ hf) w = Exit s w'
    | Fault f => m (h ∪ hf) w = Fault f
    end).

(** What a proof in the logic says of a run on a whole memory. *)
Lemma simwp_adequate {A B} (m : MM A) (v : M B) (P : heapPropI) Q h w :
  (P ⊢ simwp m v Q) -> holds P h ->
  match v w with
  | Ret b w' => exists a h', m h w = Ret (a, h') w' /\ holds (Q a b) h'
  | Exit s w' => m h w = Exit s w'
  | Fault f => m h w = Fault f
  end.
Proof.
  intros [H] HP. specialize (H h HP ∅ w (map_disjoint_empty_r _)). rw right_id_L in H.
  destruct (v w); [|done..]. destruct H as (a' & h' & E & _ & HQ). rw right_id_L in E. eauto.
Qed.

Section Rules.
Context {A B C D : Type}.
Implicit Types (Q : A -> B -> heapPropI).

Lemma simwp_ret a b Q : Q a b ⊢ simwp (mret a) (mret b) Q.
Proof. split. intros h HQ hf w Hd. by exists a, h. Qed.

Lemma simwp_bind (m : MM C) (v : M D) (k : C -> MM A) (k' : D -> M B) Q :
  simwp m v (fun c d => simwp (k c) (k' d) Q) ⊢ simwp (m ≫= k) (v ≫= k') Q.
Proof.
  split. intros h H hf w Hd. specialize (H hf w Hd). unfold mbind, MM_bind. unfold mbind, M_bind.
  destruct (v w) as [d w'| |]; [|by rw H..]. destruct H as (c & h' & E & Hd' & H). rw E. apply (H hf w' Hd').
Qed.

(** Consequence and framing. *)
Lemma simwp_wand (m : MM A) (v : M B) Q R :
  simwp m v Q ∗ (∀ a b, Q a b -∗ R a b) ⊢ simwp m v R.
Proof.
  split. intros h (h1 & h2 & -> & Hd & H & HR) hf w Hf. apply map_disjoint_union_l in Hf as [Hf1 Hf2].
  specialize (H (h2 ∪ hf) w). rw assoc_L in H.
  destruct (v w) as [b w'| |]; [|apply H, map_disjoint_union_r; by split..].
  destruct H as (a & h' & E & Hd' & HQ); [by apply map_disjoint_union_r_2|].
  apply map_disjoint_union_r in Hd' as [Hd1 Hd2]. exists a, (h' ∪ h2). rw E assoc_L. split_and!; [done| |].
  - by apply map_disjoint_union_l_2.
  - specialize (HR a b h' (symmetry Hd1) HQ). by rw (map_union_comm h' h2).
Qed.

(** Computations that agree everywhere may replace each other. *)
Lemma simwp_ext (m m' : MM A) (v v' : M B) Q :
  (forall h w, m h w = m' h w) -> (forall w, v w = v' w) -> simwp m' v' Q ⊢ simwp m v Q.
Proof.
  intros Hm Hv. split. intros h H hf w Hd. specialize (H hf w Hd). by rw Hm Hv.
Qed.

(** A step of the memory alone that runs on the memory [P] describes. *)
Lemma simwp_step (m : MM C) (c : C) (P P' : heapPropI) (k : C -> MM A) (v : M B) Q :
  (forall h hf w, holds P h -> h ##ₘ hf ->
     exists h', m (h ∪ hf) w = Ret (c, h' ∪ hf) w /\ h' ##ₘ hf /\ holds P' h') ->
  P ∗ (P' -∗ simwp (k c) v Q) ⊢ simwp (m ≫= k) v Q.
Proof.
  intros Hm. split. intros h (h1 & h2 & -> & Hd & HP & H) hf w Hf.
  apply map_disjoint_union_l in Hf as [Hf1 Hf2].
  destruct (Hm h1 (h2 ∪ hf) w HP) as (h' & E & Hd' & HP'); [by apply map_disjoint_union_r_2|].
  apply map_disjoint_union_r in Hd' as [Hd1 Hd2]. specialize (H h' (symmetry Hd1) HP' hf w).
  unfold mbind, MM_bind. unfold mbind, M_bind. rw -assoc_L E assoc_L (map_union_comm h' h2); [|done]. apply H.
  by apply map_disjoint_union_l_2.
Qed.
End Rules.

(** ** The primitives *)

(** What [P] describes is not [NULL]-dependent: a pointer and its string. *)
Definition str (p : option loc) (s : option cstr) : heapPropI :=
  match p, s with
  | Some p, Some s => p ↦ BString s
  | None, None => emp
  | _, _ => False
  end%I.

(** Some allocation of the run may fail. *)
Definition alloc_fails `{OS} : Prop := exists k, os_malloc k = false.

Lemma str_null : ⊢ str None None.
Proof. by split. Qed.

Section Primitives.
Context {A B : Type}.
Implicit Types (Q : A -> B -> heapPropI).

Lemma simwp_lift {C} (m : M C) (k : C -> MM A) (k' : C -> M B) Q :
  (∀ c, simwp (k c) (k' c) Q) ⊢ simwp (lift m ≫= k) (m ≫= k') Q.
Proof.
  split. intros h H hf w Hd. unfold mbind, MM_bind, lift. unfold mbind, M_bind.
  destruct (m w) as [c w'| |]; [|done..]. apply (H c hf w' Hd).
Qed.

(** The values go first: a computation that returns without a call. *)
Lemma simwp_value {C} (R : heapPropI) (P : C -> Prop) (m : MM A) (v : M C) (k' : C -> M B) Q :
  (forall w, exists c, v w = Ret c w /\ P c) -> (forall c, P c -> R ⊢ simwp m (k' c) Q) -> R ⊢ simwp m (v ≫= k') Q.
Proof.
  intros Hv Hk. split. intros h HR hf w Hd. destruct (Hv w) as (c & E & Hc). unfold mbind, M_bind. rw E.
  exact (entails_holds _ _ (Hk c Hc) h HR hf w Hd).
Qed.

(** Both commit the same fault. *)
Lemma simwp_fail f (m : MM A) (v : M B) Q :
  (forall h w, m h w = Fault f) -> (forall w, v w = Fault f) -> True ⊢ simwp m v Q.
Proof. intros Hm Hv. split. intros h _ hf w Hd. by rw Hv. Qed.

Lemma simwp_fault f (k : A -> MM A) (k' : B -> M B) Q : True ⊢ simwp (hfault f ≫= k) (mfault f ≫= k') Q.
Proof. split. by intros h _ hf w Hd. Qed.

Lemma simwp_hfault f Q : True ⊢ simwp (hfault f) (mfault f) Q.
Proof. split. by intros h _ hf w Hd. Qed.

(** A block at an address that is not in use. *)
Lemma fresh_block b (W : heapPropI) h hf :
  holds (fresh (dom (h ∪ hf)) ↦ b -∗ W)%I h -> h ##ₘ hf ->
  exists h', holds W h' /\ h' ##ₘ hf /\ <[fresh (dom (h ∪ hf)) := b]> (h ∪ hf) = h' ∪ hf.
Proof.
  set (p := fresh (dom (h ∪ hf))). intros H1 Hd. assert ((h ∪ hf) !! p = None) as Hp by apply not_elem_of_dom, is_fresh.
  apply lookup_union_None in Hp as [Hp1 Hp2].
  specialize (H1 {[p := b]} ltac:(by apply map_disjoint_singleton_r_2) eq_refl).
  rw (map_union_comm h) in H1; [|by apply map_disjoint_singleton_r_2].
  rw -insert_union_singleton_l in H1. exists (<[p := b]> h). split_and!; [done|by apply map_disjoint_insert_l_2|].
  by rw insert_union_l.
Qed.

Lemma simwp_alloc `{OS} b (k : option loc -> MM A) (k' : bool -> M B) Q :
  (∀ p, p ↦ b -∗ simwp (k (Some p)) (k' true) Q) ∧ (⌜alloc_fails⌝ → simwp (k None) (k' false) Q)
  ⊢ simwp (alloc b ≫= k) (malloc ≫= k') Q.
Proof.
  split. intros h [H1 H2] hf w Hd. unfold mbind, MM_bind, alloc, malloc. unfold mbind, M_bind.
  destruct (os_malloc (w_allocs w)) eqn:Em; [|apply (H2 (ex_intro _ _ Em) hf _ Hd)]. cbn.
  destruct (fresh_block _ _ _ _ (H1 (fresh (dom (h ∪ hf)))) Hd) as (h' & HW & Hd' & ->). by apply (HW hf).
Qed.

Lemma simwp_strdup `{OS} s (k : option loc -> MM A) (k' : option cstr -> M B) Q :
  (∀ p, str (Some p) (Some s) -∗ simwp (k (Some p)) (k' (Some s)) Q) ∧ (⌜alloc_fails⌝ → simwp (k None) (k' None) Q)
  ⊢ simwp (alloc (BString s) ≫= k) (strdup s ≫= k') Q.
Proof.
  rw (simwp_alloc (BString s) k (fun ok => k' (if (ok : bool) then Some s else None))).
  apply simwp_ext; [done|]. intros w. unfold strdup, mbind, M_bind, malloc. cbn. by destruct (os_malloc _).
Qed.

(** A copy of a string, or [NULL] when it cannot be allocated. *)
Lemma simwp_strdup_any `{OS} s (k : option loc -> MM A) (k' : option cstr -> M B) Q :
  (∀ p x, str p x -∗ simwp (k p) (k' x) Q) ⊢ simwp (alloc (BString s) ≫= k) (strdup s ≫= k') Q.
Proof.
  iIntros "Hk". iApply simwp_strdup. iSplit; [iIntros (p) "Hp"; by iApply "Hk"|iIntros "_"].
  iApply ("Hk" $! None None). by iApply str_null.
Qed.

Lemma simwp_alloc_str `{OS} s (k : option loc -> MM A) (k' : bool -> M B) Q :
  (∀ p, str (Some p) (Some s) -∗ simwp (k (Some p)) (k' true) Q) ∧ (⌜alloc_fails⌝ → simwp (k None) (k' false) Q)
  ⊢ simwp (alloc (BString s) ≫= k) (malloc ≫= k') Q.
Proof. apply simwp_alloc. Qed.

Lemma simwp_enter b (k : option loc -> MM A) (v : M B) Q :
  (∀ p, p ↦ b -∗ simwp (k (Some p)) v Q) ⊢ simwp (enter b ≫= k) v Q.
Proof.
  split. intros h H1 hf w Hd. unfold mbind, MM_bind, enter. unfold mbind, M_bind. cbn.
  destruct (fresh_block _ _ _ _ (H1 (fresh (dom (h ∪ hf)))) Hd) as (h' & HW & Hd' & ->). by apply (HW hf).
Qed.

Lemma block_there p b h hf : holds (p ↦ b)%I h -> (h ∪ hf) !! p = Some b.
Proof. intros ->. apply lookup_union_Some_l, lookup_singleton_eq. Qed.

Lemma simwp_load p b (k : block -> MM A) (v : M B) Q :
  p ↦ b ∗ (p ↦ b -∗ simwp (k b) v Q) ⊢ simwp (load (Some p) ≫= k) v Q.
Proof.
  apply simwp_step. intros h hf w HP Hd. exists h. split_and!; [|done|done]. cbn. by rw (block_there p b).
Qed.

Lemma simwp_store p b b' (k : unit -> MM A) (v : M B) Q :
  p ↦ b ∗ (p ↦ b' -∗ simwp (k tt) v Q) ⊢ simwp (store (Some p) b' ≫= k) v Q.
Proof.
  apply simwp_step. intros h hf w HP Hd. exists {[p := b']}. cbn. rw (block_there p b); [|done]. rw HP in Hd |- *.
  split_and!; [by rw insert_union_l insert_singleton_eq| |done].
  apply map_disjoint_singleton_l in Hd. by apply map_disjoint_singleton_l.
Qed.

Lemma simwp_free p b (k : unit -> MM A) (v : M B) Q :
  p ↦ b ∗ simwp (k tt) v Q ⊢ simwp (free (Some p) ≫= k) v Q.
Proof.
  iIntros "[Hp Hk]". iApply (simwp_step _ _ (p ↦ b) emp); [|iFrame; by iIntros "_"].
  intros h hf w HP Hd. exists ∅. cbn. rw (block_there p b); [|done]. rw HP in Hd |- *.
  split_and!; [|apply map_disjoint_empty_l|done].
  apply map_disjoint_singleton_l in Hd. by rw delete_union delete_singleton_eq delete_id.
Qed.

Lemma simwp_free_null (k : unit -> MM A) (v : M B) Q : simwp (k tt) v Q ⊢ simwp (free None ≫= k) v Q.
Proof. split. intros h H. exact H. Qed.

(** A pointer read at its type. *)
Lemma simwp_load_at {C} (get : block -> MM C) p b c (k : C -> MM A) (v : M B) Q :
  (forall h, get b h = mret (c, h)) ->
  p ↦ b ∗ (p ↦ b -∗ simwp (k c) v Q) ⊢ simwp ((x ← load (Some p); get x) ≫= k) v Q.
Proof.
  intros Hget. apply simwp_step. intros h hf w HP Hd. exists h. split_and!; [|done|done].
  unfold mbind, MM_bind. unfold mbind, M_bind. cbn. rw (block_there p b); [|done]. cbn. by rw Hget.
Qed.

Lemma simwp_load_string p s (k : cstr -> MM A) (v : M B) Q :
  p ↦ BString s ∗ (p ↦ BString s -∗ simwp (k s) v Q) ⊢ simwp (load_string (Some p) ≫= k) v Q.
Proof. by apply simwp_load_at. Qed.

Lemma simwp_load_buf p c (k : buf_cell -> MM A) (v : M B) Q :
  p ↦ BBuf c ∗ (p ↦ BBuf c -∗ simwp (k c) v Q) ⊢ simwp (load_buf (Some p) ≫= k) v Q.
Proof. by apply simwp_load_at. Qed.

Lemma simwp_load_node p c (k : node_cell -> MM A) (v : M B) Q :
  p ↦ BNode c ∗ (p ↦ BNode c -∗ simwp (k c) v Q) ⊢ simwp (load_node (Some p) ≫= k) v Q.
Proof. by apply simwp_load_at. Qed.

Lemma simwp_load_issue p c (k : issue_cell -> MM A) (v : M B) Q :
  p ↦ BIssue c ∗ (p ↦ BIssue c -∗ simwp (k c) v Q) ⊢ simwp (load_issue (Some p) ≫= k) v Q.
Proof. by apply simwp_load_at. Qed.

Lemma simwp_load_array p l (k : list (option loc) -> MM A) (v : M B) Q :
  p ↦ BArray l ∗ (p ↦ BArray l -∗ simwp (k l) v Q) ⊢ simwp (load_array (Some p) ≫= k) v Q.
Proof. by apply simwp_load_at. Qed.

Lemma simwp_load_param p c (k : param_cell -> MM A) (v : M B) Q :
  p ↦ BParam c ∗ (p ↦ BParam c -∗ simwp (k c) v Q) ⊢ simwp (load_param (Some p) ≫= k) v Q.
Proof. by apply simwp_load_at. Qed.

Lemma simwp_load_doc p c (k : doc_cell -> MM A) (v : M B) Q :
  p ↦ BDoc c ∗ (p ↦ BDoc c -∗ simwp (k c) v Q) ⊢ simwp (load_doc (Some p) ≫= k) v Q.
Proof. by apply simwp_load_at. Qed.

Lemma simwp_load_exec p c (k : exec_cell -> MM A) (v : M B) Q :
  p ↦ BExec c ∗ (p ↦ BExec c -∗ simwp (k c) v Q) ⊢ simwp (load_exec (Some p) ≫= k) v Q.
Proof. by apply simwp_load_at. Qed.

Lemma simwp_load_entry p c (k : entry_cell -> MM A) (v : M B) Q :
  p ↦ BEntry c ∗ (p ↦ BEntry c -∗ simwp (k c) v Q) ⊢ simwp (load_entry (Some p) ≫= k) v Q.
Proof. by apply simwp_load_at. Qed.

(** Strings; one that holds a text is not [NULL]. *)
Lemma str_is_some p s : str p (Some s) ⊢ ∃ q, ⌜p = Some q⌝ ∧ str (Some q) (Some s).
Proof. destruct p as [q|]; cbn [str]; [iIntros "Hp"; iExists q; iSplit; [done|iFrame]|by iIntros "[]"]. Qed.

Lemma str_none p : str p None ⊢ ⌜p = None⌝ ∧ emp.
Proof. destruct p as [q|]; cbn [str]; [by iIntros "[]"|by iIntros "H"; iSplit]. Qed.

Lemma simwp_load_str p s (k : cstr -> MM A) (v : M B) Q :
  str p (Some s) ∗ (str p (Some s) -∗ simwp (k s) v Q) ⊢ simwp (load_string p ≫= k) v Q.
Proof. destruct p; cbn [str]; [apply simwp_load_string|by iIntros "[[] _]"]. Qed.

Lemma simwp_store_str p s s' (k : unit -> MM A) (v : M B) Q :
  str p (Some s) ∗ (str p (Some s') -∗ simwp (k tt) v Q) ⊢ simwp (store p (BString s') ≫= k) v Q.
Proof. destruct p; cbn [str]; [apply simwp_store|by iIntros "[[] _]"]. Qed.

(** Freeing a string that may be [NULL]. *)
Lemma simwp_free_str p s (k : unit -> MM A) (v : M B) Q :
  str p s ∗ simwp (k tt) v Q ⊢ simwp (free p ≫= k) v Q.
Proof.
  destruct p as [p|], s as [s|]; cbn [str]; try (iIntros "[[] _]").
  - iIntros "[Hp Hk]". iApply simwp_free. iFrame.
  - iIntros "[_ Hk]". by iApply simwp_free_null.
Qed.

(** The last computation of a sequence. *)
Lemma simwp_tail (m : MM A) (v : M B) Q : simwp (m ≫= mret) v Q ⊢ simwp m v Q.
Proof.
  apply simwp_ext; [|done]. intros h w. unfold mbind, MM_bind. unfold mbind, M_bind.
  by destruct (m h w) as [[]| |].
Qed.

Lemma simwp_tail_val (m : MM A) (v : M B) Q : simwp m (v ≫= mret) Q ⊢ simwp m v Q.
Proof. apply simwp_ext; [done|]. intros w. unfold mbind, M_bind. by destruct (v w). Qed.

Lemma simwp_assoc {C D} (m : MM C) (f : C -> MM D) (k : D -> MM A) (v : M B) Q :
  simwp (m ≫= (fun c => f c ≫= k)) v Q ⊢ simwp ((m ≫= f) ≫= k) v Q.
Proof.
  apply simwp_ext; [|done]. intros h w. unfold mbind, MM_bind. unfold mbind, M_bind.
  by destruct (m h w) as [[]| |].
Qed.

Lemma simwp_assoc_val {C D} (m : MM A) (v : M C) (f : C -> M D) (k : D -> M B) Q :
  simwp m (v ≫= (fun c => f c ≫= k)) Q ⊢ simwp m ((v ≫= f) ≫= k) Q.
Proof. apply simwp_ext; [done|]. intros w. unfold mbind, M_bind. by destruct (v w). Qed.
(** Moving a string. *)
Lemma simwp_realloc_str `{OS} p s (k : option loc -> MM A) (k' : bool -> M B) Q :
  str p (Some s) ∗ ((∀ q, str (Some q) (Some s) -∗ simwp (k (Some q)) (k' true) Q) ∧
                    (⌜alloc_fails⌝ → str p (Some s) -∗ simwp (k None) (k' false) Q))
  ⊢ simwp (realloc p ≫= k) (malloc ≫= k') Q.
Proof.
  iIntros "[Hp Hk]". destruct p as [p|]; [|iDestruct "Hp" as "[]"]. cbn [str].
  iApply simwp_assoc. iApply simwp_load. iFrame "Hp". iIntros "Hp". iApply simwp_assoc. iApply simwp_alloc.
  iSplit; [iIntros (q) "Hq"|iIntros "%Hf"].
  - iApply simwp_assoc. iApply simwp_free. iFrame "Hp". iDestruct "Hk" as "[Hk _]". by iApply "Hk".
  - iDestruct "Hk" as "[_ Hk]". iDestruct (bi.pure_impl_forall with "Hk") as "Hk". iSpecialize ("Hk" $! Hf). by iApply "Hk".
Qed.
End Primitives.

(** A call on both sides. *)
Lemma simwp_call {A B C D} (m : MM C) (v : M D) (k : C -> MM A) (k' : D -> M B) R Q :
  simwp m v R ∗ (∀ c d, R c d -∗ simwp (k c) (k' d) Q) ⊢ simwp (m ≫= k) (v ≫= k') Q.
Proof. iIntros "H". iApply simwp_bind. by iApply simwp_wand. Qed.

(** What a failed allocation may leave behind: nothing is lost otherwise. *)
Definition lost `{OS} : heapPropI := (emp ∨ ⌜alloc_fails⌝)%I.

#[export] Typeclasses Opaque lost.

Lemma lost_none `{OS} : ⊢ lost.
Proof. unfold lost. by iLeft. Qed.

Lemma lost_any `{OS} P : alloc_fails -> P ⊢ lost.
Proof. intros Hf. split. by right. Qed.

Lemma lost_join `{OS} : lost ∗ lost ⊢ lost.
Proof.
  split. intros h (h1 & h2 & -> & _ & [->|Hf] & [->|Hf']); [|by right..]. left. cbn. by rw left_id_L.
Qed.

(** What is left when an allocation failed is given up. *)
Ltac lose := iStopProof; by apply lost_any.

Ltac fails := iApply simwp_fail; [done|done|done].
