(* ===== verification/CacheMem.v ===== *)
(** * CacheMem: the memory of the pending downloads (src/rrdRunCmdThread.c)

    The list of the file Cache, with its nodes and their two strings in blocks
    of the memory of the daemon.  Here the head of the list, the variable
    [cacheDataNode], is passed along; a node owns its strings, and both go when
    it is removed.  Assertions of the logic describe the doubly linked list, and
    each operation does what its version on values does. *)

From stdpp Require Import gmap.
From iris.proofmode Require Import proofmode.
From S2P Require Import Prelude Types OS Cache Heap.

Local Open Scope Z_scope.

Definition set_c_next (x : option loc) (e : entry_cell) : entry_cell := EntryCell (c_data e) (c_issueString e) x (c_prev e).
Definition set_c_prev (x : option loc) (e : entry_cell) : entry_cell := EntryCell (c_data e) (c_issueString e) (c_next e) x.

Definition update_entry (p : option loc) (f : entry_cell -> entry_cell) : MM unit :=
  e ← load_entry p; store p (BEntry (f e)).

(** The assignment to a field of the node [p] when [p] is not [NULL]. *)
Definition update_entry_checked (p : option loc) (f : entry_cell -> entry_cell) : MM unit :=
  match p with None => mret tt | Some _ => update_entry p f end.

(** ** The operations *)

Section CacheMem.
Context `{OS}.

Definition createCache_mem (pkgData issueTypeData : option loc) : MM (option loc) :=
  cache ← alloc (BEntry (EntryCell None None None None));
  match cache with
  | None => mret None
  | Some _ => _ ← store cache (BEntry (EntryCell pkgData issueTypeData None None)); mret cache
  end.

(** The list owns the two strings from now on, unless there is no memory for
    the node. *)
Definition append_item_mem (pkgData issueTypeData : option loc) (head : option loc) : MM (option loc) :=
  tmp ← createCache_mem pkgData issueTypeData;
  match tmp with
  | None => mret head
  | Some _ =>
      match head with
      | Some _ =>
          _ ← update_entry tmp (set_c_next head);
          _ ← update_entry head (set_c_prev tmp);
          mret tmp
      | None => mret tmp
      end
  end.

Fixpoint find_loop_mem (fuel : nat) (pkgData : cstr) (p : option loc) : MM (option loc) :=
  match p with
  | None => mret None
  | Some _ =>
      match fuel with
      | O => hfault OutOfFuel
      | S fuel' =>
          n ← load_entry p;
          match c_data n with
          | Some _ =>
              m ← load_string (c_data n);
              if streq m pkgData then mret p else find_loop_mem fuel' pkgData (c_next n)
          | None => find_loop_mem fuel' pkgData (c_next n)
          end
      end
  end.

(** The nodes are blocks of the memory, so its size is enough fuel. *)
Definition findPresentInCache_mem (pkgData : cstr) (head : option loc) : MM (option loc) :=
  fun h => find_loop_mem (size h) pkgData head h.

Definition freecacheDataCacheNode_mem (node : option loc) : MM unit :=
  match node with
  | None => mret tt
  | Some _ =>
      n ← load_entry node;
      _ ← free (c_data n);
      _ ← free (c_issueString n);
      free node
  end.

Definition remove_item_mem (cache : option loc) (head : option loc) : MM (option loc) :=
  match cache with
  | None => mret head
  | Some _ =>
      head ← (if bool_decide (head = cache) then
                n ← load_entry cache;
                _ ← update_entry_checked (c_next n) (set_c_prev None);
                mret (c_next n)
              else
                n ← load_entry cache;
                _ ← update_entry_checked (c_next n) (set_c_prev (c_prev n));
                _ ← update_entry_checked (c_prev n) (set_c_next (c_next n));
                mret head);
      _ ← freecacheDataCacheNode_mem cache;
      mret head
  end.
End CacheMem.

(** ** What the list owns *)

(** The block of one node and its strings. *)
Definition own_entry (p : loc) (e : entry) (nxt prv : option loc) : heapPropI :=
  (∃ m i, p ↦ BEntry (EntryCell m i nxt prv) ∗ str m (e_pkg e) ∗ str i (e_issue e))%I.

(** The nodes [ps] for the entries [l], from [hd] up to [nxt]; [prv] is the node
    before them. *)
Fixpoint dlist (prv hd : option loc) (ps : list loc) (l : list entry) (nxt : option loc) : heapPropI :=
  match ps, l with
  | [], [] => ⌜hd = nxt⌝ ∧ emp
  | p :: ps', e :: l' => ⌜hd = Some p⌝ ∧ ∃ n, own_entry p e n prv ∗ dlist (Some p) n ps' l' nxt
  | _, _ => False
  end%I.

(** The last of the nodes, or the one before them. *)
Fixpoint last_node (prv : option loc) (ps : list loc) : option loc :=
  match ps with [] => prv | p :: ps' => last_node (Some p) ps' end.

(** The list on memory for the list of the cache [c]. *)
Definition own_cache (hd : option loc) (c : cache) : heapPropI :=
  (∃ l ps, ⌜repr c l⌝ ∧ dlist None hd ps l None)%I.

(** The same with the node [p] in memory for the node [q] of [c]. *)
Definition own_cache_at (p q : loc) (hd : option loc) (c : cache) : heapPropI :=
  (∃ l1 e l2 ps1 ps2 m n, ⌜repr c (l1 ++ e :: l2) /\ e_loc e = q /\ m = last_node None ps1⌝ ∧
     (dlist None hd ps1 l1 (Some p) ∗ own_entry p e n m ∗ dlist (Some p) n ps2 l2 None))%I.

Lemma dlist_cons prv p ps e l n nxt :
  own_entry p e n prv ∗ dlist (Some p) n ps l nxt ⊢ dlist prv (Some p) (p :: ps) (e :: l) nxt.
Proof. iIntros "[He Hl]". iSplit; [done|]. iExists n. iFrame. Qed.

Lemma dlist_app ps1 : forall prv hd l1 ps2 l2 m nxt,
  dlist prv hd ps1 l1 m ∗ dlist (last_node prv ps1) m ps2 l2 nxt ⊢ dlist prv hd (ps1 ++ ps2) (l1 ++ l2) nxt.
Proof.
  induction ps1 as [|p ps1 IH]; intros prv hd [|e l1] ps2 l2 m nxt; cbn [dlist app last_node]; try by iIntros "[[] _]".
  - iIntros "[[-> _] H]". iFrame.
  - iIntros "[[-> (%n & He & H1)] H2]". iSplit; [done|]. iExists n. iFrame "He". iApply IH. iFrame.
Qed.

Lemma own_cache_init : ⊢ own_cache None initCache.
Proof. iExists [], []. iSplit; [iPureIntro; apply repr_init|by iSplit]. Qed.

(** The list is well formed. *)
Lemma own_cache_repr hd c h : holds (own_cache hd c) h -> exists l, repr c l.
Proof. intros (l & ps & Hr & _). by exists l. Qed.

(** Closing an opened list. *)
Lemma own_cache_close p q hd c : own_cache_at p q hd c ⊢ own_cache hd c.
Proof.
  iIntros "(%l1 & %e & %l2 & %ps1 & %ps2 & %m & %n & %E & H1 & He & H2)". destruct E as (Hr & _ & ->).
  iExists (l1 ++ e :: l2), (ps1 ++ p :: ps2). iSplit; [done|]. iApply dlist_app. iFrame "H1". iApply dlist_cons. iFrame.
Qed.

(** The nodes of a list are different blocks. *)
Lemma dlist_size ps : forall prv hd l nxt h, holds (dlist prv hd ps l nxt) h -> (length ps <= size h)%nat.
Proof.
  induction ps as [|p ps IH]; intros prv hd [|e l] nxt h; cbn [dlist length]; try done; [lia|].
  intros [_ (n & h1 & h2 & -> & Hd & (m & i & h3 & h4 & -> & Hd' & -> & _) & H2)].
  apply IH in H2. rw map_size_disj_union; [|done]. rw map_size_disj_union; [|done]. rw map_size_singleton. unfold memory in *. lia.
Qed.

Lemma dlist_length ps : forall prv hd l nxt h, holds (dlist prv hd ps l nxt) h -> length ps = length l.
Proof.
  induction ps as [|p ps IH]; intros prv hd [|e l] nxt h; cbn [dlist length]; try done.
  intros [_ (n & h1 & h2 & _ & _ & _ & H2)]. by rw (IH _ _ _ _ _ H2).
Qed.

(** A block is in one node only. *)
Lemma own_entry_distinct p e1 e2 n1 n2 m1 m2 : own_entry p e1 n1 m1 ∗ own_entry p e2 n2 m2 ⊢ False.
Proof.
  split. intros h (h1 & h2 & -> & Hd & (a & b & h3 & h4 & -> & _ & -> & _) & (a' & b' & h5 & h6 & -> & _ & -> & _)).
  apply map_disjoint_union_l in Hd as [Hd _]. apply map_disjoint_union_r in Hd as [Hd _].
  apply map_disjoint_singleton_l in Hd. by rw lookup_singleton_eq in Hd.
Qed.

(** ** The simulations *)

Section Rules.
Context `{OS} {A B : Type}.
Implicit Types (v : M B) (Q : A -> B -> heapPropI).

Lemma simwp_update_entry p c f (k : unit -> MM A) v Q :
  p ↦ BEntry c ∗ (p ↦ BEntry (f c) -∗ simwp (k tt) v Q) ⊢ simwp (update_entry (Some p) f ≫= k) v Q.
Proof.
  iIntros "[Hp Hk]". iApply simwp_assoc. iApply simwp_load_entry. iFrame "Hp". iIntros "Hp". iApply simwp_store. iFrame.
Qed.

(** The links of a node. *)
Lemma simwp_set_prev p e n m x (k : unit -> MM A) v Q :
  own_entry p e n m ∗ (own_entry p e n x -∗ simwp (k tt) v Q) ⊢ simwp (update_entry (Some p) (set_c_prev x) ≫= k) v Q.
Proof.
  iIntros "[(%d & %i & Hp & Hs) Hk]". iApply simwp_update_entry. iFrame "Hp". iIntros "Hp". iApply "Hk". iExists d, i. iFrame.
Qed.

Lemma simwp_set_next p e n m x (k : unit -> MM A) v Q :
  own_entry p e n m ∗ (own_entry p e x m -∗ simwp (k tt) v Q) ⊢ simwp (update_entry (Some p) (set_c_next x) ≫= k) v Q.
Proof.
  iIntros "[(%d & %i & Hp & Hs) Hk]". iApply simwp_update_entry. iFrame "Hp". iIntros "Hp". iApply "Hk". iExists d, i. iFrame.
Qed.

(** The link back of the first node of a list, if there is one. *)
Lemma simwp_relink_prev prv x hd ps l (k : unit -> MM A) v Q :
  dlist prv hd ps l None ∗ (dlist x hd ps l None -∗ simwp (k tt) v Q)
  ⊢ simwp (update_entry_checked hd (set_c_prev x) ≫= k) v Q.
Proof.
  iIntros "[Hl Hk]". destruct ps as [|p ps], l as [|e l]; cbn [dlist]; try by iDestruct "Hl" as "[]".
  - iDestruct "Hl" as "[-> _]". iApply "Hk". by iSplit.
  - iDestruct "Hl" as "[-> (%n & He & Hl)]". iApply simwp_set_prev. iFrame "He". iIntros "He". iApply "Hk".
    iApply dlist_cons. iFrame.
Qed.

(** The link forward of the last node. *)
Lemma simwp_relink_next ps : forall p prv hd l x y (k : unit -> MM A) v Q,
  dlist prv hd (p :: ps) l x ∗ (dlist prv hd (p :: ps) l y -∗ simwp (k tt) v Q)
  ⊢ simwp (update_entry_checked (last_node prv (p :: ps)) (set_c_next y) ≫= k) v Q.
Proof.
  induction ps as [|p' ps IH]; intros p prv hd [|e l] x y k v Q; iIntros "[Hl Hk]"; try by iDestruct "Hl" as "[]".
  - iDestruct "Hl" as "[-> (%n & He & Hl)]". destruct l as [|e' l]; [|by iDestruct "Hl" as "[]"]. iDestruct "Hl" as "[-> _]".
    iApply simwp_set_next. iFrame "He". iIntros "He". iApply "Hk". iApply dlist_cons. iFrame "He". by iSplit.
  - iDestruct "Hl" as "[-> (%n & He & Hl)]". iApply (IH p' (Some p)). iFrame "Hl". iIntros "Hl". iApply "Hk".
    iApply dlist_cons. iFrame.
Qed.

(** A node goes with its strings. *)
Lemma simwp_free_entry p e n m (k : unit -> MM A) v Q :
  own_entry p e n m ∗ simwp (k tt) v Q ⊢ simwp (freecacheDataCacheNode_mem (Some p) ≫= k) v Q.
Proof.
  iIntros "[(%d & %i & Hp & Hd & Hi) Hk]". iApply simwp_assoc. iApply simwp_load_entry. iFrame "Hp". iIntros "Hp".
  cbn [c_data c_issueString]. iApply simwp_assoc. iApply simwp_free_str. iFrame "Hd". iApply simwp_assoc.
  iApply simwp_free_str. iFrame "Hi". iApply simwp_free. iFrame.
Qed.

(** The issue of an entry. *)
Lemma simwp_entry_issue p q hd c (k : cstr -> MM A) (k' : cstr -> M B) Q :
  own_cache_at p q hd c ∗ (∀ s, own_cache_at p q hd c -∗ simwp (k s) (k' s) Q)
  ⊢ simwp (e ← load_entry (Some p); s ← load_string (c_issueString e); k s)
      (n ← Cache.read_node c q; s ← deref (issueString n); k' s) Q.
Proof.
  iIntros "[(%l1 & %e & %l2 & %ps1 & %ps2 & %m & %n & %E & H1 & (%d & %i & Hp & Hd & Hi) & H2) Hk]". destruct E as (Hr & <- & Em).
  iApply simwp_load_entry. iFrame "Hp". iIntros "Hp". cbn [c_issueString].
  iStopProof. apply (simwp_value _ (fun x => issueString x = e_issue e)).
  { intros w. destruct (repr_read _ _ _ _ w Hr) as (x & E & Ex). by exists x. }
  intros x Ex. rw Ex. iIntros "(H1 & Hd & Hi & H2 & Hk & Hp)". destruct (e_issue e) as [s|] eqn:Es.
  - change (deref (Some s) ≫= ?f) with (f s). cbv beta. iApply simwp_load_str. iFrame "Hi". iIntros "Hi". iApply "Hk".
    iExists l1, e, l2, ps1, ps2, m, n. iSplit; [done|]. iFrame "H1 H2". iExists d, i. rw Es. iFrame.
  - iDestruct (str_none with "Hi") as "[-> _]". fails.
Qed.

(** The allocation of a node, which the version on values makes too. *)
Lemma simwp_append_value b pkg issue c l (k : option loc -> MM A) (k' : cache -> M B) Q :
  repr c l ->
  ((∀ p c' q (_ : repr c' (Entry q pkg issue :: l)), p ↦ b -∗ simwp (k (Some p)) (k' c') Q) ∧
   (∀ _ : alloc_fails, simwp (k None) (k' c) Q))
  ⊢ simwp (alloc b ≫= k) (append_item pkg issue c ≫= k') Q.
Proof.
  intros Hr. split. intros h [H1 H2] hf w Hd. destruct (append_item_repr pkg issue c l w Hr) as (c' & E & Hc).
  unfold mbind, MM_bind, alloc, malloc. unfold mbind, M_bind. rw E. cbn.
  destruct (os_malloc (w_allocs w)) eqn:Em; [|subst c'; apply (H2 (ex_intro _ _ Em) hf _ Hd)].
  destruct Hc as [q Hc]. destruct (fresh_block _ _ _ _ (H1 (fresh (dom (h ∪ hf))) c' q Hc) Hd) as (h' & HW & Hd' & ->).
  by apply (HW hf _ Hd').
Qed.

(** [append_item]: the list owns the strings; they are lost when there is no
    memory for the node. *)
Lemma simwp_append_item pkg issue x y hd c (k : option loc -> MM A) (k' : cache -> M B) Q :
  own_cache hd c ∗ str pkg x ∗ str issue y ∗ (∀ hd' c', own_cache hd' c' -∗ lost -∗ simwp (k hd') (k' c') Q)
  ⊢ simwp (append_item_mem pkg issue hd ≫= k) (append_item x y c ≫= k') Q.
Proof.
  iIntros "((%l & %ps & %Hr & Hl) & Hx & Hy & Hk)". iApply simwp_assoc. iApply simwp_assoc.
  iApply (simwp_append_value _ x y c l _ _ _ Hr). iSplit; [iIntros (p c' q Hr') "Hp"|iIntros (Hf)].
  - iApply simwp_assoc. iApply simwp_store. iFrame "Hp". iIntros "Hp".
    change (mret (Some p) ≫= ?f) with (f (Some p)). cbv beta iota.
    iAssert (own_entry p (Entry q x y) None None) with "[Hp Hx Hy]" as "He"; [iExists pkg, issue; iFrame|].
    assert (dlist None (Some p) (p :: ps) (Entry q x y :: l) None ⊢ own_cache (Some p) c') as Hclose.
    { iIntros "Hl". iExists _, _. by iFrame. }
    destruct ps as [|p' ps], l as [|e l]; cbn [dlist]; try by iDestruct "Hl" as "[]".
    + iDestruct "Hl" as "[-> _]". change (mret (Some p) ≫= ?f) with (f (Some p)). iApply ("Hk" with "[He]"); [|iApply lost_none].
      iApply Hclose. iApply dlist_cons. iFrame "He". by iSplit.
    + iDestruct "Hl" as "[-> (%n & He' & Hl)]". iApply simwp_assoc. iApply simwp_set_next. iFrame "He". iIntros "He".
      iApply simwp_assoc. iApply simwp_set_prev. iFrame "He'". iIntros "He'". iApply ("Hk" with "[He He' Hl]"); [|iApply lost_none].
      iApply Hclose. iApply dlist_cons. iFrame "He". iApply dlist_cons. iFrame.
  - change (mret None ≫= ?f) with (f (@None loc)). cbv beta iota. change (mret hd ≫= ?f) with (f hd).
    iApply ("Hk" with "[Hl]"); [by iExists l, ps; iFrame|]. lose.
Qed.

(** The walk through the list. *)
Lemma find_loop_sim pkg l : forall ps prv hd fuel, (length l <= fuel)%nat ->
  dlist prv hd ps l None ⊢ simwp (find_loop_mem fuel pkg hd) (mret (List.find (has_pkg pkg) l))
    (fun a r => match r with
       | Some e => ∃ l1 l2 ps1 ps2 p n, ⌜a = Some p /\ l = l1 ++ e :: l2⌝ ∧
           (dlist prv hd ps1 l1 (Some p) ∗ own_entry p e n (last_node prv ps1) ∗ dlist (Some p) n ps2 l2 None)
       | None => ⌜a = None⌝ ∧ dlist prv hd ps l None
       end)%I.
Proof.
  induction l as [|e l IH]; intros [|p ps] prv hd fuel Hf; cbn [dlist]; try by iIntros "[]".
  { iIntros "[-> _]". cbn [List.find]. destruct fuel; iApply simwp_ret; by repeat iSplit. }
  iIntros "[-> (%n & (%d & %i & Hp & Hd & Hi) & Hl)]". destruct fuel as [|fuel]; [cbn in Hf; lia|]. cbn [find_loop_mem].
  iApply simwp_load_entry. iFrame "Hp". iIntros "Hp". cbn [c_data c_next].
  assert (has_pkg pkg e = false -> own_entry p e n prv ∗ dlist (Some p) n ps l None
    ⊢ simwp (find_loop_mem fuel pkg n) (mret (List.find (has_pkg pkg) (e :: l))) (fun a r => match r with
       | Some e' => ∃ l1 l2 ps1 ps2 p' n', ⌜a = Some p' /\ e :: l = l1 ++ e' :: l2⌝ ∧
           (dlist prv (Some p) ps1 l1 (Some p') ∗ own_entry p' e' n' (last_node prv ps1) ∗ dlist (Some p') n' ps2 l2 None)
       | None => ⌜a = None⌝ ∧ ⌜Some p = Some p⌝ ∧ ∃ n, own_entry p e n prv ∗ dlist (Some p) n ps l None
       end)%I) as Hnext.
  { intros He. cbn [List.find]. rw He. iIntros "[He Hl]". iApply simwp_wand. iSplitL "Hl"; [iApply IH; [cbn in Hf; lia|done]|].
    iIntros (a [e'|]).
    - iIntros "(%l1 & %l2 & %ps1 & %ps2 & %p' & %n' & %E & H1 & He' & H2)". destruct E as [-> ->].
      iExists (e :: l1), l2, (p :: ps1), ps2, p', n'. iSplit; [done|]. iFrame "He' H2". iApply dlist_cons. iFrame.
    - iIntros "[-> Hl]". iSplit; [done|]. iSplit; [done|]. iExists n. iFrame. }
  unfold has_pkg in Hnext at 1. destruct (e_pkg e) as [m|] eqn:Em.
  - iDestruct (str_is_some with "Hd") as (d') "[-> Hd]". iApply simwp_load_str. iFrame "Hd". iIntros "Hd".
    destruct (streq m pkg) eqn:Es.
    + clear Hnext. cbn [List.find]. unfold has_pkg at 1. rw Em Es. iApply simwp_ret. iExists [], l, [], ps, p, n. iSplit; [done|].
      iFrame "Hl". iSplitR; [by iSplit|]. iExists (Some d'), i. rw Em. iFrame.
    + iApply Hnext; [done|]. iFrame "Hl". iExists (Some d'), i. rw Em. iFrame.
  - iDestruct (str_none with "Hd") as "[-> _]". iApply Hnext; [done|]. iFrame "Hl". iExists None, i. rw Em. iFrame. iApply str_null.
Qed.

Lemma find_sim pkg hd c :
  own_cache hd c ⊢ simwp (findPresentInCache_mem pkg hd) (findPresentInCache pkg c)
    (fun a r => match r with
       | Some q => ∃ p, ⌜a = Some p⌝ ∧ own_cache_at p q hd c
       | None => ⌜a = None⌝ ∧ own_cache hd c
       end)%I.
Proof.
  split. intros h (l & ps & Hr & Hl) hf w Hd. unfold findPresentInCache_mem. rw (findPresentInCache_repr pkg c l w Hr).
  assert (length l <= size (h ∪ hf))%nat as Hf.
  { rw map_size_disj_union; [|done]. pose proof (dlist_size _ _ _ _ _ _ Hl). rw -(dlist_length _ _ _ _ _ _ Hl). unfold memory in *. lia. }
  pose proof (entails_holds _ _ (find_loop_sim pkg l ps None hd _ Hf) h Hl hf w Hd) as (a & h' & E & Hd' & HQ).
  exists a, h'. split; [exact E|]. split; [exact Hd'|]. destruct (List.find (has_pkg pkg) l) as [e|]; cbn [fmap option_fmap option_map].
  - destruct HQ as (l1 & l2 & ps1 & ps2 & p & n & [-> ->] & HQ). exists p. split; [done|].
    exists l1, e, l2, ps1, ps2, (last_node None ps1), n. split; [by split_and!|exact HQ].
  - destruct HQ as [Ea HQ]. split; [exact Ea|]. by exists l, ps.
Qed.

(** Unlinking a node and freeing it. *)
Lemma simwp_remove_item p q hd c (k : option loc -> MM A) (k' : cache -> M B) Q :
  own_cache_at p q hd c ∗ (∀ hd' c', own_cache hd' c' -∗ simwp (k hd') (k' c') Q)
  ⊢ simwp (remove_item_mem (Some p) hd ≫= k) (remove_item (Some q) c ≫= k') Q.
Proof.
  iIntros "[(%l1 & %e & %l2 & %ps1 & %ps2 & %m & %n & %E & H1 & He & H2) Hk]". destruct E as (Hr & <- & ->). iStopProof.
  apply (simwp_value _ (fun c' => repr c' (l1 ++ l2))); [intros w; by apply remove_item_repr|]. intros c' Hr'.
  iIntros "(H1 & He & H2 & Hk)". unfold remove_item_mem. iApply simwp_assoc.
  assert (forall hd' ps', own_entry p e n (last_node None ps1) ∗ dlist None hd' ps' (l1 ++ l2) None ∗
      (∀ hd' c', own_cache hd' c' -∗ simwp (k hd') (k' c') Q)
    ⊢ simwp ((_ ← freecacheDataCacheNode_mem (Some p); mret hd') ≫= k) (k' c') Q) as Hend.
  { intros hd' ps'. iIntros "(He & Hl & Hk)". iApply simwp_assoc. iApply simwp_free_entry. iFrame "He".
    change (mret hd' ≫= ?f) with (f hd'). iApply "Hk". iExists (l1 ++ l2), ps'. by iFrame. }
  destruct ps1 as [|p1 ps1], l1 as [|e1 l1]; cbn [dlist]; try by iDestruct "H1" as "[]".
  - iDestruct "H1" as "[-> _]". rw bool_decide_true; [|done]. iApply simwp_assoc.
    iDestruct "He" as (d i) "(Hp & Hs)". iApply simwp_load_entry. iFrame "Hp". iIntros "Hp". cbn [c_next].
    iApply simwp_assoc. iApply simwp_relink_prev. iFrame "H2". iIntros "H2". change (mret n ≫= ?f) with (f n). cbv beta.
    iApply (Hend n ps2). iFrame "H2 Hk". iExists d, i. iFrame.
  - iDestruct "H1" as "[-> (%n1 & He1 & H1)]". destruct (decide (p1 = p)) as [->|Hne].
    { iDestruct (own_entry_distinct with "[$He1 $He]") as "[]". }
    iDestruct (dlist_cons with "[$He1 $H1]") as "H1". rw bool_decide_false; [|congruence]. iApply simwp_assoc.
    iDestruct "He" as (d i) "(Hp & Hs)". iApply simwp_load_entry. iFrame "Hp". iIntros "Hp". cbn [c_next c_prev].
    iApply simwp_assoc. iApply simwp_relink_prev. iFrame "H2". iIntros "H2". iApply simwp_assoc. iApply simwp_relink_next.
    iFrame "H1". iIntros "H1". change (mret (Some p1) ≫= ?f) with (f (Some p1)). cbv beta.
    iApply (Hend (Some p1) ((p1 :: ps1) ++ ps2)). iSplitL "Hp Hs"; [iExists d, i; iFrame|]. iFrame "Hk".
    iApply dlist_app. iFrame.
Qed.
End Rules.
