(* ===== verification/ProfileMem.v ===== *)
(** * ProfileMem: the memory of commands and reports
    (src/rrdRunCmdThread.c, src/rrdJsonParser.c)

    The functions from [getIssueInfo] to [checkIssueNodeInfo] as they handle
    the blocks of [data_buf], [issueNodeData] and [issueData] and the strings
    they point to: what is allocated, in which order it is freed, and which
    pointers are set to [NULL].  What does not touch these blocks is taken from
    the other files.  Blocks of cJSON are not counted.  Each function is shown
    to do what its version on values does, and the memory it leaves is
    described exactly. *)

From stdpp Require Import gmap.
From iris.proofmode Require Import proofmode.
From S2P Require Import Prelude Types OS CJson CommandSanity IssueType Cache SysInfo RunCmd Profile Heap.

Local Open Scope Z_scope.

(** ** Strings and structures *)

(** The string of a pointer that may be [NULL]. *)
Definition load_opt (p : option loc) : MM (option cstr) :=
  match p with None => mret None | Some _ => s ← load_string p; mret (Some s) end.

(** A structure with its strings. *)
Definition read_message (p : option loc) : MM data_buf :=
  b ← load_buf p;
  mdata ← load_opt (c_mdata b);
  path ← load_opt (c_jsonPath b);
  sfx ← load_opt (c_suffix b);
  mret (DataBuf (c_mtype b) mdata path (c_inDynamic b) (c_appendMode b) (c_dsEvent b) sfx).

Definition read_names (p : option loc) : MM issueNodeData :=
  n ← load_node p;
  Node ← load_opt (c_Node n);
  subNode ← load_opt (c_subNode n);
  mret (IssueNode Node subNode).

(** [p->field = x] *)
Definition set_c_mdata (x : option loc) (b : buf_cell) : buf_cell :=
  BufCell (c_mtype b) x (c_jsonPath b) (c_inDynamic b) (c_appendMode b) (c_dsEvent b) (c_suffix b).
Definition set_c_jsonPath (x : option loc) (b : buf_cell) : buf_cell :=
  BufCell (c_mtype b) (c_mdata b) x (c_inDynamic b) (c_appendMode b) (c_dsEvent b) (c_suffix b).
Definition set_c_suffix (x : option loc) (b : buf_cell) : buf_cell :=
  BufCell (c_mtype b) (c_mdata b) (c_jsonPath b) (c_inDynamic b) (c_appendMode b) (c_dsEvent b) x.
Definition set_c_Node (x : option loc) (n : node_cell) : node_cell := NodeCell x (c_subNode n).
Definition set_c_subNode (x : option loc) (n : node_cell) : node_cell := NodeCell (c_Node n) x.
Definition set_c_rfcvalue (x : option loc) (d : issue_cell) : issue_cell := IssueCell x (c_command d) (c_timeout d).
Definition set_c_command (x : option loc) (d : issue_cell) : issue_cell := IssueCell (c_rfcvalue d) x (c_timeout d).
Definition set_c_timeout (x : Z) (d : issue_cell) : issue_cell := IssueCell (c_rfcvalue d) (c_command d) x.

Definition update_buf (p : option loc) (f : buf_cell -> buf_cell) : MM unit := b ← load_buf p; store p (BBuf (f b)).
Definition update_nodes (p : option loc) (f : node_cell -> node_cell) : MM unit := n ← load_node p; store p (BNode (f n)).
Definition update_issue (p : option loc) (f : issue_cell -> issue_cell) : MM unit :=
  d ← load_issue p; store p (BIssue (f d)).

(** [free(p->field); p->field = NULL;] *)
Definition free_mdata (p : option loc) : MM unit := b ← load_buf p; _ ← free (c_mdata b); update_buf p (set_c_mdata None).
Definition free_jsonPath (p : option loc) : MM unit :=
  b ← load_buf p; _ ← free (c_jsonPath b); update_buf p (set_c_jsonPath None).
Definition free_suffix (p : option loc) : MM unit := b ← load_buf p; _ ← free (c_suffix b); update_buf p (set_c_suffix None).
Definition free_Node (p : option loc) : MM unit := n ← load_node p; _ ← free (c_Node n); update_nodes p (set_c_Node None).
Definition free_subNode (p : option loc) : MM unit :=
  n ← load_node p; _ ← free (c_subNode n); update_nodes p (set_c_subNode None).

(** [p->field = strdup(s)] *)
Definition copy_Node `{OS} (p : option loc) (s : cstr) : MM unit := n ← alloc (BString s); update_nodes p (set_c_Node n).
Definition copy_subNode `{OS} (p : option loc) (s : cstr) : MM unit :=
  n ← alloc (BString s); update_nodes p (set_c_subNode n).

(** The three fields of a buffer; the strings of issue data and the data. *)
Definition clear_buffer_mem (p : option loc) : MM unit := _ ← free_mdata p; _ ← free_jsonPath p; free_suffix p.
Definition free_issue (p : option loc) : MM unit :=
  d ← load_issue p; _ ← free (c_rfcvalue d); _ ← free (c_command d); free p.

Section ProfileMem.
Context `{OS} `{CJSON} `{Device}.

Definition getIssueInfo_mem (issuestr issue : option loc) : MM unit :=
  s ← load_string issuestr;
  let nodes := getParamcount s in
  let tokens := strtok_all "." s in
  if (length tokens <=? nodes + 1)%nat then
    t ← lift (array_get tokens 0);
    Node ← alloc (BString t);
    match Node with
    | None => hfault NullDeref
    | Some _ =>
        if negb (nodes =? 0)%nat then
          u ← lift (array_get tokens 1);
          subNode ← alloc (BString u);
          match subNode with
          | None => hfault NullDeref
          | Some _ => store issue (BNode (NodeCell Node subNode))
          end
        else store issue (BNode (NodeCell Node None))
    end
  else hfault OutOfBounds.

(** ** executeCommands *)

Definition replaceRRDLocation_mem (commandStr dirLocation : option loc) : MM (option loc) :=
  cmd ← load_string commandStr;
  dir ← load_string dirLocation;
  let text := replace_loop (length cmd) dir cmd in
  data ← alloc (BString text);
  match data with
  | Some _ =>
      if Z.of_nat (length text) + 1 <=? (replaced_datalen cmd dir + 1) mod SIZE_MOD
      then _ ← free commandStr; mret data
      else hfault OutOfBounds
  | None => _ ← free commandStr; mret None
  end.

(** The block that replaces the placeholder. *)
Definition located_command_mem (cmdData : option loc) (dirname : cstr) : MM unit :=
  d ← load_issue cmdData;
  cmd ← load_string (c_command d);
  match strstr cmd DEFAULT_DIR with
  | Some _ =>
      cwd ← lift sys_getcwd;
      let pathname := match cwd with
                      | Some p => if (length p <? BUF_LEN_256)%nat then p else []
                      | None => []
                      end in
      outdirpath ← alloc (BString (pathname ++ #"/" ++ dirname));
      match outdirpath with
      | None => update_issue cmdData (set_c_command None)
      | Some _ =>
          command ← replaceRRDLocation_mem (c_command d) outdirpath;
          _ ← update_issue cmdData (set_c_command command);
          free outdirpath
      end
  | None => mret tt
  end.

(** The text that is unquoted in place is freed next: [run_service] has a copy. *)
Definition executeCommands_mem (cmdData : option loc) : MM bool :=
  d ← load_issue cmdData;
  match c_command d with
  | None => _ ← free (c_rfcvalue d); _ ← free cmdData; mret false
  | Some _ =>
      loc_time ← lift sys_localtime;
      rfc ← load_string (c_rfcvalue d);
      loc_time ← lift (deref loc_time);
      dirname ← lift (stamp_dir (rfc ++ #"_" ++ printf_dec 0 os_pthread_self ++ #"_") loc_time);
      made ← lift (sys_mkdir dirname);
      if negb made then _ ← free_issue cmdData; mret false else
      _ ← located_command_mem cmdData dirname;
      d ← load_issue cmdData;
      match c_command d with
      | None => _ ← free (c_rfcvalue d); _ ← free cmdData; mret false
      | Some _ =>
          if (BUF_LEN_256 <=? length dirname + 1 + length RRD_OUTPUT_FILE)%nat then hfault OutOfBounds else
          let finalOutFile := dirname ++ #"/" ++ RRD_OUTPUT_FILE in
          opened ← lift (sys_fopen_write finalOutFile);
          if negb opened then _ ← free_issue cmdData; mret false else
          cmd ← load_string (c_command d);
          r ← lift (run_service rfc cmd finalOutFile (c_timeout d));
          _ ← free_issue cmdData;
          mret r
      end
  end.

(** ** The command of an issue *)

(** The command is rewritten in place. *)
Definition isCommandsValid_mem (issuecmd : option loc) (sanitylist : option json) : MM Z :=
  cmd ← load_string issuecmd;
  '(ret, cmd) ← lift (isCommandsValid cmd sanitylist);
  _ ← store issuecmd (BString cmd);
  mret ret.

(** The previous command is freed before it is overwritten. *)
Fixpoint read_items_mem (issuestdata : option loc) (type : option json) (idx : list Z) : MM unit :=
  match idx with
  | [] => mret tt
  | j :: idx' =>
      match cJSON_GetArrayItem type j with
      | None => read_items_mem issuestdata type idx'
      | Some elem =>
          if bool_decide (json_kind elem = cJSON_Number) then
            _ ← update_issue issuestdata (set_c_timeout (json_valueint elem));
            read_items_mem issuestdata type idx'
          else if bool_decide (json_kind elem = cJSON_String) then
            match cJSON_Print (Some elem) with
            | Some tmpCommand =>
                d ← load_issue issuestdata;
                _ ← free (c_command d);
                cmd ← alloc (BString tmpCommand);
                _ ← update_issue issuestdata (set_c_command cmd);
                read_items_mem issuestdata type idx'
            | None => read_items_mem issuestdata type idx'
            end
          else read_items_mem issuestdata type idx'
      end
  end.

(** [malloc] and the three initial values. *)
Definition new_issue : MM (option loc) := alloc (BIssue (IssueCell None None 0)).

(** The copy of the request and the default time-out. *)
Definition accept_issue (issuestdata buf : option loc) : MM unit :=
  b ← load_string buf;
  rfc ← alloc (BString b);
  _ ← update_issue issuestdata (set_c_rfcvalue rfc);
  update_issue issuestdata (fun d => if c_timeout d =? 0 then set_c_timeout DEFAULT_TIMEOUT d else d).

Definition getIssueCommandInfo_mem (node : option loc) (jsoncfg : option json) (buf : option loc) : MM (option loc) :=
  n ← read_names node;
  let category := cJSON_GetObjectItem jsoncfg (Node n) in
  let type := cJSON_GetObjectItem category (subNode n) in
  issuestdata ← new_issue;
  match issuestdata with
  | None => mret None
  | Some _ =>
      _ ← read_items_mem issuestdata type (seqZ 0 (cJSON_GetArraySize type));
      d ← load_issue issuestdata;
      match c_command d with
      | None => _ ← free issuestdata; mret None
      | Some _ =>
          ret ← isCommandsValid_mem (c_command d) (sanity_commands jsoncfg);
          if negb (ret =? 0) then _ ← free (c_command d); _ ← free issuestdata; mret None
          else _ ← accept_issue issuestdata buf; mret issuestdata
      end
  end.

Definition invokeSanityandCommandExec_mem (node : option loc) (jsoncfg : option json) (buf : option loc)
    (deepSleepAwkEvnt : bool) : MM bool :=
  n ← read_names node;
  let root := if deepSleepAwkEvnt then cJSON_GetObjectItem jsoncfg (Some DEEP_SLEEP_STR) else jsoncfg in
  let category := cJSON_GetObjectItem root (Node n) in
  let type := cJSON_GetObjectItem category (subNode n) in
  _ ← free_Node node;
  _ ← free_subNode node;
  issuestdata ← new_issue;
  match issuestdata with
  | None => mret false
  | Some _ =>
      _ ← read_items_mem issuestdata type (seqZ 0 (cJSON_GetArraySize type));
      d ← load_issue issuestdata;
      match c_command d with
      | None => _ ← free issuestdata; mret false
      | Some _ =>
          let check := cJSON_GetObjectItem (cJSON_GetObjectItem jsoncfg (Some #"Sanity")) (Some #"Check") in
          jsoncfg ← lift (match cJSON_Print check with
                          | None => readAndParseJSON RRD_JSON_FILE
                          | Some _ => mret jsoncfg
                          end);
          ret ← isCommandsValid_mem (c_command d) (sanity_commands jsoncfg);
          if negb (ret =? 0) then _ ← free (c_command d); _ ← free issuestdata; mret false
          else _ ← accept_issue issuestdata buf; executeCommands_mem issuestdata
      end
  end.

(** ** All issue types *)

Fixpoint all_types_loop_mem (jsoncfg mainnode : option json) (rfcbuf : option loc) (idx : list Z) (node : option loc)
    (execstatus : bool) : MM bool :=
  match idx with
  | [] => mret execstatus
  | i :: idx' =>
      match cJSON_GetArrayItem mainnode i with
      | None => all_types_loop_mem jsoncfg mainnode rfcbuf idx' node execstatus
      | Some item =>
          name ← lift (deref (json_string item));
          rfc ← load_string rfcbuf;
          issuetype ← alloc (BString (rfc ++ RFC_DELIM ++ name));
          match issuetype with
          | None => hfault NullDeref
          | Some _ =>
              _ ← (if negb (i =? 0) then copy_Node node rfc else mret tt);
              _ ← copy_subNode node name;
              execstatus ← invokeSanityandCommandExec_mem node jsoncfg issuetype false;
              _ ← free issuetype;
              all_types_loop_mem jsoncfg mainnode rfcbuf idx' node execstatus
          end
      end
  end.

Definition processAllDebugCommand_mem (jsoncfg : option json) (node rfcbuf : option loc) : MM bool :=
  n ← read_names node;
  let mainnode := cJSON_GetObjectItem jsoncfg (Node n) in
  match mainnode, cJSON_Print mainnode with
  | Some _, Some _ =>
      let subitems := cJSON_GetArraySize mainnode in
      if negb (subitems =? 0) then all_types_loop_mem jsoncfg mainnode rfcbuf (seqZ 0 subitems) node false
      else mret false
  | _, _ => mret false
  end.

(** [None] is the early return when an allocation failed. *)
Fixpoint deep_types_loop_mem (jsoncfg categoryNode : option json) (idx : list Z) (node : option loc)
    (execstatus : bool) : MM (option bool) :=
  match idx with
  | [] => mret (Some execstatus)
  | i :: idx' =>
      category ← lift (deref categoryNode);
      category_name ← lift (deref (json_string category));
      item ← lift (deref (cJSON_GetArrayItem categoryNode i));
      type_name ← lift (deref (json_string item));
      issuedCommand ← alloc (BString (deep_sleep_name category_name type_name));
      match issuedCommand with
      | None => mret None
      | Some _ =>
          _ ← copy_Node node category_name;
          _ ← copy_subNode node type_name;
          execstatus ← invokeSanityandCommandExec_mem node jsoncfg issuedCommand true;
          _ ← free issuedCommand;
          deep_types_loop_mem jsoncfg categoryNode idx' node execstatus
      end
  end.

Fixpoint deep_categories_loop_mem (jsoncfg rootNode : option json) (idx : list Z) (node : option loc)
    (execstatus : bool) : MM bool :=
  match idx with
  | [] => mret execstatus
  | m :: idx' =>
      let categoryNode := cJSON_GetArrayItem rootNode m in
      r ← deep_types_loop_mem jsoncfg categoryNode (seqZ 0 (cJSON_GetArraySize categoryNode)) node execstatus;
      match r with
      | None => mret false
      | Some execstatus => deep_categories_loop_mem jsoncfg rootNode idx' node execstatus
      end
  end.

Definition processAllDeepSleepAwkMetricsCommands_mem (jsoncfg : option json) (node : option loc) : MM bool :=
  n ← read_names node;
  let rootNode := cJSON_GetObjectItem jsoncfg (Node n) in
  _ ← free_Node node;
  deep_categories_loop_mem jsoncfg rootNode (seqZ 0 (cJSON_GetArraySize rootNode)) node false.

(** ** checkIssueNodeInfo *)

Definition run_issue_mem (node : option loc) (jsoncfg : option json) (buff rfcbuf : option loc)
    (isDeepSleepAwakeEventValid : bool) (appendprofiledata : option loc) : MM bool :=
  n ← load_node node;
  match c_subNode n with
  | Some _ =>
      b ← load_buf buff;
      if c_appendMode b then
        r ← executeCommands_mem appendprofiledata;
        _ ← free_Node node;
        _ ← free_subNode node;
        mret r
      else invokeSanityandCommandExec_mem node jsoncfg rfcbuf false
  | None =>
      if isDeepSleepAwakeEventValid then processAllDeepSleepAwkMetricsCommands_mem jsoncfg node
      else processAllDebugCommand_mem jsoncfg node rfcbuf
  end.

(** The upload reads the strings of the buffer. *)
Definition upload_report_mem (buff : option loc) (outdir : cstr) : MM Z :=
  b ← read_message buff;
  mdata ← lift (deref (buf_mdata b));
  lift (upload_report b mdata outdir).

Definition checkIssueNodeInfo_mem (node : option loc) (jsoncfg : option json) (buff : option loc)
    (isDeepSleepAwakeEventValid : bool) (appendprofiledata : option loc) : MM unit :=
  b ← load_buf buff;
  mdata ← load_string (c_mdata b);
  rfcbuf ← alloc (BString mdata);
  match rfcbuf with
  | None => clear_buffer_mem buff
  | Some _ =>
      ltime ← lift sys_localtime;
      c ← load_node node;
      n ← load_string (c_Node c);
      let isDeepSleepAwakeEventValid :=
        if streq n DEEP_SLEEP_STR || streq n #"deepsleep" then true else isDeepSleepAwakeEventValid in
      ltime ← lift (deref ltime);
      outdir ← lift (stamp_dir (RRD_OUTPUT_DIR ++ n ++ #"-DebugReport-") ltime);
      made ← lift (sys_mkdir outdir);
      if negb made then _ ← free rfcbuf; clear_buffer_mem buff else
      changed ← lift (sys_chdir outdir);
      if negb changed then _ ← free rfcbuf; clear_buffer_mem buff else
      execstatus ← run_issue_mem node jsoncfg buff rfcbuf isDeepSleepAwakeEventValid appendprofiledata;
      _ ← (if negb execstatus then mret 0 else upload_report_mem buff outdir);
      _ ← free rfcbuf;
      clear_buffer_mem buff
  end.
End ProfileMem.

(** ** What the structures own *)

Definition own_buf (p : loc) (b : data_buf) : heapPropI :=
  (∃ m j s, p ↦ BBuf (BufCell (mtype b) m j (inDynamic b) (appendMode b) (dsEvent b) s) ∗
     str m (buf_mdata b) ∗ str j (jsonPath b) ∗ str s (suffix b))%I.

Definition own_node (p : loc) (n : issueNodeData) : heapPropI :=
  (∃ a b, p ↦ BNode (NodeCell a b) ∗ str a (Node n) ∗ str b (subNode n))%I.

Definition own_issue (p : loc) (d : issueData) : heapPropI :=
  (∃ r c, p ↦ BIssue (IssueCell r c (timeout d)) ∗ str r (rfcvalue d) ∗ str c (command d))%I.

Section Access.
Context {A B : Type}.
Implicit Types (v : M B) (Q : A -> B -> heapPropI).

Lemma simwp_update_buf p c f (k : unit -> MM A) v Q :
  p ↦ BBuf c ∗ (p ↦ BBuf (f c) -∗ simwp (k tt) v Q) ⊢ simwp (update_buf (Some p) f ≫= k) v Q.
Proof.
  iIntros "[Hp Hk]". iApply simwp_assoc. iApply simwp_load_buf. iFrame "Hp". iIntros "Hp". iApply simwp_store. iFrame.
Qed.

Lemma simwp_update_nodes p c f (k : unit -> MM A) v Q :
  p ↦ BNode c ∗ (p ↦ BNode (f c) -∗ simwp (k tt) v Q) ⊢ simwp (update_nodes (Some p) f ≫= k) v Q.
Proof.
  iIntros "[Hp Hk]". iApply simwp_assoc. iApply simwp_load_node. iFrame "Hp". iIntros "Hp". iApply simwp_store. iFrame.
Qed.

Lemma simwp_update_issue p c f (k : unit -> MM A) v Q :
  p ↦ BIssue c ∗ (p ↦ BIssue (f c) -∗ simwp (k tt) v Q) ⊢ simwp (update_issue (Some p) f ≫= k) v Q.
Proof.
  iIntros "[Hp Hk]". iApply simwp_assoc. iApply simwp_load_issue. iFrame "Hp". iIntros "Hp". iApply simwp_store. iFrame.
Qed.

Lemma simwp_load_opt p s (k : option cstr -> MM A) v Q :
  str p s ∗ (str p s -∗ simwp (k s) v Q) ⊢ simwp (load_opt p ≫= k) v Q.
Proof.
  destruct p as [p|], s as [s|]; cbn [str load_opt]; try (iIntros "[[] _]").
  - iIntros "[Hp Hk]". iApply simwp_assoc. iApply simwp_load_string. by iFrame.
  - iIntros "[Hp Hk]". by iApply "Hk".
Qed.

Lemma simwp_read_names p n (k : issueNodeData -> MM A) v Q :
  own_node p n ∗ (own_node p n -∗ simwp (k n) v Q) ⊢ simwp (read_names (Some p) ≫= k) v Q.
Proof.
  iIntros "[(%a & %b & Hp & Ha & Hb) Hk]". iApply simwp_assoc. iApply simwp_load_node. iFrame "Hp". iIntros "Hp".
  iApply simwp_assoc. iApply simwp_load_opt. iFrame "Ha". iIntros "Ha".
  iApply simwp_assoc. iApply simwp_load_opt. iFrame "Hb". iIntros "Hb". destruct n. iApply "Hk". iExists a, b. iFrame.
Qed.

Lemma simwp_read_message p b (k : data_buf -> MM A) v Q :
  own_buf p b ∗ (own_buf p b -∗ simwp (k b) v Q) ⊢ simwp (read_message (Some p) ≫= k) v Q.
Proof.
  iIntros "[(%m & %j & %s & Hp & Hm & Hj & Hs) Hk]". iApply simwp_assoc. iApply simwp_load_buf. iFrame "Hp". iIntros "Hp".
  iApply simwp_assoc. iApply simwp_load_opt. iFrame "Hm". iIntros "Hm".
  iApply simwp_assoc. iApply simwp_load_opt. iFrame "Hj". iIntros "Hj".
  iApply simwp_assoc. iApply simwp_load_opt. iFrame "Hs". iIntros "Hs". destruct b. iApply "Hk". iExists m, j, s. iFrame.
Qed.

(** Freeing a field. *)
Lemma simwp_free_mdata p b (k : unit -> MM A) v Q :
  own_buf p b ∗ (own_buf p (set_mdata None b) -∗ simwp (k tt) v Q) ⊢ simwp (free_mdata (Some p) ≫= k) v Q.
Proof.
  iIntros "[(%m & %j & %s & Hp & Hm & Hj & Hs) Hk]". iApply simwp_assoc. iApply simwp_load_buf. iFrame "Hp". iIntros "Hp".
  iApply simwp_assoc. iApply simwp_free_str. iFrame "Hm". iApply simwp_update_buf. iFrame "Hp". iIntros "Hp".
  iApply "Hk". iExists None, j, s. by iFrame.
Qed.

Lemma simwp_free_jsonPath p b (k : unit -> MM A) v Q :
  own_buf p b ∗ (own_buf p (set_jsonPath None b) -∗ simwp (k tt) v Q) ⊢ simwp (free_jsonPath (Some p) ≫= k) v Q.
Proof.
  iIntros "[(%m & %j & %s & Hp & Hm & Hj & Hs) Hk]". iApply simwp_assoc. iApply simwp_load_buf. iFrame "Hp". iIntros "Hp".
  iApply simwp_assoc. iApply simwp_free_str. iFrame "Hj". iApply simwp_update_buf. iFrame "Hp". iIntros "Hp".
  iApply "Hk". iExists m, None, s. by iFrame.
Qed.

Lemma simwp_free_suffix p b (k : unit -> MM A) v Q :
  own_buf p b ∗ (own_buf p (set_suffix None b) -∗ simwp (k tt) v Q) ⊢ simwp (free_suffix (Some p) ≫= k) v Q.
Proof.
  iIntros "[(%m & %j & %s & Hp & Hm & Hj & Hs) Hk]". iApply simwp_assoc. iApply simwp_load_buf. iFrame "Hp". iIntros "Hp".
  iApply simwp_assoc. iApply simwp_free_str. iFrame "Hs". iApply simwp_update_buf. iFrame "Hp". iIntros "Hp".
  iApply "Hk". iExists m, j, None. by iFrame.
Qed.

Lemma simwp_clear_buffer p b (k : unit -> MM A) v Q :
  own_buf p b ∗ (own_buf p (clear_buffer b) -∗ simwp (k tt) v Q) ⊢ simwp (clear_buffer_mem (Some p) ≫= k) v Q.
Proof.
  iIntros "[Hp Hk]". iApply simwp_assoc. iApply simwp_free_mdata. iFrame "Hp". iIntros "Hp".
  iApply simwp_assoc. iApply simwp_free_jsonPath. iFrame "Hp". iIntros "Hp".
  iApply simwp_free_suffix. iFrame "Hp". iIntros "Hp". by iApply "Hk".
Qed.

Lemma simwp_free_Node p n (k : unit -> MM A) v Q :
  own_node p n ∗ (own_node p (IssueNode None (subNode n)) -∗ simwp (k tt) v Q) ⊢ simwp (free_Node (Some p) ≫= k) v Q.
Proof.
  iIntros "[(%a & %b & Hp & Ha & Hb) Hk]". iApply simwp_assoc. iApply simwp_load_node. iFrame "Hp". iIntros "Hp".
  iApply simwp_assoc. iApply simwp_free_str. iFrame "Ha". iApply simwp_update_nodes. iFrame "Hp". iIntros "Hp".
  iApply "Hk". iExists None, b. by iFrame.
Qed.

Lemma simwp_free_subNode p n (k : unit -> MM A) v Q :
  own_node p n ∗ (own_node p (IssueNode (Node n) None) -∗ simwp (k tt) v Q) ⊢ simwp (free_subNode (Some p) ≫= k) v Q.
Proof.
  iIntros "[(%a & %b & Hp & Ha & Hb) Hk]". iApply simwp_assoc. iApply simwp_load_node. iFrame "Hp". iIntros "Hp".
  iApply simwp_assoc. iApply simwp_free_str. iFrame "Hb". iApply simwp_update_nodes. iFrame "Hp". iIntros "Hp".
  iApply "Hk". iExists a, None. by iFrame.
Qed.

Lemma simwp_free_issue p d (k : unit -> MM A) v Q :
  own_issue p d ∗ simwp (k tt) v Q ⊢ simwp (free_issue (Some p) ≫= k) v Q.
Proof.
  iIntros "[(%r & %c & Hp & Hr & Hc) Hk]". iApply simwp_assoc. iApply simwp_load_issue. iFrame "Hp". iIntros "Hp".
  iApply simwp_assoc. iApply simwp_free_str. iFrame "Hr". iApply simwp_assoc. iApply simwp_free_str. iFrame "Hc".
  iApply simwp_free. iFrame.
Qed.
End Access.

Lemma simwp_clear_end {B} p b (r : B) (Q : unit -> B -> heapPropI) :
  own_buf p b ∗ (own_buf p (clear_buffer b) -∗ Q tt r) ⊢ simwp (clear_buffer_mem (Some p)) (mret r) Q.
Proof.
  iIntros "[Hp Hk]". unfold clear_buffer_mem. iApply simwp_free_mdata. iFrame "Hp". iIntros "Hp".
  iApply simwp_free_jsonPath. iFrame "Hp". iIntros "Hp".
  iApply simwp_tail. iApply simwp_free_suffix. iFrame "Hp". iIntros "Hp". iApply simwp_ret. by iApply "Hk".
Qed.


(** The ownership of a structure from that of its parts. *)
Ltac fields := cbn [rfcvalue command timeout Node subNode mtype buf_mdata jsonPath inDynamic appendMode dsEvent suffix
  c_rfcvalue c_command c_timeout c_Node c_subNode c_mtype c_mdata c_jsonPath c_inDynamic c_appendMode c_dsEvent c_suffix
  set_c_mdata set_c_jsonPath set_c_suffix set_c_Node set_c_subNode set_c_rfcvalue set_c_command set_c_timeout negb].
Ltac owned := repeat iExists _; fields; iFrame; try iApply str_null.

(** ** The simulations *)

Section Simulation.
Context `{OS} `{CJSON} `{Device}.

(** Both results are the same, and this memory is left. *)
Abbreviation same P := (fun a b => (⌜a = b⌝ ∧ P)%I).

Lemma replaceRRDLocation_sim p q cmd dir :
  str p (Some cmd) ∗ str q (Some dir)
  ⊢ simwp (replaceRRDLocation_mem p q) (replaceRRDLocation cmd dir) (fun r o => str r o ∗ str q (Some dir))%I.
Proof.
  iIntros "[Hp Hq]". unfold replaceRRDLocation_mem, replaceRRDLocation.
  iApply simwp_load_str. iFrame "Hp". iIntros "Hp". iApply simwp_load_str. iFrame "Hq". iIntros "Hq".
  iApply simwp_alloc_str. iSplit; [iIntros (t) "Ht"|iIntros "_"].
  - destruct (_ <=? _); [|fails]. iApply simwp_free_str. iFrame "Hp". iApply simwp_ret. iFrame.
  - iApply simwp_free_str. iFrame "Hp". iApply simwp_ret. iFrame. iApply str_null.
Qed.

Lemma located_command_sim p r c cmd tmo dirname :
  p ↦ BIssue (IssueCell r c tmo) ∗ str c (Some cmd)
  ⊢ simwp (located_command_mem (Some p) dirname) (located_command cmd dirname)
      (fun _ o => ∃ c', p ↦ BIssue (IssueCell r c' tmo) ∗ str c' o ∗ lost)%I.
Proof.
  iIntros "[Hp Hc]". unfold located_command_mem, located_command.
  iApply simwp_load_issue. iFrame "Hp". iIntros "Hp". fields. iApply simwp_load_str. iFrame "Hc". iIntros "Hc".
  destruct (strstr cmd DEFAULT_DIR).
  - iApply simwp_lift. iIntros (cwd). iApply simwp_alloc_str. iSplit; [iIntros (t) "Ht"|iIntros "%Hf"]; fields.
    + iApply simwp_tail. iApply simwp_assoc. iApply simwp_tail_val. iApply simwp_call.
      iSplitL "Hc Ht"; [iApply replaceRRDLocation_sim; iFrame|].
      iIntros (q o) "[Hq Ht]". iApply simwp_assoc. iApply simwp_update_issue. iFrame "Hp". iIntros "Hp".
      iApply simwp_free_str. iFrame "Ht". iApply simwp_ret. iExists q. iFrame. iApply lost_none.
    + iApply simwp_tail. iApply simwp_update_issue. iFrame "Hp". iIntros "Hp". iApply simwp_ret. iExists None. iFrame "Hp".
      iSplitR; [by iApply str_null|]. lose.
  - iApply simwp_ret. iExists c. iFrame. iApply lost_none.
Qed.

Lemma executeCommands_sim p d :
  own_issue p d ⊢ simwp (executeCommands_mem (Some p)) (executeCommands (Some d)) (same lost).
Proof.
  destruct d as [rfc cmd tmo]. iIntros "(%r & %c & Hp & Hr & Hc)". unfold executeCommands_mem, executeCommands.
  iApply simwp_load_issue. iFrame "Hp". iIntros "Hp". change (deref (Some ?x) ≫= ?k) with (k x). fields.
  destruct cmd as [cmd|].
  2: { destruct c; [iDestruct "Hc" as "[]"|]. iApply simwp_free_str. iFrame "Hr". iApply simwp_free. iFrame "Hp".
       iApply simwp_ret. iSplit; [done|]. iApply lost_none. }
  iDestruct (str_is_some with "Hc") as (q) "[-> Hc]". iApply simwp_lift. iIntros (t). destruct rfc as [rfc|].
  2: { destruct r; [iDestruct "Hr" as "[]"|]. fails. }
  iApply simwp_load_str. iFrame "Hr". iIntros "Hr". change (deref (Some ?x) ≫= ?k) with (k x). cbv beta.
  iApply simwp_lift. iIntros (lt). iApply simwp_lift. iIntros (dirname). iApply simwp_lift. iIntros (made).
  destruct made; fields.
  2: { iApply (simwp_free_issue _ (IssueData (Some rfc) (Some cmd) tmo)). iSplitL; [owned|]. iApply simwp_ret.
       iSplit; [done|]. iApply lost_none. }
  iApply simwp_call. iSplitL "Hp Hc"; [iApply located_command_sim; iFrame|].
  iIntros (_ o) "(%c' & Hp & Hc & Hl)". iApply simwp_load_issue. iFrame "Hp". iIntros "Hp". fields.
  destruct o as [cmd'|].
  2: { destruct c'; [iDestruct "Hc" as "[]"|]. iApply simwp_free_str. iFrame "Hr". iApply simwp_free. iFrame "Hp".
       iApply simwp_ret. by iFrame. }
  iDestruct (str_is_some with "Hc") as (q') "[-> Hc]". destruct (_ <=? _)%nat; [fails|]. iApply simwp_lift. iIntros (opened).
  destruct opened; fields.
  2: { iApply (simwp_free_issue _ (IssueData (Some rfc) (Some cmd') tmo)). iSplitL "Hp Hr Hc"; [owned|].
       iApply simwp_ret. by iFrame. }
  iApply simwp_load_str. iFrame "Hc". iIntros "Hc". iApply simwp_tail_val. iApply simwp_lift. iIntros (res).
  iApply (simwp_free_issue _ (IssueData (Some rfc) (Some cmd') tmo)). iSplitL "Hp Hr Hc"; [owned|].
  iApply simwp_ret. by iFrame.
Qed.

Lemma getIssueInfo_sim p s q c :
  str p (Some s) ∗ q ↦ BNode c
  ⊢ simwp (getIssueInfo_mem p (Some q)) (getIssueInfo s) (fun _ n => str p (Some s) ∗ own_node q n)%I.
Proof.
  iIntros "[Hp Hq]". unfold getIssueInfo_mem, getIssueInfo. iApply simwp_load_str. iFrame "Hp". iIntros "Hp".
  destruct (_ <=? _)%nat; [|fails]. iApply simwp_lift. iIntros (t).
  iApply simwp_alloc_str. iSplit; [iIntros (a) "Ha"|iIntros "_"]; fields; [|fails].
  destruct (negb _).
  - iApply simwp_lift. iIntros (u). iApply simwp_alloc_str. iSplit; [iIntros (b) "Hb"|iIntros "_"]; fields; [|fails].
    iApply simwp_tail. iApply simwp_store. iFrame "Hq". iIntros "Hq". iApply simwp_ret. iFrame "Hp". owned.
  - iApply simwp_tail. iApply simwp_store. iFrame "Hq". iIntros "Hq". iApply simwp_ret. iFrame "Hp".
    owned.
Qed.

Lemma isCommandsValid_sim p cmd l :
  str p (Some cmd)
  ⊢ simwp (isCommandsValid_mem p l) (isCommandsValid cmd l) (fun ret r => ⌜ret = r.1⌝ ∧ str p (Some r.2))%I.
Proof.
  iIntros "Hp". unfold isCommandsValid_mem. iApply simwp_load_str. iFrame "Hp". iIntros "Hp".
  iApply simwp_tail_val. iApply simwp_lift. iIntros ([ret cmd']). iApply simwp_store_str. iFrame "Hp". iIntros "Hp".
  iApply simwp_ret. by iFrame.
Qed.

Lemma read_items_sim p type idx : forall cmd tmo,
  own_issue p (IssueData None cmd tmo)
  ⊢ simwp (read_items_mem (Some p) type idx) (read_items type idx cmd tmo)
      (fun _ r => own_issue p (IssueData None r.1 r.2)).
Proof.
  induction idx as [|j idx IH]; intros cmd tmo; cbn [read_items_mem read_items]; [iIntros "H"; by iApply simwp_ret|].
  destruct (cJSON_GetArrayItem type j) as [elem|]; [|apply IH].
  destruct (bool_decide _).
  { iIntros "(%r & %c & Hp & Hr & Hc)". iApply simwp_update_issue. iFrame "Hp". iIntros "Hp". iApply IH. owned. }
  destruct (bool_decide _); [|apply IH]. destruct (cJSON_Print _) as [text|]; [|apply IH].
  iIntros "(%r & %c & Hp & Hr & Hc)". iApply simwp_load_issue. iFrame "Hp". iIntros "Hp". fields.
  iApply simwp_free_str. iFrame "Hc". iApply simwp_strdup. iSplit; [iIntros (q) "Hq"|iIntros "_"].
  - iApply simwp_update_issue. iFrame "Hp". iIntros "Hp". iApply IH. owned.
  - iApply simwp_update_issue. iFrame "Hp". iIntros "Hp". iApply IH. owned.
Qed.

Lemma new_issue_sim {A B} (k : option loc -> MM A) (k' : bool -> M B) Q :
  (∀ p, own_issue p (IssueData None None 0) -∗ simwp (k (Some p)) (k' true) Q) ∧
  (⌜alloc_fails⌝ → simwp (k None) (k' false) Q) ⊢ simwp (new_issue ≫= k) (malloc ≫= k') Q.
Proof.
  iIntros "H". iApply simwp_alloc. iSplit; [iIntros (p) "Hp"|by iDestruct "H" as "[_ H]"].
  iDestruct "H" as "[H _]". iApply "H". iExists None, None. fields. iFrame "Hp".
  iSplitL; iApply str_null.
Qed.

Lemma accept_issue_sim p cmd tmo q buf :
  own_issue p (IssueData None (Some cmd) tmo) ∗ str q (Some buf)
  ⊢ simwp (accept_issue (Some p) q) (accepted_data buf cmd tmo) (fun _ d => own_issue p d ∗ str q (Some buf))%I.
Proof.
  iIntros "[(%r & %c & Hp & Hr & Hc) Hq]". unfold accept_issue, accepted_data.
  iApply simwp_load_str. iFrame "Hq". iIntros "Hq".
  iDestruct (str_none with "Hr") as "[-> _]".
  assert (forall a b, p ↦ BIssue (IssueCell a c tmo) ∗ str a b ∗ str c (Some cmd) ∗ str q (Some buf)
    ⊢ simwp (update_issue (Some p) (fun d => if c_timeout d =? 0 then set_c_timeout DEFAULT_TIMEOUT d else d))
        (mret (IssueData b (Some cmd) (if tmo =? 0 then DEFAULT_TIMEOUT else tmo)))
        (fun _ d => own_issue p d ∗ str q (Some buf))%I) as Hend.
  { intros a b. iIntros "(Hp & Ha & Hc & Hq)".
    iApply simwp_tail. iApply simwp_update_issue. iFrame "Hp". iIntros "Hp". iApply simwp_ret. iFrame "Hq".
    fields. destruct (tmo =? 0); owned. }
  iApply simwp_strdup. iSplit; [iIntros (a) "Ha"|iIntros "_"].
  - iApply simwp_update_issue. iFrame "Hp". iIntros "Hp". iApply Hend. fields. iFrame.
  - iApply simwp_update_issue. iFrame "Hp". iIntros "Hp". iApply Hend. fields. iFrame.
Qed.

Lemma getIssueCommandInfo_sim p n cfg q buf :
  own_node p n ∗ str q (Some buf)
  ⊢ simwp (getIssueCommandInfo_mem (Some p) cfg q) (getIssueCommandInfo n cfg buf)
      (fun a o => own_node p n ∗ str q (Some buf) ∗
         match a, o with Some a, Some d => own_issue a d | None, None => emp | _, _ => False end)%I.
Proof.
  iIntros "[Hp Hq]". unfold getIssueCommandInfo_mem, getIssueCommandInfo.
  iApply simwp_read_names. iFrame "Hp". iIntros "Hp". iApply new_issue_sim. fields.
  iSplit; [iIntros (a) "Ha"|iIntros "_"; iApply simwp_ret; by iFrame].
  iApply simwp_call. iSplitL "Ha"; [by iApply read_items_sim|].
  iIntros (_ [cmd tmo]) "(%r & %c & Ha & Hr & Hc)". iApply simwp_load_issue. iFrame "Ha". iIntros "Ha". fields.
  cbn [fst snd]. destruct cmd as [cmd|].
  2: { iDestruct (str_none with "Hc") as "[-> _]". iDestruct (str_none with "Hr") as "[-> _]".
       iApply simwp_free. iFrame "Ha". iApply simwp_ret. by iFrame. }
  iDestruct (str_is_some with "Hc") as (c') "[-> Hc]". iApply simwp_call. iSplitL "Hc"; [by iApply isCommandsValid_sim|].
  iIntros (ret [ret' cmd']) "[-> Hc]". cbn [fst snd]. destruct (negb _).
  - iDestruct (str_none with "Hr") as "[-> _]". iApply simwp_free_str. iFrame "Hc". iApply simwp_free. iFrame "Ha".
    iApply simwp_ret. by iFrame.
  - iApply simwp_call. iSplitL "Ha Hr Hc Hq"; [iApply accept_issue_sim; iFrame "Hq"; owned|].
    iIntros (_ d) "[Ha Hq]". iApply simwp_ret. iFrame.
Qed.

(** The node is emptied in any case. *)
Lemma invoke_sim p n cfg q buf deep :
  own_node p n ∗ str q (Some buf)
  ⊢ simwp (invokeSanityandCommandExec_mem (Some p) cfg q deep) (invokeSanityandCommandExec n cfg buf deep)
      (fun a r => ⌜a = r.1 /\ r.2 = IssueNode None None⌝ ∧ (own_node p (IssueNode None None) ∗ str q (Some buf) ∗ lost))%I.
Proof.
  iIntros "[Hp Hq]". unfold invokeSanityandCommandExec_mem, invokeSanityandCommandExec.
  iApply simwp_read_names. iFrame "Hp". iIntros "Hp". iApply simwp_free_Node. iFrame "Hp". iIntros "Hp".
  iApply simwp_free_subNode. iFrame "Hp". iIntros "Hp". fields. iApply new_issue_sim. fields.
  iSplit; [iIntros (a) "Ha"|iIntros "_"; iApply simwp_ret; iSplit; [done|]; iFrame; iApply lost_none].
  iApply simwp_call. iSplitL "Ha"; [by iApply read_items_sim|].
  iIntros (_ [cmd tmo]) "(%r & %c & Ha & Hr & Hc)". iApply simwp_load_issue. iFrame "Ha". iIntros "Ha". fields.
  cbn [fst snd]. destruct cmd as [cmd|].
  2: { iDestruct (str_none with "Hc") as "[-> _]". iDestruct (str_none with "Hr") as "[-> _]".
       iApply simwp_free. iFrame "Ha". iApply simwp_ret. iSplit; [done|]. iFrame. iApply lost_none. }
  iDestruct (str_is_some with "Hc") as (c') "[-> Hc]". iApply simwp_lift. iIntros (cfg').
  iApply simwp_call. iSplitL "Hc"; [by iApply isCommandsValid_sim|].
  iIntros (ret [ret' cmd']) "[-> Hc]". cbn [fst snd]. destruct (negb _).
  - iDestruct (str_none with "Hr") as "[-> _]". iApply simwp_free_str. iFrame "Hc". iApply simwp_free. iFrame "Ha".
    iApply simwp_ret. iSplit; [done|]. iFrame. iApply lost_none.
  - iApply simwp_call. iSplitL "Ha Hr Hc Hq"; [iApply accept_issue_sim; iFrame "Hq"; owned|].
    iIntros (_ d) "[Ha Hq]". iApply simwp_tail. iApply simwp_call. iSplitL "Ha"; [by iApply executeCommands_sim|].
    iIntros (x y) "[-> Hl]". iApply simwp_ret. iSplit; [done|]. iFrame.
Qed.

Lemma copy_Node_sim p s b :
  own_node p (IssueNode None b) ⊢ simwp (copy_Node (Some p) s) (strdup s) (fun _ n => own_node p (IssueNode n b)).
Proof.
  iIntros "(%x & %y & Hp & Hx & Hy)". fields. iDestruct (str_none with "Hx") as "[-> _]".
  iApply simwp_tail_val. iApply simwp_strdup.
  iSplit; [iIntros (r) "Hr"|iIntros "_"]; iApply simwp_tail; iApply simwp_update_nodes; iFrame "Hp"; iIntros "Hp";
    iApply simwp_ret; owned.
Qed.

Lemma copy_subNode_sim p s a :
  own_node p (IssueNode a None) ⊢ simwp (copy_subNode (Some p) s) (strdup s) (fun _ n => own_node p (IssueNode a n)).
Proof.
  iIntros "(%x & %y & Hp & Hx & Hy)". fields. iDestruct (str_none with "Hy") as "[-> _]".
  iApply simwp_tail_val. iApply simwp_strdup.
  iSplit; [iIntros (r) "Hr"|iIntros "_"]; iApply simwp_tail; iApply simwp_update_nodes; iFrame "Hp"; iIntros "Hp";
    iApply simwp_ret; owned.
Qed.

(** The result of a loop, and the node and the memory after it. *)
Abbreviation looped p q rfc := (fun a r => ⌜a = r.1⌝ ∧ (own_node p r.2 ∗ str q (Some rfc) ∗ lost))%I.

Lemma all_types_sim p q rfc cfg main idx : forall x st,
  (x = None \/ head idx = Some 0) -> (forall i, i ∈ idx -> is_Some (cJSON_GetArrayItem main i)) ->
  own_node p (IssueNode x None) ∗ str q (Some rfc) ∗ lost
  ⊢ simwp (all_types_loop_mem cfg main q idx (Some p) st) (all_types_loop cfg main rfc idx (IssueNode x None) st)
      (looped p q rfc).
Proof.
  induction idx as [|i idx IH]; intros x st Hx Hi; cbn [all_types_loop_mem all_types_loop].
  { iIntros "H". iApply simwp_ret. by iSplit. }
  destruct (Hi i) as [item ->]; [by left|]. iIntros "(Hp & Hq & Hl)".
  iApply simwp_lift. iIntros (name). iApply simwp_load_str. iFrame "Hq". iIntros "Hq".
  iApply simwp_alloc_str. iSplit; [iIntros (t) "Ht"|iIntros "_"; fails]. fields.
  iApply (simwp_call _ _ _ _ (fun _ n => own_node p (IssueNode n None))%I). iSplitL "Hp".
  { destruct (Z.eqb_spec i 0) as [->|Hne]; cbn [negb]; [by iApply simwp_ret|].
    destruct Hx as [->|[= ->]]; [|done]. by iApply copy_Node_sim. }
  iIntros (_ n) "Hp". iApply simwp_call. iSplitL "Hp"; [by iApply copy_subNode_sim|]. iIntros (_ s) "Hp".
  iApply simwp_call. iSplitL "Hp Ht"; [iApply invoke_sim; iFrame|].
  iIntros (r [st' n']) "[%E (Hp & Ht & Hl')]". cbn [fst snd] in E. destruct E as [-> ->].
  iApply simwp_free_str. iFrame "Ht". iApply IH; [by left| |].
  - intros j Hj. apply Hi. by right.
  - iFrame "Hp Hq". iApply lost_join. iFrame.
Qed.

Lemma seqZ_items `{!CJSONLaws _} j i : i ∈ seqZ 0 (cJSON_GetArraySize j) -> is_Some (cJSON_GetArrayItem j i).
Proof. intros Hi%elem_of_seqZ. apply array_item_some. lia. Qed.

Lemma processAllDebugCommand_sim `{!CJSONLaws _} p n q rfc cfg :
  subNode n = None ->
  own_node p n ∗ str q (Some rfc)
  ⊢ simwp (processAllDebugCommand_mem cfg (Some p) q) (processAllDebugCommand cfg n rfc) (looped p q rfc).
Proof.
  destruct n as [x y]. cbn [subNode]. intros ->. iIntros "[Hp Hq]".
  unfold processAllDebugCommand_mem, processAllDebugCommand. iApply simwp_read_names. iFrame "Hp". iIntros "Hp". fields.
  destruct (cJSON_GetObjectItem cfg x) as [main|] eqn:Em.
  2: { iApply simwp_ret. iSplit; [done|]. iFrame. iApply lost_none. }
  destruct (cJSON_Print (Some main)).
  2: { iApply simwp_ret. iSplit; [done|]. iFrame. iApply lost_none. }
  destruct (negb _) eqn:En.
  2: { iApply simwp_ret. iSplit; [done|]. iFrame. iApply lost_none. }
  iApply all_types_sim; [|intros i; apply seqZ_items|iFrame; iApply lost_none].
  right. pose proof (array_size_nonneg (Some main)). apply negb_true_iff, Z.eqb_neq in En.
  rw seqZ_cons; [done|lia].
Qed.

Lemma deep_types_sim p cfg cat idx : forall st,
  own_node p (IssueNode None None) ∗ lost
  ⊢ simwp (deep_types_loop_mem cfg cat idx (Some p) st) (deep_types_loop cfg cat idx (IssueNode None None) st)
      (fun a r => ⌜a = r.1 /\ r.2 = IssueNode None None⌝ ∧ (own_node p (IssueNode None None) ∗ lost))%I.
Proof.
  induction idx as [|i idx IH]; intros st; cbn [deep_types_loop_mem deep_types_loop].
  { iIntros "H". iApply simwp_ret. by iSplit. }
  iIntros "[Hp Hl]". iApply simwp_lift. iIntros (c). iApply simwp_lift. iIntros (cn).
  iApply simwp_lift. iIntros (it). iApply simwp_lift. iIntros (tn).
  iApply simwp_alloc_str. iSplit; [iIntros (t) "Ht"|iIntros "_"]; fields.
  2: { iApply simwp_ret. iSplit; [done|iFrame]. }
  iApply simwp_call. iSplitL "Hp"; [by iApply copy_Node_sim|]. iIntros (_ x) "Hp".
  iApply simwp_call. iSplitL "Hp"; [by iApply copy_subNode_sim|]. iIntros (_ y) "Hp".
  iApply simwp_call. iSplitL "Hp Ht"; [iApply invoke_sim; iFrame|].
  iIntros (r [st' n']) "[%E (Hp & Ht & Hl')]". cbn [fst snd] in E. destruct E as [-> ->].
  iApply simwp_free_str. iFrame "Ht". iApply IH. iFrame "Hp". iApply lost_join. iFrame.
Qed.

Lemma deep_categories_sim p cfg root idx : forall st,
  own_node p (IssueNode None None) ∗ lost
  ⊢ simwp (deep_categories_loop_mem cfg root idx (Some p) st) (deep_categories_loop cfg root idx (IssueNode None None) st)
      (fun a r => ⌜a = r.1⌝ ∧ (own_node p r.2 ∗ lost))%I.
Proof.
  induction idx as [|i idx IH]; intros st; cbn [deep_categories_loop_mem deep_categories_loop].
  { iIntros "H". iApply simwp_ret. by iSplit. }
  iIntros "H". iApply simwp_call. iSplitL "H"; [by iApply deep_types_sim|].
  iIntros (r [r' n']) "[%E H]". cbn [fst snd] in E. destruct E as [-> ->].
  destruct r' as [st'|]; [by iApply IH|]. iApply simwp_ret. by iSplit.
Qed.

Lemma processAllDeepSleep_sim p n rfc cfg :
  subNode n = None ->
  own_node p n
  ⊢ simwp (processAllDeepSleepAwkMetricsCommands_mem cfg (Some p)) (processAllDeepSleepAwkMetricsCommands cfg n rfc)
      (fun a r => ⌜a = r.1⌝ ∧ (own_node p r.2 ∗ lost))%I.
Proof.
  intros Hn. iIntros "Hp". unfold processAllDeepSleepAwkMetricsCommands_mem, processAllDeepSleepAwkMetricsCommands.
  iApply simwp_read_names. iFrame "Hp". iIntros "Hp". iApply simwp_free_Node. iFrame "Hp". iIntros "Hp". rw Hn.
  iApply deep_categories_sim. iFrame. iApply lost_none.
Qed.

(** ** The issue data of append mode: consumed by [executeCommands] *)

Definition own_append (p : option loc) (d : option issueData) : heapPropI :=
  match p, d with Some p, Some d => own_issue p d | None, None => emp | _, _ => False end%I.

Lemma run_issue_sim `{!CJSONLaws _} p n cfg bp b q rfc deep ap ad :
  own_node p n ∗ own_buf bp b ∗ str q (Some rfc) ∗ own_append ap ad
  ⊢ simwp (run_issue_mem (Some p) cfg (Some bp) q deep ap) (run_issue n cfg b rfc deep ad)
      (fun a r => ⌜a = r.1⌝ ∧ (own_node p r.2 ∗ own_buf bp b ∗ str q (Some rfc) ∗
         if appendMode b && bool_decide (is_Some (subNode n)) then lost else own_append ap ad ∗ lost))%I.
Proof.
  iIntros "(Hn & Hb & Hq & Ha)". unfold run_issue_mem, run_issue.
  iDestruct "Hn" as "(%x & %y & Hn & Hx & Hy)". iApply simwp_load_node. iFrame "Hn". iIntros "Hn". fields.
  destruct n as [m sub]. fields. destruct sub as [sub|].
  - iDestruct (str_is_some with "Hy") as (y') "[-> Hy]".
    iDestruct "Hb" as "(%bm & %bj & %bs & Hb & Hbm)". iApply simwp_load_buf. iFrame "Hb". iIntros "Hb". fields.
    iAssert (own_buf bp b) with "[Hb Hbm]" as "Hb"; [iExists bm, bj, bs; iFrame|].
    rw (bool_decide_true (is_Some (Some sub))); [|done]. destruct (appendMode b); cbn [andb].
    + destruct ap as [ap|], ad as [ad|]; cbn [own_append]; try (iDestruct "Ha" as "[]"); [|fails].
      iApply simwp_call. iSplitL "Ha"; [by iApply executeCommands_sim|]. iIntros (r r') "[-> Hl]".
      iApply (simwp_free_Node p (IssueNode m (Some sub))). iSplitL "Hn Hx Hy"; [by iExists x, (Some y'); iFrame|]. iIntros "Hn". fields.
      iApply simwp_free_subNode. iFrame "Hn". iIntros "Hn". fields. iApply simwp_ret. iSplit; [done|]. iFrame.
    + iApply simwp_tail. iApply simwp_tail_val. iApply simwp_call.
      iSplitL "Hn Hx Hy Hq"; [iApply (invoke_sim p (IssueNode m (Some sub))); iFrame "Hq"; by iExists x, (Some y'); iFrame|].
      iIntros (r [r' n']) "[%E (Hn & Hq & Hl)]". cbn [fst snd] in E. destruct E as [-> ->].
      iApply simwp_ret. iSplit; [done|]. iFrame.
  - iDestruct (str_none with "Hy") as "[-> _]". rw andb_false_r. destruct deep.
    + iApply simwp_tail. iApply simwp_tail_val. iApply simwp_call.
      iSplitL "Hn Hx"; [iApply (processAllDeepSleep_sim p (IssueNode m None) rfc cfg eq_refl); iExists x, None; by iFrame|].
      iIntros (r [r' n']) "[-> [Hn Hl]]". iApply simwp_ret. iSplit; [done|]. iFrame.
    + iApply simwp_tail. iApply simwp_tail_val. iApply simwp_call.
      iSplitL "Hn Hx Hq"; [iApply (processAllDebugCommand_sim p (IssueNode m None) q rfc cfg eq_refl); iFrame "Hq"; iExists x, None; by iFrame|].
      iIntros (r [r' n']) "[-> (Hn & Hq & Hl)]". iApply simwp_ret. iSplit; [done|]. iFrame.
Qed.

(** The buffer and the node as the values say; the append data is left when it
    was not reached. *)
Lemma checkIssueNodeInfo_sim `{!CJSONLaws _} p n cfg bp b deep ap ad :
  own_node p n ∗ own_buf bp b ∗ own_append ap ad
  ⊢ simwp (checkIssueNodeInfo_mem (Some p) cfg (Some bp) deep ap) (checkIssueNodeInfo n cfg b deep ad)
      (fun _ r => own_node p r.2 ∗ own_buf bp r.1 ∗ lost ∗ (own_append ap ad ∨ emp))%I.
Proof.
  destruct n as [nm sub]. iIntros "(Hn & Hb & Ha)". unfold checkIssueNodeInfo_mem, checkIssueNodeInfo.
  iDestruct "Hb" as "(%bm & %bj & %bs & Hb & Hm & Hj & Hs)". iApply simwp_load_buf. iFrame "Hb". iIntros "Hb". fields.
  destruct (buf_mdata b) as [mdata|] eqn:Em.
  2: { iDestruct (str_none with "Hm") as "[-> _]". fails. }
  change (deref (Some mdata) ≫= ?k) with (k mdata). cbv beta.
  iApply simwp_load_str. iFrame "Hm". iIntros "Hm".
  iAssert (own_buf bp b) with "[Hb Hm Hj Hs]" as "Hb"; [iExists bm, bj, bs; rw Em; iFrame|].
  iApply simwp_strdup. iSplit; [iIntros (q) "Hq"|iIntros "_"].
  2: { iApply simwp_clear_end. iFrame "Hb". iIntros "Hb". iFrame "Hn Hb". iSplitR; [iApply lost_none|]. by iLeft. }
  iApply simwp_lift. iIntros (t). iDestruct "Hn" as "(%x & %y & Hn & Hx & Hy)".
  iApply simwp_load_node. iFrame "Hn". iIntros "Hn". fields.
  destruct nm as [nm|].
  2: { iDestruct (str_none with "Hx") as "[-> _]". fails. }
  change (deref (Some nm) ≫= ?k) with (k nm). cbv beta.
  iApply simwp_load_str. iFrame "Hx". iIntros "Hx".
  iAssert (own_node p (IssueNode (Some nm) sub)) with "[Hn Hx Hy]" as "Hn"; [by iExists x, y; iFrame|].
  iApply simwp_lift. iIntros (lt). iApply simwp_lift. iIntros (outdir). iApply simwp_lift. iIntros (made).
  destruct made; cbn [negb].
  2: { iApply simwp_free_str. iFrame "Hq". iApply simwp_clear_end. iFrame "Hb". iIntros "Hb". iFrame "Hn Hb".
       iSplitR; [iApply lost_none|]. by iLeft. }
  iApply simwp_lift. iIntros (changed). destruct changed; cbn [negb].
  2: { iApply simwp_free_str. iFrame "Hq". iApply simwp_clear_end. iFrame "Hb". iIntros "Hb". iFrame "Hn Hb".
       iSplitR; [iApply lost_none|]. by iLeft. }
  iApply simwp_call. iSplitL "Hn Hb Hq Ha"; [iApply run_issue_sim; iFrame|].
  iIntros (r [r' n']) "[-> (Hn & Hb & Hq & Ha)]". cbn [fst snd].
  iApply (simwp_call _ _ _ _ (fun _ _ => own_buf bp b)). iSplitL "Hb".
  { destruct r'; cbn [negb]; [|by iApply simwp_ret]. unfold upload_report_mem. iApply simwp_read_message. iFrame "Hb".
    iIntros "Hb". rw Em. change (lift (deref (Some mdata)) ≫= ?k) with (k mdata). cbv beta.
    iApply simwp_tail_val. iApply simwp_tail. iApply simwp_lift. iIntros (c). by iApply simwp_ret. }
  iIntros (_ _) "Hb". iApply simwp_free_str. iFrame "Hq". iApply simwp_clear_end. iFrame "Hb". iIntros "Hb". iFrame "Hn Hb".
  destruct (_ && _); [iFrame; by iRight|]. iDestruct "Ha" as "[Ha Hl]". iFrame "Hl". by iLeft.
Qed.
End Simulation.
