(* ===== verification/EventMem.v ===== *)
(** * EventMem: the memory of messages and issue events
    (src/rrdEventProcess.c, src/rrdDynamic.c, src/rrdInterface.c, src/rrdMain.c)

    The event thread from the message it receives to the commands it runs, on
    the blocks of the messages, nodes, issue data and token arrays.  Each
    function does what its version on values does, and the memory it leaves is
    described: the message itself, and at most one path or one issue data for
    each issue.  The list of pending packages is passed along as its head.  The
    blocks of cJSON are not counted here. *)

From stdpp Require Import gmap.
From iris.proofmode Require Import proofmode.
From S2P Require Import Prelude Types OS CJson CommandSanity IssueType Cache SysInfo RunCmd Profile Dynamic MsgPack.
From S2P Require Import EventProcess Heap CacheMem ProfileMem.

Local Open Scope Z_scope.

Definition set_c_appendMode (x : bool) (b : buf_cell) : buf_cell :=
  BufCell (c_mtype b) (c_mdata b) (c_jsonPath b) (c_inDynamic b) x (c_dsEvent b) (c_suffix b).

(** Element [i] of an array of strings. *)
Definition array_at (l : list (option loc)) (i : nat) : MM (option loc) :=
  match l !! i with Some t => mret t | None => hfault OutOfBounds end.

(** ** Requests of packages *)

Section EventMem.
Context `{OS} `{CJSON} `{Device}.

(** The cache gets copies of its own; the text of an append request is freed
    later. *)
Definition remember_request_mem (rbuf msgDataString : option loc) (head : option loc) : MM (option loc * option loc) :=
  b ← load_buf rbuf;
  mdata ← load_string (c_mdata b);
  name ← load_string msgDataString;
  if c_appendMode b then
    appendData ← alloc (BString (mdata ++ APPEND_SUFFIX));
    match appendData with
    | None => hfault NullDeref
    | Some _ =>
        text ← load_string appendData;
        pkg ← alloc (BString name);
        issue ← alloc (BString text);
        head ← append_item_mem pkg issue head;
        mret (head, appendData)
    end
  else
    pkg ← alloc (BString name);
    issue ← alloc (BString mdata);
    head ← append_item_mem pkg issue head;
    mret (head, None).

(** [free(node->Node); free(node->subNode);] then both are [NULL]. *)
Definition free_names (node : option loc) : MM unit :=
  n ← load_node node;
  _ ← free (c_Node n);
  _ ← free (c_subNode n);
  store node (BNode (NodeCell None None)).

Definition RRDRdmManagerDownloadRequest_mem (node rbuf : option loc) (isDeepSleepAwakeEvent : bool) (head : option loc) : MM (option loc) :=
  let deep := IARMBUS_SUPPORT && isDeepSleepAwakeEvent in
  n ← read_names node;
  mSGLength ← lift (RRDGetProfileStringLength n deep);
  head ← (if negb (0 <? mSGLength) then mret head else
       paramString ← alloc (BString []);
       match paramString with
       | None => mret head
       | Some _ =>
           name ← lift (deref (Node n));
           '(file, msgDataStringSize) ← lift (package_file name deep (Z.to_nat mSGLength));
           _ ← store paramString (BString file);
           msgDataString ← alloc (BString []);
           head ← match msgDataString with
               | None => mret head
               | Some _ =>
                   file ← load_string paramString;
                   _ ← store msgDataString (BString (
                         if deep then take (msgDataStringSize - length RDM_PKG_SUFFIX) file
                         else bounded_copy msgDataStringSize (RDM_PKG_PREFIX ++ name)));
                   rc ← lift (sys_rbus (RbusSet RDM_MGR_PKG_INST file));
                   '(head, appendData) ← (if rc =? 0 then remember_request_mem rbuf msgDataString head else mret (head, None));
                   _ ← free msgDataString;
                   _ ← free appendData;
                   mret head
               end;
           _ ← free paramString;
           mret head
       end);
  _ ← free_names node;
  mret head.

(** ** The profiles of one issue *)

(** The path is freed when the issue is in the profile. *)
Definition processIssueTypeInInstalledPackage_mem (rbuf node : option loc) (head : option loc) : MM (option loc) :=
  n ← load_node node;
  name ← load_string (c_Node n);
  path ← alloc (BString (dynJSONPath name));
  match path with
  | None => mret head
  | Some _ =>
      text ← load_string path;
      jsonParsed ← lift (readAndParseJSON text);
      match jsonParsed with
      | None => RRDRdmManagerDownloadRequest_mem node rbuf false head
      | Some _ =>
          n ← read_names node;
          if findIssueInParsedJSON n jsonParsed then
            _ ← free path;
            _ ← checkIssueNodeInfo_mem node jsonParsed rbuf false None;
            mret head
          else RRDRdmManagerDownloadRequest_mem node rbuf false head
      end
  end.

Definition processIssueTypeInStaticProfile_mem (rbuf node : option loc) (head : option loc) : MM (option loc) :=
  jsonParsed ← lift (readAndParseJSON RRD_JSON_FILE);
  match jsonParsed with
  | None => processIssueTypeInInstalledPackage_mem rbuf node head
  | Some _ =>
      n ← read_names node;
      if findIssueInParsedJSON n jsonParsed then
        _ ← checkIssueNodeInfo_mem node jsonParsed rbuf false None;
        mret head
      else processIssueTypeInInstalledPackage_mem rbuf node head
  end.

Definition processIssueTypeInDynamicProfile_mem (rbuf node : option loc) : MM unit :=
  b ← load_buf rbuf;
  match c_jsonPath b with
  | None => free_mdata rbuf
  | Some _ =>
      path ← load_string (c_jsonPath b);
      jsonParsed ← lift (readAndParseJSON path);
      match jsonParsed with
      | None => _ ← free_mdata rbuf; free_jsonPath rbuf
      | Some _ =>
          n ← read_names node;
          if negb (findIssueInParsedJSON n jsonParsed) then _ ← free_mdata rbuf; free_jsonPath rbuf
          else checkIssueNodeInfo_mem node jsonParsed rbuf false None
      end
  end.

Definition processIssueTypeInDynamicProfileappend_mem (rbuf node : option loc) (head : option loc) : MM (option loc * option loc) :=
  n ← load_node node;
  name ← load_string (c_Node n);
  path ← alloc (BString (dynJSONPath name));
  match path with
  | None => mret (None, head)
  | Some _ =>
      text ← load_string path;
      jsonParsed ← lift (readAndParseJSON text);
      match jsonParsed with
      | None => head ← RRDRdmManagerDownloadRequest_mem node rbuf false head; mret (None, head)
      | Some _ =>
          n ← read_names node;
          if findIssueInParsedJSON n jsonParsed then
            _ ← free path;
            b ← load_buf rbuf;
            dynamicdata ← getIssueCommandInfo_mem node jsonParsed (c_mdata b);
            _ ← load_issue dynamicdata;
            mret (dynamicdata, head)
          else mret (None, head)
      end
  end.

Definition processIssueTypeInStaticProfileappend_mem (rbuf node : option loc) : MM (option loc) :=
  jsonParsed ← lift (readAndParseJSON RRD_JSON_FILE);
  match jsonParsed with
  | None => mret None
  | Some _ =>
      n ← read_names node;
      if findIssueInParsedJSON n jsonParsed then
        b ← load_buf rbuf;
        staticdata ← getIssueCommandInfo_mem node jsonParsed (c_mdata b);
        _ ← load_issue staticdata;
        mret staticdata
      else mret None
  end.

(** Both commands are changed in place; the static one is moved and extended. *)
Definition run_appended_mem (dynamicdata staticdata rbuf node : option loc) : MM unit :=
  d ← load_issue dynamicdata;
  s ← load_issue staticdata;
  match c_command d, c_command s with
  | Some _, Some _ =>
      scmd ← load_string (c_command s);
      dcmd ← load_string (c_command d);
      _ ← store (c_command s) (BString (drop_last_quote scmd));
      _ ← store (c_command d) (BString (delimit_first_quote dcmd));
      appendcommandstr ← realloc (c_command s);
      match appendcommandstr with
      | None => _ ← free_issue staticdata; free_issue dynamicdata
      | Some _ =>
          head ← load_string appendcommandstr;
          tail ← load_string (c_command d);
          _ ← store appendcommandstr (BString (head ++ tail));
          _ ← update_issue staticdata (set_c_command appendcommandstr);
          _ ← checkIssueNodeInfo_mem node None rbuf false staticdata;
          free_issue dynamicdata
      end
  | _, _ => _ ← free_issue dynamicdata; free_issue staticdata
  end.

Definition processIssueType_mem (rbuf : option loc) (head : option loc) : MM (option loc) :=
  b ← load_buf rbuf;
  match c_mdata b with
  | None => mret head
  | Some _ =>
      node ← alloc (BNode (NodeCell None None));
      match node with
      | None => mret head
      | Some _ =>
          _ ← getIssueInfo_mem (c_mdata b) node;
          head ← (if c_appendMode b then
                 '(dynamicprofiledata, head) ← processIssueTypeInDynamicProfileappend_mem rbuf node head;
                 match dynamicprofiledata with
                 | None => mret head
                 | Some _ =>
                     staticprofiledata ← processIssueTypeInStaticProfileappend_mem rbuf node;
                     match staticprofiledata with
                     | None => _ ← free_issue dynamicprofiledata; mret head
                     | Some _ => _ ← run_appended_mem dynamicprofiledata staticprofiledata rbuf node; mret head
                     end
                 end
               else if c_inDynamic b then _ ← processIssueTypeInDynamicProfile_mem rbuf node; mret head
               else processIssueTypeInStaticProfile_mem rbuf node head);
          _ ← free_Node node;
          _ ← free_subNode node;
          _ ← free node;
          mret head
      end
  end.
End EventMem.

(** ** Opening a message *)

(** The cell of a message with the strings [m], [j] and [s]. *)
Definition cell_of (b : data_buf) (m j s : option loc) : buf_cell :=
  BufCell (mtype b) m j (inDynamic b) (appendMode b) (dsEvent b) s.

Lemma own_buf_open p b : own_buf p b ⊣⊢ ∃ m j s, p ↦ BBuf (cell_of b m j s) ∗
  str m (buf_mdata b) ∗ str j (jsonPath b) ∗ str s (suffix b).
Proof. done. Qed.

Section Access.
Context {A B : Type}.
Implicit Types (v : M B) (Q : A -> B -> heapPropI).

(** A look at the message; its strings stay at hand. *)
Lemma simwp_view_buf p b (k : buf_cell -> MM A) v Q :
  own_buf p b ∗ (∀ m j s, (str m (buf_mdata b) -∗ own_buf p b) -∗ str m (buf_mdata b) -∗ simwp (k (cell_of b m j s)) v Q)
  ⊢ simwp (load_buf (Some p) ≫= k) v Q.
Proof.
  iIntros "[(%m & %j & %s & Hp & Hm & Hj & Hs) Hk]". iApply simwp_load_buf. iFrame "Hp". iIntros "Hp".
  iApply ("Hk" $! m j s with "[Hp Hj Hs] Hm"). iIntros "Hm". iExists m, j, s. iFrame.
Qed.

(** A look at the name of a node. *)
Lemma simwp_node_name p n (k : cstr -> MM A) (k' : cstr -> M B) Q :
  own_node p n ∗ (∀ nm (_ : Node n = Some nm), own_node p n -∗ simwp (k nm) (k' nm) Q)
  ⊢ simwp (load_node (Some p) ≫= fun c => load_string (c_Node c) ≫= k) (deref (Node n) ≫= k') Q.
Proof.
  destruct n as [nm sub]. iIntros "[(%a & %b & Hp & Ha & Hb) Hk]". iApply simwp_load_node. iFrame "Hp". iIntros "Hp". fields.
  destruct nm as [nm|].
  - change (deref (Some nm) ≫= ?k) with (k nm). cbv beta. iApply simwp_load_str. iFrame "Ha". iIntros "Ha".
    iApply ("Hk" $! nm eq_refl). by iExists a, b; iFrame.
  - iDestruct (str_none with "Ha") as "[-> _]". fails.
Qed.

Lemma simwp_free_names p n (k : unit -> MM A) v Q :
  own_node p n ∗ (own_node p (IssueNode None None) -∗ simwp (k tt) v Q) ⊢ simwp (free_names (Some p) ≫= k) v Q.
Proof.
  iIntros "[(%a & %b & Hp & Ha & Hb) Hk]". iApply simwp_assoc. iApply simwp_load_node. iFrame "Hp". iIntros "Hp".
  iApply simwp_assoc. iApply simwp_free_str. iFrame "Ha". iApply simwp_assoc. iApply simwp_free_str. iFrame "Hb".
  iApply simwp_store. iFrame "Hp". iIntros "Hp". iApply "Hk". iExists None, None. by iFrame.
Qed.
End Access.

(** ** The simulations *)

Section Simulation.
Context `{OS} `{CJSON} `{Device}.

Lemma remember_request_sim bp b q name hd c :
  own_cache hd c ∗ own_buf bp b ∗ str q (Some name)
  ⊢ simwp (remember_request_mem (Some bp) q hd) (remember_request b name c)
      (fun a c' => own_cache a.1 c' ∗ own_buf bp b ∗ str q (Some name) ∗ lost ∗ ∃ s, str a.2 s)%I.
Proof.
  iIntros "(Hc & Hb & Hq)". unfold remember_request_mem, remember_request.
  iApply simwp_view_buf. iFrame "Hb". iIntros (m j s) "Hb Hm". cbn [cell_of c_mdata c_appendMode].
  destruct (buf_mdata b) as [mdata|].
  2: { iDestruct (str_none with "Hm") as "[-> _]". fails. }
  change (deref (Some mdata) ≫= ?k) with (k mdata). cbv beta.
  iApply simwp_load_str. iFrame "Hm". iIntros "Hm". iDestruct ("Hb" with "Hm") as "Hb".
  iApply simwp_load_str. iFrame "Hq". iIntros "Hq". destruct (appendMode b).
  - iApply simwp_alloc_str. iSplit; [iIntros (t) "Ht"|iIntros "_"; fails]. cbn [negb].
    iApply simwp_load_str. iFrame "Ht". iIntros "Ht". iApply simwp_strdup_any. iIntros (p1 x1) "H1".
    iApply simwp_strdup_any. iIntros (p2 x2) "H2". iApply simwp_tail_val. iApply simwp_append_item. iFrame "Hc H1 H2".
    iIntros (hd' c') "Hc Hl". iApply simwp_ret. iFrame.
  - iApply simwp_strdup_any. iIntros (p1 x1) "H1". iApply simwp_strdup_any. iIntros (p2 x2) "H2". iApply simwp_tail_val.
    iApply simwp_append_item. iFrame "Hc H1 H2". iIntros (hd' c') "Hc Hl". iApply simwp_ret. iFrame. iExists None. iApply str_null.
Qed.

(** What a request leaves of the node and the message. *)
Lemma request_sim p n bp b deep hd c :
  own_cache hd c ∗ own_node p n ∗ own_buf bp b
  ⊢ simwp (RRDRdmManagerDownloadRequest_mem (Some p) (Some bp) deep hd) (RRDRdmManagerDownloadRequest n b deep c)
      (fun a r => own_cache a r.2 ∗ own_node p r.1 ∗ own_buf bp b ∗ lost)%I.
Proof.
  iIntros "(Hc & Hp & Hb)". unfold RRDRdmManagerDownloadRequest_mem, RRDRdmManagerDownloadRequest.
  iApply simwp_read_names. iFrame "Hp". iIntros "Hp". iApply simwp_lift. iIntros (len).
  iApply (simwp_call _ _ _ _ (fun a c' => own_cache a c' ∗ own_buf bp b ∗ lost)%I). iSplitL "Hc Hb".
  - assert (own_cache hd c ∗ own_buf bp b ⊢ simwp (mret hd) (mret c) (fun a c' => own_cache a c' ∗ own_buf bp b ∗ lost)%I) as Hnone.
    { iIntros "[Hc Hb]". iApply simwp_ret. iFrame. iApply lost_none. }
    destruct (negb _); [iApply Hnone; iFrame|].
    iApply simwp_alloc_str. iSplit; [iIntros (q) "Hq"|iIntros "_"]; cbn [negb]; [|iApply Hnone; iFrame].
    iApply simwp_lift. iIntros (name). iApply simwp_lift. iIntros ([file size]).
    iApply simwp_store_str. iFrame "Hq". iIntros "Hq". iApply simwp_tail_val.
    iApply simwp_assoc_val.
    iApply simwp_alloc_str. iSplit; [iIntros (r) "Hr"|iIntros "_"]; cbn [negb].
    + iApply (simwp_call _ _ _ _ (fun a c' => own_cache a c' ∗ own_buf bp b ∗ lost ∗ str (Some q) (Some file))%I). iSplitR "".
      { iApply simwp_load_str. iFrame "Hq". iIntros "Hq". iApply simwp_store_str. iFrame "Hr". iIntros "Hr".
        iApply simwp_lift. iIntros (rc). iApply simwp_tail_val.
        iApply (simwp_call _ _ _ _
          (fun a c' => own_cache a.1 c' ∗ own_buf bp b ∗ lost ∗ (∃ x, str (Some r) x) ∗ ∃ s, str a.2 s)%I).
        iSplitL "Hc Hb Hr".
        - destruct (rc =? 0); [|iApply simwp_ret; iFrame; iSplitR; [iApply lost_none|iExists None; iApply str_null]].
          iApply simwp_wand. iSplitL; [iApply remember_request_sim; iFrame|].
          iIntros (a c') "(Hc & Hb & Hr & Hl & Ha)". iFrame.
        - iIntros ([a x] c') "(Hc & Hb & Hl & [%t Hr] & [%s Ha])". cbn [fst snd].
          iApply simwp_free_str. iFrame "Hr". iApply simwp_free_str. iFrame "Ha". iApply simwp_ret. iFrame. }
      iIntros (a c') "(Hc & Hb & Hl & Hq)". iApply simwp_free_str. iFrame "Hq". iApply simwp_ret. iFrame.
    + iApply simwp_free_str. iFrame "Hq". iApply Hnone. iFrame.
  - iIntros (a c') "(Hc & Hb & Hl)". iApply simwp_free_names. iFrame "Hp". iIntros "Hp". iApply simwp_ret. iFrame.
Qed.

(** What one issue may leave: the path of a package profile that was
    requested, or, in an append request, the data that was not run. *)
Definition left_path : heapPropI := (∃ q n, str (Some q) (Some (dynJSONPath n)))%I.
Definition left_issue : heapPropI := (∃ q d, own_issue q d)%I.
Definition left_over (append : bool) : heapPropI := (lost ∗ (emp ∨ left_path ∨ if append then left_issue else False))%I.

Lemma left_none append : lost ⊢ left_over append.
Proof. iIntros "Hl". iFrame "Hl". by iLeft. Qed.

Lemma left_a_path append q n : lost ∗ str (Some q) (Some (dynJSONPath n)) ⊢ left_over append.
Proof. iIntros "[Hl Hq]". iFrame "Hl". iRight. iLeft. iExists q, n. iFrame. Qed.

(** The call that runs an issue of a profile. *)
Lemma check_call_sim `{!CJSONLaws _} p n cfg bp b hd c :
  own_cache hd c ∗ own_node p n ∗ own_buf bp b
  ⊢ simwp (_ ← checkIssueNodeInfo_mem (Some p) cfg (Some bp) false None; mret hd)
      ('(rbuf, node) ← checkIssueNodeInfo n cfg b false None; mret (rbuf, node, c))
      (fun a r => own_cache a r.2 ∗ own_node p r.1.2 ∗ own_buf bp r.1.1 ∗ lost)%I.
Proof.
  iIntros "(Hc & Hn & Hb)". iApply simwp_call. iSplitL "Hn Hb"; [iApply checkIssueNodeInfo_sim; by iFrame|].
  iIntros (_ [b' n']) "(Hn & Hb & Hl & Ha)". iApply simwp_ret. iFrame.
Qed.

Lemma request_call_sim p n bp b hd c q nm :
  own_cache hd c ∗ own_node p n ∗ own_buf bp b ∗ str (Some q) (Some (dynJSONPath nm))
  ⊢ simwp (RRDRdmManagerDownloadRequest_mem (Some p) (Some bp) false hd)
      ('(node, c) ← RRDRdmManagerDownloadRequest n b false c; mret (b, node, c))
      (fun a r => own_cache a r.2 ∗ own_node p r.1.2 ∗ own_buf bp r.1.1 ∗ left_over false)%I.
Proof.
  iIntros "(Hc & Hn & Hb & Hq)". iApply simwp_tail. iApply simwp_call. iSplitL "Hc Hn Hb"; [iApply request_sim; iFrame|].
  iIntros (a [n' c']) "(Hc & Hn & Hb & Hl)". iApply simwp_ret. iFrame "Hc Hn Hb". iApply (left_a_path _ q nm). iFrame.
Qed.

Lemma installed_sim `{!CJSONLaws _} p n bp b hd c :
  own_cache hd c ∗ own_node p n ∗ own_buf bp b
  ⊢ simwp (processIssueTypeInInstalledPackage_mem (Some bp) (Some p) hd) (processIssueTypeInInstalledPackage b n c)
      (fun a r => own_cache a r.2 ∗ own_node p r.1.2 ∗ own_buf bp r.1.1 ∗ left_over false)%I.
Proof.
  iIntros "(Hc & Hn & Hb)". unfold processIssueTypeInInstalledPackage_mem, processIssueTypeInInstalledPackage.
  iApply simwp_node_name. iFrame "Hn". iIntros (nm _) "Hn".
  iApply simwp_alloc_str. iSplit; [iIntros (q) "Hq"|iIntros "_"]; cbn [negb].
  2: { iApply simwp_ret. iFrame "Hc Hn Hb". iApply left_none. iApply lost_none. }
  iApply simwp_load_str. iFrame "Hq". iIntros "Hq". iApply simwp_lift. iIntros (cfg).
  destruct cfg as [cfg|]; [|iApply (request_call_sim _ _ _ _ _ _ q nm); iFrame].
  iApply simwp_read_names. iFrame "Hn". iIntros "Hn".
  destruct (findIssueInParsedJSON _ _); [|iApply (request_call_sim _ _ _ _ _ _ q nm); iFrame].
  iApply simwp_free_str. iFrame "Hq". iApply simwp_wand. iSplitL; [iApply check_call_sim; iFrame|].
  iIntros (a r) "(Hc & Hn & Hb & Hl)". iFrame "Hc Hn Hb". by iApply left_none.
Qed.

Lemma static_sim `{!CJSONLaws _} p n bp b hd c :
  own_cache hd c ∗ own_node p n ∗ own_buf bp b
  ⊢ simwp (processIssueTypeInStaticProfile_mem (Some bp) (Some p) hd) (processIssueTypeInStaticProfile b n c)
      (fun a r => own_cache a r.2 ∗ own_node p r.1.2 ∗ own_buf bp r.1.1 ∗ left_over false)%I.
Proof.
  iIntros "(Hc & Hn & Hb)". unfold processIssueTypeInStaticProfile_mem, processIssueTypeInStaticProfile.
  iApply simwp_lift. iIntros (cfg). destruct cfg as [cfg|]; [|iApply installed_sim; iFrame].
  iApply simwp_read_names. iFrame "Hn". iIntros "Hn".
  destruct (findIssueInParsedJSON _ _); [|iApply installed_sim; iFrame].
  iApply simwp_wand. iSplitL; [iApply check_call_sim; iFrame|].
  iIntros (a r) "(Hc & Hn & Hb & Hl)". iFrame "Hc Hn Hb". by iApply left_none.
Qed.

Lemma dynamic_sim `{!CJSONLaws _} p n bp b :
  own_node p n ∗ own_buf bp b
  ⊢ simwp (processIssueTypeInDynamicProfile_mem (Some bp) (Some p)) (processIssueTypeInDynamicProfile b n)
      (fun _ r => own_node p r.2 ∗ own_buf bp r.1 ∗ lost)%I.
Proof.
  iIntros "[Hn Hb]". unfold processIssueTypeInDynamicProfile_mem, processIssueTypeInDynamicProfile.
  assert (own_node p n ∗ own_buf bp b ⊢ simwp (_ ← free_mdata (Some bp); free_jsonPath (Some bp))
    (mret (set_jsonPath None (set_mdata None b), n)) (fun _ r => own_node p r.2 ∗ own_buf bp r.1 ∗ lost)%I) as Hclear.
  { iIntros "[Hn Hb]". iApply simwp_free_mdata. iFrame "Hb". iIntros "Hb". iApply simwp_tail. iApply simwp_free_jsonPath.
    iFrame "Hb". iIntros "Hb". iApply simwp_ret. iFrame. iApply lost_none. }
  iDestruct "Hb" as "(%m & %j & %s & Hb & Hm & Hj & Hs)". iApply simwp_load_buf. iFrame "Hb". iIntros "Hb". fields.
  destruct (jsonPath b) as [path|] eqn:Ej.
  2: { iDestruct (str_none with "Hj") as "[-> _]". iApply simwp_tail. iApply (simwp_free_mdata bp b).
       iSplitL "Hb Hm Hs"; [iExists m, None, s; rw Ej; by iFrame|]. iIntros "Hb". iApply simwp_ret. iFrame. iApply lost_none. }
  iDestruct (str_is_some with "Hj") as (j') "[-> Hj]". iApply simwp_load_str. iFrame "Hj". iIntros "Hj".
  iAssert (own_buf bp b) with "[Hb Hm Hj Hs]" as "Hb"; [iExists m, (Some j'), s; rw Ej; iFrame|].
  iApply simwp_lift. iIntros (cfg). destruct cfg as [cfg|]; [|iApply Hclear; iFrame].
  iApply simwp_read_names. iFrame "Hn". iIntros "Hn". destruct (negb _); [iApply Hclear; iFrame|].
  iApply simwp_wand. iSplitL; [iApply checkIssueNodeInfo_sim; by iFrame|].
  iIntros (a r) "(Hn & Hb & Hl & Ha)". iFrame.
Qed.

(** ** Append requests *)

Lemma left_weaken append : left_over false ⊢ left_over append.
Proof. iIntros "[Hl [H|[H|[]]]]"; iFrame "Hl"; [by iLeft|iRight; by iLeft]. Qed.

Lemma left_an_issue q d : own_issue q d ∗ lost ⊢ left_over true.
Proof. iIntros "[Hq Hl]". iFrame "Hl". iRight. iRight. iExists q, d. iFrame. Qed.

(** The data of the issue, read by the log call that follows. *)
Lemma command_info_sim {A B} p n cfg bp b mdata (k : option loc -> MM A) (k' : issueData -> M B) Q :
  buf_mdata b = Some mdata ->
  own_node p n ∗ own_buf bp b ∗
  (∀ a d, own_issue a d -∗ own_node p n -∗ own_buf bp b -∗ simwp (k (Some a)) (k' d) Q)
  ⊢ simwp (b ← load_buf (Some bp); a ← getIssueCommandInfo_mem (Some p) cfg (c_mdata b); _ ← load_issue a; k a)
      (mdata ← deref (buf_mdata b); r ← getIssueCommandInfo n cfg mdata; d ← deref r; k' d) Q.
Proof.
  intros Hm. iIntros "(Hn & Hb & Hk)". iApply simwp_view_buf. iFrame "Hb". iIntros (m j s) "Hb Hm". cbn [cell_of c_mdata].
  rw Hm. change (deref (Some mdata) ≫= ?k) with (k mdata). cbv beta.
  iApply simwp_call. iSplitL "Hn Hm"; [iApply getIssueCommandInfo_sim; iFrame|].
  iIntros (a d) "(Hn & Hm & Ha)". iDestruct ("Hb" with "Hm") as "Hb".
  destruct a as [a|], d as [d|]; try (iDestruct "Ha" as "[]"); [|fails].
  iDestruct "Ha" as "(%r & %c & Ha & Hr)". iApply simwp_load_issue. iFrame "Ha". iIntros "Ha".
  change (deref (Some d) ≫= ?k) with (k d). iApply ("Hk" with "[Ha Hr] Hn Hb"). iExists r, c. iFrame.
Qed.

Lemma dynamic_append_sim p n bp b hd c mdata :
  buf_mdata b = Some mdata ->
  own_cache hd c ∗ own_node p n ∗ own_buf bp b
  ⊢ simwp (processIssueTypeInDynamicProfileappend_mem (Some bp) (Some p) hd) (processIssueTypeInDynamicProfileappend b n c)
      (fun a r => own_cache a.2 r.2 ∗ own_node p r.1.2 ∗ own_buf bp b ∗ own_append a.1 r.1.1 ∗
         match r.1.1 with Some _ => emp | None => left_over false end)%I.
Proof.
  intros Hm. iIntros "(Hc & Hn & Hb)". unfold processIssueTypeInDynamicProfileappend_mem, processIssueTypeInDynamicProfileappend.
  iApply simwp_node_name. iFrame "Hn". iIntros (nm _) "Hn".
  iApply simwp_alloc_str. iSplit; [iIntros (q) "Hq"|iIntros "_"]; cbn [negb].
  2: { iApply simwp_ret. iFrame "Hc Hn Hb". iSplitR; [by iApply str_null|]. iApply left_none. iApply lost_none. }
  iApply simwp_load_str. iFrame "Hq". iIntros "Hq". iApply simwp_lift. iIntros (cfg). destruct cfg as [cfg|].
  2: { iApply simwp_call. iSplitL "Hc Hn Hb"; [iApply request_sim; iFrame|]. iIntros (a [n' c']) "(Hc & Hn & Hb & Hl)".
       iApply simwp_ret. iFrame "Hc Hn Hb". iSplitR; [by iApply str_null|]. iApply (left_a_path _ q nm). iFrame. }
  iApply simwp_read_names. iFrame "Hn". iIntros "Hn". destruct (findIssueInParsedJSON _ _).
  - iApply simwp_free_str. iFrame "Hq". iApply command_info_sim; [exact Hm|]. iFrame "Hn Hb". iIntros (a d) "Ha Hn Hb".
    iApply simwp_ret. iFrame.
  - iApply simwp_ret. iFrame "Hc Hn Hb". iSplitR; [by iApply str_null|].
    iApply (left_a_path _ q nm). iFrame "Hq". iApply lost_none.
Qed.

Lemma static_append_sim p n bp b mdata :
  buf_mdata b = Some mdata ->
  own_node p n ∗ own_buf bp b
  ⊢ simwp (processIssueTypeInStaticProfileappend_mem (Some bp) (Some p)) (processIssueTypeInStaticProfileappend b n)
      (fun a o => own_node p n ∗ own_buf bp b ∗ own_append a o)%I.
Proof.
  intros Hm. iIntros "[Hn Hb]". unfold processIssueTypeInStaticProfileappend_mem, processIssueTypeInStaticProfileappend.
  iApply simwp_lift. iIntros (cfg). destruct cfg as [cfg|]; [|iApply simwp_ret; by iFrame].
  iApply simwp_read_names. iFrame "Hn". iIntros "Hn". destruct (findIssueInParsedJSON _ _).
  - iApply command_info_sim; [exact Hm|]. iFrame "Hn Hb". iIntros (a d) "Ha Hn Hb". iApply simwp_ret. iFrame.
  - iApply simwp_ret. by iFrame.
Qed.

Lemma run_appended_sim `{!CJSONLaws _} dp d sp st p n bp b :
  own_issue dp d ∗ own_issue sp st ∗ own_node p n ∗ own_buf bp b
  ⊢ simwp (run_appended_mem (Some dp) (Some sp) (Some bp) (Some p)) (run_appended d st b n)
      (fun _ r => own_node p r.2 ∗ own_buf bp r.1 ∗ left_over true)%I.
Proof.
  destruct d as [drfc dcmd dtmo], st as [srfc scmd stmo]. iIntros "(Hd & Hs & Hn & Hb)". unfold run_appended_mem, run_appended.
  iDestruct "Hd" as "(%dr & %dc & Hd & Hdr & Hdc)". iApply simwp_load_issue. iFrame "Hd". iIntros "Hd".
  iDestruct "Hs" as "(%sr & %sc & Hs & Hsr & Hsc)". iApply simwp_load_issue. iFrame "Hs". iIntros "Hs". fields.
  assert (forall c1 c2, own_node p n ∗ own_buf bp b ∗ dp ↦ BIssue (IssueCell dr dc dtmo) ∗ str dr drfc ∗ str dc c1 ∗
      sp ↦ BIssue (IssueCell sr sc stmo) ∗ str sr srfc ∗ str sc c2
    ⊢ simwp (_ ← free_issue (Some dp); free_issue (Some sp)) (mret (b, n))
        (fun _ r => own_node p r.2 ∗ own_buf bp r.1 ∗ left_over true)%I) as Hfree.
  { intros c1 c2. iIntros "(Hn & Hb & Hd & Hdr & Hdc & Hs & Hsr & Hsc)".
    iApply (simwp_free_issue dp (IssueData drfc c1 dtmo)). iSplitL "Hd Hdr Hdc"; [owned|]. iApply simwp_tail.
    iApply (simwp_free_issue sp (IssueData srfc c2 stmo)). iSplitL "Hs Hsr Hsc"; [owned|]. iApply simwp_ret.
    iFrame "Hn Hb". iApply left_none. iApply lost_none. }
  destruct dcmd as [dcmd|], scmd as [scmd|].
  2: { iDestruct (str_none with "Hsc") as "[-> _]". destruct dc; iApply (Hfree (Some dcmd) None); iFrame; iApply str_null. }
  2: { iDestruct (str_none with "Hdc") as "[-> _]". iApply (Hfree None (Some scmd)); iFrame; iApply str_null. }
  2: { iDestruct (str_none with "Hdc") as "[-> _]". iApply (Hfree None None); iFrame; iApply str_null. }
  clear Hfree. iDestruct (str_is_some with "Hdc") as (dc') "[-> Hdc]". iDestruct (str_is_some with "Hsc") as (sc') "[-> Hsc]".
  iApply simwp_load_str. iFrame "Hsc". iIntros "Hsc". iApply simwp_load_str. iFrame "Hdc". iIntros "Hdc".
  iApply simwp_store_str. iFrame "Hsc". iIntros "Hsc". iApply simwp_store_str. iFrame "Hdc". iIntros "Hdc".
  iApply simwp_realloc_str. iFrame "Hsc". iSplit; [iIntros (q) "Hsc"|iIntros "%Hf Hsc"]; cbn [negb].
  - iApply simwp_load_str. iFrame "Hsc". iIntros "Hsc". iApply simwp_load_str. iFrame "Hdc". iIntros "Hdc".
    iApply simwp_store_str. iFrame "Hsc". iIntros "Hsc". iApply simwp_update_issue. iFrame "Hs". iIntros "Hs". fields.
    iApply simwp_tail_val. iApply simwp_call. iSplitL "Hn Hb Hs Hsr Hsc".
    { iApply (checkIssueNodeInfo_sim p n None bp b false (Some sp)). iFrame "Hn Hb". cbn [own_append]. owned. }
    iIntros (_ [b' n']) "(Hn & Hb & Hl & Ha)". iApply simwp_tail.
    iApply (simwp_free_issue dp (IssueData drfc (Some (delimit_first_quote dcmd)) dtmo)). iSplitL "Hd Hdr Hdc"; [owned|].
    iApply simwp_ret. iFrame "Hn Hb". iDestruct "Ha" as "[Ha|_]"; [|by iApply left_none]. iApply left_an_issue. iFrame.
  - iApply (simwp_free_issue sp (IssueData srfc (Some (drop_last_quote scmd)) stmo)). iSplitL "Hs Hsr Hsc"; [owned|].
    iApply simwp_tail. iApply (simwp_free_issue dp (IssueData drfc (Some (delimit_first_quote dcmd)) dtmo)).
    iSplitL "Hd Hdr Hdc"; [owned|]. iApply simwp_ret. iFrame "Hn Hb". iApply left_none. iApply lost_none.
Qed.

(** One issue: what is left besides the message. *)
Lemma processIssueType_sim `{!CJSONLaws _} bp b hd c :
  own_cache hd c ∗ own_buf bp b
  ⊢ simwp (processIssueType_mem (Some bp) hd) (processIssueType b c)
      (fun a r => own_cache a r.2 ∗ own_buf bp r.1 ∗ left_over (appendMode b))%I.
Proof.
  iIntros "[Hc Hb]". unfold processIssueType_mem, processIssueType.
  iApply simwp_view_buf. iFrame "Hb". iIntros (m j s) "Hb Hm". cbn [cell_of c_mdata c_appendMode c_inDynamic].
  destruct (buf_mdata b) as [mdata|] eqn:Em.
  2: { iDestruct (str_none with "Hm") as "[-> _]". iApply simwp_ret.
       iDestruct ("Hb" with "[]") as "Hb"; [iApply str_null|]. iFrame "Hc Hb". iApply left_none. iApply lost_none. }
  iDestruct (str_is_some with "Hm") as (m') "[-> Hm]".
  iApply simwp_alloc. iSplit; [iIntros (p) "Hn"|iIntros "_"]; cbn [negb].
  2: { iApply simwp_ret. iDestruct ("Hb" with "Hm") as "Hb". iFrame "Hc Hb". iApply left_none. iApply lost_none. }
  iApply simwp_call. iSplitL "Hn Hm"; [iApply getIssueInfo_sim; iFrame|]. iIntros (_ n) "[Hm Hn]".
  iDestruct ("Hb" with "Hm") as "Hb".
  iApply simwp_tail_val.
  iApply (simwp_call _ _ _ _ (fun a r => own_cache a r.2 ∗ (∃ n', own_node p n') ∗ own_buf bp r.1 ∗ left_over (appendMode b))%I).
  iSplitL.
  - destruct (appendMode b); [|destruct (inDynamic b)].
    + iApply simwp_call. iSplitL; [iApply dynamic_append_sim; [exact Em|iFrame]|].
      iIntros ([a1 a2] [[o n'] c']) "(Hc & Hn & Hb & Ha & Hl)". cbn [fst snd].
      destruct a1 as [a1|], o as [d|]; cbn [own_append]; try (iDestruct "Ha" as "[]").
      2: { iApply simwp_ret. iFrame "Hc Hb". iSplitL "Hn"; [by iExists n'|]. by iApply left_weaken. }
      iApply simwp_call. iSplitL "Hn Hb"; [iApply static_append_sim; [exact Em|iFrame]|].
      iIntros (a3 o) "(Hn & Hb & Hs)". destruct a3 as [a3|], o as [st|]; cbn [own_append]; try (iDestruct "Hs" as "[]").
      * iApply simwp_call. iSplitR "Hl Hc"; [iApply run_appended_sim; iFrame|]. iIntros (_ [b' n'']) "(Hn & Hb & Hlo)".
        iApply simwp_ret. iFrame "Hc Hb Hlo". by iExists n''.
      * iApply simwp_free_issue. iFrame "Ha". iApply simwp_ret. iFrame "Hc Hb".
        iSplitL "Hn"; [by iExists n'|]. iApply left_none. iApply lost_none.
    + iApply simwp_call. iSplitL "Hn Hb"; [iApply dynamic_sim; iFrame|]. iIntros (_ [b' n']) "(Hn & Hb & Hl)".
      iApply simwp_ret. iFrame "Hc Hb". iSplitL "Hn"; [by iExists n'|]. by iApply left_none.
    + iApply simwp_tail. iApply simwp_call. iSplitL; [iApply static_sim; iFrame|].
      iIntros (a [[b' n'] c']) "(Hc & Hn & Hb & Hl)". iApply simwp_ret. iFrame "Hc Hb Hl". by iExists n'.
  - iIntros (a [b' c']) "(Hc & [%n' Hn] & Hb & Hl)". iApply simwp_free_Node. iFrame "Hn". iIntros "Hn".
    iApply simwp_free_subNode. iFrame "Hn". iIntros "Hn". fields. iDestruct "Hn" as "(%x & %y & Hn & Hx & Hy)". fields.
    iDestruct (str_none with "Hx") as "[-> _]". iDestruct (str_none with "Hy") as "[-> _]".
    iApply simwp_free. iFrame "Hn". iApply simwp_ret. iFrame.
Qed.
End Simulation.
