(* ===== verification/DecoderMem.v ===== *)
(** * DecoderMem: the memory of the web configuration decoder
    (src/rrdMsgPackDecoder.c)

    The buffer of the decoded text, the document with its parameter and its
    strings, and the request for the framework: what [decodeWebCfgData]
    allocates, what it frees on every way out, and what the framework frees
    through [FreeResources_RemoteDebugger].  The objects of msgpack-c are values. *)

From stdpp Require Import gmap.
From iris.proofmode Require Import proofmode.
From S2P Require Import Prelude Types OS Cache IssueType Queue MsgPack Heap.

Local Open Scope Z_scope.

(** [p->field = x] *)
Definition update_param (p : option loc) (f : param_cell -> param_cell) : MM unit := c ← load_param p; store p (BParam (f c)).
Definition update_doc (p : option loc) (f : doc_cell -> doc_cell) : MM unit := c ← load_doc p; store p (BDoc (f c)).

Definition set_c_length (x : Z) (c : param_cell) : param_cell := ParamCell (c_commandList c) x.
Definition set_c_commandList (x : option loc) (c : param_cell) : param_cell := ParamCell x (c_length c).
Definition set_c_param (x : option loc) (c : doc_cell) : doc_cell :=
  DocCell x (c_entries_count c) (c_subdoc_name c) (c_version c) (c_transaction_id c).
Definition set_c_entries_count (x : Z) (c : doc_cell) : doc_cell :=
  DocCell (c_param c) x (c_subdoc_name c) (c_version c) (c_transaction_id c).
Definition set_c_subdoc_name (x : option loc) (c : doc_cell) : doc_cell :=
  DocCell (c_param c) (c_entries_count c) x (c_version c) (c_transaction_id c).
Definition set_c_version (x : Z) (c : doc_cell) : doc_cell :=
  DocCell (c_param c) (c_entries_count c) (c_subdoc_name c) x (c_transaction_id c).
Definition set_c_transaction_id (x : Z) (c : doc_cell) : doc_cell :=
  DocCell (c_param c) (c_entries_count c) (c_subdoc_name c) (c_version c) x.

Section DecoderMem.
Context `{OS}.

(** A size that is negative is more than [malloc] can give. *)
Definition alloc_size (size : Z) (b : block) : MM (option loc) :=
  if 0 <=? size then alloc b else _ ← lift malloc; mret None.

(** ** Freeing *)

Definition remotedebuggerdoc_destroy_mem (ld : option loc) : MM unit :=
  match ld with
  | None => mret tt
  | Some _ =>
      d ← load_doc ld;
      _ ← (match c_param d with
           | None => mret tt
           | Some _ =>
               p ← load_param (c_param d);
               _ ← (match c_commandList p with None => mret tt | Some _ => free (c_commandList p) end);
               free (c_param d)
           end);
      d ← load_doc ld;
      _ ← (match c_subdoc_name d with None => mret tt | Some _ => free (c_subdoc_name d) end);
      free ld
  end.

Definition FreeResources_RemoteDebugger_mem (arg : option loc) : MM unit :=
  match arg with
  | None => mret tt
  | Some _ =>
      e ← load_exec arg;
      _ ← (match c_user_data e with None => mret tt | Some _ => remotedebuggerdoc_destroy_mem (c_user_data e) end);
      free arg
  end.

(** ** Decoding *)

Context `{MsgPack}.

Fixpoint process_remotedebuggerparams_mem (rrdParam : option loc) (map : list (msgpack_object * msgpack_object)) : MM Z :=
  match map with
  | [] => mret (-1)
  | (key, val) :: map' =>
      match key, val with
      | MpStr k, MpArray arr =>
          found ← lift (match_key k #"IssueType");
          if (found : bool) then
            let resultLen := getReqTotalSizeOfIssueTypesStr arr in
            _ ← update_param rrdParam (set_c_length resultLen);
            list ← alloc_size (resultLen + 1) (BString []);
            _ ← update_param rrdParam (set_c_commandList list);
            match list with
            | None => mret (-1)
            | Some _ =>
                buf ← lift (command_list_loop (resultLen + 1) (length arr) 0 arr []);
                if resultLen <? 0 then hfault OutOfBounds
                else _ ← store list (BString (take (Z.to_nat resultLen) buf)); mret 0
            end
          else process_remotedebuggerparams_mem rrdParam map'
      | _, _ => process_remotedebuggerparams_mem rrdParam map'
      end
  end.

Definition process_remotedebuggerdoc_mem (ld : option loc) (args : list (option msgpack_object)) : MM Z :=
  match args with
  | obj :: obj1 :: obj2 :: obj3 :: _ =>
      o1 ← lift (deref obj1);
      s1 ← lift (via_str o1);
      name ← lift (read_strn (str_mem s1) (str_size s1));
      subdoc_name ← alloc (BString name);
      _ ← update_doc ld (set_c_subdoc_name subdoc_name);
      o2 ← lift (deref obj2);
      _ ← update_doc ld (set_c_version (via_u64 o2 mod 2^32));
      o3 ← lift (deref obj3);
      _ ← update_doc ld (set_c_transaction_id (via_u64 o3 mod 2^16));
      _ ← update_doc ld (set_c_entries_count 1);
      p ← alloc (BParam (ParamCell None 0));
      _ ← update_doc ld (set_c_param p);
      match p with
      | None => mret (-1)
      | Some _ =>
          o ← lift (deref obj);
          mapobj ← lift (via_map o);
          rc ← process_remotedebuggerparams_mem p mapobj;
          mret (if rc =? 0 then 0 else -1)
      end
  | _ => hfault UninitRead
  end.

(** [zero] is the block that [memset] cleared. *)
Definition helper_convert_mem (buf : option (list ascii)) (len : nat) (zero : block) (wrapper : option cstr)
    (expect_type : msgpack_object_type) (optional : bool)
    (process : option loc -> list (option msgpack_object) -> MM Z) (destroy : option loc -> MM unit) : MM (option loc) :=
  p ← alloc zero;
  match p with
  | None => mret None
  | Some _ =>
      match buf with
      | Some b =>
          if negb (0 <? len)%nat then mret p else
          let '(mp_rv, offset, data) := msgpack_unpack_next b len in
          match mp_rv, data, wrapper with
          | MSGPACK_UNPACK_SUCCESS, MpMap map, Some wrapper =>
              if (offset =? 0)%nat then _ ← destroy p; mret None else
              let convert inner args :=
                match inner with
                | Some _ => rc ← process p args; if rc =? 0 then mret p else _ ← destroy p; mret None
                | None => if optional then mret p else _ ← destroy p; mret None
                end in
              if starts_with #"parameters" wrapper then
                inner ← lift (__finder wrapper expect_type map);
                convert inner [inner]
              else if negb (streq wrapper #"parameters") then
                inner ← lift (__finder wrapper expect_type map);
                subdoc_name ← lift (__finder #"subdoc_name" expect_type map);
                version ← lift (__finder #"version" expect_type map);
                transaction_id ← lift (__finder #"transaction_id" expect_type map);
                convert inner [inner; subdoc_name; version; transaction_id]
              else _ ← destroy p; mret None
          | _, _, _ => _ ← destroy p; mret None
          end
      | None => mret p
      end
  end.

Definition remotedebuggerdoc_convert_mem (buf : list ascii) (len : nat) : MM (option loc) :=
  helper_convert_mem (Some buf) len (BDoc (DocCell None 0 None 0 0)) (Some #"remotedebugger") MSGPACK_OBJECT_MAP true
    process_remotedebuggerdoc_mem remotedebuggerdoc_destroy_mem.

(** The buffer of the caller and the size. *)
Definition get_base64_decodedbuffer_mem (pString : option loc) : MM (option (option loc * Z)) :=
  match pString with
  | None => mret None
  | Some _ =>
      s ← load_string pString;
      let decodeMsgSize := b64_get_decoded_buffer_size (length s) in
      decodeMsg ← alloc (BString []);
      match decodeMsg with
      | None => _ ← free decodeMsg; mret None
      | Some _ =>
          let '(size, written) := b64_decode s in
          if (decodeMsgSize + 1 <? length written)%nat then hfault OutOfBounds else
          if size <? 0 then _ ← free decodeMsg; mret None else
          _ ← store decodeMsg (BString (decoded_buffer decodeMsgSize written));
          mret (Some (decodeMsg, size))
      end
  end.

(** The status, and the request the framework gets. *)
Definition decodeWebCfgData_mem (pString : option loc) : MM (Z * option loc) :=
  decoded ← get_base64_decodedbuffer_mem pString;
  match decoded with
  | None => mret (-1, None)
  | Some (decodeMsg, size) =>
      buf ← load_string decodeMsg;
      if decide (get_msgpack_unpack_status (Some buf) size = MSGPACK_UNPACK_SUCCESS) then
        info ← remotedebuggerdoc_convert_mem buf (Z.to_nat (size + 1));
        _ ← free decodeMsg;
        match info with
        | None => mret (-1, None)
        | Some _ =>
            _ ← update_doc info (set_c_entries_count 1);
            d ← load_doc info;
            execDataLan ← alloc (BExec (ExecCell 0 0 0 [] None));
            match execDataLan with
            | None => _ ← remotedebuggerdoc_destroy_mem info; mret (-1, None)
            | Some _ =>
                _ ← store execDataLan (BExec (ExecCell (c_transaction_id d) (c_version d) (c_entries_count d)
                                                #"remotedebugger" info));
                mret (0, execDataLan)
            end
        end
      else _ ← free decodeMsg; mret (-1, None)
  end.
End DecoderMem.

(** ** What the structures own *)

Definition own_param (p : loc) (x : remotedebuggerparam_t) : heapPropI :=
  (∃ cl, p ↦ BParam (ParamCell cl (param_length x)) ∗ str cl (commandList x))%I.

(** Two pointers that are [NULL] at the same time. *)
Definition own_opt {A} (own : loc -> A -> heapPropI) (p : option loc) (x : option A) : heapPropI :=
  match p, x with Some p, Some x => own p x | None, None => emp | _, _ => False end%I.

Definition own_doc (p : loc) (d : remotedebuggerdoc_t) : heapPropI :=
  (∃ pp sn, p ↦ BDoc (DocCell pp (entries_count d) sn (version d) (transaction_id d)) ∗
     str sn (subdoc_name d) ∗ own_opt own_param pp (param d))%I.

Definition own_exec (p : loc) (e : execData) : heapPropI :=
  (∃ d, p ↦ BExec (ExecCell (txid e) (exec_version e) (numOfEntries e) (exec_subdoc_name e) (Some d)) ∗
     own_doc d (user_data e))%I.

Section Rules.
Context {A B : Type}.
Implicit Types (Q : A -> B -> heapPropI).

Lemma simwp_update_param p c f (k : unit -> MM A) v Q :
  p ↦ BParam c ∗ (p ↦ BParam (f c) -∗ simwp (k tt) v Q) ⊢ simwp (update_param (Some p) f ≫= k) v Q.
Proof.
  iIntros "[Hp Hk]". iApply simwp_assoc. iApply simwp_load_param. iFrame "Hp". iIntros "Hp". iApply simwp_store. iFrame.
Qed.

Lemma simwp_update_doc p c f (k : unit -> MM A) v Q :
  p ↦ BDoc c ∗ (p ↦ BDoc (f c) -∗ simwp (k tt) v Q) ⊢ simwp (update_doc (Some p) f ≫= k) v Q.
Proof.
  iIntros "[Hp Hk]". iApply simwp_assoc. iApply simwp_load_doc. iFrame "Hp". iIntros "Hp". iApply simwp_store. iFrame.
Qed.

Lemma simwp_free_checked p s (k : unit -> MM A) v Q :
  str p s ∗ simwp (k tt) v Q ⊢ simwp ((match p with None => mret tt | Some _ => free p end) ≫= k) v Q.
Proof.
  destruct p as [p|]; [apply simwp_free_str|]. iIntros "[Hp Hk]". destruct s; [by iDestruct "Hp" as "[]"|by iApply "Hk"].
Qed.

(** The whole document is freed. *)
Lemma simwp_destroy p d (k : unit -> MM A) v Q :
  own_doc p d ∗ simwp (k tt) v Q ⊢ simwp (remotedebuggerdoc_destroy_mem (Some p) ≫= k) v Q.
Proof.
  iIntros "[(%pp & %sn & Hp & Hs & Hpp) Hk]". iApply simwp_assoc. iApply simwp_load_doc. iFrame "Hp". iIntros "Hp".
  iApply simwp_assoc. cbn [c_param]. destruct pp as [pp|].
  - destruct (param d) as [x|]; [|by iDestruct "Hpp" as "[]"]. iDestruct "Hpp" as (cl) "[Hpp Hcl]". cbn.
    iApply simwp_assoc. iApply simwp_load_param. iFrame "Hpp". iIntros "Hpp". iApply simwp_assoc. cbn [c_commandList].
    iApply simwp_free_checked. iFrame "Hcl". iApply simwp_free. iFrame "Hpp".
    iApply simwp_assoc. iApply simwp_load_doc. iFrame "Hp". iIntros "Hp". iApply simwp_assoc.
    iApply simwp_free_checked. iFrame "Hs". iApply simwp_free. iFrame.
  - destruct (param d) as [x|]; [by iDestruct "Hpp" as "[]"|]. change (mret tt ≫= ?k) with (k tt). cbv beta.
    iApply simwp_assoc. iApply simwp_load_doc. iFrame "Hp". iIntros "Hp". iApply simwp_assoc.
    iApply simwp_free_checked. iFrame "Hs". iApply simwp_free. iFrame.
Qed.

Lemma simwp_free_resources p e (k : unit -> MM A) v Q :
  own_exec p e ∗ simwp (k tt) v Q ⊢ simwp (FreeResources_RemoteDebugger_mem (Some p) ≫= k) v Q.
Proof.
  iIntros "[(%d & Hp & Hd) Hk]". iApply simwp_assoc. iApply simwp_load_exec. iFrame "Hp". iIntros "Hp".
  iApply simwp_assoc. cbn [c_user_data]. iApply simwp_destroy. iFrame "Hd". iApply simwp_free. iFrame.
Qed.
End Rules.

(** ** The simulations *)

Section Simulation.
Context `{OS} `{MsgPack}.

Lemma params_sim p map : forall x, commandList x = None ->
  own_param p x ⊢ simwp (process_remotedebuggerparams_mem (Some p) map) (process_remotedebuggerparams x map)
    (fun rc r => ⌜rc = r.1⌝ ∧ own_param p r.2)%I.
Proof.
  induction map as [|[key val] map IH]; intros x Hx.
  { iIntros "Hp". iApply simwp_ret. by iSplit. }
  destruct key as [| | | | |k| | | |]; try apply (IH x Hx). destruct val as [| | | | | |arr| | |]; try apply (IH x Hx).
  cbn [process_remotedebuggerparams_mem process_remotedebuggerparams]. iIntros "Hp".
  iApply simwp_lift. iIntros (found). destruct found; [|by iApply IH].
  iDestruct "Hp" as (cl) "[Hp Hcl]". rw Hx. iDestruct (str_none with "Hcl") as "[-> _]".
  set (n := getReqTotalSizeOfIssueTypesStr arr). iApply simwp_update_param. iFrame "Hp". iIntros "Hp".
  unfold alloc_size. destruct (0 <=? n + 1) eqn:En.
  2: { iApply simwp_assoc. iApply simwp_lift. iIntros (ok). rw andb_false_r. change (mret None ≫= ?k) with (k (@None loc)). cbv beta.
       iApply simwp_update_param. iFrame "Hp". iIntros "Hp". iApply simwp_ret. iSplit; [done|]. iExists None. by iFrame. }
  iApply simwp_alloc_str. iSplit; [iIntros (q) "Hq"|iIntros "_"]; cbn [andb].
  - iApply simwp_update_param. iFrame "Hp". iIntros "Hp". iApply simwp_lift. iIntros (buf). destruct (n <? 0).
    + by iApply simwp_hfault.
    + iApply simwp_store_str. iFrame "Hq". iIntros "Hq". iApply simwp_ret. iSplit; [done|]. iExists (Some q). iFrame.
  - iApply simwp_update_param. iFrame "Hp". iIntros "Hp". iApply simwp_ret. iSplit; [done|]. iExists None. by iFrame.
Qed.

Lemma process_sim p args :
  own_doc p zero_doc ⊢ simwp (process_remotedebuggerdoc_mem (Some p) args) (process_remotedebuggerdoc zero_doc args)
    (fun rc r => ⌜rc = r.1⌝ ∧ own_doc p r.2)%I.
Proof.
  assert (own_doc p zero_doc ⊢ simwp (hfault UninitRead) (mfault UninitRead)
    (fun (rc : Z) (r : Z * remotedebuggerdoc_t) => ⌜rc = r.1⌝ ∧ own_doc p r.2)%I) as Hfew.
  { iIntros "Hp". by iApply simwp_hfault. }
  destruct args as [|obj [|obj1 [|obj2 [|obj3 args]]]]; try exact Hfew. clear Hfew.
  iIntros "(%pp & %sn & Hp & Hs & Hpp)". cbn [zero_doc param subdoc_name entries_count version transaction_id].
  iDestruct (str_none with "Hs") as "[-> _]". destruct pp as [pp|]; [by iDestruct "Hpp" as "[]"|].
  unfold process_remotedebuggerdoc_mem, process_remotedebuggerdoc.
  iApply simwp_lift. iIntros (o1). iApply simwp_lift. iIntros (s1). iApply simwp_lift. iIntros (name).
  iApply simwp_strdup_any. iIntros (sn s) "Hs".
  iApply simwp_update_doc. iFrame "Hp". iIntros "Hp". iApply simwp_lift. iIntros (o2).
  iApply simwp_update_doc. iFrame "Hp". iIntros "Hp". iApply simwp_lift. iIntros (o3).
  iApply simwp_update_doc. iFrame "Hp". iIntros "Hp". iApply simwp_update_doc. iFrame "Hp". iIntros "Hp".
  iApply simwp_alloc. iSplit; [iIntros (q) "Hq"|iIntros "_"]; cbn [negb]; iApply simwp_update_doc; iFrame "Hp"; iIntros "Hp".
  - iApply simwp_lift. iIntros (o). iApply simwp_lift. iIntros (mapobj). iApply simwp_call.
    iSplitL "Hq"; [iApply params_sim; [done|]; iExists None; by iFrame|]. iIntros (rc [rc' x]) "[-> Hq]". cbn [fst snd].
    iApply simwp_ret. iSplit; [done|]. iExists (Some q), sn. iFrame.
  - iApply simwp_ret. iSplit; [done|]. iExists None, sn. by iFrame.
Qed.

(** [helper_convert], for a structure whose cleared block is [zero]: the block
    that [process] filled is returned or destroyed. *)
Lemma helper_convert_sim {A} (own : loc -> A -> heapPropI) (za : A) buf len zero wrapper expect_type optional
    process processv destroy :
  (forall p, p ↦ zero ⊢ own p za) ->
  (forall p args, own p za ⊢ simwp (process (Some p) args) (processv za args) (fun rc r => ⌜rc = r.1⌝ ∧ own p r.2)%I) ->
  (forall p a (k : unit -> MM (option loc)) (v : M (option A)) Q,
     own p a ∗ simwp (k tt) v Q ⊢ simwp (destroy (Some p) ≫= k) v Q) ->
  ⊢ simwp (helper_convert_mem buf len zero wrapper expect_type optional process destroy)
      (helper_convert buf len za wrapper expect_type optional processv) (own_opt own).
Proof.
  intros Hz Hproc Hdes. unfold helper_convert_mem, helper_convert.
  assert (forall p a, own p a ⊢ simwp (_ ← destroy (Some p); mret None) (mret None) (own_opt own)) as Hnone.
  { intros p a. iIntros "Hp". iApply Hdes. iFrame "Hp". by iApply simwp_ret. }
  assert (forall p a, own p a ⊢ simwp (mret (Some p)) (mret (Some a)) (own_opt own)) as Hsome.
  { intros p a. iIntros "Hp". by iApply simwp_ret. }
  iApply simwp_alloc. iSplit; [iIntros (p) "Hp"|iIntros "_"; by iApply simwp_ret]. iDestruct (Hz with "Hp") as "Hp". cbn [negb].
  destruct buf as [b|]; [|by iApply Hsome]. destruct (negb (0 <? len)%nat); [by iApply Hsome|].
  destruct (msgpack_unpack_next b len) as [[rv offset] data]. destruct rv; try by iApply Hnone.
  destruct data as [| | | | | | |map| |]; try by iApply Hnone. destruct wrapper as [wrapper|]; [|by iApply Hnone].
  destruct (offset =? 0)%nat; [by iApply Hnone|].
  assert (forall (inner : option msgpack_object) args, own p za ⊢ simwp
    (match inner with
     | Some _ => rc ← process (Some p) args; if rc =? 0 then mret (Some p) else _ ← destroy (Some p); mret None
     | None => if optional then mret (Some p) else _ ← destroy (Some p); mret None
     end)
    (match inner with
     | Some _ => '(rc, p) ← processv za args; mret (if rc =? 0 then Some p else @None A)
     | None => mret (if optional then Some za else @None A)
     end) (own_opt own)) as Hconv.
  { intros inner args. iIntros "Hp". destruct inner as [inner|].
    - iApply simwp_call. iSplitL; [by iApply Hproc|]. iIntros (rc [rc' a]) "[-> Hp]". cbn [fst snd].
      destruct (rc' =? 0); [by iApply Hsome|by iApply Hnone].
    - destruct optional; [by iApply Hsome|by iApply Hnone]. }
  destruct (starts_with _ _).
  - iApply simwp_lift. iIntros (inner). by iApply Hconv.
  - destruct (negb (streq wrapper _)); [|by iApply Hnone]. iApply simwp_lift. iIntros (inner). iApply simwp_lift. iIntros (name).
    iApply simwp_lift. iIntros (ver). iApply simwp_lift. iIntros (tid). by iApply Hconv.
Qed.

Lemma convert_sim buf len :
  ⊢ simwp (remotedebuggerdoc_convert_mem buf len) (remotedebuggerdoc_convert buf len) (own_opt own_doc).
Proof.
  apply helper_convert_sim.
  - intros p. iIntros "Hp". iExists None, None. by iFrame.
  - intros p args. apply process_sim.
  - intros p a k v Q. apply simwp_destroy.
Qed.

Lemma base64_sim p text :
  str (Some p) (Some text) ⊢ simwp (get_base64_decodedbuffer_mem (Some p)) (get_base64_decodedbuffer (Some text))
    (fun a r => str (Some p) (Some text) ∗
       match a, r with
       | Some (q, n), Some (buf, n') => ⌜n = n'⌝ ∧ str q (Some buf)
       | None, None => emp
       | _, _ => False
       end)%I.
Proof.
  iIntros "Hp". unfold get_base64_decodedbuffer_mem, get_base64_decodedbuffer. iApply simwp_load_str. iFrame "Hp". iIntros "Hp".
  iApply simwp_alloc_str. iSplit; [iIntros (q) "Hq"|iIntros "_"]; cbn [negb].
  - destruct (b64_decode text) as [size written]. destruct (_ <? length written)%nat; [by iApply simwp_hfault|].
    destruct (size <? 0).
    + iApply simwp_free_str. iFrame "Hq". iApply simwp_ret. by iFrame.
    + iApply simwp_store_str. iFrame "Hq". iIntros "Hq". iApply simwp_ret. iFrame "Hp". by iSplit.
  - iApply simwp_free_null. iApply simwp_ret. by iFrame.
Qed.

(** Decoding leaves the request for the framework, or nothing; the text is not touched. *)
Lemma decode_sim p text :
  str (Some p) (Some text) ⊢ simwp (decodeWebCfgData_mem (Some p)) (decodeWebCfgData (Some text))
    (fun a r => ⌜a.1 = r.1⌝ ∧ (str (Some p) (Some text) ∗ own_opt own_exec a.2 r.2))%I.
Proof.
  iIntros "Hp". unfold decodeWebCfgData_mem, decodeWebCfgData. iApply simwp_call. iSplitL; [by iApply base64_sim|].
  iIntros ([[q n]|] [[buf n']|]) "[Hp Hq]"; try by iDestruct "Hq" as "[]".
  2: { iApply simwp_ret. iSplit; [done|]. iFrame. }
  iDestruct "Hq" as "[-> Hq]". iApply simwp_load_str. iFrame "Hq". iIntros "Hq".
  assert (str q (Some buf) ∗ str (Some p) (Some text) ⊢ simwp (_ ← free q; mret (-1, None)) (mret (-1, None))
    (fun (a : Z * option loc) (r : Z * option execData) =>
       ⌜a.1 = r.1⌝ ∧ (str (Some p) (Some text) ∗ own_opt own_exec a.2 r.2))%I) as Hfail.
  { iIntros "[Hq Hp]". iApply simwp_free_str. iFrame "Hq". iApply simwp_ret. iSplit; [done|]. iFrame. }
  destruct (decide _); [|iApply Hfail; iFrame]. iApply simwp_call. iSplitR; [by iApply convert_sim|].
  iIntros ([d|] [doc|]) "Hd"; cbn [own_opt]; try by iDestruct "Hd" as "[]".
  2: { iApply simwp_free_str. iFrame "Hq". iApply simwp_ret. iSplit; [done|]. by iFrame. }
  iApply simwp_free_str. iFrame "Hq". iDestruct "Hd" as (pp sn) "(Hd & Hs & Hpp)".
  iApply simwp_update_doc. iFrame "Hd". iIntros "Hd". iApply simwp_load_doc. iFrame "Hd". iIntros "Hd".
  iAssert (own_doc d (RemotedebuggerDoc (param doc) 1 (subdoc_name doc) (version doc) (transaction_id doc)))
    with "[Hd Hs Hpp]" as "Hd"; [iExists pp, sn; iFrame|].
  iApply simwp_alloc. iSplit; [iIntros (x) "He"|iIntros "_"]; cbn [negb].
  - iApply simwp_store. iFrame "He". iIntros "He". iApply simwp_ret. iSplit; [done|]. iFrame "Hp". iExists d. iFrame.
  - iApply simwp_destroy. iFrame "Hd". iApply simwp_ret. iSplit; [done|]. by iFrame.
Qed.
End Simulation.
