(* ===== verification/ThreadMem.v ===== *)
(** * ThreadMem: the memory of the event thread
    (src/rrdEventProcess.c, src/rrdDynamic.c, src/rrdInterface.c, src/rrdMain.c)

    The messages the event thread takes from the queue, the arrays of issue
    types and the messages of single issues.  The thread does what its version
    on values does: no block is freed twice, none is used after it was freed.
    It never frees a message of a known type, so the memory of all of them is
    still allocated when it ends; besides them, a bounded rest for each issue
    and the requests pushed to the web configuration framework nothing is left. *)

From stdpp Require Import gmap.
From iris.proofmode Require Import proofmode.
From S2P Require Import Prelude Types OS CJson CommandSanity IssueType Cache SysInfo RunCmd Profile Dynamic Queue MsgPack.
From S2P Require Import EventProcess Iarm Interface Main HeapSafety Heap CacheMem ProfileMem EventMem DecoderMem.

Local Open Scope Z_scope.

Definition set_c_inDynamic (x : bool) (b : buf_cell) : buf_cell :=
  BufCell (c_mtype b) (c_mdata b) (c_jsonPath b) x (c_appendMode b) (c_dsEvent b) (c_suffix b).

(** ** Arrays of issue types *)

Section ThreadMem.
Context `{OS} `{CJSON} `{Device}.

(** The elements of the array are set in order. *)
Fixpoint split_loop_mem (d : ascii) (args : option loc) (n : nat) (str : cstr) : MM unit :=
  match n with
  | O => mret tt
  | S n' =>
      let '(token, rest) := scan_token d str in
      t ← alloc (BString token);
      match t with
      | None => hfault NullDeref
      | Some _ =>
          l ← load_array args;
          _ ← store args (BArray (l ++ [t]));
          split_loop_mem d args n' (skip_delims d rest)
      end
  end.

(** The array and the number of its elements. *)
Definition issueTypeSplitter_mem (input_str : option loc) (d : ascii) : MM (option loc * nat) :=
  input ← load_string input_str;
  let str := skip_delims d input in
  let cnt := S (count_delims d str) in
  args ← alloc (BArray []);
  match args with
  | None => mret (None, O)
  | Some _ => _ ← split_loop_mem d args cnt str; mret (args, cnt)
  end.

(** [cmdMap[index]] *)
Definition token_at (cmdMap : option loc) (index : nat) : MM cstr :=
  l ← load_array cmdMap;
  t ← array_at l index;
  load_string t.

(** [free(cmdMap[index]); cmdMap[index] = NULL;] *)
Definition free_token (cmdMap : option loc) (index : nat) : MM unit :=
  l ← load_array cmdMap;
  t ← array_at l index;
  _ ← free t;
  store cmdMap (BArray (<[index := None]> l)).

Definition RRD_data_buff_deAlloc (sbuf : option loc) : MM unit :=
  match sbuf with
  | None => mret tt
  | Some _ =>
      b ← load_buf sbuf;
      _ ← free (c_mdata b);
      _ ← free (c_jsonPath b);
      _ ← free (c_suffix b);
      free sbuf
  end.

(** ** The message of one issue *)

(** The fields taken from the message; [false] when the path is not copied. *)
Definition issue_buffer_mem (rbuf cmdBuff : option loc) : MM bool :=
  _ ← store cmdBuff (BBuf (BufCell EVENT_MSG None None false false RRD_DEEPSLEEP_INVALID_DEFAULT None));
  b ← load_buf rbuf;
  _ ← update_buf cmdBuff (set_c_inDynamic (c_inDynamic b));
  copied ← (if c_inDynamic b then
              match c_jsonPath b with
              | Some _ =>
                  path ← load_string (c_jsonPath b);
                  p ← alloc (BString path);
                  _ ← update_buf cmdBuff (set_c_jsonPath p);
                  mret (bool_decide (is_Some p))
              | None => mret true
              end
            else mret true);
  if negb copied then mret false else
  _ ← update_buf cmdBuff (set_c_appendMode (c_appendMode b));
  mret true.

Definition process_token_mem (rbuf cmdMap : option loc) (index : nat) (head : option loc) : MM (option loc) :=
  cmdBuff ← alloc (BBuf (BufCell DEFAULT None None false false RRD_DEEPSLEEP_INVALID_DEFAULT None));
  match cmdBuff with
  | None => _ ← free_token cmdMap index; mret head
  | Some _ =>
      cmd ← token_at cmdMap index;
      let '(base, local_suffix) := split_issue_type (Some cmd) (Some []) 128 (Some []) 128 in
      match base with
      | None | Some [] => _ ← free cmdBuff; _ ← free_token cmdMap index; mret head
      | Some base =>
          match removeSpecialCharacterfromIssueTypeList base with
          | [] => _ ← free cmdBuff; _ ← free_token cmdMap index; mret head
          | base =>
              ready ← issue_buffer_mem rbuf cmdBuff;
              if negb ready then _ ← RRD_data_buff_deAlloc cmdBuff; _ ← free_token cmdMap index; mret head else
              mdata ← alloc (BString base);
              _ ← update_buf cmdBuff (set_c_mdata mdata);
              suffix ← match local_suffix with
                       | None | Some [] => mret None
                       | Some s => alloc (BString s)
                       end;
              _ ← update_buf cmdBuff (set_c_suffix suffix);
              head ← match mdata with Some _ => processIssueType_mem cmdBuff head | None => mret head end;
              _ ← RRD_data_buff_deAlloc cmdBuff;
              _ ← free_token cmdMap index;
              mret head
          end
      end
  end.

Fixpoint process_tokens_mem (rbuf cmdMap : option loc) (idx : list nat) (head : option loc) : MM (option loc) :=
  match idx with
  | [] => mret head
  | index :: idx' => head ← process_token_mem rbuf cmdMap index head; process_tokens_mem rbuf cmdMap idx' head
  end.

Definition processIssueTypeEvent_mem (rbuf : option loc) (head : option loc) : MM (option loc) :=
  match rbuf with
  | None => mret head
  | Some _ =>
      b ← load_buf rbuf;
      '(cmdMap, count) ← issueTypeSplitter_mem (c_mdata b) ",";
      head ← process_tokens_mem rbuf cmdMap (seq 0 count) head;
      _ ← free cmdMap;
      mret head
  end.

(** ** Web configuration and deep sleep *)

(** [mdata] is freed and stays in the message. *)
Definition processWebCfgTypeEvent_mem `{MsgPack} (rbuf : option loc) : MM (option loc) :=
  match rbuf with
  | None => mret None
  | Some _ =>
      b ← load_buf rbuf;
      match c_mdata b with
      | None => mret None
      | Some _ =>
          '(_, pushed) ← decodeWebCfgData_mem (c_mdata b);
          _ ← free (c_mdata b);
          mret pushed
      end
  end.

(** The freed strings stay in the message. *)
Definition RRDCheckIssueInDynamicProfile_mem (rbuf node : option loc) : MM (option cstr) :=
  b ← load_buf rbuf;
  if c_inDynamic b then
    match c_jsonPath b with
    | None => _ ← free (c_mdata b); mret None
    | Some _ =>
        path ← load_string (c_jsonPath b);
        parsed ← lift (readAndParseJSON path);
        match cJSON_Print parsed with
        | None => _ ← free (c_mdata b); _ ← free (c_jsonPath b); mret None
        | Some jsonParsed =>
            n ← read_names node;
            if findIssueInParsedJSON n (cJSON_Parse jsonParsed) then mret (Some jsonParsed)
            else _ ← free (c_mdata b); _ ← free (c_jsonPath b); mret None
        end
    end
  else mret None.

(** The request of the deep sleep package: the path and the text of the
    message are freed; the message keeps the pointer. *)
Definition deep_sleep_download_mem (rbuf node : option loc) (head : option loc) : MM (option loc) :=
  dynJSONPathLen ← lift RRDGetDeepSleepdynJSONPathLen;
  path ← alloc (BString []);
  match path with
  | None => mret head
  | Some _ =>
      n ← load_node node;
      name ← load_string (c_Node n);
      text ← lift (deep_sleep_json_path name dynJSONPathLen);
      _ ← store path (BString text);
      head ← RRDRdmManagerDownloadRequest_mem node rbuf true head;
      _ ← free path;
      b ← load_buf rbuf;
      _ ← free (c_mdata b);
      mret head
  end.

(** The node is a local structure; its strings are not freed at the end. *)
Definition RRDProcessDeepSleepAwakeEvents_mem (rbuf : option loc) (head : option loc) : MM (option loc) :=
  match rbuf with
  | None => mret head
  | Some _ =>
      b ← load_buf rbuf;
      match c_mdata b with
      | None => mret head
      | Some _ =>
          node ← enter (BNode (NodeCell None None));
          _ ← getIssueInfo_mem (c_mdata b) node;
          head ← match c_dsEvent b with
              | RRD_DEEPSLEEP_RDM_DOWNLOAD_PKG_INITIATE => deep_sleep_download_mem rbuf node head
              | RRD_DEEPSLEEP_RDM_PKG_INSTALL_COMPLETE =>
                  if c_inDynamic b then
                    jsonParsed ← RRDCheckIssueInDynamicProfile_mem rbuf node;
                    match jsonParsed with
                    | Some s => _ ← checkIssueNodeInfo_mem node (cJSON_Parse s) rbuf true None; mret head
                    | None => mret head
                    end
                  else mret head
              | RRD_DEEPSLEEP_INVALID_DEFAULT => mret head
              end;
          _ ← leave node;
          mret head
      end
  end.

(** ** The event thread *)

Definition handle_message_mem `{MsgPack} (rbuf : option loc) (head : option loc) : MM (option loc * option loc) :=
  b ← load_buf rbuf;
  match c_mtype b with
  | EVENT_MSG => head ← processIssueTypeEvent_mem rbuf head; mret (head, None)
  | EVENT_WEBCFG_MSG => pushed ← processWebCfgTypeEvent_mem rbuf; mret (head, pushed)
  | DEEPSLEEP_EVENT_MSG =>
      if IARMBUS_SUPPORT then head ← RRDProcessDeepSleepAwakeEvents_mem rbuf head; mret (head, None) else mret (head, None)
  | DEFAULT => _ ← free (c_mdata b); _ ← free rbuf; mret (head, None)
  end.

Fixpoint RRDEventThreadFunc_mem `{MsgPack} (received : list loc) (head : option loc) : MM (option loc * list loc) :=
  match received with
  | [] => mret (head, [])
  | rbuf :: received' =>
      '(head, pushed) ← handle_message_mem (Some rbuf) head;
      '(head, more) ← RRDEventThreadFunc_mem received' head;
      mret (head, option_list pushed ++ more)
  end.
End ThreadMem.

(** ** What the arrays own *)

(** The first [n] tokens are freed, [rest] are not. *)
Definition own_tokens (p : loc) (n : nat) (rest : list cstr) : heapPropI :=
  (∃ ts, p ↦ BArray (replicate n None ++ ts) ∗ [∗ list] t;s ∈ ts;rest, str t (Some s))%I.

(** The result of the splitter; without memory it is empty. *)
Definition own_array (p : option loc) (tokens : list cstr) : heapPropI :=
  match p with Some p => own_tokens p 0 tokens | None => ⌜tokens = []⌝ ∧ emp end%I.

Section Access.
Context {A B : Type}.
Implicit Types (v : M B) (Q : A -> B -> heapPropI).

Lemma own_tokens_cons p n s rest :
  own_tokens p n (s :: rest) ⊢
  ∃ t ts, p ↦ BArray (replicate n None ++ t :: ts) ∗ str t (Some s) ∗ [∗ list] t;s ∈ ts;rest, str t (Some s).
Proof.
  iIntros "(%ts & Hp & Hts)". destruct ts as [|t ts]; [by iDestruct (big_sepL2_nil_inv_l with "Hts") as %[=]|].
  iExists t, ts. iFrame "Hp". iApply (big_sepL2_cons with "Hts").
Qed.

Lemma array_at_head n t ts : array_at (replicate n None ++ t :: ts) n = mret t.
Proof. unfold array_at. rw lookup_app_r length_replicate; [|done]. by rw Nat.sub_diag. Qed.

Lemma simwp_token_at p n s rest (k : cstr -> MM A) v Q :
  own_tokens p n (s :: rest) ∗ (own_tokens p n (s :: rest) -∗ simwp (k s) v Q)
  ⊢ simwp (token_at (Some p) n ≫= k) v Q.
Proof.
  iIntros "[Hp Hk]". iDestruct (own_tokens_cons with "Hp") as (t ts) "(Hp & Ht & Hts)".
  iApply simwp_assoc. iApply simwp_load_array. iFrame "Hp". iIntros "Hp". rw array_at_head.
  change (mret t ≫= ?f) with (f t). cbv beta. iApply simwp_load_str. iFrame "Ht". iIntros "Ht". iApply "Hk".
  iExists (t :: ts). iFrame "Hp". iApply big_sepL2_cons. iFrame.
Qed.

Lemma simwp_free_token p n s rest (k : unit -> MM A) v Q :
  own_tokens p n (s :: rest) ∗ (own_tokens p (S n) rest -∗ simwp (k tt) v Q)
  ⊢ simwp (free_token (Some p) n ≫= k) v Q.
Proof.
  iIntros "[Hp Hk]". iDestruct (own_tokens_cons with "Hp") as (t ts) "(Hp & Ht & Hts)".
  iApply simwp_assoc. iApply simwp_load_array. iFrame "Hp". iIntros "Hp". iApply simwp_assoc. rw array_at_head.
  change (mret t ≫= ?f) with (f t). cbv beta. iApply simwp_assoc. iApply simwp_free_str. iFrame "Ht".
  iApply simwp_store. iFrame "Hp". iIntros "Hp". iApply "Hk". iExists ts. iFrame "Hts".
  rw insert_app_r_alt length_replicate; [|done]. rw Nat.sub_diag. cbn [insert list_insert].
  by rw replicate_S_end -app_assoc.
Qed.

Lemma simwp_deAlloc p b (k : unit -> MM A) v Q :
  own_buf p b ∗ simwp (k tt) v Q ⊢ simwp (RRD_data_buff_deAlloc (Some p) ≫= k) v Q.
Proof.
  iIntros "[(%m & %j & %s & Hp & Hm & Hj & Hs) Hk]". iApply simwp_assoc. iApply simwp_load_buf. iFrame "Hp". iIntros "Hp".
  fields. iApply simwp_assoc. iApply simwp_free_str. iFrame "Hm". iApply simwp_assoc. iApply simwp_free_str. iFrame "Hj".
  iApply simwp_assoc. iApply simwp_free_str. iFrame "Hs". iApply simwp_free. iFrame.
Qed.
End Access.

(** ** The simulations *)

Section Simulation.
Context `{OS} `{CJSON} `{Device}.

Lemma split_loop_sim d p n : forall str0 ts tokens,
  p ↦ BArray ts ∗ ([∗ list] t;s ∈ ts;tokens, str t (Some s))
  ⊢ simwp (split_loop_mem d (Some p) n str0) (split_loop d n str0)
      (fun _ more => ⌜length more = n⌝ ∧ own_tokens p 0 (tokens ++ more))%I.
Proof.
  induction n as [|n IH]; intros str0 ts tokens; cbn [split_loop_mem split_loop].
  - iIntros "[Hp Hts]". iApply simwp_ret. iSplit; [done|]. rw app_nil_r. iExists ts. iFrame.
  - iIntros "[Hp Hts]". destruct (scan_token d str0) as [token rest].
    iApply simwp_alloc_str. iSplit; [iIntros (t) "Ht"|iIntros "_"; fails].
    iApply simwp_load_array. iFrame "Hp". iIntros "Hp". iApply simwp_store. iFrame "Hp". iIntros "Hp".
    iApply simwp_tail. iApply simwp_call. iSplitL.
    { iApply (IH _ (ts ++ [Some t]) (tokens ++ [token])). iFrame "Hp". iApply (big_sepL2_app with "Hts"). by iFrame. }
    iIntros ([] more) "[%Hlen Hp]". iApply simwp_ret. rw -app_assoc. cbn [app length]. iSplit; [by rw Hlen|]. iFrame.
Qed.

(** The number of issue types of a text. *)
Definition issue_count (text : cstr) : nat := S (count_delims "," (skip_delims "," text)).

Lemma issueTypeSplitter_sim q s :
  str q (Some s)
  ⊢ simwp (issueTypeSplitter_mem q ",") (issueTypeSplitter (Some s) ",")
      (fun a tokens => ⌜a.2 = length tokens /\ (a.2 <= issue_count s)%nat⌝ ∧ (str q (Some s) ∗ own_array a.1 tokens))%I.
Proof.
  iIntros "Hq". unfold issueTypeSplitter_mem, issueTypeSplitter. iApply simwp_load_str. iFrame "Hq". iIntros "Hq".
  change (deref (Some s) ≫= ?k) with (k s). cbv beta.
  iApply simwp_alloc. iSplit; [iIntros (p) "Hp"|iIntros "_"].
  - iApply simwp_tail_val. iApply simwp_call. iSplitL "Hp".
    { iApply (split_loop_sim _ _ _ _ [] []). iFrame "Hp". by iApply big_sepL2_nil. }
    iIntros (_ tokens) "[%Hlen Hp]". iApply simwp_ret. iSplit; [by rw Hlen|]. iFrame.
  - iApply simwp_ret. iSplit; [iPureIntro; cbn; lia|]. iFrame. by iSplit.
Qed.

Lemma issue_buffer_sim bp b q x :
  own_buf bp b ∗ q ↦ BBuf x
  ⊢ simwp (issue_buffer_mem (Some bp) (Some q)) (issue_buffer b)
      (fun a o => own_buf bp b ∗ match o with
         | Some b' => ⌜a = true /\ appendMode b' = appendMode b /\ buf_mdata b' = None /\ suffix b' = None⌝ ∧ own_buf q b'
         | None => ⌜a = false⌝ ∧ ∃ b', own_buf q b'
         end)%I.
Proof.
  iIntros "[Hb Hq]". unfold issue_buffer_mem, issue_buffer. iApply simwp_store. iFrame "Hq". iIntros "Hq".
  iDestruct "Hb" as "(%m & %j & %s & Hb & Hm & Hj & Hs)". iApply simwp_load_buf. iFrame "Hb". iIntros "Hb". fields.
  iApply simwp_update_buf. iFrame "Hq". iIntros "Hq". cbn [set_c_inDynamic]. fields.
  iAssert (∀ j', str j' (jsonPath b) -∗ bp ↦ BBuf (BufCell (mtype b) m j' (inDynamic b) (appendMode b) (dsEvent b) s) -∗ own_buf bp b)%I
    with "[Hm Hs]" as "Hb'"; [iIntros (j') "Hj Hb"; iExists m, j', s; iFrame|].
  assert (forall d a x, own_buf bp b ∗ q ↦ BBuf (BufCell EVENT_MSG None a d false RRD_DEEPSLEEP_INVALID_DEFAULT None) ∗ str a x
    ⊢ simwp (_ ← update_buf (Some q) (set_c_appendMode (appendMode b)); mret true)
        (mret (Some (DataBuf EVENT_MSG None x d (appendMode b) RRD_DEEPSLEEP_INVALID_DEFAULT None)))
        (fun a o => own_buf bp b ∗ match o with
           | Some b' => ⌜a = true /\ appendMode b' = appendMode b /\ buf_mdata b' = None /\ suffix b' = None⌝ ∧ own_buf q b'
           | None => ⌜a = false⌝ ∧ ∃ b', own_buf q b' end)%I) as Hend.
  { intros d a y. iIntros "(Hb & Hq & Ha)". iApply simwp_update_buf. iFrame "Hq". iIntros "Hq". iApply simwp_ret. iFrame "Hb".
    iSplit; [done|]. iExists None, a, None. fields. iFrame. iApply str_null. }
  destruct (inDynamic b); [|iApply (Hend false None None); iFrame "Hq"; iApply ("Hb'" with "Hj Hb")].
  destruct (jsonPath b) as [path|] eqn:Ej.
  2: { iDestruct (str_none with "Hj") as "[-> _]".
       iApply (Hend true None None). iFrame "Hq". iApply ("Hb'" with "[] Hb"). iApply str_null. }
  iDestruct (str_is_some with "Hj") as (j') "[-> Hj]". iApply simwp_assoc. iApply simwp_load_str. iFrame "Hj". iIntros "Hj".
  iDestruct ("Hb'" with "Hj Hb") as "Hb".
  iApply simwp_assoc. iApply simwp_strdup. iSplit; [iIntros (a) "Ha"|iIntros "_"].
  - iApply simwp_assoc. iApply simwp_update_buf. iFrame "Hq". iIntros "Hq". fields.
    iApply (Hend true (Some a) (Some path)). iFrame.
  - iApply simwp_assoc. iApply simwp_update_buf. iFrame "Hq". iIntros "Hq". fields. iApply simwp_ret. iFrame "Hb".
    iSplit; [done|]. iExists (DataBuf EVENT_MSG None None true false RRD_DEEPSLEEP_INVALID_DEFAULT None).
    iExists None, None, None. fields. by iFrame.
Qed.

(** The suffix of an issue. *)
Lemma suffix_sim {A B} sfx (k : option loc -> MM A) (k' : option cstr -> M B) Q :
  (∀ a o, str a o -∗ simwp (k a) (k' o) Q)
  ⊢ simwp (match sfx with None | Some [] => mret None | Some s => alloc (BString s) end ≫= k)
      (match sfx with None | Some [] => mret None | Some s => strdup s end ≫= k') Q.
Proof.
  iIntros "Hk". destruct sfx as [[|x s]|]; [iApply ("Hk" $! None None); iApply str_null| |iApply ("Hk" $! None None); iApply str_null].
  iApply simwp_strdup. iSplit; [iIntros (q) "Hq"; by iApply ("Hk" $! (Some q))|iIntros "_"]. iApply ("Hk" $! None None). iApply str_null.
Qed.

(** One token: the message of the issue is freed, and the token. *)
Lemma process_token_sim `{!CJSONLaws _} bp b p n cmd rest hd c :
  own_cache hd c ∗ own_buf bp b ∗ own_tokens p n (cmd :: rest)
  ⊢ simwp (process_token_mem (Some bp) (Some p) n hd) (process_token b cmd c)
      (fun a r => own_cache a r ∗ own_buf bp b ∗ own_tokens p (S n) rest ∗ left_over (appendMode b))%I.
Proof.
  iIntros "(Hc & Hb & Hp)". unfold process_token_mem, process_token.
  assert (forall hd c, own_cache hd c ∗ own_buf bp b ∗ own_tokens p n (cmd :: rest) ∗ left_over (appendMode b) ⊢
    simwp (_ ← free_token (Some p) n; mret hd) (mret c)
      (fun a r => own_cache a r ∗ own_buf bp b ∗ own_tokens p (S n) rest ∗ left_over (appendMode b))%I) as Hend.
  { intros hd0 c0. iIntros "(Hc & Hb & Hp & Hl)". iApply simwp_free_token. iFrame "Hp". iIntros "Hp". iApply simwp_ret. iFrame. }
  iApply simwp_alloc. iSplit; [iIntros (q) "Hq"|iIntros "_"]; cbn [negb].
  2: { iApply Hend. iFrame. iApply left_none. iApply lost_none. }
  iApply simwp_token_at. iFrame "Hp". iIntros "Hp".
  destruct (split_issue_type _ _ _ _ _) as [base sfx].
  assert (forall x, own_cache hd c ∗ own_buf bp b ∗ own_tokens p n (cmd :: rest) ∗ q ↦ BBuf x ⊢
    simwp (_ ← free (Some q); _ ← free_token (Some p) n; mret hd) (mret c)
      (fun a r => own_cache a r ∗ own_buf bp b ∗ own_tokens p (S n) rest ∗ left_over (appendMode b))%I) as Hskip.
  { intros x. iIntros "(Hc & Hb & Hp & Hq)". iApply simwp_free. iFrame "Hq". iApply Hend. iFrame. iApply left_none. iApply lost_none. }
  destruct base as [[|x base]|]; [iApply Hskip; iFrame| |iApply Hskip; iFrame].
  destruct (removeSpecialCharacterfromIssueTypeList _) as [|y base']; [iApply Hskip; iFrame|]. clear Hskip.
  iApply simwp_call. iSplitL "Hb Hq"; [iApply issue_buffer_sim; iFrame|].
  iIntros (ready o) "[Hb Hq]". destruct o as [b'|].
  2: { iDestruct "Hq" as "[-> [%b' Hq]]". cbn [negb]. iApply simwp_deAlloc. iFrame "Hq". iApply Hend. iFrame.
       iApply left_none. iApply lost_none. }
  iDestruct "Hq" as "[%E Hq]". destruct E as (-> & Ha & Hm & Hs). cbn [negb].
  iDestruct "Hq" as "(%m & %j & %s & Hq & Hm & Hj & Hs)". rw Hm Hs.
  iDestruct (str_none with "Hm") as "[-> _]". iDestruct (str_none with "Hs") as "[-> _]".
  iApply simwp_alloc_str. iSplit; [iIntros (t) "Ht"|iIntros "_"].
  - iApply simwp_update_buf. iFrame "Hq". iIntros "Hq". fields. iApply suffix_sim. iIntros (a o) "Hs".
    iApply simwp_update_buf. iFrame "Hq". iIntros "Hq". fields.
    iApply simwp_call. iSplitL "Hc Hq Ht Hs Hj".
    { iApply (processIssueType_sim q (set_suffix o (set_mdata (Some (y :: base')) b'))). iFrame "Hc". iExists (Some t), j, a.
      destruct b'. iFrame. }
    iIntros (c1 [b1 c2]) "(Hc & Hq & Hl)". iApply simwp_deAlloc. iFrame "Hq".
    iApply Hend. rw -Ha. iFrame "Hc Hb Hp". iExact "Hl".
  - iApply simwp_update_buf. iFrame "Hq". iIntros "Hq". fields. iApply suffix_sim. iIntros (a o) "Hs".
    iApply simwp_update_buf. iFrame "Hq". iIntros "Hq". fields. change (mret c ≫= ?k) with (k c).
    change (mret hd ≫= ?k) with (k hd). cbv beta. iApply (simwp_deAlloc _ (set_suffix o b')). iSplitL "Hq Hs Hj".
    { iExists None, j, a. destruct b' as [ty md jp dy ap ev sf]. cbn [buf_mdata] in Hm. subst md. by iFrame. }
    iApply Hend. iFrame. iApply left_none. iApply lost_none.
Qed.

Fixpoint left_overs (append : bool) (n : nat) : heapPropI :=
  match n with O => emp | S n' => left_over append ∗ left_overs append n' end%I.

Lemma left_overs_more append n m : (n <= m)%nat -> left_overs append n ⊢ left_overs append m.
Proof.
  intros Hle. induction Hle as [|m Hle IH]; [done|]. rw IH. cbn [left_overs]. iIntros "H". iFrame "H".
  iApply left_none. iApply lost_none.
Qed.

Lemma process_tokens_sim `{!CJSONLaws _} bp b p rest : forall n hd c,
  own_cache hd c ∗ own_buf bp b ∗ own_tokens p n rest
  ⊢ simwp (process_tokens_mem (Some bp) (Some p) (seq n (length rest)) hd) (process_tokens b rest c)
      (fun a r => own_cache a r ∗ own_buf bp b ∗ own_tokens p (n + length rest) [] ∗ left_overs (appendMode b) (length rest))%I.
Proof.
  induction rest as [|cmd rest IH]; intros n hd c; cbn [length seq process_tokens_mem process_tokens left_overs];
    iIntros "(Hc & Hb & Hp)".
  - iApply simwp_ret. rw Nat.add_0_r. by iFrame.
  - iApply simwp_call. iSplitL; [iApply process_token_sim; iFrame|]. iIntros (a r) "(Hc & Hb & Hp & Hl)".
    iApply simwp_wand. iSplitL "Hc Hb Hp"; [iApply IH; iFrame|]. iIntros (a' r') "(Hc & Hb & Hp & Hls)".
    rw -Nat.add_succ_comm. iFrame.
Qed.

(** The issues of a message, and what is left of it. *)
Definition message_issues (b : data_buf) : nat := match buf_mdata b with Some text => issue_count text | None => 0 end.

Lemma processIssueTypeEvent_sim `{!CJSONLaws _} bp b hd c :
  own_cache hd c ∗ own_buf bp b
  ⊢ simwp (processIssueTypeEvent_mem (Some bp) hd) (processIssueTypeEvent b c)
      (fun a r => own_cache a r ∗ own_buf bp b ∗ left_overs (appendMode b) (message_issues b))%I.
Proof.
  iIntros "[Hc Hb]". unfold processIssueTypeEvent_mem, processIssueTypeEvent, message_issues.
  iApply simwp_view_buf. iFrame "Hb". iIntros (m j s) "Hb Hm". cbn [cell_of c_mdata].
  destruct (buf_mdata b) as [text|]; [|iDestruct (str_none with "Hm") as "[-> _]"; fails].
  iApply simwp_call. iSplitL "Hm"; [by iApply issueTypeSplitter_sim|].
  iIntros ([args cnt] tokens) "[%E [Hm Ha]]". cbn [fst snd] in *. destruct E as [-> Hle]. iDestruct ("Hb" with "Hm") as "Hb".
  destruct args as [p|]; cbn [own_array].
  - iApply simwp_tail_val. iApply simwp_call. iSplitL; [iApply process_tokens_sim; iFrame|].
    iIntros (a r) "(Hc & Hb & (%ts & Hp & Hts) & Hl)". iDestruct (big_sepL2_nil_inv_r with "Hts") as %->.
    rw big_sepL2_nil. iApply simwp_free. iFrame "Hp". iApply simwp_ret. iFrame "Hc Hb". by iApply left_overs_more.
  - iDestruct "Ha" as "[-> _]". cbn [length seq process_tokens_mem process_tokens].
    change (mret hd ≫= ?k) with (k hd). cbv beta. iApply simwp_free_null. iApply simwp_ret. iFrame "Hc Hb".
    iApply (left_overs_more _ 0); [lia|done].
Qed.

(** ** What is left of a message *)

(** The block of a message, and at most three strings: some may be freed. *)
Definition stale_buf (p : loc) : heapPropI :=
  (∃ cell m x j y s z, p ↦ BBuf cell ∗ str m x ∗ str j y ∗ str s z)%I.

(** The strings of a local node. *)
Definition left_names : heapPropI := (∃ a x b y, str a x ∗ str b y)%I.

Lemma own_stale p b : own_buf p b ⊢ stale_buf p.
Proof. iIntros "(%m & %j & %s & Hp & Hm & Hj & Hs)". iExists _, m, _, j, _, s, _. iFrame. Qed.

Lemma webcfg_sim `{MsgPack} bp b :
  own_buf bp b
  ⊢ simwp (processWebCfgTypeEvent_mem (Some bp)) (processWebCfgTypeEvent b)
      (fun a r => stale_buf bp ∗ own_opt own_exec a r)%I.
Proof.
  iIntros "Hb". unfold processWebCfgTypeEvent_mem, processWebCfgTypeEvent.
  iDestruct "Hb" as "(%m & %j & %s & Hp & Hm & Hj & Hs)". iApply simwp_load_buf. iFrame "Hp". iIntros "Hp". fields.
  destruct (buf_mdata b) as [mdata|].
  - iDestruct (str_is_some with "Hm") as (m') "[-> Hm]". iApply simwp_call.
    iSplitL "Hm"; [by iApply decode_sim|]. iIntros ([? a] [? r]) "[_ [Hm Ha]]". cbn [fst snd].
    iApply simwp_free_str. iFrame "Hm". iApply simwp_ret. iFrame "Ha". iExists _, None, None, j, _, s, _. by iFrame.
  - iDestruct (str_none with "Hm") as "[-> _]". iApply simwp_ret. iSplitL; [|done].
    iExists _, None, None, j, _, s, _. by iFrame.
Qed.

Lemma dynamic_profile_sim bp b p n :
  own_buf bp b ∗ own_node p n
  ⊢ simwp (RRDCheckIssueInDynamicProfile_mem (Some bp) (Some p)) (RRDCheckIssueInDynamicProfile b n)
      (fun a r => ⌜a = r.1⌝ ∧ (own_node p n ∗ match r.1 with Some _ => own_buf bp r.2 | None => stale_buf bp end))%I.
Proof.
  iIntros "[Hb Hn]". unfold RRDCheckIssueInDynamicProfile_mem, RRDCheckIssueInDynamicProfile.
  iDestruct "Hb" as "(%m & %j & %s & Hp & Hm & Hj & Hs)". iApply simwp_load_buf. iFrame "Hp". iIntros "Hp". fields.
  destruct (inDynamic b) eqn:Ed.
  2: { iApply simwp_ret. iSplit; [done|]. iFrame "Hn". iExists _, m, _, j, _, s, _. iFrame. }
  destruct (jsonPath b) as [path|] eqn:Ej.
  2: { iDestruct (str_none with "Hj") as "[-> _]". iApply simwp_free_str. iFrame "Hm". iApply simwp_ret. iSplit; [done|].
       iFrame "Hn". iExists _, None, None, None, None, s, _. by iFrame. }
  iDestruct (str_is_some with "Hj") as (j') "[-> Hj]". iApply simwp_load_str. iFrame "Hj". iIntros "Hj".
  iApply simwp_lift. iIntros (parsed).
  assert (forall cell r, own_node p n ∗ bp ↦ BBuf cell ∗ str m (buf_mdata b) ∗ str (Some j') (Some path) ∗ str s (suffix b)
    ⊢ simwp (_ ← free m; _ ← free (Some j'); mret None) (mret (None, r)) (fun (a : option cstr) r => ⌜a = r.1⌝ ∧
        (own_node p n ∗ match r.1 with Some _ => own_buf bp r.2 | None => stale_buf bp end))%I) as Hstale.
  { intros cell r. iIntros "(Hn & Hp & Hm & Hj & Hs)". iApply simwp_free_str. iFrame "Hm". iApply simwp_free_str. iFrame "Hj".
    iApply simwp_ret. iSplit; [done|]. iFrame "Hn". iExists _, None, None, None, None, s, _. by iFrame. }
  destruct (cJSON_Print parsed) as [text|]; [|iApply Hstale; iFrame].
  iApply simwp_read_names. iFrame "Hn". iIntros "Hn". destruct (findIssueInParsedJSON _ _); [|iApply Hstale; iFrame].
  iApply simwp_ret. iSplit; [done|]. iFrame "Hn". iExists m, (Some j'), s. rw Ej Ed. iFrame.
Qed.

Lemma deep_sleep_download_sim bp b p n hd c :
  own_cache hd c ∗ own_buf bp b ∗ own_node p n
  ⊢ simwp (deep_sleep_download_mem (Some bp) (Some p) hd)
      (dynJSONPathLen ← RRDGetDeepSleepdynJSONPathLen;
       ok ← malloc;
       if negb ok then mret c else
       nm ← deref (Node n);
       _ ← deep_sleep_json_path nm dynJSONPathLen;
       '(_, c) ← RRDRdmManagerDownloadRequest n b true c;
       mret c)
      (fun a r => own_cache a r ∗ stale_buf bp ∗ (∃ n', own_node p n') ∗ lost)%I.
Proof.
  iIntros "(Hc & Hb & Hn)". unfold deep_sleep_download_mem. iApply simwp_lift. iIntros (len).
  iApply simwp_alloc_str. iSplit; [iIntros (q) "Hq"|iIntros "_"]; cbn [negb].
  2: { iApply simwp_ret. iFrame "Hc". iSplitL "Hb"; [by iApply own_stale|]. iSplitL; [by iExists n|iApply lost_none]. }
  iApply simwp_node_name. iFrame "Hn". iIntros (nm _) "Hn". iApply simwp_lift. iIntros (text).
  iApply simwp_store_str. iFrame "Hq". iIntros "Hq". iApply simwp_call. iSplitL "Hc Hb Hn"; [iApply request_sim; iFrame|].
  iIntros (a [n' c']) "(Hc & Hn & Hb & Hl)". iApply simwp_free_str. iFrame "Hq".
  iDestruct "Hb" as "(%m & %j & %s & Hp & Hm & Hj & Hs)". iApply simwp_load_buf. iFrame "Hp". iIntros "Hp". fields.
  iApply simwp_free_str. iFrame "Hm". iApply simwp_ret. iFrame "Hc Hl". iSplitR "Hn"; [|by iExists n'].
  iExists _, None, None, j, _, s, _. by iFrame.
Qed.

(** The node, and what the event leaves. *)
Lemma deep_sleep_sim `{!CJSONLaws _} bp b hd c :
  own_cache hd c ∗ own_buf bp b
  ⊢ simwp (RRDProcessDeepSleepAwakeEvents_mem (Some bp) hd) (RRDProcessDeepSleepAwakeEvents b c)
      (fun a r => own_cache a r ∗ stale_buf bp ∗ left_names ∗ lost)%I.
Proof.
  iIntros "[Hc Hb]". unfold RRDProcessDeepSleepAwakeEvents_mem, RRDProcessDeepSleepAwakeEvents.
  iApply simwp_view_buf. iFrame "Hb". iIntros (m j s) "Hb Hm". cbn [cell_of c_mdata c_dsEvent c_inDynamic].
  destruct (buf_mdata b) as [mdata|].
  2: { iDestruct (str_none with "Hm") as "[-> _]". iApply simwp_ret. iFrame "Hc".
       iSplitL; [iApply own_stale; iApply "Hb"; iApply str_null|].
       iSplitL; [iExists None, None, None, None; by iApply bi.sep_emp|iApply lost_none]. }
  iDestruct (str_is_some with "Hm") as (m') "[-> Hm]". iApply simwp_enter. iIntros (p) "Hn".
  iApply simwp_call. iSplitL "Hn Hm"; [iApply getIssueInfo_sim; iFrame|]. iIntros (_ n) "[Hm Hn]".
  iDestruct ("Hb" with "Hm") as "Hb". iApply simwp_tail_val.
  iApply (simwp_call _ _ _ _ (fun a r => own_cache a r ∗ stale_buf bp ∗ (∃ n', own_node p n') ∗ lost)%I). iSplitL.
  - assert (own_cache hd c ∗ own_buf bp b ∗ own_node p n ⊢ simwp (mret hd) (mret c)
      (fun a r => own_cache a r ∗ stale_buf bp ∗ (∃ n', own_node p n') ∗ lost)%I) as Hend.
    { iIntros "(Hc & Hb & Hn)". iApply simwp_ret. iFrame "Hc". iSplitL "Hb"; [by iApply own_stale|].
      iSplitL; [by iExists n|iApply lost_none]. }
    destruct (dsEvent b).
    + iApply Hend. iFrame.
    + iApply deep_sleep_download_sim. iFrame.
    + destruct (inDynamic b); [|iApply Hend; iFrame].
      iApply simwp_call. iSplitL "Hb Hn"; [iApply dynamic_profile_sim; iFrame|]. iIntros (a [o b']) "[-> [Hn Hb]]". cbn [fst snd].
      destruct o as [text|].
      * iApply simwp_call. iSplitL "Hb Hn"; [iApply (checkIssueNodeInfo_sim p n _ bp b' true None None); by iFrame|].
        iIntros (_ [b'' n'']) "(Hn & Hb & Hl & Ha)". iApply simwp_ret. iFrame "Hc". cbn [fst snd].
        iSplitL "Hb"; [by iApply own_stale|]. iSplitL "Hn"; [by iExists n''|]. iFrame.
      * iApply simwp_ret. iFrame "Hc Hb". iSplitL; [by iExists n|iApply lost_none].
  - iIntros (a r) "(Hc & Hb & [%n' (%x & %y & Hn & Hx & Hy)] & Hl)". unfold leave. iApply simwp_free. iFrame "Hn".
    iApply simwp_ret. iFrame "Hc Hb Hl". iExists x, _, y, _. iFrame.
Qed.

(** ** The event thread *)

(** What the thread leaves of a message: an issue message is whole, and of
    another known message its block stays; only a message of no known type is
    freed, with its text. *)
Definition handled_message (p : loc) (b : data_buf) : heapPropI :=
  match mtype b with
  | EVENT_MSG => own_buf p b ∗ left_overs (appendMode b) (message_issues b)
  | EVENT_WEBCFG_MSG => stale_buf p
  | DEEPSLEEP_EVENT_MSG => stale_buf p ∗ left_names ∗ lost
  | DEFAULT => ∃ j s, str j (jsonPath b) ∗ str s (suffix b)
  end%I.

Lemma handle_message_sim `{!CJSONLaws _} `{MsgPack} bp b hd c :
  own_cache hd c ∗ own_buf bp b
  ⊢ simwp (handle_message_mem (Some bp) hd) (handle_message b c)
      (fun a r => own_cache a.1 r.1 ∗ handled_message bp b ∗ own_opt own_exec a.2 r.2)%I.
Proof.
  iIntros "[Hc Hb]". unfold handle_message_mem, handle_message, handled_message.
  iDestruct "Hb" as "(%m & %j & %s & Hp & Hm & Hj & Hs)". iApply simwp_load_buf. iFrame "Hp". iIntros "Hp". fields.
  destruct (decide (mtype b = DEFAULT)) as [Et|Hne].
  { rw Et. iApply simwp_free_str. iFrame "Hm". iApply simwp_free. iFrame "Hp". iApply simwp_ret. iFrame "Hc".
    iSplitL; [|done]. iExists j, s. iFrame. }
  iAssert (own_buf bp b) with "[Hp Hm Hj Hs]" as "Hb"; [iExists m, j, s; iFrame|].
  destruct (mtype b); [done| | |].
  - iApply simwp_call. iSplitL; [iApply processIssueTypeEvent_sim; iFrame|]. iIntros (a r) "[Hc H]". iApply simwp_ret. by iFrame.
  - iApply simwp_call. iSplitL "Hb"; [by iApply webcfg_sim|]. iIntros (a r) "H". iApply simwp_ret. iFrame.
  - destruct IARMBUS_SUPPORT.
    + iApply simwp_call. iSplitL; [iApply deep_sleep_sim; iFrame|]. iIntros (a r) "[Hc H]". iApply simwp_ret. by iFrame.
    + iApply simwp_ret. iFrame "Hc". iSplitL; [|done]. iSplitL; [by iApply own_stale|].
      iSplitL; [iExists None, None, None, None; by iApply bi.sep_emp|iApply lost_none].
Qed.

(** The messages the thread received, and what it leaves of them. *)
Definition messages (l : list (loc * data_buf)) : heapPropI := ([∗ list] x ∈ l, own_buf x.1 x.2)%I.
Definition handled_messages (l : list (loc * data_buf)) : heapPropI := ([∗ list] x ∈ l, handled_message x.1 x.2)%I.

(** The requests that wait in the web configuration framework. *)
Definition own_requests (ps : list loc) (es : list execData) : heapPropI := ([∗ list] p;e ∈ ps;es, own_exec p e)%I.

Lemma own_requests_more p e ps es :
  own_opt own_exec p e ∗ own_requests ps es ⊢ own_requests (option_list p ++ ps) (option_list e ++ es).
Proof. destruct p, e; cbn [own_opt option_list app]; iIntros "[H Hl]"; by [iFrame|iDestruct "H" as "[]"]. Qed.

Lemma thread_sim `{!CJSONLaws _} `{MsgPack} l : forall hd c,
  own_cache hd c ∗ messages l ⊢ simwp (RRDEventThreadFunc_mem l.*1 hd) (RRDEventThreadFunc l.*2 c)
    (fun a r => own_cache a.1 r.1 ∗ handled_messages l ∗ own_requests a.2 r.2)%I.
Proof.
  induction l as [|[p b] l IH]; intros hd c; cbn [fmap list_fmap fst snd RRDEventThreadFunc_mem RRDEventThreadFunc].
  - iIntros "[Hc H]". iApply simwp_ret. iFrame "Hc H". by iApply big_sepL2_nil.
  - iIntros "(Hc & Hb & Hl)". iApply simwp_call. iSplitL "Hc Hb"; [iApply handle_message_sim; iFrame|].
    iIntros ([c1 p1] [c' e1]) "(Hc & Hb & He)". cbn [fst snd]. iApply simwp_call. iSplitL "Hc Hl"; [iApply IH; iFrame|].
    iIntros ([c2 ps] [c'' es]) "(Hc & Hl & Hes)". cbn [fst snd]. iApply simwp_ret. cbn [fst snd].
    iFrame "Hc Hb Hl". iApply own_requests_more. iFrame.
Qed.
End Simulation.

(** A message with a text, in a memory of its own. *)
Definition message_memory (p q : loc) (b : data_buf) (text : cstr) : memory :=
  {[p := BBuf (cell_of b (Some q) None None); q := BString text]}.

Lemma message_memory_owned p q b text :
  p <> q -> buf_mdata b = Some text -> jsonPath b = None -> suffix b = None ->
  holds (own_buf p b) (message_memory p q b text).
Proof.
  intros Hpq Hm Hj Hs. exists (Some q), None, None.
  exists {[p := BBuf (cell_of b (Some q) None None)]}, {[q := BString text]}. split_and!; [|by apply map_disjoint_singleton_l_2, lookup_singleton_ne|done|].
  - unfold message_memory. by rw insert_union_singleton_l.
  - exists {[q := BString text]}, ∅. rw right_id_L Hm Hj Hs. split_and!; [done|apply map_disjoint_empty_r|done|].
    exists ∅, ∅. rw right_id_L. split_and!; [done|apply map_disjoint_empty_r|done|done].
Qed.

(** The messages that stay are blocks of the memory. *)
Lemma handled_message_block `{OS} `{Device} p b h : mtype b <> DEFAULT -> holds (handled_message p b) h -> is_Some (h !! p).
Proof.
  intros Ht. unfold handled_message.
  assert (forall h c P, holds (p ↦ BBuf c ∗ P)%I h -> is_Some (h !! p)) as Hp.
  { intros h0 c P (h1 & h2 & -> & Hd & -> & _). exists (BBuf c). apply lookup_union_Some_l, lookup_singleton_eq. }
  assert (forall h, holds (stale_buf p) h -> is_Some (h !! p)) as Hs.
  { intros h0 (cell & m & x & j & y & s & z & Hh). by eapply Hp. }
  assert (forall h P Q, (forall h, holds P h -> is_Some (h !! p)) -> holds (P ∗ Q)%I h -> is_Some (h !! p)) as Hl.
  { intros h0 P Q HP (h1 & h2 & -> & Hd & H1 & _). destruct (HP h1 H1) as [x Hx]. exists x. by apply lookup_union_Some_l. }
  destruct (mtype b); [done| |apply Hs|].
  - apply Hl. intros h0 (m & j & s & Hh). by eapply Hp.
  - by apply Hl.
Qed.

Lemma handled_messages_block `{OS} `{Device} l : forall p b h,
  (p, b) ∈ l -> mtype b <> DEFAULT -> holds (handled_messages l) h -> is_Some (h !! p).
Proof.
  induction l as [|[p' b'] l IH]; intros p b h Hin Ht; [by apply elem_of_nil in Hin|].
  intros (h1 & h2 & -> & Hd & H1 & H2). apply elem_of_cons in Hin as [[= -> ->]|Hin].
  - destruct (handled_message_block _ _ _ Ht H1) as [x Hx]. exists x. by apply lookup_union_Some_l.
  - destruct (IH _ _ _ Hin Ht H2) as [x Hx]. exists x. by apply lookup_union_Some_r.
Qed.

(** A message for the witnesses, and another block of the memory. *)
Definition sample_messages : list (loc * data_buf) := [(1%positive, issue_message #"Device.Info,Device.Bad,Wifi.Stats")].
Definition sample_memory : memory := message_memory 1 2 (issue_message #"Device.Info,Device.Bad,Wifi.Stats")
  #"Device.Info,Device.Bad,Wifi.Stats".
Definition other_memory : memory := {[3%positive := BString #"other"]}.

Lemma sample_memory_owned : holds (messages sample_messages) sample_memory.
Proof.
  exists sample_memory, ∅. rw right_id_L. split_and!; [done|apply map_disjoint_empty_r| |done].
  by apply (message_memory_owned 1 2).
Qed.

Lemma sample_memory_thread : holds (own_cache None initCache ∗ messages sample_messages)%I sample_memory.
Proof.
  assert (messages sample_messages ⊢ own_cache None initCache ∗ messages sample_messages) as Hs.
  { iIntros "H". iFrame "H". iApply own_cache_init. }
  exact (entails_holds _ _ Hs _ sample_memory_owned).
Qed.

Lemma sample_memory_disjoint : sample_memory ##ₘ other_memory.
Proof. by apply map_disjoint_singleton_r_2. Qed.

(** ** The properties *)

(** C6: the event thread on memory refines the thread on values.  On the memory
    of the list of pending packages and of the messages it receives, and
    whatever else is allocated, it makes the same calls in the same order,
    pushes the same requests, and leaves the list that represents the same
    cache; it exits or faults exactly when the thread on values does.  When it
    ends, everything else is untouched and what is left of the messages is
    described: each issue message is there, unchanged, and beside it at most one
    path or one issue data for each issue type of its text (any number of blocks
    only if an allocation failed); and the requests that were pushed to the web
    configuration framework, each with its document. *)
Theorem event_thread_memory `{OS} `{CJSONLaws} `{Device} `{MsgPack} l hd c h hf w :
  holds (own_cache hd c ∗ messages l)%I h -> h ##ₘ hf ->
  match RRDEventThreadFunc l.*2 c w with
  | Ret r w' => exists a h', RRDEventThreadFunc_mem l.*1 hd (h ∪ hf) w = Ret (a, h' ∪ hf) w' /\ h' ##ₘ hf /\
      holds (own_cache a.1 r.1 ∗ handled_messages l ∗ own_requests a.2 r.2)%I h'
  | Exit s w' => RRDEventThreadFunc_mem l.*1 hd (h ∪ hf) w = Exit s w'
  | Fault f => RRDEventThreadFunc_mem l.*1 hd (h ∪ hf) w = Fault f
  end.
Proof. intros Hh Hd. exact (entails_holds _ _ (thread_sim l hd c) h Hh hf w Hd). Qed.

Lemma event_thread_memory_witness :
  exists a r w' h', @RRDEventThreadFunc_mem sample_event_os sample_event_json sample_device (small_msgpack 0)
      [1%positive] None (sample_memory ∪ other_memory) (World [] 0) = Ret (a, h' ∪ other_memory) w' /\
    holds (own_cache a.1 r.1 ∗ @handled_messages sample_event_os sample_device sample_messages ∗ own_requests a.2 r.2)%I h' /\
    services (w_trace w') = [ #"uptime;cat /version.txt" ] /\ size h' = 6%nat.
Proof.
  pose proof (@event_thread_memory sample_event_os sample_event_json (Tree.tree_laws _) sample_device (small_msgpack 0)
    sample_messages None initCache _ _ (World [] 0) sample_memory_thread sample_memory_disjoint) as T.
  set (m := @RRDEventThreadFunc_mem sample_event_os sample_event_json sample_device (small_msgpack 0) _ _ _ _) in T.
  set (v := @RRDEventThreadFunc sample_event_os sample_event_json (small_msgpack 0) sample_device _ _ _) in T.
  assert (match v with Ret _ w => services (w_trace w) | _ => [] end = [ #"uptime;cat /version.txt" ]) as Hs
    by (vm_compute; reflexivity).
  assert (match m with Ret (_, hh) _ => size hh | _ => 0%nat end = 7%nat) as Hm by (vm_compute; reflexivity).
  change (sample_messages.*1) with [1%positive] in m. clearbody v. destruct v as [r w'| |]; [|discriminate Hs..].
  destruct T as (a & h' & T & Hd & Hh). exists a, r, w', h'. split; [exact T|]. split; [exact Hh|]. split; [exact Hs|].
  rw T map_size_disj_union in Hm; [|exact Hd]. assert (size other_memory = 1%nat) as Ho by done. rw Ho in Hm. by apply (Nat.add_cancel_r _ 6 1).
Defined.

(** C5: heap safety of the event thread.  If the messages it receives and the
    nodes of the list of pending packages are allocated, the thread neither uses
    nor frees a block that is not allocated, whatever the texts of the messages,
    the files of the device, the results of the system calls and the allocations
    that fail; and it leaves a well-formed list in the memory. *)
Theorem event_thread_heap_safe `{OS} `{CJSONLaws} `{Device} `{MsgPack} l hd c h hf w :
  holds (own_cache hd c ∗ messages l)%I h -> h ##ₘ hf ->
  match RRDEventThreadFunc_mem l.*1 hd (h ∪ hf) w with
  | Ret (a, hh) _ => exists c' h1 h2, hh = h1 ∪ h2 /\ h1 ##ₘ h2 /\ holds (own_cache a.1 c') h1
  | Exit _ _ => True
  | Fault f => f <> UseAfterFree /\ f <> DoubleFree
  end.
Proof.
  intros Hh Hd. pose proof (entails_holds _ _ (thread_sim l hd c) h Hh hf w Hd) as E.
  destruct Hh as (h1 & h2 & -> & _ & Hc%own_cache_repr & _). pose proof (thread_tame l.*2 c Hc w) as T.
  destruct (RRDEventThreadFunc l.*2 c w) as [r w'| |f].
  - destruct E as (a & h' & -> & Hd' & h3 & h4 & -> & Hd3 & Hc' & _). apply map_disjoint_union_l in Hd' as [Hd' _].
    exists r.1, h3, (h4 ∪ hf). rw assoc_L. split_and!; [done|by apply map_disjoint_union_r_2|done].
  - by rw E.
  - rw E. by destruct f.
Qed.

Lemma event_thread_heap_safe_witness :
  exists a w' hh c' h1 h2, @RRDEventThreadFunc_mem sample_event_os sample_event_json sample_device (small_msgpack 0)
      [1%positive] None (sample_memory ∪ other_memory) (World [] 0) = Ret (a, hh) w' /\
    hh = h1 ∪ h2 /\ holds (own_cache a.1 c') h1.
Proof.
  pose proof (@event_thread_heap_safe sample_event_os sample_event_json (Tree.tree_laws _) sample_device (small_msgpack 0)
    sample_messages None initCache _ _ (World [] 0) sample_memory_thread sample_memory_disjoint) as T.
  set (m := @RRDEventThreadFunc_mem sample_event_os sample_event_json sample_device (small_msgpack 0) _ _ _ _) in T.
  assert (match m with Ret _ _ => true | _ => false end = true) as Hm by (vm_compute; reflexivity).
  destruct m as [[a hh] w'| |] eqn:E; [|discriminate Hm..]. destruct T as (c' & h1 & h2 & Hhh & _ & Hc).
  exists a, w', hh, c', h1, h2. split; [exact E|]. by split.
Defined.

(** The event thread frees no message of a known type: when it has handled
    the messages, the block of each of them is still allocated. *)
Theorem event_thread_keeps_messages `{OS} `{CJSONLaws} `{Device} `{MsgPack} l hd c h w r hh w' p b :
  holds (own_cache hd c ∗ messages l)%I h -> RRDEventThreadFunc_mem l.*1 hd h w = Ret (r, hh) w' ->
  (p, b) ∈ l -> mtype b <> DEFAULT -> is_Some (hh !! p).
Proof.
  intros Hh E Hin Ht. pose proof (simwp_adequate _ _ _ _ h w (thread_sim l hd c) Hh) as A.
  destruct (RRDEventThreadFunc l.*2 c w) as [r' w1| |]; [|by rw A in E..].
  destruct A as (a & h' & A & (h0 & h12 & -> & Hd0 & _ & (h1 & h2 & -> & _ & HQ & _))). rw E in A. injection A as _ -> _.
  destruct (handled_messages_block _ _ _ _ Hin Ht HQ) as [x Hx]. exists x.
  apply lookup_union_Some_r; [done|]. by apply lookup_union_Some_l.
Qed.
