(* ===== verification/QueueMem.v ===== *)
(** * QueueMem: the memory of the handlers of bus events
    (src/rrdInterface.c, src/rrdIarmEvents.c, src/rrdMsgPackDecoder.c)

    The handlers that build a message and put it in the queue of the event
    thread, and the callback of the web configuration framework: from then on
    the message belongs to the thread.  What the buses own is not counted.  The
    log calls behind the sending read the message, which is still in the queue
    when the handler is not interrupted; the last part is about those that come
    after the event thread has handled it.  The block of a web configuration
    has no room for a NUL; after it was read as a string, it is given the text
    that was read. *)

From stdpp Require Import gmap.
From iris.proofmode Require Import proofmode.
From S2P Require Import Prelude Types OS CJson CommandSanity IssueType Cache SysInfo RunCmd Profile Dynamic Queue MsgPack.
From S2P Require Import EventProcess Iarm Interface Main HeapSafety Heap CacheMem ProfileMem EventMem.
From S2P Require Import DecoderMem ThreadMem.

Local Open Scope Z_scope.

(** ** Sending *)

(** The string a log call prints. *)
Definition log_message (sbuf : option loc) : MM cstr := b ← load_buf sbuf; load_string (c_mdata b).

Section QueueMem.
Context `{OS}.

(** The queue [msqid] holds the pointers that were sent. *)
Variable msqid : option loc.

(** [RRD_data_buff_init] *)
Definition init_cell (sndtype : message_type_et) (deepSleepEvent : deepsleep_event_et) : buf_cell :=
  BufCell sndtype None None false false deepSleepEvent None.

Definition new_buffer : MM (option loc) := alloc (BBuf (init_cell DEFAULT RRD_DEEPSLEEP_INVALID_DEFAULT)).

Definition RRDMsgDeliver_mem (sbuf : option loc) : MM unit :=
  match sbuf with
  | None => mret tt
  | Some _ =>
      b ← read_message sbuf;
      ok ← lift (sys_msgsnd b);
      if (ok : bool) then l ← load_array msqid; store msqid (BArray (l ++ [sbuf]))
      else _ ← RRD_data_buff_deAlloc sbuf; lift (mexit 1)
  end.

(** Sending, and the log call behind it: it reads the message, which the queue
    has by now. *)
Definition deliver_logged (sbuf : option loc) : MM unit :=
  _ ← RRDMsgDeliver_mem sbuf; _ ← log_message sbuf; mret tt.

(** The suffix of an append request is cut off in place. *)
Definition checkAppendRequest_mem (issueRequest : option loc) : MM bool :=
  s ← load_string issueRequest;
  _ ← store issueRequest (BString (checkAppendRequest s).2);
  mret (checkAppendRequest s).1.

(** [buffer] says whether the buffer ends with a NUL; the text of the message is
    what a read of it meets. *)
Definition pushIssueTypesToMsgQueue_mem (buffer : cstr -> heap_string) (issueTypeList : option loc)
    (sndtype : message_type_et) : MM unit :=
  sbuf ← new_buffer;
  match sbuf with
  | None => mret tt
  | Some _ =>
      _ ← store sbuf (BBuf (init_cell sndtype RRD_DEEPSLEEP_INVALID_DEFAULT));
      _ ← update_buf sbuf (set_c_mdata issueTypeList);
      s ← load_string issueTypeList;
      text ← lift (read_string (buffer s));
      _ ← store issueTypeList (BString text);
      append ← checkAppendRequest_mem issueTypeList;
      if append && negb (in_buffer (buffer s) (length (checkAppendRequest text).2)) then hfault OutOfBounds else
      _ ← (if (append : bool) then update_buf sbuf (set_c_appendMode true) else mret tt);
      deliver_logged sbuf
  end.

Definition _remoteDebuggerEventHandler_mem (value : option cstr) : MM unit :=
  match value with
  | None => mret tt
  | Some v =>
      dataMsg ← alloc (BString v);
      match dataMsg with
      | None => mret tt
      | Some _ =>
          match v with
          | [] => free dataMsg
          | _ => pushIssueTypesToMsgQueue_mem Terminated dataMsg EVENT_MSG
          end
      end
  end.

(** The buffer has no room for the NUL. *)
Definition _remoteDebuggerWebCfgDataEventHandler_mem (value : option cstr) : MM unit :=
  match value with
  | None => mret tt
  | Some v =>
      inString ← alloc (BString v);
      match inString with
      | None => mret tt
      | Some _ => pushIssueTypesToMsgQueue_mem Unterminated inString EVENT_WEBCFG_MSG
      end
  end.

(** ** The end of a deep sleep *)

Definition power_mode_changed_mem `{Iarm} (curState newState : Z) : MM unit :=
  if (curState =? IARM_BUS_PWRMGR_POWERSTATE_STANDBY_DEEP_SLEEP)
     && negb (newState =? IARM_BUS_PWRMGR_POWERSTATE_STANDBY_DEEP_SLEEP) then
    rc ← lift (sys_rbus (RbusSet RRD_WEBCFG_FORCE_SYNC #"root"));
    if negb (rc =? 0) then mret tt else
    sbuf ← new_buffer;
    match sbuf with
    | None => mret tt
    | Some _ =>
        _ ← store sbuf (BBuf (init_cell DEEPSLEEP_EVENT_MSG RRD_DEEPSLEEP_RDM_DOWNLOAD_PKG_INITIATE));
        text ← alloc (BString DEEP_SLEEP_STR);
        _ ← update_buf sbuf (set_c_mdata text);
        match text with
        | None => RRD_data_buff_deAlloc sbuf
        | Some _ => RRDMsgDeliver_mem sbuf
        end
    end
  else mret tt.

Definition _pwrManagerEventHandler_plugin_mem `{Iarm} (currentState newState : Z) : MM unit :=
  power_mode_changed_mem currentState newState.

Definition _pwrManagerEventHandler_mem `{Iarm} (owner : cstr) (data : option pwr_event) : MM unit :=
  if streq owner IARM_BUS_PWRMGR_NAME then
    match data with
    | Some eventData => power_mode_changed_mem (curState eventData) (newState eventData)
    | None => mret tt
    end
  else mret tt.

(** ** Installed packages *)

(** The fields of the message; [false] when an allocation failed: then the
    message is freed. *)
Definition fill_installed_mem (sendbuf : option loc) (issueString path : cstr) : MM bool :=
  mdata ← alloc (BString []);
  _ ← update_buf sendbuf (set_c_mdata mdata);
  match mdata with
  | None => _ ← RRD_data_buff_deAlloc sendbuf; mret false
  | Some _ =>
      jsonPath ← alloc (BString []);
      _ ← update_buf sendbuf (set_c_jsonPath jsonPath);
      match jsonPath with
      | None => _ ← RRD_data_buff_deAlloc sendbuf; mret false
      | Some _ =>
          _ ← store mdata (BString issueString);
          _ ← store jsonPath (BString (path ++ RRD_JSON_FILE));
          _ ← update_buf sendbuf (set_c_inDynamic true);
          append ← checkAppendRequest_mem mdata;
          _ ← (if (append : bool) then
                 _ ← update_buf sendbuf (set_c_inDynamic false); update_buf sendbuf (set_c_appendMode true)
               else mret tt);
          mret true
      end
  end.

Definition _rdmDownloadEventHandler_mem (head : option loc) : MM (option loc) :=
  value ← lift (sys_rbus_get RRD_SET_ISSUE_EVENT);
  match value with
  | None => mret head
  | Some issue =>
      pkg_name ← alloc (BString (RDM_PKG_PREFIX ++ before_dot issue));
      match pkg_name with
      | None => mret head
      | Some _ =>
          name ← load_string pkg_name;
          pkg_inst_path ← alloc (BString (RRD_TMP_DIR ++ name));
          match pkg_inst_path with
          | None => mret head
          | Some _ =>
              cache ← findPresentInCache_mem name head;
              match cache with
              | None => _ ← free pkg_name; _ ← free pkg_inst_path; mret head
              | Some _ =>
                  e ← load_entry cache;
                  issueString ← load_string (c_issueString e);
                  sendbuf ← new_buffer;
                  match sendbuf with
                  | None => hfault NullDeref
                  | Some _ =>
                      _ ← store sendbuf (BBuf (init_cell EVENT_MSG RRD_DEEPSLEEP_RDM_PKG_INSTALL_COMPLETE));
                      path ← load_string pkg_inst_path;
                      filled ← fill_installed_mem sendbuf issueString path;
                      if negb filled then mret head else
                      _ ← deliver_logged sendbuf;
                      head ← remove_item_mem cache head;
                      _ ← free pkg_name;
                      _ ← free pkg_inst_path;
                      mret head
                  end
              end
          end
      end
  end.

Definition _rdmManagerEventHandler_mem `{Iarm} (owner : cstr) (eventId : Z) (data : rdm_event) (head : option loc) : MM (option loc) :=
  if streq owner IARM_BUS_RDMMGR_NAME then
    if eventId =? IARM_BUS_RDMMGR_EVENT_APP_INSTALLATION_STATUS then
      cache ← findPresentInCache_mem (pkg_name data) head;
      match cache with
      | None => mret head
      | Some _ =>
          if pkg_inst_status data =? RDM_PKG_INSTALL_COMPLETE then
            e ← load_entry cache;
            issueString ← load_string (c_issueString e);
            sendbuf ← new_buffer;
            match sendbuf with
            | None => mret head
            | Some _ =>
                _ ← store sendbuf (BBuf (if streq issueString DEEP_SLEEP_STR
                      then init_cell DEEPSLEEP_EVENT_MSG RRD_DEEPSLEEP_RDM_PKG_INSTALL_COMPLETE
                      else init_cell EVENT_MSG RRD_DEEPSLEEP_INVALID_DEFAULT));
                filled ← fill_installed_mem sendbuf issueString (pkg_inst_path data);
                if negb filled then mret head else
                _ ← deliver_logged sendbuf;
                remove_item_mem cache head
            end
          else remove_item_mem cache head
      end
    else mret head
  else mret head.

(** ** The request of a web configuration *)

Definition PrepareDataToPush_mem (param : option loc) : MM unit :=
  p ← load_param param;
  issueTypeList ← alloc_size (c_length p) (BString []);
  match issueTypeList with
  | None => mret tt
  | Some _ =>
      commands ← load_string (c_commandList p);
      _ ← store issueTypeList (BString (take (Z.to_nat (c_length p)) commands));
      pushIssueTypesToMsgQueue_mem Terminated issueTypeList EVENT_MSG
  end.

(** The status belongs to the framework, which called. *)
Definition Process_RemoteDebugger_WebConfigRequest_mem (Data : option loc) : MM (option loc) :=
  retStatus ← alloc (BErr BLOB_EXEC_SUCCESS);
  match retStatus with
  | None => mret None
  | Some _ =>
      let failure := _ ← store retStatus (BErr SYSCFG_FAILURE); mret retStatus in
      match Data with
      | None => failure
      | Some _ =>
          d ← load_doc Data;
          match c_param d with
          | None => failure
          | Some _ =>
              p ← load_param (c_param d);
              match c_commandList p with
              | None => failure
              | Some _ => _ ← PrepareDataToPush_mem (c_param d); mret retStatus
              end
          end
      end
  end.
End QueueMem.

(** ** The messages a computation sends *)

(** The computation with the queue it leaves: [l] and the messages it sent. *)
Definition queued {A} (l : list data_buf) (v : M A) : M (A * list data_buf) := fun w =>
  match v w with Ret a w' => Ret (a, l ++ sent_since w w') w' | Exit s w' => Exit s w' | Fault f => Fault f end.

(** A computation that sends nothing. *)
Class Quiet {A} (v : M A) : Prop := quiet_yields : yields v (fun _ evs => sent evs = []).

#[export] Instance quiet_ret {A} (a : A) : Quiet (mret a).
Proof. by apply yields_ret. Qed.

#[export] Instance quiet_fault {A} f : Quiet (mfault f : M A).
Proof. apply yields_fault. Qed.

#[export] Instance quiet_bind {A B} (m : M A) (k : A -> M B) : Quiet m -> (forall a, Quiet (k a)) -> Quiet (m ≫= k).
Proof.
  intros Hm Hk. eapply yields_bind; [exact Hm|]. intros a evs Hs. eapply yields_mono; [apply Hk|].
  intros b evs' Hs'. by rw sent_app Hs Hs'.
Qed.

#[export] Instance quiet_malloc `{OS} : Quiet malloc.
Proof. intros w a w' [= <- <-]. exists []. by rw app_nil_r. Qed.

#[export] Instance quiet_ask {A} (f : trace -> A) : Quiet (ask f).
Proof. intros w a w' [= <- <-]. exists []. by rw app_nil_r. Qed.

#[export] Instance quiet_rbus `{OS} c : Quiet (sys_rbus c).
Proof. intros w a w' [= <- <-]. by eexists. Qed.

#[export] Instance quiet_rbus_get `{OS} name : Quiet (sys_rbus_get name).
Proof. apply quiet_ask. Qed.

#[export] Instance quiet_deref {A} (p : option A) : Quiet (deref p).
Proof. destruct p; apply _. Qed.

#[export] Instance quiet_read_string `{OS} s : Quiet (read_string s).
Proof. destruct s as [s|s]; cbn [read_string]; [apply _|]. apply quiet_bind; [apply quiet_ask|]. intros [t|]; apply _. Qed.

#[export] Instance quiet_read_node c p : Quiet (Cache.read_node c p).
Proof. unfold Cache.read_node. destruct (_ !! _); apply _. Qed.

#[export] Instance quiet_find pkg c : Quiet (findPresentInCache pkg c).
Proof.
  unfold findPresentInCache. generalize (cacheDataNode c) as p. induction (size (heap c)) as [|n IH]; intros [p|]; cbn [find_loop]; try apply _.
  apply quiet_bind; [apply _|]. intros x. destruct (mdata x); [destruct (streq _ _)|]; auto; apply _.
Qed.

#[export] Instance quiet_update_node p f c : Quiet (Cache.update_node p f c).
Proof. unfold Cache.update_node. destruct p; apply _. Qed.

#[export] Instance quiet_remove_item p c : Quiet (remove_item p c).
Proof.
  unfold remove_item. destruct p as [p|]; [|apply _]. apply quiet_bind; [case_bool_decide; apply _|].
  intros c'. unfold freecacheDataCacheNode. apply _.
Qed.

Lemma queued_ret {A} l (a : A) w : queued l (mret a) w = Ret (a, l) w.
Proof. unfold queued. cbn. by rw (sent_since_events w w []) ?app_nil_r. Qed.

Lemma queued_quiet {A B} l (m : M A) (k : A -> M B) w :
  Quiet m -> queued l (m ≫= k) w = (m ≫= fun a => queued l (k a)) w.
Proof.
  intros Hm. unfold queued, mbind, M_bind. destruct (m w) as [a w1| |] eqn:E; [|done..].
  destruct (Hm _ _ _ E) as (evs & T & Hs). destruct (k a w1); [|done..]. unfold sent_since. by rw T sent_app Hs app_nil_r.
Qed.

Lemma queued_deliver `{OS} {B} l b (k : M B) w :
  Quiet k -> queued l (RRDMsgDeliver b ≫= fun _ => k) w = (RRDMsgDeliver b ≫= fun _ => queued (l ++ [b]) k) w.
Proof.
  intros Hk. unfold queued, RRDMsgDeliver, sys_msgsnd, act, mbind, M_bind. destruct (os_msgsnd _ _) eqn:Em; [|done]. cbn.
  destruct (k (emit (EvMsgsnd b true) w)) as [c w2| |] eqn:E; [|done..]. destruct (Hk _ _ _ E) as (evs & T & Hs).
  rw (sent_since_events _ _ _ T) Hs app_nil_r. rw (sent_since_events w w2 (EvMsgsnd b true :: evs)).
  - change (sent (_ :: evs)) with (b :: sent evs). by rw Hs.
  - rw T. cbn. by rw -app_assoc.
Qed.

(** ** The simulations *)

Section Rules.
Context {A B : Type}.

Lemma simwp_quiet {C} (m : MM A) (v : M C) (k : C -> M B) l Q `{!Quiet v} :
  simwp m (v ≫= fun c => queued l (k c)) Q ⊢ simwp m (queued l (v ≫= k)) Q.
Proof. apply simwp_ext; [done|]. intros w. by apply queued_quiet. Qed.

Lemma simwp_queued_ret a (b : B) l (Q : A -> B * list data_buf -> heapPropI) :
  Q a (b, l) ⊢ simwp (mret a) (queued l (mret b)) Q.
Proof. rw (simwp_ret a (b, l) Q). apply simwp_ext; [done|]. intros w. apply queued_ret. Qed.

Lemma simwp_queued_tail (m : MM A) (v : M unit) l Q :
  simwp m (queued l (v ≫= fun _ => mret tt)) Q ⊢ simwp m (queued l v) Q.
Proof. apply simwp_ext; [done|]. intros w. unfold queued, mbind, M_bind. by destruct (v w) as [[]| |]. Qed.

Lemma simwp_queued_val (m : MM A) (v : M B) l Q : simwp m (queued l (v ≫= mret)) Q ⊢ simwp m (queued l v) Q.
Proof. apply simwp_ext; [done|]. intros w. unfold queued, mbind, M_bind. by destruct (v w). Qed.

(** A call, and a result computed from what it returned. *)
Lemma simwp_queued_call {C D} (m : MM C) (v : M D) (k : C -> MM A) (g : D -> B) l (R : C -> D * list data_buf -> heapPropI) Q :
  simwp m (queued l v) R ∗ (∀ c r, R c r -∗ simwp (k c) (mret (g r.1, r.2)) Q)
  ⊢ simwp (m ≫= k) (queued l (v ≫= fun d => mret (g d))) Q.
Proof.
  rw (simwp_call m (queued l v) k (fun r => mret (g r.1, r.2)) R Q). apply simwp_ext; [done|]. intros w.
  unfold queued, mbind, M_bind. by destruct (v w).
Qed.

Lemma simwp_queued_lift {C} (v : M C) (k : C -> MM A) (k' : C -> M B) l Q `{!Quiet v} :
  (∀ c, simwp (k c) (queued l (k' c)) Q) ⊢ simwp (lift v ≫= k) (queued l (v ≫= k')) Q.
Proof. rw (simwp_lift v k (fun c => queued l (k' c)) Q). apply simwp_quiet, _. Qed.

Lemma simwp_queued_fault f (m : MM A) (l : list data_buf) Q :
  (forall h w, m h w = Fault f) -> True ⊢ simwp m (queued l (mfault f : M B)) Q.
Proof. intros Hm. by apply (simwp_fail f). Qed.
End Rules.

Section Simulation.
Context `{OS}.

Lemma simwp_exit {A B} s (Q : A -> B -> heapPropI) : True ⊢ simwp (lift (mexit s)) (mexit s) Q.
Proof. split. by intros h _ hf w Hd. Qed.

(** The queue with the messages it holds. *)
Definition own_queue (q : loc) (l : list data_buf) : heapPropI :=
  (∃ ps, q ↦ BArray (Some <$> ps) ∗ [∗ list] p;b ∈ ps;l, own_buf p b)%I.

(** The queue; other memory is left only when an allocation failed. *)
Definition posted (q : loc) (l : list data_buf) : heapPropI := (lost ∗ own_queue q l)%I.

Lemma posted_none q l : own_queue q l ∗ lost ⊢ posted q l.
Proof. iIntros "[Hq Hl]". iFrame. Qed.

(** The queue, with the message that was sent last at [p]. *)
Definition own_sent (q : loc) (l : list data_buf) (p : loc) (b : data_buf) : heapPropI :=
  (∃ ps, q ↦ BArray (Some <$> (ps ++ [p])) ∗ ([∗ list] p;b ∈ ps;l, own_buf p b) ∗ own_buf p b)%I.

Lemma own_sent_queue q l p b : own_sent q l p b ⊢ own_queue q (l ++ [b]).
Proof. iIntros "(%ps & Hq & Hps & Hb)". iExists (ps ++ [p]). iFrame "Hq". iApply (big_sepL2_app with "Hps"). by iFrame. Qed.

Lemma deliver_sim {A B} q l p b (k : unit -> MM A) (k' : M B) Q `{!Quiet k'} :
  own_queue q l ∗ own_buf p b ∗ (own_sent q l p b -∗ simwp (k tt) (queued (l ++ [b]) k') Q)
  ⊢ simwp (RRDMsgDeliver_mem (Some q) (Some p) ≫= k) (queued l (RRDMsgDeliver b ≫= fun _ => k')) Q.
Proof.
  trans (simwp (RRDMsgDeliver_mem (Some q) (Some p) ≫= k) (RRDMsgDeliver b ≫= fun _ => queued (l ++ [b]) k') Q).
  2: { apply simwp_ext; [done|]. intros w. by apply queued_deliver. }
  iIntros "([%ps [Hq Hps]] & Hb & Hk)". iApply (simwp_call _ _ _ _ (fun _ _ => own_sent q l p b)).
  iSplitR "Hk"; [|by iIntros ([] [])].
  unfold RRDMsgDeliver_mem, RRDMsgDeliver. iApply simwp_read_message. iFrame "Hb".
  iIntros "Hb". iApply simwp_lift. iIntros (ok). destruct ok.
  - iApply simwp_load_array. iFrame "Hq". iIntros "Hq". iApply simwp_tail. iApply simwp_store. iFrame "Hq". iIntros "Hq".
    iApply simwp_ret. iExists ps. rw fmap_app. iFrame.
  - iApply simwp_deAlloc. iFrame "Hb". by iApply simwp_exit.
Qed.

(** Printing a message that has a text. *)
Lemma simwp_log {A B} p b t (k : cstr -> MM A) (v : M B) Q : buf_mdata b = Some t ->
  own_buf p b ∗ (own_buf p b -∗ simwp (k t) v Q) ⊢ simwp (log_message (Some p) ≫= k) v Q.
Proof.
  intros Ht. rw {1}own_buf_open Ht. iIntros "[(%m & %j & %s & Hp & Hm & Hr) Hk]". iApply simwp_assoc.
  iApply simwp_load_buf. iFrame "Hp". iIntros "Hp". cbn [cell_of c_mdata]. iApply simwp_load_str. iFrame "Hm". iIntros "Hm".
  iApply "Hk". rw own_buf_open Ht. iExists m, j, s. iFrame.
Qed.

(** The log call finds the message in the queue. *)
Lemma deliver_logged_sim {A B} q l p b t (k : unit -> MM A) (k' : M B) Q `{!Quiet k'} : buf_mdata b = Some t ->
  own_queue q l ∗ own_buf p b ∗ (own_queue q (l ++ [b]) -∗ simwp (k tt) (queued (l ++ [b]) k') Q)
  ⊢ simwp (deliver_logged (Some q) (Some p) ≫= k) (queued l (RRDMsgDeliver b ≫= fun _ => k')) Q.
Proof.
  intros Ht. iIntros "(Hq & Hb & Hk)". iApply simwp_assoc. iApply deliver_sim. iFrame "Hq Hb".
  iIntros "(%ps & Hq & Hps & Hb)". iApply simwp_assoc. iApply (simwp_log p b t); [done|]. iFrame "Hb". iIntros "Hb".
  change ((_ ← mret tt; k tt)) with (k tt). iApply "Hk". iApply (own_sent_queue q l p b). iExists ps. iFrame.
Qed.

(** Delivering as the last step. *)
Lemma deliver_last q l p b :
  own_queue q l ∗ own_buf p b
  ⊢ simwp (RRDMsgDeliver_mem (Some q) (Some p)) (queued l (RRDMsgDeliver b)) (fun _ r => posted q r.2).
Proof.
  iIntros "[Hq Hb]". iApply simwp_tail. iApply simwp_queued_tail. iApply deliver_sim. iFrame "Hq Hb". iIntros "Hq".
  iApply simwp_queued_ret. iApply posted_none. rw own_sent_queue. iFrame "Hq". iApply lost_none.
Qed.

Lemma deliver_logged_last q l p b t : buf_mdata b = Some t ->
  own_queue q l ∗ own_buf p b
  ⊢ simwp (deliver_logged (Some q) (Some p)) (queued l (RRDMsgDeliver b)) (fun _ r => posted q r.2).
Proof.
  intros Ht. iIntros "[Hq Hb]". iApply simwp_tail. iApply simwp_queued_tail. iApply deliver_logged_sim; [exact Ht|].
  iFrame "Hq Hb". iIntros "Hq". iApply simwp_queued_ret. iApply posted_none. iFrame "Hq". iApply lost_none.
Qed.

Lemma append_request_sim {A B} q s (k : bool -> MM A) (v : M B) Q :
  str q (Some s) ∗ (str q (Some (checkAppendRequest s).2) -∗ simwp (k (checkAppendRequest s).1) v Q)
  ⊢ simwp (checkAppendRequest_mem q ≫= k) v Q.
Proof.
  iIntros "[Hq Hk]". iApply simwp_assoc. iApply simwp_load_str. iFrame "Hq". iIntros "Hq". iApply simwp_assoc.
  iApply simwp_store_str. iFrame "Hq". iIntros "Hq". by iApply "Hk".
Qed.

Lemma push_sim buffer q l p v ty :
  own_queue q l ∗ str (Some p) (Some v)
  ⊢ simwp (pushIssueTypesToMsgQueue_mem (Some q) buffer (Some p) ty) (queued l (pushIssueTypesToMsgQueue (buffer v) ty))
      (fun _ r => posted q r.2).
Proof.
  iIntros "[Hq Ht]". unfold pushIssueTypesToMsgQueue_mem, pushIssueTypesToMsgQueue, new_buffer.
  iApply simwp_quiet. iApply simwp_alloc. iSplit; [iIntros (b) "Hb"|iIntros "%Hf"]; cbn [negb].
  2: { iApply simwp_queued_ret. iApply posted_none. iFrame "Hq". lose. }
  iApply simwp_store. iFrame "Hb". iIntros "Hb". iApply simwp_update_buf. iFrame "Hb". iIntros "Hb".
  iApply simwp_load_str. iFrame "Ht". iIntros "Ht". iApply simwp_queued_lift. iIntros (text).
  iApply simwp_store_str. iFrame "Ht". iIntros "Ht". iApply append_request_sim. iFrame "Ht". iIntros "Ht".
  destruct (checkAppendRequest text) as [append cut]. cbn [fst snd]. destruct (append && _); [by iApply simwp_queued_fault|].
  destruct append.
  - iApply simwp_update_buf. iFrame "Hb". iIntros "Hb". iApply deliver_logged_last; [done|]. iFrame "Hq".
    iExists (Some p), None, None. by iFrame.
  - change (mret tt ≫= ?k) with (k tt). iApply deliver_logged_last; [done|]. iFrame "Hq". iExists (Some p), None, None. by iFrame.
Qed.

(** A handler that ends without a message. *)
Lemma nothing_sent {A} q l (a : A) :
  own_queue q l ⊢ simwp (mret a) (queued l (mret a)) (fun a r => ⌜a = r.1⌝ ∧ posted q r.2)%I.
Proof. iIntros "Hq". iApply simwp_queued_ret. iSplit; [done|]. iApply posted_none. iFrame "Hq". iApply lost_none. Qed.

Lemma nothing_sent_lost {A} q l (a : A) :
  own_queue q l ∗ lost ⊢ simwp (mret a) (queued l (mret a)) (fun a r => ⌜a = r.1⌝ ∧ posted q r.2)%I.
Proof. iIntros "Hq". iApply simwp_queued_ret. iSplit; [done|]. by iApply posted_none. Qed.

(** The results of computations that return nothing agree. *)
Lemma simwp_unit (m : MM unit) (v : M unit) q l :
  simwp m (queued l v) (fun _ r => posted q r.2) ⊢ simwp m (queued l v) (fun a r => ⌜a = r.1⌝ ∧ posted q r.2)%I.
Proof. iIntros "H". iApply simwp_wand. iFrame "H". iIntros ([] [[] l']) "H". by iSplit. Qed.

Lemma issue_event_sim value q l :
  own_queue q l
  ⊢ simwp (_remoteDebuggerEventHandler_mem (Some q) value) (queued l (_remoteDebuggerEventHandler value))
      (fun a r => ⌜a = r.1⌝ ∧ posted q r.2)%I.
Proof.
  iIntros "Hq". unfold _remoteDebuggerEventHandler_mem, _remoteDebuggerEventHandler.
  destruct value as [v|]; [|by iApply nothing_sent]. iApply simwp_quiet.
  iApply simwp_alloc_str. iSplit; [iIntros (t) "Ht"|iIntros "_"]; cbn [negb]; [|by iApply nothing_sent].
  destruct v as [|x v].
  - iApply simwp_tail. iApply simwp_free_str. iFrame "Ht". by iApply nothing_sent.
  - iApply simwp_unit. iApply (push_sim Terminated). iFrame.
Qed.

Lemma webcfg_event_sim value q l :
  own_queue q l
  ⊢ simwp (_remoteDebuggerWebCfgDataEventHandler_mem (Some q) value) (queued l (_remoteDebuggerWebCfgDataEventHandler value))
      (fun a r => ⌜a = r.1⌝ ∧ posted q r.2)%I.
Proof.
  iIntros "Hq". unfold _remoteDebuggerWebCfgDataEventHandler_mem, _remoteDebuggerWebCfgDataEventHandler.
  destruct value as [v|]; [|by iApply nothing_sent]. iApply simwp_quiet.
  iApply simwp_alloc_str. iSplit; [iIntros (t) "Ht"|iIntros "_"]; cbn [negb]; [|by iApply nothing_sent].
  iApply simwp_unit. iApply (push_sim Unterminated). iFrame.
Qed.

Lemma power_sim `{Iarm} cur new q l :
  own_queue q l
  ⊢ simwp (power_mode_changed_mem (Some q) cur new) (queued l (power_mode_changed cur new))
      (fun a r => ⌜a = r.1⌝ ∧ posted q r.2)%I.
Proof.
  iIntros "Hq". unfold power_mode_changed_mem, power_mode_changed, new_buffer.
  set (b0 := set_mdata (Some DEEP_SLEEP_STR) (RRD_data_buff_init DEEPSLEEP_EVENT_MSG RRD_DEEPSLEEP_RDM_DOWNLOAD_PKG_INITIATE)).
  destruct (_ && _); [|by iApply nothing_sent]. iApply simwp_quiet. iApply simwp_lift. iIntros (rc).
  destruct (negb _); [by iApply nothing_sent|]. iApply simwp_quiet.
  iApply simwp_alloc. iSplit; [iIntros (p) "Hp"|iIntros "_"]; cbn [negb]; [|by iApply nothing_sent].
  iApply simwp_store. iFrame "Hp". iIntros "Hp". iApply simwp_quiet.
  iApply simwp_alloc_str. iSplit; [iIntros (t) "Ht"|iIntros "_"]; cbn [negb].
  - iApply simwp_update_buf. iFrame "Hp". iIntros "Hp". iApply simwp_unit. iApply (deliver_last q l p b0). iFrame "Hq".
    iExists (Some t), None, None. by iFrame.
  - iApply simwp_update_buf. iFrame "Hp". iIntros "Hp". iApply simwp_tail.
    iApply (simwp_deAlloc p (RRD_data_buff_init DEEPSLEEP_EVENT_MSG RRD_DEEPSLEEP_RDM_DOWNLOAD_PKG_INITIATE)).
    iSplitR "Hq"; [iExists None, None, None; by iFrame|]. by iApply nothing_sent.
Qed.

Lemma pwrManager_sim `{Iarm} owner data q l :
  own_queue q l
  ⊢ simwp (_pwrManagerEventHandler_mem (Some q) owner data) (queued l (_pwrManagerEventHandler owner data))
      (fun a r => ⌜a = r.1⌝ ∧ posted q r.2)%I.
Proof.
  unfold _pwrManagerEventHandler_mem, _pwrManagerEventHandler. destruct (streq _ _); [|by iApply nothing_sent].
  destruct data; [apply power_sim|by iApply nothing_sent].
Qed.

(** Filling the message of an installed package; the value version only
    allocates. *)
Lemma fill_sim {A B} p ty ev s path (k : bool -> MM A) (k' : data_buf -> M B) (vn : M B) l Q :
  p ↦ BBuf (init_cell ty ev) ∗
  ((own_buf p (installed_message (RRD_data_buff_init ty ev) s (path ++ RRD_JSON_FILE)) -∗
      simwp (k true) (queued l (k' (installed_message (RRD_data_buff_init ty ev) s (path ++ RRD_JSON_FILE)))) Q) ∧
   (∀ _ : alloc_fails, simwp (k false) (queued l vn) Q))
  ⊢ simwp (fill_installed_mem (Some p) s path ≫= k)
      (queued l (ok ← malloc; if negb ok then vn else
         ok ← malloc; if negb ok then vn else
         k' (installed_message (RRD_data_buff_init ty ev) s (path ++ RRD_JSON_FILE)))) Q.
Proof.
  iIntros "[Hp Hk]". iApply simwp_quiet. iApply simwp_assoc. iApply simwp_alloc_str. iSplit; [iIntros (q) "Hq"|iIntros "%Hf"]; cbn [negb].
  2: { iApply simwp_assoc. iApply simwp_update_buf. iFrame "Hp". iIntros "Hp". iApply simwp_assoc.
       iApply (simwp_deAlloc p (RRD_data_buff_init ty ev)).
       iSplitL "Hp"; [iExists None, None, None; by iFrame|]. iDestruct "Hk" as "[_ Hk]". iApply ("Hk" $! Hf). }
  iApply simwp_assoc. iApply simwp_update_buf. iFrame "Hp". iIntros "Hp". iApply simwp_assoc.
  iApply simwp_quiet. iApply simwp_alloc_str. iSplit; [iIntros (j) "Hj"|iIntros "%Hf"]; cbn [negb].
  2: { iApply simwp_assoc. iApply simwp_update_buf. iFrame "Hp". iIntros "Hp". iApply simwp_assoc.
       iApply (simwp_deAlloc p (set_mdata (Some []) (RRD_data_buff_init ty ev))).
       iSplitL "Hp Hq"; [iExists (Some q), None, None; by iFrame|]. iDestruct "Hk" as "[_ Hk]". iApply ("Hk" $! Hf). }
  iDestruct "Hk" as "[Hk _]".
  iApply simwp_assoc. iApply simwp_update_buf. iFrame "Hp". iIntros "Hp".
  iApply simwp_assoc. iApply simwp_store_str. iFrame "Hq". iIntros "Hq".
  iApply simwp_assoc. iApply simwp_store_str. iFrame "Hj". iIntros "Hj".
  iApply simwp_assoc. iApply simwp_update_buf. iFrame "Hp". iIntros "Hp".
  iApply simwp_assoc. iApply append_request_sim. iFrame "Hq". iIntros "Hq".
  unfold installed_message. destruct (checkAppendRequest s) as [append text]. cbn [fst snd]. destruct append.
  - iApply simwp_assoc. iApply simwp_assoc. iApply simwp_update_buf. iFrame "Hp". iIntros "Hp".
    iApply simwp_update_buf. iFrame "Hp". iIntros "Hp". iApply "Hk". iExists (Some q), (Some j), None. by iFrame.
  - iApply "Hk". iExists (Some q), (Some j), None. by iFrame.
Qed.

Lemma installed_mdata b s path : buf_mdata (installed_message b s path) = Some (checkAppendRequest s).2.
Proof. unfold installed_message. by destruct (checkAppendRequest s). Qed.

(** A handler of a package that ends without a message. *)
Lemma nothing_changed q l hd c :
  own_cache hd c ∗ own_queue q l ∗ lost
  ⊢ simwp (mret hd) (queued l (mret c)) (fun a r => own_cache a r.1 ∗ posted q r.2)%I.
Proof. iIntros "(Hc & Hq & Hl)". iApply simwp_queued_ret. iFrame "Hc". iApply posted_none. iFrame. Qed.

(** The entry leaves the list, as the last step. *)
Lemma removed_last q l p x hd c :
  own_cache_at p x hd c ∗ own_queue q l
  ⊢ simwp (remove_item_mem (Some p) hd) (queued l (remove_item (Some x) c)) (fun a r => own_cache a r.1 ∗ posted q r.2)%I.
Proof.
  iIntros "[Hc Hq]". iApply simwp_tail. iApply simwp_queued_val. iApply simwp_quiet. iApply simwp_remove_item. iFrame "Hc".
  iIntros (hd' c') "Hc". iApply nothing_changed. iFrame. iApply lost_none.
Qed.

(** The entry of a package. *)
Lemma find_entry {A B} pkg hd c (k : option loc -> MM A) (k' : option loc -> M B) l Q :
  own_cache hd c ∗ ((own_cache hd c -∗ simwp (k None) (queued l (k' None)) Q) ∧
                    (∀ p x, own_cache_at p x hd c -∗ simwp (k (Some p)) (queued l (k' (Some x))) Q))
  ⊢ simwp (findPresentInCache_mem pkg hd ≫= k) (queued l (findPresentInCache pkg c ≫= k')) Q.
Proof.
  iIntros "[Hc Hk]". iApply simwp_quiet. iApply simwp_call. iSplitL "Hc"; [by iApply find_sim|]. iIntros (a [x|]).
  - iIntros "(%p & -> & Hc)". iDestruct "Hk" as "[_ Hk]". by iApply "Hk".
  - iIntros "[-> Hc]". iDestruct "Hk" as "[Hk _]". by iApply "Hk".
Qed.

(** The issue of an entry. *)
Lemma entry_issue {A B} p x hd c (k : cstr -> MM A) (k' : cstr -> M B) l Q :
  own_cache_at p x hd c ∗ (∀ s, own_cache_at p x hd c -∗ simwp (k s) (queued l (k' s)) Q)
  ⊢ simwp (e ← load_entry (Some p); s ← load_string (c_issueString e); k s)
      (queued l (n ← Cache.read_node c x; s ← deref (issueString n); k' s)) Q.
Proof.
  rw (simwp_entry_issue p x hd c k (fun s => queued l (k' s)) Q). apply simwp_ext; [done|]. intros w.
  rw queued_quiet. unfold mbind, M_bind. destruct (Cache.read_node c x w) as [n w'| |]; [|done..]. apply queued_quiet, _.
Qed.

Lemma rdmManager_sim `{Iarm} owner eventId data hd c q l :
  own_cache hd c ∗ own_queue q l
  ⊢ simwp (_rdmManagerEventHandler_mem (Some q) owner eventId data hd) (queued l (_rdmManagerEventHandler owner eventId data c))
      (fun a r => own_cache a r.1 ∗ posted q r.2)%I.
Proof.
  assert (own_cache hd c ∗ own_queue q l ⊢ simwp (mret hd) (queued l (mret c)) (fun a r => own_cache a r.1 ∗ posted q r.2)%I) as Hnone.
  { iIntros "[Hc Hq]". iApply nothing_changed. iFrame. iApply lost_none. }
  unfold _rdmManagerEventHandler_mem, _rdmManagerEventHandler, new_buffer.
  destruct (streq _ _); [|exact Hnone]. destruct (_ =? _); [|exact Hnone]. iIntros "[Hc Hq]".
  iApply find_entry. iFrame "Hc". iSplit; [iIntros "Hc"; iApply Hnone; iFrame|iIntros (p x) "Hc"].
  destruct (_ =? _); [|iApply removed_last; iFrame].
  iApply entry_issue. iFrame "Hc". iIntros (s) "Hc". iApply simwp_quiet.
  iApply simwp_alloc. iSplit; [iIntros (t) "Ht"|iIntros "_"]; cbn [negb]; iDestruct "Hc" as "Hc".
  2: { iDestruct (own_cache_close with "Hc") as "Hc". iApply Hnone. iFrame. }
  iApply simwp_store. iFrame "Ht". iIntros "Ht".
  assert (forall ty ev, own_cache_at p x hd c ∗ own_queue q l ∗ t ↦ BBuf (init_cell ty ev)
    ⊢ simwp (fill_installed_mem (Some t) s (pkg_inst_path data) ≫= fun filled =>
               if negb filled then mret hd else _ ← deliver_logged (Some q) (Some t); remove_item_mem (Some p) hd)
        (queued l (ok ← malloc; if negb ok then mret c else ok ← malloc; if negb ok then mret c else
         _ ← RRDMsgDeliver (installed_message (RRD_data_buff_init ty ev) s (pkg_inst_path data ++ RRD_JSON_FILE));
         remove_item (Some x) c))
        (fun a r => own_cache a r.1 ∗ posted q r.2)%I) as Hfill.
  { intros ty ev. iIntros "(Hc & Hq & Ht)".
    iApply (fill_sim t ty ev s (pkg_inst_path data) _ (fun b => _ ← RRDMsgDeliver b; remove_item (Some x) c)).
    iFrame "Ht". iSplit; [iIntros "Hb"|iIntros (_); cbn [negb]].
    - cbn [negb]. iApply deliver_logged_sim; [apply installed_mdata|]. iFrame "Hq Hb". iIntros "Hq". iApply removed_last. iFrame.
    - iDestruct (own_cache_close with "Hc") as "Hc". iApply Hnone. iFrame. }
  unfold installed_buffer. destruct (streq s DEEP_SLEEP_STR); iApply Hfill; iFrame.
Qed.

Lemma rdmDownload_sim hd c q l :
  own_cache hd c ∗ own_queue q l
  ⊢ simwp (_rdmDownloadEventHandler_mem (Some q) hd) (queued l (_rdmDownloadEventHandler c))
      (fun a r => own_cache a r.1 ∗ posted q r.2)%I.
Proof.
  assert (own_cache hd c ∗ own_queue q l ⊢ simwp (mret hd) (queued l (mret c)) (fun a r => own_cache a r.1 ∗ posted q r.2)%I) as Hnone.
  { iIntros "[Hc Hq]". iApply nothing_changed. iFrame. iApply lost_none. }
  iIntros "[Hc Hq]". unfold _rdmDownloadEventHandler_mem, _rdmDownloadEventHandler, new_buffer.
  iApply simwp_quiet. iApply simwp_lift. iIntros (value). destruct value as [issue|]; [|iApply Hnone; iFrame].
  iApply simwp_quiet. iApply simwp_alloc_str. iSplit; [iIntros (pn) "Hn"|iIntros "_"]; cbn [negb]; [|iApply Hnone; iFrame].
  iApply simwp_load_str. iFrame "Hn". iIntros "Hn". iApply simwp_quiet.
  iApply simwp_alloc_str. iSplit; [iIntros (pi) "Hi"|iIntros "%Hf"]; cbn [negb]; [|iApply nothing_changed; iFrame "Hc Hq"; lose].
  iApply find_entry. iFrame "Hc". iSplit; [iIntros "Hc"|iIntros (p x) "Hc"].
  { iApply simwp_free_str. iFrame "Hn". iApply simwp_free_str. iFrame "Hi". iApply Hnone. iFrame. }
  iApply entry_issue. iFrame "Hc". iIntros (s) "Hc". iApply simwp_quiet.
  iApply simwp_alloc. iSplit; [iIntros (t) "Ht"|iIntros "_"]; cbn [negb]; [|by iApply simwp_queued_fault].
  iApply simwp_store. iFrame "Ht". iIntros "Ht". iApply simwp_load_str. iFrame "Hi". iIntros "Hi".
  iApply (fill_sim t _ _ s _ _ (fun b => _ ← RRDMsgDeliver b; remove_item (Some x) c)). iFrame "Ht".
  iSplit; [iIntros "Hb"|iIntros (Hf)]; cbn [negb].
  - iApply deliver_logged_sim; [apply installed_mdata|]. iFrame "Hq Hb". iIntros "Hq". iApply simwp_queued_val. iApply simwp_quiet.
    iApply simwp_remove_item. iFrame "Hc". iIntros (hd' c') "Hc". iApply simwp_free_str. iFrame "Hn".
    iApply simwp_free_str. iFrame "Hi". iApply nothing_changed. iFrame. iApply lost_none.
  - iDestruct (own_cache_close with "Hc") as "Hc". iApply nothing_changed. iFrame "Hc Hq". lose.
Qed.

Lemma prepare_sim q l p x text :
  commandList x = Some text ->
  own_queue q l ∗ own_param p x
  ⊢ simwp (PrepareDataToPush_mem (Some q) (Some p)) (queued l (PrepareDataToPush x)) (fun _ r => posted q r.2 ∗ own_param p x)%I.
Proof.
  intros Hx. iIntros "[Hq (%cl & Hp & Hcl)]". rw Hx. iDestruct (str_is_some with "Hcl") as (t) "[-> Hcl]".
  unfold PrepareDataToPush_mem, PrepareDataToPush. iApply simwp_load_param. iFrame "Hp". iIntros "Hp". cbn [c_length c_commandList].
  assert (forall ok, own_queue q l ∗ str (Some t) (Some text) ∗ p ↦ BParam (ParamCell (Some t) (param_length x)) ⊢
    simwp (mret ok) (queued l (mret tt)) (fun (_ : unit) r => posted q r.2 ∗ own_param p x)%I) as Hnone.
  { intros ok. iIntros "(Hq & Hcl & Hp)". iApply simwp_queued_ret. iSplitL "Hq"; [iApply posted_none; iFrame; iApply lost_none|].
    iExists (Some t). rw Hx. iFrame. }
  iApply simwp_quiet. unfold alloc_size. replace (param_length x <? 0) with (negb (0 <=? param_length x)) by lia.
  destruct (0 <=? param_length x) eqn:En.
  2: { iApply simwp_assoc. iApply simwp_lift. iIntros (ok). rw orb_true_r. iApply Hnone. iFrame. }
  iApply simwp_alloc_str. iSplit; [iIntros (c) "Hc"|iIntros "_"]; cbn [negb orb]; [|iApply Hnone; iFrame].
  rw Hx. iApply simwp_load_str. iFrame "Hcl". iIntros "Hcl". iApply simwp_quiet. change (deref (Some text) ≫= ?k) with (k text). cbv beta.
  iApply simwp_store_str. iFrame "Hc". iIntros "Hc". iApply simwp_wand. iSplitL "Hq Hc"; [by iApply push_sim; iFrame|].
  iIntros (a r) "Hq". iFrame "Hq". iExists (Some t). rw Hx. iFrame.
Qed.

(** The status the framework gets. *)
Definition own_status : loc -> blob_status -> heapPropI := fun p s => (p ↦ BErr s)%I.

Lemma process_request_sim q l d doc :
  own_queue q l ∗ own_doc d doc
  ⊢ simwp (Process_RemoteDebugger_WebConfigRequest_mem (Some q) (Some d))
      (queued l (Process_RemoteDebugger_WebConfigRequest (Some doc)))
      (fun a r => posted q r.2 ∗ (own_doc d doc ∗ own_opt own_status a r.1))%I.
Proof.
  iIntros "[Hq Hd]". unfold Process_RemoteDebugger_WebConfigRequest_mem, Process_RemoteDebugger_WebConfigRequest.
  iApply simwp_quiet. iApply simwp_alloc. iSplit; [iIntros (st) "Hst"|iIntros "_"]; cbn [negb].
  2: { iApply simwp_queued_ret. iSplitL "Hq"; [iApply posted_none; iFrame; iApply lost_none|]. by iFrame. }
  iDestruct "Hd" as (pp sn) "(Hd & Hs & Hpp)". iApply simwp_load_doc. iFrame "Hd". iIntros "Hd". cbn [c_param].
  assert (own_queue q l ∗ own_doc d doc ∗ st ↦ BErr BLOB_EXEC_SUCCESS ⊢
    simwp (_ ← store (Some st) (BErr SYSCFG_FAILURE); mret (Some st)) (queued l (mret (Some SYSCFG_FAILURE)))
      (fun a r => posted q r.2 ∗ (own_doc d doc ∗ own_opt own_status a r.1))%I) as Hfail.
  { iIntros "(Hq & Hd & Hst)". iApply simwp_store. iFrame "Hst". iIntros "Hst". iApply simwp_queued_ret. iFrame "Hd Hst".
    iApply posted_none. iFrame "Hq". iApply lost_none. }
  destruct pp as [pp|], (param doc) as [x|] eqn:Ex; cbn [own_opt]; try by iDestruct "Hpp" as "[]".
  2: { iApply Hfail. iFrame "Hq Hst". iExists None, sn. rw Ex. iFrame. }
  iDestruct "Hpp" as (cl) "[Hpp Hcl]". iApply simwp_load_param. iFrame "Hpp". iIntros "Hpp". cbn [c_commandList].
  destruct (commandList x) as [text|] eqn:Et.
  - iDestruct (str_is_some with "Hcl") as (t) "[-> Hcl]". iApply (simwp_queued_call _ _ _ (fun _ => Some BLOB_EXEC_SUCCESS)).
    iSplitL "Hq Hpp Hcl"; [iApply prepare_sim; [exact Et|]; iFrame "Hq"; iExists (Some t); rw Et; iFrame|].
    iIntros (? [? l']) "[Hq Hpp]". iApply simwp_ret. iFrame "Hq Hst". iExists (Some pp), sn. rw Ex. iFrame.
  - iDestruct (str_none with "Hcl") as "[-> _]". iApply Hfail. iFrame "Hq Hst". iExists (Some pp), sn. rw Ex. iFrame "Hd Hs".
    iExists None. rw Et. by iFrame.
Qed.
End Simulation.

(** ** A message and its text in a memory *)

Lemma own_buf_text p b text h :
  holds (own_buf p b) h -> buf_mdata b = Some text ->
  exists q j s, h !! p = Some (BBuf (cell_of b (Some q) j s)) /\ h !! q = Some (BString text) /\ p <> q.
Proof.
  intros (m & j & s & h1 & h2 & -> & Hd & Hp & h3 & h4 & -> & Hd' & Hm & _) Ht. rw Ht in Hm.
  destruct m as [q|]; [|done]. cbn in Hp, Hm. subst h1 h3. exists q, j, s.
  apply map_disjoint_union_r in Hd as [Hpq _].
  assert (p <> q) as Hne.
  { intros ->. apply map_disjoint_singleton_l in Hpq. by rw lookup_singleton_eq in Hpq. }
  split_and!; [by apply lookup_union_Some_l, lookup_singleton_eq| |done].
  rw lookup_union_r; [|by apply lookup_singleton_ne]. by apply lookup_union_Some_l, lookup_singleton_eq.
Qed.

Lemma own_buf_text_among P p b text h :
  holds (P ∗ own_buf p b)%I h -> buf_mdata b = Some text ->
  exists q j s, h !! p = Some (BBuf (cell_of b (Some q) j s)) /\ h !! q = Some (BString text) /\ p <> q.
Proof.
  intros (h1 & h2 & -> & Hd & _ & Hb) Ht. destruct (own_buf_text _ _ _ _ Hb Ht) as (q & j & s & Hp & Hq & Hpq).
  exists q, j, s. split_and!; [by apply lookup_union_Some_r..|done].
Qed.

Lemma load_buf_run p c h w : h !! p = Some (BBuf c) -> load_buf (Some p) h w = Ret (c, h) w.
Proof. intros Hp. unfold load_buf, load, mbind, MM_bind. unfold mbind, M_bind. by rw Hp. Qed.

Lemma load_string_run q t h w : h !! q = Some (BString t) -> load_string (Some q) h w = Ret (t, h) w.
Proof. intros Hq. unfold load_string, load, mbind, MM_bind. unfold mbind, M_bind. by rw Hq. Qed.

Lemma free_run q b h w : h !! q = Some b -> free (Some q) h w = Ret (tt, delete q h) w.
Proof. intros Hq. unfold free. by rw Hq. Qed.

Lemma mem_bind_run {A B} (m : MM A) (k : A -> MM B) a h h' w w' :
  m h w = Ret (a, h') w' -> (m ≫= k) h w = k a h' w'.
Proof. intros E. unfold mbind, MM_bind. unfold mbind, M_bind. by rw E. Qed.

Lemma mem_bind_inv {A B} (m : MM A) (k : A -> MM B) h w r w' :
  (m ≫= k) h w = Ret r w' -> exists a h1 w1, m h w = Ret (a, h1) w1 /\ k a h1 w1 = Ret r w'.
Proof.
  unfold mbind, MM_bind. unfold mbind, M_bind. destruct (m h w) as [[a h1] w1| |]; [|done..]. by exists a, h1, w1.
Qed.

(** Handling a web configuration message frees its text and keeps its block. *)
Lemma webcfg_frees_text `{OS} `{MsgPack} p b text h w r hh w' q j s :
  p <> q -> h !! p = Some (BBuf (cell_of b (Some q) j s)) -> h !! q = Some (BString text) ->
  processWebCfgTypeEvent_mem (Some p) h w = Ret (r, hh) w' ->
  hh !! q = None /\ hh !! p = Some (BBuf (cell_of b (Some q) j s)).
Proof.
  intros Hpq Hp Hq. unfold processWebCfgTypeEvent_mem. rw (mem_bind_run _ _ _ _ _ _ _ (load_buf_run _ _ _ w Hp)).
  cbn [cell_of c_mdata]. intros ([z pushed] & h1 & w1 & E1 & E)%mem_bind_inv.
  assert (h = {[q := BString text]} ∪ delete q h) as Hh by (rw -insert_union_singleton_l insert_delete_id; done).
  assert (({[q := BString text]} : memory) ##ₘ delete q h) as Hd by by apply map_disjoint_singleton_l_2, lookup_delete_eq.
  pose proof (entails_holds _ _ (decode_sim q text) {[q := BString text]} eq_refl (delete q h) w Hd) as A. rw -Hh E1 in A.
  destruct (decodeWebCfgData (Some text) w) as [r1 w2| |]; [|done..].
  destruct A as (a & h' & [= <- -> <-] & Hd' & _ & (h2 & h3 & -> & _ & Hq2 & _)).
  assert (((h2 ∪ h3) ∪ delete q h) !! q = Some (BString text)) as Hq1.
  { rw -assoc_L. apply lookup_union_Some_l. rw Hq2. apply lookup_singleton_eq. }
  rw (mem_bind_run _ _ _ _ _ _ _ (free_run _ _ _ _ Hq1)) in E. injection E as <- <- <-. split; [apply lookup_delete_eq|].
  rw lookup_delete_ne; [|done]. apply lookup_union_Some_r; [done|]. by rw lookup_delete_ne.
Qed.

(** ** The properties *)

(** On a memory that [P] describes, [m] does what [v] does and leaves what [Q]
    describes; other memory is not touched. *)
Definition runs {A B} (P : heapPropI) (m : MM A) (v : M B) (Q : A -> B -> heapPropI) : Prop := forall h hf w,
  holds P h -> h ##ₘ hf ->
  match v w with
  | Ret b w' => exists a h', m (h ∪ hf) w = Ret (a, h' ∪ hf) w' /\ h' ##ₘ hf /\ holds (Q a b) h'
  | Exit s w' => m (h ∪ hf) w = Exit s w'
  | Fault f => m (h ∪ hf) w = Fault f
  end.

Lemma runs_sim {A B} (P : heapPropI) (m : MM A) (v : M B) Q : (P ⊢ simwp m v Q) -> runs P m v Q.
Proof. intros [Hs] h hf w Hh Hd. exact (Hs h Hh hf w Hd). Qed.

(** On a memory with the queue and its messages, and the list of pending
    packages if the handler uses it, [m] does what [v] does; then the queue
    holds the messages it held and, behind them, what [v] sent, each allocated
    as a whole; other memory is not touched. *)
Definition posts `{OS} {A B} (P : heapPropI) (R : A -> B -> heapPropI) (m : option loc -> MM A) (v : M B) : Prop :=
  forall q l, runs (P ∗ own_queue q l) (m (Some q)) (queued l v) (fun a r => R a r.1 ∗ posted q r.2)%I.

(** For a handler that leaves the list alone. *)
Definition posts_only `{OS} (m : option loc -> MM unit) (v : M unit) : Prop := posts emp (fun _ _ => emp)%I m v.

Lemma posts_only_sim `{OS} (m : option loc -> MM unit) (v : M unit) :
  (forall q l, own_queue q l ⊢ simwp (m (Some q)) (queued l v) (fun a r => ⌜a = r.1⌝ ∧ posted q r.2)%I) -> posts_only m v.
Proof.
  intros Hs q l. apply runs_sim. iIntros "[_ Hq]". iApply simwp_wand. iSplitL; [by iApply Hs|]. iIntros (a r) "[_ Hq]". by iFrame.
Qed.

(** C16: the handlers of the bus events: the issue event, the web configuration
    data, the end of a download, the change of the power mode and the
    installation of a package.  Each does what its version on values does; the
    web configuration is read past the end of its buffer, and what a handler
    logs of the message it sent is still there.  When it returns, the queue holds
    the messages it held and behind them exactly the messages that the version
    on values sent, each allocated with all its strings; the list of pending packages represents the cache that the version
    on values leaves, the node of an installed package freed with its strings;
    and nothing else the handler allocated is left; only when an
    allocation failed may more be left.  When the queue refuses a message the
    handler frees it and ends the process. *)
Theorem bus_handlers_memory `{OS} `{Iarm} :
  (forall value, posts_only (fun q => _remoteDebuggerEventHandler_mem q value) (_remoteDebuggerEventHandler value)) /\
  (forall value, posts_only (fun q => _remoteDebuggerWebCfgDataEventHandler_mem q value) (_remoteDebuggerWebCfgDataEventHandler value)) /\
  (forall cur new, posts_only (fun q => _pwrManagerEventHandler_plugin_mem q cur new) (_pwrManagerEventHandler_plugin cur new)) /\
  (forall owner data, posts_only (fun q => _pwrManagerEventHandler_mem q owner data) (_pwrManagerEventHandler owner data)) /\
  (forall hd c, posts (own_cache hd c) own_cache (fun q => _rdmDownloadEventHandler_mem q hd) (_rdmDownloadEventHandler c)) /\
  (forall owner id data hd c, posts (own_cache hd c) own_cache
     (fun q => _rdmManagerEventHandler_mem q owner id data hd) (_rdmManagerEventHandler owner id data c)).
Proof.
  split_and!; intros.
  - apply posts_only_sim, issue_event_sim.
  - apply posts_only_sim, webcfg_event_sim.
  - apply posts_only_sim, power_sim.
  - apply posts_only_sim, pwrManager_sim.
  - intros q l. apply runs_sim, rdmDownload_sim.
  - intros q l. apply runs_sim, rdmManager_sim.
Qed.

(** C21: the log calls that read a message after it was put in the queue, when
    the event thread has handled it before.  The text of an issue message is
    still there, the same as before.  The text of a web configuration message,
    or the message itself when its type is unknown, was freed: the log call
    reads a block that is not allocated. *)
Theorem late_log `{OS} `{CJSONLaws} `{Device} `{MsgPack} p b text hd c h w r hh w' :
  holds (own_cache hd c ∗ own_buf p b)%I h -> buf_mdata b = Some text ->
  handle_message_mem (Some p) hd h w = Ret (r, hh) w' ->
  (mtype b = EVENT_MSG -> log_message (Some p) hh w' = Ret (text, hh) w') /\
  (mtype b = EVENT_WEBCFG_MSG \/ mtype b = DEFAULT -> log_message (Some p) hh w' = Fault UseAfterFree).
Proof.
  intros Hb Ht E. destruct (own_buf_text_among _ _ _ _ _ Hb Ht) as (q & j & s & Hp & Hq & Hpq). split; [intros Hm|intros [Hm|Hm]].
  - pose proof (simwp_adequate _ _ _ _ h w (handle_message_sim p b hd c) Hb) as A.
    destruct (handle_message b c w) as [r' w1| |]; [|by rw A in E..].
    destruct A as (a & h' & A & HQ). rw E in A. injection A as <- <- <-. unfold handled_message in HQ. rw Hm in HQ.
    assert (own_cache r.1 r'.1 ∗ (own_buf p b ∗ left_overs (appendMode b) (message_issues b)) ∗ own_opt own_exec r.2 r'.2
      ⊢ (own_cache r.1 r'.1 ∗ left_overs (appendMode b) (message_issues b) ∗ own_opt own_exec r.2 r'.2) ∗ own_buf p b) as Hmove.
    { iIntros "(Hc & [Hb Hl] & He)". iFrame. }
    destruct (own_buf_text_among _ _ _ _ _ (entails_holds _ _ Hmove _ HQ) Ht) as (q' & j' & s' & Hp' & Hq' & _). unfold log_message.
    rw (mem_bind_run _ _ _ _ _ _ _ (load_buf_run p _ _ w' Hp')). by apply load_string_run.
  - revert E. unfold handle_message_mem. rw (mem_bind_run _ _ _ _ _ _ _ (load_buf_run _ _ _ w Hp)). cbn [cell_of c_mtype]. rw Hm.
    intros (a & h1 & w1 & E1 & E)%mem_bind_inv. injection E as <- <- <-.
    apply (webcfg_frees_text _ _ _ _ _ _ _ _ _ _ _ Hpq Hp Hq) in E1 as [Hq' Hp']. unfold log_message.
    rw (mem_bind_run _ _ _ _ _ _ _ (load_buf_run _ _ _ w1 Hp')). cbn [cell_of c_mdata].
    unfold load_string, load, mbind, MM_bind. unfold mbind, M_bind. by rw Hq'.
  - revert E. unfold handle_message_mem. rw (mem_bind_run _ _ _ _ _ _ _ (load_buf_run _ _ _ w Hp)). cbn [cell_of c_mtype c_mdata].
    rw Hm (mem_bind_run _ _ _ _ _ _ _ (free_run _ _ _ w Hq)).
    assert (delete q h !! p = Some (BBuf (cell_of b (Some q) j s))) as Hp' by by rw lookup_delete_ne.
    rw (mem_bind_run _ _ _ _ _ _ _ (free_run _ _ _ w Hp')). intros [= <- <- <-].
    unfold log_message, load_buf, load, mbind, MM_bind. unfold mbind, M_bind. by rw lookup_delete_eq.
Qed.

(** C17: the memory of a web configuration.  Decoding frees its buffer and leaves
    the text as it was; it leaves the request for the framework with its whole
    document when it succeeds, and nothing when it fails, whichever allocation
    fails.  Executing the request adds exactly what its version on values
    sends to the queue and keeps the document.  Freeing the request frees everything it holds. *)
Theorem web_request_memory `{OS} `{MsgPack} :
  (forall p text, runs (str (Some p) (Some text)) (decodeWebCfgData_mem (Some p)) (decodeWebCfgData (Some text))
     (fun a r => ⌜a.1 = r.1⌝ ∧ (str (Some p) (Some text) ∗ own_opt own_exec a.2 r.2))%I) /\
  (forall q l d doc, runs (own_queue q l ∗ own_doc d doc) (Process_RemoteDebugger_WebConfigRequest_mem (Some q) (Some d))
     (queued l (Process_RemoteDebugger_WebConfigRequest (Some doc)))
     (fun a r => posted q r.2 ∗ (own_doc d doc ∗ own_opt own_status a r.1))%I) /\
  (forall p e, runs (own_exec p e) (FreeResources_RemoteDebugger_mem (Some p)) (mret tt) (fun _ _ => emp)%I).
Proof.
  split_and!; intros; apply runs_sim.
  - apply decode_sim.
  - apply process_request_sim.
  - iIntros "Hp". iApply simwp_tail. iApply simwp_free_resources. iFrame "Hp". by iApply simwp_ret.
Qed.

(** The messages of the witness. *)
Definition sample_webcfg : data_buf := DataBuf EVENT_WEBCFG_MSG (Some #"AA==") None false false RRD_DEEPSLEEP_INVALID_DEFAULT None.

Lemma message_memory_handled p q b text :
  p <> q -> buf_mdata b = Some text -> jsonPath b = None -> suffix b = None ->
  holds (own_cache None initCache ∗ own_buf p b)%I (message_memory p q b text).
Proof.
  intros Hpq Hm Hj Hs. assert (own_buf p b ⊢ own_cache None initCache ∗ own_buf p b) as Hc.
  { iIntros "H". iFrame "H". iApply own_cache_init. }
  by apply (entails_holds _ _ Hc), message_memory_owned.
Qed.

Lemma late_log_witness :
  (exists r hh w', @handle_message_mem sample_event_os sample_event_json sample_device (small_msgpack 0)
      (Some 1%positive) None sample_memory (World [] 0) = Ret (r, hh) w' /\
    log_message (Some 1%positive) hh w' = Ret (#"Device.Info,Device.Bad,Wifi.Stats", hh) w') /\
  (exists r hh w', @handle_message_mem sample_event_os sample_event_json sample_device (small_msgpack 0)
      (Some 1%positive) None (message_memory 1 2 sample_webcfg #"AA==") (World [] 0) = Ret (r, hh) w' /\
    log_message (Some 1%positive) hh w' = Fault UseAfterFree).
Proof.
  pose proof (fun b => @late_log sample_event_os sample_event_json (Tree.tree_laws _) sample_device (small_msgpack 0) 1 b) as T.
  set (run := @handle_message_mem sample_event_os sample_event_json sample_device (small_msgpack 0)) in *. split.
  - assert (match run (Some 1%positive) None sample_memory (World [] 0) with Ret _ _ => true | _ => false end = true) as Hm
      by (vm_compute; reflexivity).
    destruct (run _ _ _ _) as [[r hh] w'| |] eqn:E; [|discriminate Hm..]. exists r, hh, w'. split; [reflexivity|].
    refine (proj1 (T _ _ None initCache _ _ _ _ _ (message_memory_handled 1 2 (issue_message #"Device.Info,Device.Bad,Wifi.Stats") _ _ _ _ _) _ E) _);
      [discriminate|reflexivity..].
  - assert (match run (Some 1%positive) None (message_memory 1 2 sample_webcfg #"AA==") (World [] 0) with
      Ret _ _ => true | _ => false end = true) as Hm by (vm_compute; reflexivity).
    destruct (run _ _ _ _) as [[r hh] w'| |] eqn:E; [|discriminate Hm..]. exists r, hh, w'. split; [reflexivity|].
    refine (proj2 (T _ _ None initCache _ _ _ _ _ (message_memory_handled 1 2 sample_webcfg #"AA==" _ _ _ _) _ E) _);
      [discriminate|reflexivity..|left; reflexivity].
Defined.
