(* ===== verification/DaemonMem.v ===== *)
(** * DaemonMem: the whole daemon on memory (src/rrdMain.c, src/rrdInterface.c,
    src/rrdIarmEvents.c)

    The transition system of the file Main once more, on a memory in which the
    queue holds pointers: a callback of a bus allocates a message and puts its
    pointer in the queue; the event thread takes the oldest pointer and handles
    what it finds there; the web configuration framework gives the oldest
    request back to the daemon and frees it.  Every state that the daemon
    reaches is one of the states of Main, and its memory is described by it. *)

From stdpp Require Import gmap relations.
From iris.proofmode Require Import proofmode.
From S2P Require Import Prelude Types OS CJson IssueType Cache RunCmd Profile Dynamic Queue MsgPack EventProcess Iarm.
From S2P Require Import Interface Main HeapSafety Heap CacheMem ProfileMem EventMem DecoderMem ThreadMem QueueMem.

Local Open Scope Z_scope.

(** ** The inputs *)

(** What makes the daemon work: an event of a bus, a property that is set or
    read, the framework that runs a request, a message for the event thread. *)
Inductive input :=
| IssueEvent (value : option cstr)
| WebcfgEvent (value : option cstr)
| DownloadEvent
| PackageEvent (owner : cstr) (eventId : Z) (data : rdm_event)
| PowerEvent (owner : cstr) (data : option pwr_event)
| PowerPluginEvent (cur new : Z)
| SetEvent (prop : option rbusProperty_t)
| GetEvent (prop : rbusProperty_t)
| RequestRun
| MessageReceived.

(** The daemon on memory: the memory, the world, the head of the list of pending
    packages ([cacheDataNode]), the category and the pointers of the requests in
    the framework. *)
Record machine := Machine {
  m_memory : memory; m_world : world; m_head : option loc; m_category : cstr; m_blobs : list loc }.

Section DaemonMem.
Context `{OS} `{CJSON} `{CJSONBuild} `{MsgPack} `{Iarm} `{Device}.

(** The handlers that are there in the build. *)
Definition enabled (i : input) : bool :=
  match i with
  | DownloadEvent => negb IARMBUS_SUPPORT
  | PackageEvent _ _ _ => IARMBUS_SUPPORT
  | PowerEvent _ _ => IARMBUS_SUPPORT && negb PWRMGR_PLUGIN
  | PowerPluginEvent _ _ => IARMBUS_SUPPORT && PWRMGR_PLUGIN
  | _ => true
  end.

(** The messages of the queue when the handler works: the event thread has
    taken the oldest. *)
Definition after_receive (i : input) (s : system) : system :=
  match i, s_queue s with MessageReceived, m :: queue => take_message s m queue | _, _ => s end.

(** On values.  Without a message, or a request, there is nothing to do. *)
Definition dispatch (i : input) (s : system) : M (cache * cstr * list execData) :=
  let c := s_cache s in let category := s_category s in let blobs := s_blobs s in
  match i with
  | IssueEvent value => _ ← _remoteDebuggerEventHandler value; mret (c, category, blobs)
  | WebcfgEvent value => _ ← _remoteDebuggerWebCfgDataEventHandler value; mret (c, category, blobs)
  | DownloadEvent => c ← _rdmDownloadEventHandler c; mret (c, category, blobs)
  | PackageEvent owner eventId data => c ← _rdmManagerEventHandler owner eventId data c; mret (c, category, blobs)
  | PowerEvent owner data => _ ← _pwrManagerEventHandler owner data; mret (c, category, blobs)
  | PowerPluginEvent cur new => _ ← _pwrManagerEventHandler_plugin cur new; mret (c, category, blobs)
  | SetEvent prop => r ← rrd_SetHandler prop category; mret (c, r.2, blobs)
  | GetEvent prop => _ ← rrd_GetHandler prop category; mret (c, category, blobs)
  | RequestRun =>
      match blobs with
      | [] => mret (c, category, [])
      | e :: blobs => _ ← Process_RemoteDebugger_WebConfigRequest (Some (user_data e)); mret (c, category, blobs)
      end
  | MessageReceived =>
      match s_queue s with
      | [] => mret (c, category, blobs)
      | m :: _ => r ← handle_message m c; mret (r.1, category, blobs ++ option_list r.2)
      end
  end.

(** On memory, with the queue [msqid]. *)
Definition dispatch_mem (msqid : loc) (i : input) (m : machine) : MM (option loc * cstr * list loc) :=
  let head := m_head m in let category := m_category m in let blobs := m_blobs m in let q := Some msqid in
  match i with
  | IssueEvent value => _ ← _remoteDebuggerEventHandler_mem q value; mret (head, category, blobs)
  | WebcfgEvent value => _ ← _remoteDebuggerWebCfgDataEventHandler_mem q value; mret (head, category, blobs)
  | DownloadEvent => head ← _rdmDownloadEventHandler_mem q head; mret (head, category, blobs)
  | PackageEvent owner eventId data => head ← _rdmManagerEventHandler_mem q owner eventId data head; mret (head, category, blobs)
  | PowerEvent owner data => _ ← _pwrManagerEventHandler_mem q owner data; mret (head, category, blobs)
  | PowerPluginEvent cur new => _ ← _pwrManagerEventHandler_plugin_mem q cur new; mret (head, category, blobs)
  | SetEvent prop => r ← lift (rrd_SetHandler prop category); mret (head, r.2, blobs)
  | GetEvent prop => _ ← lift (rrd_GetHandler prop category); mret (head, category, blobs)
  | RequestRun =>
      match blobs with
      | [] => mret (head, category, [])
      | p :: blobs =>
          e ← load_exec (Some p);
          _ ← Process_RemoteDebugger_WebConfigRequest_mem q (c_user_data e);
          _ ← FreeResources_RemoteDebugger_mem (Some p);
          mret (head, category, blobs)
      end
  | MessageReceived =>
      l ← load_array q;
      match l with
      | [] => mret (head, category, blobs)
      | p :: l =>
          _ ← store q (BArray l);
          r ← handle_message_mem p head;
          mret (r.1, category, blobs ++ option_list r.2)
      end
  end.

(** One input that the daemon survives. *)
Inductive mem_step (msqid : loc) (m : machine) : machine -> Prop :=
| mem_step_intro i head category blobs h w : enabled i ->
    dispatch_mem msqid i m (m_memory m) (m_world m) = Ret (head, category, blobs, h) w ->
    mem_step msqid m (Machine h w head category blobs).

(** The daemon after a list of inputs, when it survives them. *)
Fixpoint run_inputs (msqid : loc) (inputs : list input) (m : machine) : option machine :=
  match inputs with
  | [] => Some m
  | i :: inputs =>
      if enabled i then
        match dispatch_mem msqid i m (m_memory m) (m_world m) with
        | Ret (head, category, blobs, h) w => run_inputs msqid inputs (Machine h w head category blobs)
        | _ => None
        end
      else None
  end.

Lemma run_inputs_steps msqid inputs : forall m m', run_inputs msqid inputs m = Some m' -> rtc (mem_step msqid) m m'.
Proof.
  induction inputs as [|i inputs IH]; intros m m' E; cbn [run_inputs] in E; [by injection E as ->|].
  destruct (enabled i) eqn:Ei; [|done].
  destruct (dispatch_mem msqid i m (m_memory m) (m_world m)) as [[[[head category] blobs] h] w| |] eqn:Er; [|done..].
  eapply rtc_l; [|by apply IH]. eapply mem_step_intro; [|exact Er]. by rw Ei.
Qed.

(** The daemon starts with an empty queue; [hf] is the memory of others. *)
Definition mem_started (msqid : loc) (hf : memory) (w : world) (category : cstr) : machine :=
  Machine ({[msqid := BArray []]} ∪ hf) w None category [].

Definition mem_reachable (msqid : loc) (hf : memory) (m : machine) : Prop :=
  exists w category, sent (w_trace w) = [] /\ rtc (mem_step msqid) (mem_started msqid hf w category) m.
End DaemonMem.

(** ** What the memory of the daemon is *)

Section Ownership.
Context `{OS} `{Device}.

(** What is left of the messages the event thread has received. *)
Definition taken (received : list data_buf) : heapPropI := ([∗ list] b ∈ received, ∃ p, handled_message p b)%I.

(** The statuses that were returned to the framework. *)
Definition own_statuses : heapPropI := (∃ l, [∗ list] x ∈ l, own_status x.1 x.2)%I.

(** The list of pending packages, the queue, the requests in the framework, what
    is left of the messages; anything else only when an allocation failed. *)
Definition own_daemon (q : loc) (head : option loc) (c : cache) (queue : list data_buf) (ps : list loc)
    (blobs : list execData) (received : list data_buf) : heapPropI :=
  (own_cache head c ∗ own_queue q queue ∗ own_requests ps blobs ∗ taken received ∗ own_statuses ∗ lost)%I.

(** The memory of the daemon and its state on values. *)
Record implements (q : loc) (hf : memory) (m : machine) (s : system) : Prop := {
  impl_world : m_world m = s_world s;
  impl_category : m_category m = s_category s;
  impl_memory : exists h, m_memory m = h ∪ hf /\ h ##ₘ hf /\
    holds (own_daemon q (m_head m) (s_cache s) (s_queue s) (m_blobs m) (s_blobs s) (s_received s)) h }.

Lemma own_requests_later p e ps es :
  own_requests ps es ∗ own_opt own_exec p e ⊢ own_requests (ps ++ option_list p) (es ++ option_list e).
Proof.
  iIntros "[Hl H]". iApply (big_sepL2_app with "Hl"). destruct p, e; cbn [own_opt option_list];
    [by iFrame|by iDestruct "H" as "[]"|by iDestruct "H" as "[]"|by iApply big_sepL2_nil].
Qed.

Lemma taken_more p b received : taken received ∗ handled_message p b ⊢ taken (received ++ [b]).
Proof. iIntros "[Hl H]". iApply big_sepL_app. iFrame "Hl". iApply big_sepL_singleton. by iExists p. Qed.

Lemma own_statuses_more p s : own_statuses ∗ own_opt own_status p s ⊢ own_statuses.
Proof.
  iIntros "[[%l Hl] H]". destruct p as [p|], s as [s|]; cbn [own_opt]; try by iDestruct "H" as "[]".
  - iExists ((p, s) :: l). iFrame.
  - iExists l. iFrame.
Qed.

Lemma own_daemon_start q : holds (own_daemon q None initCache [] [] [] []) {[q := BArray []]}.
Proof.
  assert (q ↦ BArray [] ⊢ own_daemon q None initCache [] [] [] []) as Hs; [|by apply (entails_holds _ _ Hs)].
  iIntros "Hq". iSplitR; [iApply own_cache_init|]. iSplitL; [iExists []; by iFrame|]. iSplitR; [by iApply big_sepL2_nil|]. iSplitR; [by iApply big_sepL_nil|].
  iSplitR; [by iExists []|iApply lost_none].
Qed.
End Ownership.

(** ** The simulation of one input *)

Section Simulation.
Context `{OS} `{CJSONLaws} `{CJSONBuild} `{MsgPack} `{Iarm} `{Device}.

(** Directory entries have names. *)
Hypothesis names : forall t p, Forall (fun n => n <> []) (default [] (os_readdir t p)).

#[local] Instance quiet_set prop category : Quiet (rrd_SetHandler prop category).
Proof. apply set_yields. Qed.

#[local] Instance quiet_get prop category : Quiet (rrd_GetHandler prop category).
Proof. eapply yields_mono; [apply get_yields|]. by intros r evs ->. Qed.

Lemma quiet_message m c : Quiet (handle_message m c).
Proof. eapply yields_mono; [by apply message_yields|]. by intros r evs [Hs _]. Qed.

(** The result of an input on memory and on values, with the queue left. *)
Definition follows (q : loc) (received : list data_buf) (a : option loc * cstr * list loc)
    (r : cache * cstr * list execData * list data_buf) : heapPropI :=
  (⌜a.1.2 = r.1.1.2⌝ ∧ own_daemon q a.1.1 r.1.1.1 r.2 a.2 r.1.2 received)%I.

(** A handler of a bus that leaves the requests alone, and the list. *)
Lemma handler_sim {A B} (P : heapPropI) (R : A -> B -> heapPropI) (m : MM A) (v : M B) (f : A -> option loc) (g : B -> cache)
    (k : A -> cstr) (k' : B -> cstr) q queue ps blobs received :
  (P ∗ own_queue q queue ⊢ simwp m (queued queue v) (fun a r => R a r.1 ∗ posted q r.2)%I) ->
  (forall a b, R a b ⊢ ⌜k a = k' b⌝ ∧ own_cache (f a) (g b)) ->
  P ∗ own_queue q queue ∗ own_requests ps blobs ∗ taken received ∗ own_statuses ∗ lost
  ⊢ simwp (a ← m; mret (f a, k a, ps)) (queued queue (b ← v; mret (g b, k' b, blobs))) (follows q received).
Proof.
  intros Hm HR. iIntros "(HP & Hq & Hps & Ht & Hs & Hl)". iApply (simwp_queued_call _ _ _ (fun b => (g b, k' b, blobs))).
  iSplitL "HP Hq"; [iApply Hm; iFrame|]. iIntros (a r) "(HR & Hl' & Hq)". iApply simwp_ret. rw HR. iDestruct "HR" as "[%Ek Hc]".
  iSplit; [done|]. cbn [fst snd]. iFrame "Hc Hq Hps Ht Hs". iApply lost_join. iFrame.
Qed.

(** A handler that does not use the list. *)
Lemma plain_handler_sim {A} (m : MM A) (v : M A) (k : A -> cstr) q hd c queue ps blobs received :
  (own_queue q queue ⊢ simwp m (queued queue v) (fun a r => ⌜a = r.1⌝ ∧ posted q r.2)%I) ->
  own_daemon q hd c queue ps blobs received
  ⊢ simwp (a ← m; mret (hd, k a, ps)) (queued queue (a ← v; mret (c, k a, blobs))) (follows q received).
Proof.
  intros Hm. apply (handler_sim (own_cache hd c) (fun a b => ⌜a = b⌝ ∧ own_cache hd c)%I m v (fun _ => hd) (fun _ => c)).
  - iIntros "[Hc Hq]". iApply simwp_wand. iSplitL "Hq"; [by iApply Hm|]. iIntros (a r) "[-> H]". by iFrame.
  - intros a b. iIntros "[-> Hc]". by iSplit.
Qed.

(** A handler of a package. *)
Lemma package_handler_sim (m : MM (option loc)) (v : M cache) q hd c category queue ps blobs received :
  (own_cache hd c ∗ own_queue q queue ⊢ simwp m (queued queue v) (fun a r => own_cache a r.1 ∗ posted q r.2)%I) ->
  own_daemon q hd c queue ps blobs received
  ⊢ simwp (a ← m; mret (a, category, ps)) (queued queue (c ← v; mret (c, category, blobs))) (follows q received).
Proof.
  intros Hm. apply (handler_sim _ own_cache m v (fun a => a) (fun c => c) (fun _ => category) (fun _ => category)); [exact Hm|].
  intros a b. iIntros "Hc". by iSplit.
Qed.

(** A handler of which only the values are modelled. *)
Lemma lifted_sim {A} (v : M A) q queue `{!Quiet v} :
  own_queue q queue ⊢ simwp (lift v) (queued queue v) (fun a r => ⌜a = r.1⌝ ∧ posted q r.2)%I.
Proof.
  iIntros "Hq". iApply simwp_tail. iApply simwp_queued_val. iApply simwp_quiet. iApply simwp_lift. iIntros (a).
  by iApply nothing_sent.
Qed.

Lemma idle_sim q hd c category queue ps blobs received :
  own_daemon q hd c queue ps blobs received
  ⊢ simwp (mret (hd, category, ps)) (queued queue (mret (c, category, blobs))) (follows q received).
Proof. iIntros "Hd". iApply simwp_queued_ret. iSplit; [done|]. iFrame. Qed.

(** The framework runs the oldest request and frees it. *)
Lemma run_request_sim q m s received :
  m_category m = s_category s ->
  own_daemon q (m_head m) (s_cache s) (s_queue s) (m_blobs m) (s_blobs s) received
  ⊢ simwp (dispatch_mem q RequestRun m) (queued (s_queue s) (dispatch RequestRun s)) (follows q received).
Proof.
  intros Hk. unfold dispatch, dispatch_mem. rw Hk. iIntros "(Hc & Hq & Hps & Ht & Hs & Hl)".
  destruct (m_blobs m) as [|p ps], (s_blobs s) as [|e blobs]; try by iDestruct "Hps" as "[]".
  { iApply idle_sim. iFrame. }
  iDestruct "Hps" as "[(%d & Hp & Hd) Hps]". iApply simwp_load_exec. iFrame "Hp". iIntros "Hp". cbn [c_user_data].
  iApply (simwp_queued_call _ _ _ (fun _ => (s_cache s, s_category s, blobs))).
  iSplitL "Hq Hd"; [iApply process_request_sim; iFrame|].
  iIntros (st r) "([Hl' Hq] & Hd & Hst)". iApply (simwp_free_resources p e). iSplitL "Hp Hd"; [iExists d; iFrame|].
  iApply simwp_ret. iSplit; [done|]. cbn [fst snd]. iFrame "Hc Hq Hps Ht". iSplitL "Hs Hst"; [iApply own_statuses_more; iFrame|].
  iApply lost_join. iFrame.
Qed.

(** The event thread takes the oldest message and handles it. *)
Lemma message_sim q m s :
  m_category m = s_category s ->
  own_daemon q (m_head m) (s_cache s) (s_queue s) (m_blobs m) (s_blobs s) (s_received s)
  ⊢ simwp (dispatch_mem q MessageReceived m) (queued (s_queue (after_receive MessageReceived s)) (dispatch MessageReceived s))
      (follows q (s_received (after_receive MessageReceived s))).
Proof.
  intros Hk. unfold dispatch, dispatch_mem, after_receive. rw Hk.
  iIntros "(Hc & [%ls [Hq Hls]] & Hps & Ht & Hs & Hl)". iApply simwp_load_array. iFrame "Hq". iIntros "Hq".
  destruct ls as [|p ls], (s_queue s) as [|b queue] eqn:Eq; try by iDestruct "Hls" as "[]".
  { iApply idle_sim. rw Eq. iFrame "Hc Hps Ht Hs Hl". iExists []. by iFrame. }
  iDestruct "Hls" as "[Hb Hls]". iApply simwp_store. iFrame "Hq". iIntros "Hq".
  pose proof (quiet_message b (s_cache s)) as Hquiet. iApply simwp_quiet. iApply simwp_call.
  iSplitL "Hc Hb"; [iApply handle_message_sim; iFrame|]. iIntros (a r) "(Hc & Hb & He)". iApply simwp_queued_ret. iSplit; [done|].
  cbn [fst snd take_message s_queue s_received]. iFrame "Hc". iSplitL "Hq Hls"; [iExists ls; iFrame|].
  iSplitL "Hps He"; [iApply own_requests_later; iFrame|]. iSplitL "Ht Hb"; [iApply taken_more; iFrame|]. iFrame.
Qed.

(** Every input. *)
Lemma dispatch_sim i q m s :
  m_category m = s_category s ->
  own_daemon q (m_head m) (s_cache s) (s_queue s) (m_blobs m) (s_blobs s) (s_received s)
  ⊢ simwp (dispatch_mem q i m) (queued (s_queue (after_receive i s)) (dispatch i s)) (follows q (s_received (after_receive i s))).
Proof.
  intros Hk. destruct i; cbn [after_receive]; [..|by eapply run_request_sim|by apply message_sim].
  all: unfold dispatch, dispatch_mem; rw Hk.
  - apply (plain_handler_sim _ _ (fun _ => s_category s)), issue_event_sim.
  - apply (plain_handler_sim _ _ (fun _ => s_category s)), webcfg_event_sim.
  - apply package_handler_sim, rdmDownload_sim.
  - apply package_handler_sim, rdmManager_sim.
  - apply (plain_handler_sim _ _ (fun _ => s_category s)), pwrManager_sim.
  - apply (plain_handler_sim _ _ (fun _ => s_category s)), power_sim.
  - apply (plain_handler_sim _ _ (fun r => r.2)), lifted_sim, _.
  - apply (plain_handler_sim _ _ (fun _ => s_category s)), lifted_sim, _.
Qed.

Lemma bind_ret_run {A B} (v : M A) (g : A -> B) b w w' :
  (v ≫= fun a => mret (g a)) w = Ret b w' -> exists a, v w = Ret a w' /\ b = g a.
Proof. unfold mbind, M_bind. destruct (v w) as [a w1| |]; [|done..]. intros [= <- <-]. by exists a. Qed.

(** On values an input is a step of Main, or nothing happens. *)
Lemma dispatch_step i s c category blobs w :
  enabled i -> dispatch i s (s_world s) = Ret (c, category, blobs) w ->
  rtc step s (advance (after_receive i s) w c category blobs).
Proof.
  intros Hi E. assert (s = advance s (s_world s) (s_cache s) (s_category s) (s_blobs s)) as Hidle.
  { unfold advance. rw (sent_since_events _ _ []) ?app_nil_r; [|done]. by destruct s. }
  destruct i; cbn [enabled] in Hi; cbn [dispatch after_receive] in *.
  all: try (apply bind_ret_run in E as (r & E & [= -> -> ->]); apply rtc_once).
  - destruct r. by eapply step_issue.
  - destruct r. by eapply step_webcfg.
  - eapply step_download; [by destruct IARMBUS_SUPPORT|done].
  - eapply step_rdm; [by destruct IARMBUS_SUPPORT|done].
  - apply andb_prop_elim in Hi as [Hs Hp]. destruct r. eapply step_power; [by destruct IARMBUS_SUPPORT|by destruct PWRMGR_PLUGIN|done].
  - apply andb_prop_elim in Hi as [Hs Hp]. destruct r. eapply step_power_plugin; [by destruct IARMBUS_SUPPORT|by destruct PWRMGR_PLUGIN|done].
  - destruct r as [r category']. by eapply step_set.
  - by eapply step_get.
  - destruct (s_blobs s) as [|e es] eqn:Eb.
    + injection E as <- <- <- <-. by rw -Hidle.
    + apply bind_ret_run in E as (r & E & [= -> -> ->]). apply rtc_once. by eapply step_blob.
  - destruct (s_queue s) as [|b queue] eqn:Eq.
    + injection E as <- <- <- <-. by rw -Hidle.
    + apply bind_ret_run in E as ([c' p] & E & [= -> -> ->]). apply rtc_once. by eapply step_message.
Qed.

(** One input on memory. *)
Lemma mem_step_simulated q hf m m' s :
  implements q hf m s -> mem_step q m m' -> exists s', rtc step s s' /\ implements q hf m' s'.
Proof.
  intros [Hw Hk (h & Hh & Hd & Hown)] [i head category blobs h' w Hi E]. rw Hw Hh in E.
  pose proof (entails_holds _ _ (dispatch_sim i q m s Hk) h Hown hf (s_world s) Hd) as A. unfold queued in A.
  destruct (dispatch i s (s_world s)) as [[[c' category'] es] w'| |] eqn:Ev; [|by rw A in E..].
  destruct A as ([[c1 category1] ps] & h1 & A & Hd1 & Ea & Hown1). rw A in E. injection E as -> -> -> <- <-.
  change (category = category') in Ea. subst category. eexists. split; [by eapply dispatch_step|]. split; cbn; [done..|].
  exists h1. split_and!; [done|done|].
  assert (s_world (after_receive i s) = s_world s) as Hw' by (unfold after_receive; destruct i, (s_queue s); done).
  by rw Hw'.
Qed.

Lemma started_implements q hf w category :
  hf !! q = None -> implements q hf (mem_started q hf w category) (started w category).
Proof.
  intros Hq. split; [done..|]. exists {[q := BArray []]}. split_and!; [done|by apply map_disjoint_singleton_l_2|apply own_daemon_start].
Qed.

(** A run of the daemon on memory is a run on values. *)
Lemma mem_run_simulated q hf m m' s :
  rtc (mem_step q) m m' -> implements q hf m s -> exists s', rtc step s s' /\ implements q hf m' s'.
Proof.
  intros Hrun. revert s. induction Hrun as [|m1 m2 m3 Hstep _ IH]; intros s Hm; [by exists s|].
  destruct (mem_step_simulated _ _ _ _ _ Hm Hstep) as (s1 & Hs1 & Hm1). destruct (IH s1 Hm1) as (s2 & Hs2 & Hm2).
  exists s2. split; [by etrans|done].
Qed.

(** Whatever the input, the values make no heap fault. *)
Lemma dispatch_tame i s : well_formed (s_cache s) -> tame (dispatch i s) any.
Proof.
  intros Hc. destruct i; cbn [dispatch].
  - apply tame_any; [apply issue_event_tame|]. intros a. by apply tame_ret.
  - apply tame_any; [apply webcfg_event_tame|]. intros a. by apply tame_ret.
  - eapply tame_bind; [by apply rdmDownload_tame|]. intros a _. by apply tame_ret.
  - eapply tame_bind; [by apply rdmManager_tame|]. intros a _. by apply tame_ret.
  - apply tame_any; [apply pwrManager_tame|]. intros a. by apply tame_ret.
  - apply tame_any; [apply pwrManager_plugin_tame|]. intros a. by apply tame_ret.
  - apply tame_any; [apply set_handler_tame|]. intros a. by apply tame_ret.
  - apply tame_any; [apply get_handler_tame|]. intros a. by apply tame_ret.
  - destruct (s_blobs s); [by apply tame_ret|]. apply tame_any; [apply request_handler_tame|]. intros a. by apply tame_ret.
  - destruct (s_queue s); [by apply tame_ret|]. eapply tame_bind; [by apply handle_message_tame|]. intros a _. by apply tame_ret.
Qed.
End Simulation.

(** ** The properties *)

(** C3: the daemon on memory refines the daemon on values.  In every state it
    can reach, whatever events arrive in whatever order, the world and the
    category are those of a reachable state of Main, the memory of others is
    untouched, and the rest of the memory is exactly this: the doubly linked
    list of the pending packages of that state, each node with its strings; the
    queue, whose pointers are, in order, the messages that state holds, each with
    its strings; the requests in the web configuration framework with their
    documents; the statuses returned to it; and what the event thread leaves of
    each message it received.  More is left only when an allocation failed.
    (Callbacks and messages are handled one at a time.) *)
Theorem daemon_memory_refines `{OS} `{CJSONLaws} `{CJSONBuild} `{MsgPack} `{Iarm} `{Device}
    (names : forall t p, Forall (fun n => n <> []) (default [] (os_readdir t p))) q hf m :
  hf !! q = None -> mem_reachable q hf m -> exists s, reachable s /\ implements q hf m s.
Proof.
  intros Hq (w & category & Hs & Hrun).
  destruct (mem_run_simulated names _ _ _ _ _ Hrun (started_implements q hf w category Hq)) as (s & Hrun' & Hm).
  exists s. split; [by exists w, category|done].
Qed.

(** A run for the witnesses: an issue without a profile and a web configuration
    arrive and are handled, the request of the configuration is run, and the
    package of the issue is installed; the block 2 belongs to others. *)
Definition sample_inputs : list input :=
  [IssueEvent (Some #"Wifi.Stats"); WebcfgEvent (Some sample_text); MessageReceived; MessageReceived; RequestRun;
   PackageEvent #"RDMMgr" 0 (RdmEvent #"RDK-RRD-Wifi" #"/media/apps/RDK-RRD-Wifi" 5)].
Definition sample_others : memory := {[2%positive := BString #"other"]}.
Definition sample_machine : machine := mem_started 1%positive sample_others (World [] 0) #"all".
Definition sample_run : option machine :=
  @run_inputs sample_event_os sample_event_json sample_build sample_msgpack sample_iarm sample_device 1%positive sample_inputs
    sample_machine.

(** The messages of the run. *)
Definition run_sent (o : option machine) : list (option cstr) :=
  match o with Some m => buf_mdata <$> sent (w_trace (m_world m)) | None => [] end.

Lemma sample_run_sent :
  run_sent sample_run = [Some #"Wifi.Stats"; Some sample_text; Some #"Device.Info,System"; Some #"Wifi.Stats"].
Proof. vm_compute. reflexivity. Qed.

Lemma sample_run_reachable m : sample_run = Some m ->
  @mem_reachable sample_event_os sample_event_json sample_build sample_msgpack sample_iarm sample_device 1%positive sample_others m.
Proof. intros E. exists (World [] 0), #"all". split; [done|]. by eapply run_inputs_steps. Qed.

Lemma daemon_memory_refines_witness :
  exists m s, sample_run = Some m /\
    @reachable sample_event_os sample_event_json sample_build sample_msgpack sample_iarm sample_device s /\
    @implements sample_event_os sample_device 1%positive sample_others m s /\
    buf_mdata <$> (s_received s ++ s_queue s) =
      [Some #"Wifi.Stats"; Some sample_text; Some #"Device.Info,System"; Some #"Wifi.Stats"].
Proof.
  pose proof sample_run_sent as Hsent. destruct sample_run as [m|] eqn:E; [|discriminate Hsent].
  destruct (@daemon_memory_refines sample_event_os sample_event_json (Tree.tree_laws _) sample_build sample_msgpack sample_iarm
    sample_device (fun _ _ => list.Forall_nil_2 _) 1%positive sample_others m eq_refl (sample_run_reachable m E)) as (s & Hs & Hm).
  exists m, s. split; [reflexivity|]. split; [exact Hs|]. split; [exact Hm|].
  destruct (@reachable_invariant sample_event_os sample_event_json (Tree.tree_laws _) sample_build sample_msgpack sample_iarm
    sample_device (fun _ _ => list.Forall_nil_2 _) s Hs) as [_ Hq _].
  unfold history in Hq. rw -Hq -(impl_world _ _ _ _ Hm). exact Hsent.
Defined.

(** C4: heap safety of the daemon when callbacks and the event thread work one
    at a time.  In every state such a run reaches, no handler of a bus, no
    request and no message makes it use a block that was freed, or free one
    twice, whatever the event carries, the system answers and the allocations
    that fail; this includes what the handlers log of a message they just sent.
    (When the event thread handles the message before that log call, the call
    can read freed memory: [late_log] says for which messages.  Reading past the
    end of the web configuration is not a use of a freed block; it ends in
    [OutOfBounds] when the memory ends there.) *)
Theorem daemon_heap_safe `{OS} `{CJSONLaws} `{CJSONBuild} `{MsgPack} `{Iarm} `{Device}
    (names : forall t p, Forall (fun n => n <> []) (default [] (os_readdir t p))) q hf m i :
  hf !! q = None -> mem_reachable q hf m ->
  match dispatch_mem q i m (m_memory m) (m_world m) with
  | Fault f => f <> UseAfterFree /\ f <> DoubleFree
  | _ => True
  end.
Proof.
  intros Hq (w0 & category & Hs & Hrun).
  destruct (mem_run_simulated names _ _ _ _ _ Hrun (started_implements q hf w0 category Hq)) as (s & Hrun' & [Hw Hk (h & Hh & Hd & Hown)]).
  destruct (reachable_invariant names s) as [(l & Hl & _) _ _]; [by exists w0, category|].
  pose proof (dispatch_tame i s (ex_intro _ l Hl) (s_world s)) as T.
  pose proof (entails_holds _ _ (dispatch_sim names i q m s Hk) h Hown hf (s_world s) Hd) as A. unfold queued in A.
  rw Hw Hh. destruct (dispatch i s (s_world s)) as [r w| |f]; [|by rw A|].
  - destruct A as (a & h' & A & _). by rw A.
  - rw A. by destruct f.
Qed.

Lemma daemon_heap_safe_witness :
  exists m, sample_run = Some m /\
    match @dispatch_mem sample_event_os sample_event_json sample_build sample_msgpack sample_iarm sample_device 1%positive
      MessageReceived m (m_memory m) (m_world m) with
    | Fault f => f <> UseAfterFree /\ f <> DoubleFree
    | _ => True
    end.
Proof.
  pose proof sample_run_sent as Hsent. destruct sample_run as [m|] eqn:E; [|discriminate Hsent]. exists m. split; [reflexivity|].
  apply (@daemon_heap_safe sample_event_os sample_event_json (Tree.tree_laws _) sample_build sample_msgpack sample_iarm sample_device
    (fun _ _ => list.Forall_nil_2 _) 1%positive sample_others m MessageReceived eq_refl (sample_run_reachable m E)).
Defined.
