(* ===== verification/UnitTests.v ===== *)
(** * UnitTests: the unit tests of the repository on the model
    (src/unittest/rrdUnitTestRunner.cpp)

    Each test is a computation of a truth value, named after its suite and its
    test, that makes the calls of the test and compares what the test compares.
    The tests left out only call their mocks, pass a pointer that is a value
    here (a [NULL] message), or follow the branches of the test build
    ([GTEST_ENABLE]), which is not modelled.  What the mocks and the files of
    the tests answer is the system [test_os]; the documents are trees, and
    [test_parse] knows the texts that the tests parse. *)

From stdpp Require Import gmap.
From S2P Require Import Prelude Types OS CJson CommandSanity IssueType Cache RunCmd Upload Profile Dynamic Queue EventProcess.

Local Open Scope Z_scope.

(** ** What the tests run on *)

Notation "a === b" := (bool_decide (a = b)) (at level 70, no associativity).

(** The result of a call that returns, from the start. *)
Definition expect {A} (m : M A) (p : A -> bool) : bool :=
  match m (World [] 0) with Ret a _ => p a | _ => false end.

(** The calls that act on the outside, as well. *)
Definition expect_calls {A} (m : M A) (p : A -> trace -> bool) : bool :=
  match m (World [] 0) with Ret a w => p a (w_trace w) | _ => false end.

Definition TAB : ascii := "009"%char.

(** A pointer that is not [NULL]. *)
Definition given {A} (r : option A) : bool := match r with Some _ => true | None => false end.

(** The files of the directory UTJson. *)
Definition valid_text : cstr := #"{ " ++ DQUOTE :: #"key" ++ DQUOTE :: #" : " ++ DQUOTE :: #"value" ++ DQUOTE :: #" }".
Definition invalid_text : cstr := #"{ " ++ DQUOTE :: #"key : " ++ DQUOTE :: #"value" ++ DQUOTE :: #" }".

Definition test_file (p : cstr) : option cstr :=
  if streq p #"UTJson/validJson.json" then Some valid_text
  else if streq p #"UTJson/invalidJson.json" then Some invalid_text
  else if streq p #"UTJson/emptyJson.json" then Some []
  else None.

#[local] Instance test_os : OS := demo_os {|
  demo_stat := fun _ => None; demo_dir := fun _ => None; demo_file := test_file;
  demo_popen := fun _ => None; demo_lock := fun _ => LockGranted; demo_upload := 0 |}.

Definition valid_tree : Tree.node := Tree.obj [Tree.field #"key" (Tree.VStr #"value")].

(** What cJSON prints for an object of scalars. *)
Definition print_field (n : Tree.node) : cstr :=
  TAB :: json_quote (default [] (Tree.node_name n)) ++ ":"%char :: TAB :: default [] (Tree.print (Some n)).
Definition print_tree (j : option Tree.node) : option cstr :=
  match j with
  | Some (Tree.Node _ (Tree.VObj l)) =>
      Some (#"{" ++ NEWLINE :: join [","%char; NEWLINE] (print_field <$> l) ++ NEWLINE :: #"}")
  | _ => Tree.print j
  end.

Definition test_parse (s : cstr) : option Tree.node :=
  if streq s valid_text || (print_tree (Some valid_tree) === Some s) then Some valid_tree else None.

#[local] Instance test_json : CJSON := {|
  json := Tree.node; json_kind := Tree.kind; json_valueint := Tree.valueint; json_string := Tree.node_name;
  cJSON_GetObjectItem := Tree.get_object; cJSON_GetArraySize := Tree.array_size;
  cJSON_GetArrayItem := Tree.array_item; cJSON_Print := print_tree; cJSON_Parse := test_parse |}.

#[local] Instance test_device : Device := {| IARMBUS_SUPPORT := false; RRD_DEVICE_PROFILE := []; deviceType := None |}.

(** A message whose other fields a test does not set. *)
Definition test_buf (mdata jsonPath : option cstr) (inDynamic : bool) : data_buf :=
  DataBuf DEFAULT mdata jsonPath inDynamic false RRD_DEEPSLEEP_INVALID_DEFAULT None.

(** ** rrdJsonParser *)

Definition GetParamCountTest_GetParamCount : bool := getParamcount #"abc.def.ghi" === 2%nat.
Definition GetParamCountTest_GetParamCountEmptyString : bool := getParamcount [] === 0%nat.
Definition GetParamCountTest_GetParamCountNoDot : bool := getParamcount #"hello" === 0%nat.
Definition GetParamCountTest_GetParamCountMultipleConsecutiveDots : bool := getParamcount #"x..y" === 2%nat.

Definition RemoveSpecialCharTest_RemoveSpecialCharEmptyString : bool := streq (removeSpecialChar []) [].
Definition RemoveSpecialCharTest_RemoveSpecialCharWithCarriageReturn : bool :=
  streq (removeSpecialChar (#"hello" ++ "013"%char :: #"world")) #"hello".
Definition RemoveSpecialCharTest_RemoveSpecialCharWithNewLine : bool :=
  streq (removeSpecialChar (#"line1" ++ NEWLINE :: #"line2")) #"line1".

Definition ReadJsonFileTest_ReadValidJsonFile : bool := expect (readJsonFile #"UTJson/validJson.json") given.
Definition ReadJsonFileTest_ReadEmptyFile : bool := expect (readJsonFile #"UTJson/emptyJson.json") (fun r => r === None).
Definition ReadJsonFileTest_HandleFileReadError : bool := expect (readJsonFile #"non_existent_file.json") (fun r => r === None).

Definition ReadAndParseJSONTest_ParsesJsonFileCorrectly : bool :=
  expect (readAndParseJSON #"UTJson/validJson.json") (fun r =>
    print_tree r === print_tree (Some (Tree.obj [Tree.field #"key" (Tree.VStr #"value")]))).
Definition ReadAndParseJSONTest_ReturnsNullForInvalidJsonFile : bool :=
  expect (readAndParseJSON #"UTJson/invalidJson.json") (fun r => negb (given r)).
Definition ReadAndParseJSONTest_ReturnsNullForNonexistentFile : bool :=
  expect (readAndParseJSON #"UTJson/non_existent.json") (fun r => negb (given r)).

Definition GetIssueInfoTest_HandlesNormalInput : bool :=
  expect (getIssueInfo #"MainNode.SubNode") (fun n => (Node n === Some #"MainNode") && (subNode n === Some #"SubNode")).
Definition GetIssueInfoTest_HandlesInputWithoutSubnode : bool :=
  expect (getIssueInfo #"MainNode") (fun n => (Node n === Some #"MainNode") && (subNode n === None)).

Definition FindIssueInParsedJSONTest : option json :=
  Some (Tree.obj [Tree.field #"MainNode" (Tree.VObj [Tree.field #"SubNode" (Tree.VStr #"value")])]).
Definition FindIssueInParsedJSONTest_HandlesNormalInput : bool :=
  findIssueInParsedJSON (IssueNode (Some #"MainNode") (Some #"SubNode")) FindIssueInParsedJSONTest.
Definition FindIssueInParsedJSONTest_HandlesNullNode : bool :=
  negb (findIssueInParsedJSON (IssueNode None (Some #"SubNode")) FindIssueInParsedJSONTest).
Definition FindIssueInParsedJSONTest_HandlesNullSubNode : bool :=
  findIssueInParsedJSON (IssueNode (Some #"MainNode") None) FindIssueInParsedJSONTest.
Definition FindIssueInParsedJSONTest_HandlesNonexistentNode : bool :=
  negb (findIssueInParsedJSON (IssueNode (Some #"NonexistentNode") (Some #"SubNode")) FindIssueInParsedJSONTest).
Definition FindIssueInParsedJSONTest_HandlesNonexistentSubNode : bool :=
  negb (findIssueInParsedJSON (IssueNode (Some #"MainNode") (Some #"NonexistentSubNode")) FindIssueInParsedJSONTest).

(** The fixtures of the commands of an issue. *)
Definition test_node : issueNodeData := IssueNode (Some #"testNode") (Some #"testSubNode").
Definition InvokeSanityandCommandExecTest (items : list Tree.node) : option json :=
  Some (Tree.obj [Tree.field #"DEEP_SLEEP_STR"
    (Tree.VObj [Tree.field #"testNode" (Tree.VObj [Tree.field #"testSubNode" (Tree.VArr items)])])]).
Definition num (z : Z) : Tree.node := Tree.Node None (Tree.VNum z).
Definition invoke_fails (items : list Tree.node) (deepSleepAwkEvnt : bool) : bool :=
  expect (invokeSanityandCommandExec test_node (InvokeSanityandCommandExecTest items) #"testBuffer" deepSleepAwkEvnt)
    (fun r => negb r.1).
Definition InvokeSanityandCommandExecTest_DeepSleepAwkEvntTrue_TypeIsNumber_CommandIsNull : bool := invoke_fails [num 123] true.
Definition InvokeSanityandCommandExecTest_DeepSleepAwkEvntFalse_TypeIsNumber_CommandIsNull : bool := invoke_fails [num 123] false.
Definition InvokeSanityandCommandExecTest_DeepSleepAwkEvntTrue_TypeIsString_CommandIsNull : bool :=
  invoke_fails [Tree.str #"dummyCommand"] true.
Definition InvokeSanityandCommandExecTest_DeepSleepAwkEvntTrue_TypeIsNumber_CommandIsNotNull_IsCommandsValidReturnsZero : bool :=
  invoke_fails [num 123; Tree.str #"commandThatIsNotInSanityList"] true.
Definition InvokeSanityandCommandExecTest_DeepSleepAwkEvntTrue_TypeIsString_CommandIsNotNull_IsCommandsValidReturnsNonZero : bool :=
  invoke_fails [Tree.str #"command&"] true.

Definition ProcessAllDebugCommandTest (jsoncfg : list Tree.node) : bool :=
  expect (processAllDebugCommand (Some (Tree.obj jsoncfg)) test_node #"testBuffer") (fun r => negb r.1).
Definition ProcessAllDebugCommandTest_MainnodeIsNull : bool := ProcessAllDebugCommandTest [].
Definition ProcessAllDebugCommandTest_MainnodenameIsNull : bool :=
  ProcessAllDebugCommandTest [Tree.field #"testNode" Tree.VNull].
Definition ProcessAllDebugCommandTest_SubitemsIsZero : bool := ProcessAllDebugCommandTest [Tree.field #"testNode" (Tree.VObj [])].
Definition ProcessAllDebugCommandTest_InvokeSanityandCommandExecReturnsFalse : bool :=
  ProcessAllDebugCommandTest [Tree.field #"DEEP_SLEEP_STR"
    (Tree.VObj [Tree.field #"testNode" (Tree.VObj [Tree.field #"testSubNode" (Tree.VArr [num 1; Tree.str #"invalidCommand"])])])].

Definition ProcessAllDeepSleepAwkMetricsCommandsTest (v : Tree.value) : bool :=
  expect (processAllDeepSleepAwkMetricsCommands
      (Some (Tree.obj [Tree.field #"testNode" (Tree.VObj [Tree.field #"subNode" v])])) test_node #"testBuffer") (fun r => negb r.1).
Definition ProcessAllDeepSleepAwkMetricsCommandsTest_IssueCategoryCountIsZero : bool :=
  ProcessAllDeepSleepAwkMetricsCommandsTest (Tree.VArr []).
Definition ProcessAllDeepSleepAwkMetricsCommandsTest_IssueTypeCountIsZero_InvokeSanityandCommandExecReturnsFalse : bool :=
  ProcessAllDeepSleepAwkMetricsCommandsTest (Tree.VArr []).
Definition ProcessAllDeepSleepAwkMetricsCommandsTest_IssueTypeCountIsZero : bool :=
  ProcessAllDeepSleepAwkMetricsCommandsTest (Tree.VObj []).

(** ** rrdCommandSanity *)

Definition UpdateBackgroundCmdTest_ReturnsOneForNullInput : bool := (updateBackgroundCmd None).1 === 1.
Definition UpdateBackgroundCmdTest_UpdatesBackgroundCmdCorrectly : bool :=
  updateBackgroundCmd (Some #"command&;") === (0, Some #"command& ").
Definition UpdateBackgroundCmdTest_DoesNothingForStringWithoutAmpersandSemicolon : bool :=
  updateBackgroundCmd (Some #"command") === (0, Some #"command").

Definition IsCommandsValidTest : option json := Some (Tree.arr [Tree.str #"kill"]).
Definition IsCommandsValidTest_ReturnsZeroForValidCommand : bool :=
  expect (isCommandsValid #"ls -l" IsCommandsValidTest) (fun r => r.1 === 0).
Definition IsCommandsValidTest_ReturnsZeroForBackgroundCommand : bool :=
  expect (isCommandsValid #"ls -lh &;" IsCommandsValidTest) (fun r => (r.1 === 0) && (r.2 === #"ls -lh & ")).

Definition ReplaceRRDLocationTest_TestReplaceRRDLocation_SubstringExists : bool :=
  expect (replaceRRDLocation #"ls RRD_LOCATION" #"/new/dir") (fun r => r === Some #"ls /new/dir").
Definition ReplaceRRDLocationTest_TestReplaceRRDLocation_SubstringNotExists : bool :=
  expect (replaceRRDLocation #"ls /default/dir" #"/new/dir") (fun r => r === Some #"ls /default/dir").

(** ** rrdDeepSleep *)

Definition RRDGetProfileStringLengthTest (node : option cstr) (result : Z) : bool :=
  expect (RRDGetProfileStringLength (IssueNode node (Some #"SubNode")) false) (fun r => r === result).
Definition RRDGetProfileStringLengthTest_HandlesIsDeepSleepAwakeEventFalse : bool :=
  RRDGetProfileStringLengthTest (Some #"MainNode")
    (Z.of_nat (length RDM_PKG_PREFIX + length #"MainNode" + length RDM_PKG_SUFFIX + 1)).
Definition RRDGetProfileStringLengthTest_HandlesNullNodeField : bool := RRDGetProfileStringLengthTest None (-1).
Definition RRDGetProfileStringLengthTest_HandlesNodeLengthExceedsMax : bool :=
  RRDGetProfileStringLengthTest (Some (replicate (RRD_DYNAMIC_PROFILE_MAX_LENGTH + 9) "A"%char)) (-1).

Definition RRDCheckIssueInDynamicProfileTest (node : issueNodeData) (jsonPath : option cstr) (inDynamic : bool)
    (result : option cstr) : bool :=
  expect (RRDCheckIssueInDynamicProfile (test_buf None jsonPath inDynamic) node) (fun r => r.1 === result).
Definition RRDCheckIssueInDynamicProfileTest_InDynamicIsFalse : bool :=
  RRDCheckIssueInDynamicProfileTest (IssueNode None None) None false None.
Definition RRDCheckIssueInDynamicProfileTest_InDynamicIsTrue_PathDoesNotExist : bool :=
  RRDCheckIssueInDynamicProfileTest (IssueNode None None) None true None.
Definition RRDCheckIssueInDynamicProfileTest_InDynamicIsTrue_PathExists_ReadAndParseJSONReturnsNull : bool :=
  RRDCheckIssueInDynamicProfileTest (IssueNode None None) (Some #"UTJson/emptyJson.json") true None.
Definition RRDCheckIssueInDynamicProfileTest_InDynamicIsTrue_PathExists_ReadAndParseNonNull_FindIssueFalse : bool :=
  RRDCheckIssueInDynamicProfileTest (IssueNode None None) (Some #"UTJson/validJson.json") true None.
Definition RRDCheckIssueInDynamicProfileTest_InDynamicIsTrue_PathExists_ReadAndParseNonNull_FindIssueTrue : bool :=
  RRDCheckIssueInDynamicProfileTest (IssueNode (Some #"key") None) (Some #"UTJson/validJson.json") true
    (Some (#"{" ++ [NEWLINE; TAB; DQUOTE] ++ #"key" ++ [DQUOTE; ":"%char; TAB; DQUOTE] ++ #"value" ++ [DQUOTE; NEWLINE] ++ #"}")).

(** The bus is called exactly once, and answers [status]. *)
Definition set_once (t : trace) (status : Z) : bool :=
  match t with [EvRbus (RbusSet _ _) s] => s === status | _ => false end.
Definition rbus_answers (status : Z) : OS := with_bus (fun _ _ => status) (fun _ _ => None) (fun _ _ => 0) (fun _ _ => true) test_os.
Definition RRDRdmManagerDownloadRequestTest (status : Z) (mdata : option cstr) (appendMode isDeepSleepAwakeEvent : bool) : bool :=
  expect_calls (@RRDRdmManagerDownloadRequest (rbus_answers status) test_device (IssueNode (Some #"MainNode") (Some #"SubNode"))
      (set_appendMode appendMode (test_buf mdata (Some #"UTJson/validJson.json") false)) isDeepSleepAwakeEvent initCache)
    (fun _ t => set_once t status).
Definition RRDRdmManagerDownloadRequestTest_DeepSleepAwakeEventIsFalse_SetParamReturnsFailure : bool :=
  RRDRdmManagerDownloadRequestTest 1 None false false.
Definition RRDRdmManagerDownloadRequestTest_DeepSleepAwakeEventIsTrue_SetParamReturnsFailure : bool :=
  RRDRdmManagerDownloadRequestTest 1 None false true.
Definition RRDRdmManagerDownloadRequestTest_DeepSleepAwakeEventIsFalse_SetParamReturnsSuccess : bool :=
  RRDRdmManagerDownloadRequestTest 0 (Some #"ValidIssueTypeData") false false.
Definition RRDRdmManagerDownloadRequestTest_HandlesAppendModeTrue : bool :=
  RRDRdmManagerDownloadRequestTest 0 (Some #"ValidIssueTypeData") true false.

Definition RRDProcessDeepSleepAwakeEventsTest (mdata : option cstr) (dsEvent : deepsleep_event_et) (inDynamic : bool) : bool :=
  expect (RRDProcessDeepSleepAwakeEvents (DataBuf DEFAULT mdata None inDynamic false dsEvent None) initCache) (fun _ => true).
Definition RRDProcessDeepSleepAwakeEventsTest_RbufDataNull : bool :=
  RRDProcessDeepSleepAwakeEventsTest None RRD_DEEPSLEEP_INVALID_DEFAULT false.
Definition RRDProcessDeepSleepAwakeEventsTest_RbufDsEventIsInvalidDefault : bool :=
  RRDProcessDeepSleepAwakeEventsTest (Some #"Sample data") RRD_DEEPSLEEP_INVALID_DEFAULT false.
Definition RRDProcessDeepSleepAwakeEventsTest_RbufDsEventIsRdmDownloadPkgInitiateSetParamSuccess : bool :=
  RRDProcessDeepSleepAwakeEventsTest (Some #"IssueNode") RRD_DEEPSLEEP_RDM_DOWNLOAD_PKG_INITIATE false.
Definition RRDProcessDeepSleepAwakeEventsTest_RbufDsEventIsRdmDownloadPkgInitiateSetParamFail : bool :=
  RRDProcessDeepSleepAwakeEventsTest (Some #"IssueNode") RRD_DEEPSLEEP_RDM_DOWNLOAD_PKG_INITIATE false.
Definition RRDProcessDeepSleepAwakeEventsTest_RbufDsEventIsRdmPkgInstallCompleteInDynamicFalse : bool :=
  RRDProcessDeepSleepAwakeEventsTest (Some #"IssueNode") RRD_DEEPSLEEP_RDM_PKG_INSTALL_COMPLETE false.
Definition RRDProcessDeepSleepAwakeEventsTest_RbufDsEventIsRdmPkgInstallCompleteInDynamicTrue : bool :=
  RRDProcessDeepSleepAwakeEventsTest (Some #"IssueNode") RRD_DEEPSLEEP_RDM_PKG_INSTALL_COMPLETE true.

(** ** rrdExecuteScript *)

Definition NormalizeIssueNameTest_HandlesEmptyString : bool := streq (normalizeIssueName []) [].
Definition NormalizeIssueNameTest_HandlesStringWithNoDot : bool := streq (normalizeIssueName #"issuedata") #"issuedata".
Definition NormalizeIssueNameTest_HandlesStringWithOnlyDot : bool := streq (normalizeIssueName #".") #"_".
Definition NormalizeIssueNameTest_HandlesStringWithOneDot : bool :=
  streq (normalizeIssueName #"issuedata.issuetype") #"issuedata_issuetype".
Definition NormalizeIssueNameTest_HandlesStringWithConsecutiveDots : bool :=
  streq (normalizeIssueName #"issuedata...issuetype") #"issuedata___issuetype".

Definition UploadDebugoutputTest_HandlesNullParameters : bool := expect (uploadDebugoutput None None) (fun r => r.1 === 0).

Definition UploadDebugoutputTest_HandlesGoodPath : bool :=
  expect (@uploadDebugoutput test_os {| IARMBUS_SUPPORT := true; RRD_DEVICE_PROFILE := []; deviceType := None |}
    (Some #"/sample/good_path") (Some #"issuename")) (fun r => negb (r.1 === 0)).

(** ** rrdRunCmdThread *)

Definition InitCacheTest_InitializesMutexAndSetsPointerToNull : bool := cacheDataNode initCache === None.

(** A list of one node, which a test builds by hand. *)
Definition one_node (pkg issue : cstr) : cache := Cache {[1%positive := CacheData (Some pkg) (Some issue) None None]} (Some 1%positive).

Definition PrintItemsTest_HandlesNullNode : bool := expect (print_items None initCache) (fun r => r === []).
Definition PrintItemsTest_HandlesNonNullNode : bool :=
  expect (print_items (Some 1%positive) (one_node #"mdata" #"issueString")) (fun r => r === [(Some #"mdata", Some #"issueString")]).

(** The node [p] has these strings. *)
Definition node_is (c : cache) (p : option loc) (pkg issue : option cstr) (linked : cacheData -> bool) : bool :=
  match p with
  | Some p => match heap c !! p with
              | Some n => (mdata n === pkg) && (issueString n === issue) && linked n
              | None => false
              end
  | None => false
  end.
Definition CreateCacheTest (pkg issue : option cstr) : bool :=
  expect (createCache pkg issue initCache) (fun r => node_is r.2 r.1 pkg issue (fun n => (next n === None) && (prev n === None))).
Definition CreateCacheTest_HandlesNullPkgDataAndValidIssueTypeData : bool := CreateCacheTest None (Some #"ValidIssueTypeData").
Definition CreateCacheTest_HandlesValidPkgDataAndIssueTypeData : bool :=
  CreateCacheTest (Some #"ValidPkgData") (Some #"ValidIssueTypeData").
Definition CreateCacheTest_HandlesValidPkgDataAndNullIssueTypeData : bool := CreateCacheTest (Some #"ValidPkgData") None.
Definition CreateCacheTest_HandlesNullPkgDataAndIssueTypeData : bool := CreateCacheTest None None.

Definition AppendItemTest (c : cache) (pkg issue : option cstr) : bool :=
  expect (append_item pkg issue c) (fun c => node_is c (cacheDataNode c) pkg issue (fun _ => true)).
Definition existing : cache := one_node #"ExistingPkgData" #"ExistingIssueTypeData".
Definition AppendItemTest_HandlesRrdCachecnodeNullAndPkgDataNullAndIssueTypeDataNull : bool := AppendItemTest initCache None None.
Definition AppendItemTest_HandlesRrdCachecnodeNullAndPkgDataNullAndIssueTypeDataNotNull : bool :=
  AppendItemTest initCache None (Some #"ValidIssueTypeData").
Definition AppendItemTest_HandlesRrdCachecnodeNullAndPkgDataNotNullAndIssueTypeDataNull : bool :=
  AppendItemTest initCache (Some #"ValidPkgData") None.
Definition AppendItemTest_HandlesRrdCachecnodeNullAndPkgDataAndIssueTypeDataNotNull : bool :=
  AppendItemTest initCache (Some #"ValidPkgData") (Some #"ValidIssueTypeData").
Definition AppendItemTest_HandlesRrdCachecnodeNotNullAndPkgDataNullAndIssueTypeDataNull : bool := AppendItemTest existing None None.
Definition AppendItemTest_HandlesRrdCachecnodeNotNullAndPkgDataNullAndIssueTypeDataNotNull : bool :=
  AppendItemTest existing None (Some #"ValidIssueTypeData").
Definition AppendItemTest_HandlesRrdCachecnodeNotNullAndPkgDataNotNullAndIssueTypeDataNull : bool :=
  AppendItemTest existing (Some #"ValidPkgData") None.
Definition AppendItemTest_HandlesRrdCachecnodeNotNullAndPkgDataAndIssueTypeDataNotNull : bool :=
  AppendItemTest existing (Some #"ValidPkgData") (Some #"ValidIssueTypeData").

Definition RemoveQuotesTest_null_string : bool := removeQuotes None === None.
Definition hello_world : cstr := #"Hello " ++ DQUOTE :: #"World" ++ [DQUOTE].
Definition RemoveQuotesTest_HandlesQuotesAndEscapedQuotes : bool :=
  removeQuotes (Some (DQUOTE :: #"Hello " ++ [BACKSLASH; DQUOTE] ++ #"World" ++ [BACKSLASH; DQUOTE; DQUOTE])) === Some hello_world.
Definition RemoveQuotesTest_HandlesSurroundingQuotes : bool :=
  removeQuotes (Some (DQUOTE :: #"Hello World" ++ [DQUOTE])) === Some #"Hello World".
Definition RemoveQuotesTest_HandlesEscapedQuotesWithoutSurroundingQuotes : bool :=
  removeQuotes (Some (#"Hello " ++ [BACKSLASH; DQUOTE] ++ #"World" ++ [BACKSLASH; DQUOTE])) === Some hello_world.
Definition RemoveQuotesTest_HandlesStringWithoutQuotes : bool := removeQuotes (Some #"Hello World") === Some #"Hello World".
Definition RemoveQuotesTest_HandlesEmptyString : bool := removeQuotes (Some []) === Some [].

(** Nothing is written to the destination. *)
Definition CopyDebugLogDestFileTest_HandlesEmptySource : bool :=
  expect_calls (copyDebugLogDestFile (Some []) #"destination") (fun _ t => match t with [] => true | _ => false end).

Definition FindPresentInCacheTest_HandlesPkgDataFoundInSecondElement : bool :=
  expect (findPresentInCache #"SecondPkgData"
    (Cache (<[1%positive := CacheData (Some #"FirstPkgData") (Some #"FirstIssueString") (Some 2%positive) None]>
            {[2%positive := CacheData (Some #"SecondPkgData") (Some #"SecondIssueString") None None]}) (Some 1%positive)))
    (fun r => r === Some 2%positive).
Definition FindPresentInCacheTest_HandlesPkgDataFoundInFirstElement : bool :=
  expect (findPresentInCache #"PkgData" (one_node #"PkgData" #"IssueString")) (fun r => r === Some 1%positive).
Definition FindPresentInCacheTest_HandlesRrdCachecnodeNull : bool :=
  expect (findPresentInCache #"PkgData" initCache) (fun r => r === None).
Definition FindPresentInCacheTest_HandlesPkgDataNotFoundInRrdCachecnode : bool :=
  expect (findPresentInCache #"NonExistentPkgData" (one_node #"PkgData" #"IssueString")) (fun r => r === None).

Definition RemoveItemTest_HandlesCacheNull : bool := expect (remove_item None initCache) (fun c => cacheDataNode c === None).
Definition RemoveItemTest_HandlesCacheNotNullAndCacheEqualsRrdCachecnode : bool :=
  expect (remove_item (Some 1%positive) (one_node #"PkgData" #"IssueString")) (fun c => cacheDataNode c === None).
Definition RemoveItemTest_HandlesCacheNotNullAndCacheNotEqualsRrdCachecnode : bool :=
  expect (remove_item (Some 2%positive)
      (write_node 2%positive (CacheData (Some #"PkgData") (Some #"IssueString") None None) (one_node #"PkgData" #"IssueString")))
    (fun c => given (cacheDataNode c)).

(** ** rrdEventProcess *)

Definition RemoveSpecialCharacterfromIssueTypeListTest_HandlesEmptyString : bool :=
  streq (removeSpecialCharacterfromIssueTypeList []) [].
Definition RemoveSpecialCharacterfromIssueTypeListTest_HandlesStringWithCommaAndDot : bool :=
  streq (removeSpecialCharacterfromIssueTypeList #"a,b.c") #"a,b.c".
Definition RemoveSpecialCharacterfromIssueTypeListTest_HandlesStringWithoutCommaAndDot : bool :=
  streq (removeSpecialCharacterfromIssueTypeList #"abc") #"abc".
Definition RemoveSpecialCharacterfromIssueTypeListTest_HandlesStringWithConsecutiveSpecialCharacters : bool :=
  streq (removeSpecialCharacterfromIssueTypeList #"a^&b") #"ab" && streq (removeSpecialCharacterfromIssueTypeList #"^x") #"x".

Definition IssueTypeSplitterTest_HandlesStringWithSpecialCharacters : bool :=
  expect (issueTypeSplitter (Some #"a@,b,&,cd,ef") ",") (fun args => args === [ #"a@"; #"b"; #"&"; #"cd"; #"ef"]).
Definition IssueTypeSplitterTest_HandlesStringWithNoSpecialCharacters : bool :=
  expect (issueTypeSplitter (Some #"abcd") ",") (fun args => args === [ #"abcd"]).
Definition IssueTypeSplitterTest_HandlesEmptyString : bool :=
  expect (issueTypeSplitter (Some []) ",") (fun args => length args === 1%nat).

(** Two buffers that hold the empty string before, and what a test compares
    after. *)
Definition SplitIssueTypeTest (input base : option cstr) (base_len : nat) (suffix : option cstr) (suffix_len : nat)
    (base' suffix' : option cstr) : bool :=
  let r := split_issue_type input base base_len suffix suffix_len in
  match base' with Some s => (r.1 : option cstr) === Some s | None => true end &&
  match suffix' with Some s => (r.2 : option cstr) === Some s | None => true end.
Definition SplitIssueTypeTest_NoUnderscoreReturnsFull : bool :=
  SplitIssueTypeTest (Some #"Device.DeviceTime") (Some []) 64 (Some []) 64 (Some #"Device.DeviceTime") (Some []).
Definition SplitIssueTypeTest_UnderscoreSplitsBaseAndSuffix : bool :=
  SplitIssueTypeTest (Some #"Device.DeviceTime_ab12345") (Some []) 64 (Some []) 64 (Some #"Device.DeviceTime") (Some #"_ab12345").
Definition SplitIssueTypeTest_MultipleUnderscoresSplitsAtFirst : bool :=
  SplitIssueTypeTest (Some #"abc_def_ghi") (Some []) 64 (Some []) 64 (Some #"abc") (Some #"_def_ghi").
Definition SplitIssueTypeTest_EmptyInputProducesEmptyOutputs : bool :=
  SplitIssueTypeTest (Some []) (Some []) 64 (Some []) 64 (Some []) (Some []).
Definition SplitIssueTypeTest_NullInputDoesNotCrash : bool :=
  SplitIssueTypeTest (None) (Some []) 64 (Some []) 64 (Some []) (Some []).
Definition SplitIssueTypeTest_BaseTruncatedWhenTooSmall : bool :=
  SplitIssueTypeTest (Some #"abc_suffix") (Some []) 4 (Some []) 64 (Some #"abc") (Some #"_suffix").
Definition SplitIssueTypeTest_SuffixTruncatedWhenTooSmall : bool :=
  SplitIssueTypeTest (Some #"abc_12345678") (Some []) 64 (Some []) 5 (Some #"abc") (Some #"_123").
Definition SplitIssueTypeTest_LeadingUnderscoreGivesEmptyBase : bool :=
  SplitIssueTypeTest (Some #"_suffixonly") (Some []) 64 (Some []) 64 (Some []) (Some []).
Definition SplitIssueTypeTest_NullBaseDoesNotCrash : bool :=
  SplitIssueTypeTest (Some #"Device.DeviceTime_Search") None 64 (Some []) 64 None (Some []).
Definition SplitIssueTypeTest_NullSuffixDoesNotCrash : bool :=
  SplitIssueTypeTest (Some #"Device.DeviceTime_Search") (Some []) 64 None 64 (Some []) None.
Definition SplitIssueTypeTest_ZeroBaseLenDoesNotCrash : bool :=
  SplitIssueTypeTest (Some #"abc_def") (Some []) 0 (Some []) 64 (Some []) (Some []).
Definition SplitIssueTypeTest_ZeroSuffixLenDoesNotCrash : bool :=
  SplitIssueTypeTest (Some #"abc_def") (Some []) 64 (Some []) 0 (Some []) (Some []).
Definition SplitIssueTypeTest_ExactFitBase : bool :=
  SplitIssueTypeTest (Some #"abc_suffix") (Some []) 4 (Some []) 64 (Some #"abc") (Some #"_suffix").
Definition SplitIssueTypeTest_OnlyUnderscoreInput : bool :=
  SplitIssueTypeTest (Some #"_") (Some []) 64 (Some []) 64 (Some []) (Some #"_").
Definition SplitIssueTypeTest_NineCharSuffixIsAccepted : bool :=
  SplitIssueTypeTest (Some #"Device.DeviceTime_12345678") (Some []) 64 (Some []) 64 (Some #"Device.DeviceTime") (Some #"_12345678").
Definition SplitIssueTypeTest_LongSuffixIsDiscarded : bool :=
  SplitIssueTypeTest (Some #"Device.DeviceInfo_1234567890") (Some []) 64 (Some []) 128 (Some #"Device.DeviceInfo") (Some []).
Definition SplitIssueTypeTest_SuffixExceedingMaxLengthDiscarded : bool :=
  SplitIssueTypeTest (Some #"Device.DeviceTime_Random-token") (Some []) 64 (Some []) 64 (Some #"Device.DeviceTime") (Some []).
Definition SplitIssueTypeTest_SuffixSeventeenCharsDiscarded : bool :=
  SplitIssueTypeTest (Some #"abc_Search_something") (Some []) 64 (Some []) 64 (Some #"abc") (Some []).
Definition SplitIssueTypeTest_SuffixTwentyCharsDiscarded : bool :=
  SplitIssueTypeTest (Some #"abc_LogSearch_something") (Some []) 64 (Some []) 64 (Some #"abc") (Some []).
Definition SplitIssueTypeTest_SuffixWithUnsafeCharsIsSanitized : bool :=
  SplitIssueTypeTest (Some #"Device.DeviceTime_ab;rm") (Some []) 64 (Some []) 64 (Some #"Device.DeviceTime") (Some #"_abrm").
Definition SplitIssueTypeTest_SuffixWithOnlyUnsafeCharsBecomesUnderscore : bool :=
  SplitIssueTypeTest (Some #"abc_!@#") (Some []) 64 (Some []) 64 (Some #"abc") (Some #"_").
Definition SplitIssueTypeTest_SuffixHyphensPreserved : bool :=
  SplitIssueTypeTest (Some #"Device.DeviceTime_ab-cd") (Some []) 64 (Some []) 64 (Some #"Device.DeviceTime") (Some #"_ab-cd").

Definition ProcessIssueTypeInDynamicProfileTest (jsonPath : option cstr) : bool :=
  expect (processIssueTypeInDynamicProfile (test_buf (Some #"testData") jsonPath false) test_node)
    (fun r => (buf_mdata r.1 === None) && (Types.jsonPath r.1 === None)).
Definition ProcessIssueTypeInDynamicProfileTest_JsonPathIsNull : bool := ProcessIssueTypeInDynamicProfileTest None.
Definition ProcessIssueTypeInDynamicProfileTest_JsonPathIsNotNull_ReadAndParseJSONReturnsNull : bool :=
  ProcessIssueTypeInDynamicProfileTest (Some #"UTJson/invalidJson.json").
Definition ProcessIssueTypeInDynamicProfileTest_JsonPathIsNotNull_ReadAndParseJSONReturnsNotNull_FindIssueInParsedJSONReturnsFalse : bool :=
  ProcessIssueTypeInDynamicProfileTest (Some #"UTJson/validJson.json").

(** The call returns. *)
Definition ProcessIssueTypeEvntTest (mdata : cstr) (inDynamic : bool) : bool :=
  expect (processIssueTypeEvent (test_buf (Some mdata) None inDynamic) initCache) (fun _ => true).
Definition ProcessIssueTypeEvntTest_inDynamic_NoJson : bool := ProcessIssueTypeEvntTest #"a" true.
Definition ProcessIssueTypeEvntTest_IssueTypeWithSearchSuffix_inDynamic_NoJson : bool :=
  ProcessIssueTypeEvntTest #"Device.DeviceTime_Search-b6877385-9463-45fc-b19d-a24d77fd0790" true.
Definition ProcessIssueTypeEvntTest_IssueTypeWithLogSearchSuffix_inDynamic_NoJson : bool :=
  ProcessIssueTypeEvntTest #"Device.DeviceInfo_LogSearch-9abc1def-0000-1111-2222-3333aaaabbbb" true.
Definition ProcessIssueTypeEvntTest_MultipleIssueTypesWithAndWithoutSuffix : bool :=
  ProcessIssueTypeEvntTest #"Device.DeviceTime,Device.DeviceInfo_Search-1234,Device.Net_BadSuffix" true.
Definition ProcessIssueTypeEvntTest_WhitespaceOnlyIssueTypeIsSkipped : bool := ProcessIssueTypeEvntTest #" " false.
Definition ProcessIssueTypeEvntTest_EmptyStringIssueTypeIsSkipped : bool := ProcessIssueTypeEvntTest [] false.

Definition processIssueTypeTest (mdata : option cstr) (inDynamic : bool) : bool :=
  expect (processIssueType (test_buf mdata None inDynamic) initCache) (fun _ => true).
Definition processIssueTypeTest_mdataIsNull : bool := processIssueTypeTest None false.
Definition processIssueTypeTest_dynamicPath : bool := processIssueTypeTest (Some #"IssueNode") true.

(** ** The later tests of these files *)

Definition LookupRrdProfileListTest_NullInput : bool := expect (lookupRrdProfileList [] None) negb.
Definition LookupRrdProfileListTest_EmptyStringInput : bool := expect (lookupRrdProfileList [] (Some [])) negb.
Definition LookupRrdProfileListTest_ExactMatchFirst : bool :=
  expect (lookupRrdProfileList [] (Some #"RRD_PROFILE_LIST")) (fun _ => true).

Definition ExecuteCommandsTest_ReturnsTrueIfCommandIsPresentAndAllSucceed : bool :=
  expect (executeCommands (Some (IssueData (Some #"dummy") (Some #"echo hello") 0))) (fun r => r).

Definition CheckAppendRequestTest (input : cstr) (result : bool) (input' : cstr) : bool :=
  checkAppendRequest input === (result, input').
Definition CheckAppendRequestTest_ReturnsTrueAndRemovesSuffixWhenSuffixPresent : bool :=
  CheckAppendRequestTest #"issue_apnd" true #"issue".
Definition CheckAppendRequestTest_ReturnsTrueWhenSuffixIsOnlyContent : bool := CheckAppendRequestTest #"_apnd" true [].
Definition CheckAppendRequestTest_ReturnsFalseWhenSuffixMissing : bool := CheckAppendRequestTest #"issue" false #"issue".
Definition CheckAppendRequestTest_ReturnsFalseForShortString : bool := CheckAppendRequestTest [] false [].
Definition CheckAppendRequestTest_ReturnsFalseIfSuffixAtStartOnly : bool :=
  CheckAppendRequestTest #"_appendissue" false #"_appendissue".

(** A profile with one issue type and a sanity list. *)
Definition GetIssueCommandInfoTest (category type : cstr) (items : list Tree.node) (sanity : list cstr) : option json :=
  Some (Tree.obj [Tree.field category (Tree.VObj [Tree.field type (Tree.VArr items)]);
    Tree.field #"Sanity" (Tree.VObj [Tree.field #"Check" (Tree.VObj [Tree.field #"Commands" (Tree.VArr (Tree.str <$> sanity))])])]).
Definition GetIssueCommandInfoTest_ReturnsValidStruct : bool :=
  expect (getIssueCommandInfo (IssueNode (Some #"categoryA") (Some #"type1"))
      (GetIssueCommandInfoTest #"categoryA" #"type1" [num 42; Tree.str #"kill"] [ #"kill"; #"ls"]) #"rfcvalue123")
    (fun r => negb (given r)).
Definition GetIssueCommandInfoTest_UsesDefaultTimeoutIfNotSet : bool :=
  expect (getIssueCommandInfo (IssueNode (Some #"categoryB") (Some #"typeX"))
      (GetIssueCommandInfoTest #"categoryB" #"typeX" [Tree.str #"echo only"] [ #"kill"]) #"rfctest")
    (fun r => match r with
              | Some d => (timeout d === DEFAULT_TIMEOUT) && (rfcvalue d === Some #"rfctest") &&
                          match command d with Some c => given (strstr c #"echo only") | None => false end
              | None => false
              end).

(** ** All of them hold *)

Definition unit_tests : list bool := [
  GetParamCountTest_GetParamCount; GetParamCountTest_GetParamCountEmptyString; GetParamCountTest_GetParamCountNoDot;
  GetParamCountTest_GetParamCountMultipleConsecutiveDots; RemoveSpecialCharTest_RemoveSpecialCharEmptyString;
  RemoveSpecialCharTest_RemoveSpecialCharWithCarriageReturn; RemoveSpecialCharTest_RemoveSpecialCharWithNewLine;
  ReadJsonFileTest_ReadValidJsonFile; ReadJsonFileTest_ReadEmptyFile; ReadJsonFileTest_HandleFileReadError;
  ReadAndParseJSONTest_ParsesJsonFileCorrectly; ReadAndParseJSONTest_ReturnsNullForInvalidJsonFile;
  ReadAndParseJSONTest_ReturnsNullForNonexistentFile; GetIssueInfoTest_HandlesNormalInput;
  GetIssueInfoTest_HandlesInputWithoutSubnode; FindIssueInParsedJSONTest_HandlesNormalInput;
  FindIssueInParsedJSONTest_HandlesNullNode; FindIssueInParsedJSONTest_HandlesNullSubNode;
  FindIssueInParsedJSONTest_HandlesNonexistentNode; FindIssueInParsedJSONTest_HandlesNonexistentSubNode;
  InvokeSanityandCommandExecTest_DeepSleepAwkEvntTrue_TypeIsNumber_CommandIsNull;
  InvokeSanityandCommandExecTest_DeepSleepAwkEvntFalse_TypeIsNumber_CommandIsNull;
  InvokeSanityandCommandExecTest_DeepSleepAwkEvntTrue_TypeIsString_CommandIsNull;
  InvokeSanityandCommandExecTest_DeepSleepAwkEvntTrue_TypeIsNumber_CommandIsNotNull_IsCommandsValidReturnsZero;
  InvokeSanityandCommandExecTest_DeepSleepAwkEvntTrue_TypeIsString_CommandIsNotNull_IsCommandsValidReturnsNonZero;
  ProcessAllDebugCommandTest_MainnodeIsNull; ProcessAllDebugCommandTest_MainnodenameIsNull;
  ProcessAllDebugCommandTest_SubitemsIsZero; ProcessAllDebugCommandTest_InvokeSanityandCommandExecReturnsFalse;
  ProcessAllDeepSleepAwkMetricsCommandsTest_IssueCategoryCountIsZero;
  ProcessAllDeepSleepAwkMetricsCommandsTest_IssueTypeCountIsZero_InvokeSanityandCommandExecReturnsFalse;
  ProcessAllDeepSleepAwkMetricsCommandsTest_IssueTypeCountIsZero; UpdateBackgroundCmdTest_ReturnsOneForNullInput;
  UpdateBackgroundCmdTest_UpdatesBackgroundCmdCorrectly; UpdateBackgroundCmdTest_DoesNothingForStringWithoutAmpersandSemicolon;
  IsCommandsValidTest_ReturnsZeroForValidCommand; IsCommandsValidTest_ReturnsZeroForBackgroundCommand;
  ReplaceRRDLocationTest_TestReplaceRRDLocation_SubstringExists; ReplaceRRDLocationTest_TestReplaceRRDLocation_SubstringNotExists;
  RRDGetProfileStringLengthTest_HandlesIsDeepSleepAwakeEventFalse; RRDGetProfileStringLengthTest_HandlesNullNodeField;
  RRDGetProfileStringLengthTest_HandlesNodeLengthExceedsMax; RRDCheckIssueInDynamicProfileTest_InDynamicIsFalse;
  RRDCheckIssueInDynamicProfileTest_InDynamicIsTrue_PathDoesNotExist;
  RRDCheckIssueInDynamicProfileTest_InDynamicIsTrue_PathExists_ReadAndParseJSONReturnsNull;
  RRDCheckIssueInDynamicProfileTest_InDynamicIsTrue_PathExists_ReadAndParseNonNull_FindIssueFalse;
  RRDCheckIssueInDynamicProfileTest_InDynamicIsTrue_PathExists_ReadAndParseNonNull_FindIssueTrue;
  RRDRdmManagerDownloadRequestTest_DeepSleepAwakeEventIsFalse_SetParamReturnsFailure;
  RRDRdmManagerDownloadRequestTest_DeepSleepAwakeEventIsTrue_SetParamReturnsFailure;
  RRDRdmManagerDownloadRequestTest_DeepSleepAwakeEventIsFalse_SetParamReturnsSuccess;
  RRDRdmManagerDownloadRequestTest_HandlesAppendModeTrue; RRDProcessDeepSleepAwakeEventsTest_RbufDataNull;
  RRDProcessDeepSleepAwakeEventsTest_RbufDsEventIsInvalidDefault;
  RRDProcessDeepSleepAwakeEventsTest_RbufDsEventIsRdmDownloadPkgInitiateSetParamSuccess;
  RRDProcessDeepSleepAwakeEventsTest_RbufDsEventIsRdmDownloadPkgInitiateSetParamFail;
  RRDProcessDeepSleepAwakeEventsTest_RbufDsEventIsRdmPkgInstallCompleteInDynamicFalse;
  RRDProcessDeepSleepAwakeEventsTest_RbufDsEventIsRdmPkgInstallCompleteInDynamicTrue; NormalizeIssueNameTest_HandlesEmptyString;
  NormalizeIssueNameTest_HandlesStringWithNoDot; NormalizeIssueNameTest_HandlesStringWithOnlyDot;
  NormalizeIssueNameTest_HandlesStringWithOneDot; NormalizeIssueNameTest_HandlesStringWithConsecutiveDots;
  UploadDebugoutputTest_HandlesNullParameters; UploadDebugoutputTest_HandlesGoodPath;
  InitCacheTest_InitializesMutexAndSetsPointerToNull; PrintItemsTest_HandlesNullNode; PrintItemsTest_HandlesNonNullNode;
  CreateCacheTest_HandlesNullPkgDataAndValidIssueTypeData; CreateCacheTest_HandlesValidPkgDataAndIssueTypeData;
  CreateCacheTest_HandlesValidPkgDataAndNullIssueTypeData; CreateCacheTest_HandlesNullPkgDataAndIssueTypeData;
  AppendItemTest_HandlesRrdCachecnodeNullAndPkgDataNullAndIssueTypeDataNull;
  AppendItemTest_HandlesRrdCachecnodeNullAndPkgDataNullAndIssueTypeDataNotNull;
  AppendItemTest_HandlesRrdCachecnodeNullAndPkgDataNotNullAndIssueTypeDataNull;
  AppendItemTest_HandlesRrdCachecnodeNullAndPkgDataAndIssueTypeDataNotNull;
  AppendItemTest_HandlesRrdCachecnodeNotNullAndPkgDataNullAndIssueTypeDataNull;
  AppendItemTest_HandlesRrdCachecnodeNotNullAndPkgDataNullAndIssueTypeDataNotNull;
  AppendItemTest_HandlesRrdCachecnodeNotNullAndPkgDataNotNullAndIssueTypeDataNull;
  AppendItemTest_HandlesRrdCachecnodeNotNullAndPkgDataAndIssueTypeDataNotNull; RemoveQuotesTest_null_string;
  RemoveQuotesTest_HandlesQuotesAndEscapedQuotes; RemoveQuotesTest_HandlesSurroundingQuotes;
  RemoveQuotesTest_HandlesEscapedQuotesWithoutSurroundingQuotes; RemoveQuotesTest_HandlesStringWithoutQuotes;
  RemoveQuotesTest_HandlesEmptyString; CopyDebugLogDestFileTest_HandlesEmptySource;
  FindPresentInCacheTest_HandlesPkgDataFoundInSecondElement; FindPresentInCacheTest_HandlesPkgDataFoundInFirstElement;
  FindPresentInCacheTest_HandlesRrdCachecnodeNull; FindPresentInCacheTest_HandlesPkgDataNotFoundInRrdCachecnode;
  RemoveItemTest_HandlesCacheNull; RemoveItemTest_HandlesCacheNotNullAndCacheEqualsRrdCachecnode;
  RemoveItemTest_HandlesCacheNotNullAndCacheNotEqualsRrdCachecnode;
  RemoveSpecialCharacterfromIssueTypeListTest_HandlesEmptyString;
  RemoveSpecialCharacterfromIssueTypeListTest_HandlesStringWithCommaAndDot;
  RemoveSpecialCharacterfromIssueTypeListTest_HandlesStringWithoutCommaAndDot;
  RemoveSpecialCharacterfromIssueTypeListTest_HandlesStringWithConsecutiveSpecialCharacters;
  IssueTypeSplitterTest_HandlesStringWithSpecialCharacters; IssueTypeSplitterTest_HandlesStringWithNoSpecialCharacters;
  IssueTypeSplitterTest_HandlesEmptyString; SplitIssueTypeTest_NoUnderscoreReturnsFull;
  SplitIssueTypeTest_UnderscoreSplitsBaseAndSuffix; SplitIssueTypeTest_MultipleUnderscoresSplitsAtFirst;
  SplitIssueTypeTest_EmptyInputProducesEmptyOutputs; SplitIssueTypeTest_NullInputDoesNotCrash;
  SplitIssueTypeTest_BaseTruncatedWhenTooSmall; SplitIssueTypeTest_SuffixTruncatedWhenTooSmall;
  SplitIssueTypeTest_LeadingUnderscoreGivesEmptyBase; SplitIssueTypeTest_NullBaseDoesNotCrash;
  SplitIssueTypeTest_NullSuffixDoesNotCrash; SplitIssueTypeTest_ZeroBaseLenDoesNotCrash;
  SplitIssueTypeTest_ZeroSuffixLenDoesNotCrash; SplitIssueTypeTest_ExactFitBase; SplitIssueTypeTest_OnlyUnderscoreInput;
  SplitIssueTypeTest_NineCharSuffixIsAccepted; SplitIssueTypeTest_LongSuffixIsDiscarded;
  SplitIssueTypeTest_SuffixExceedingMaxLengthDiscarded; SplitIssueTypeTest_SuffixSeventeenCharsDiscarded;
  SplitIssueTypeTest_SuffixTwentyCharsDiscarded; SplitIssueTypeTest_SuffixWithUnsafeCharsIsSanitized;
  SplitIssueTypeTest_SuffixWithOnlyUnsafeCharsBecomesUnderscore; SplitIssueTypeTest_SuffixHyphensPreserved;
  ProcessIssueTypeInDynamicProfileTest_JsonPathIsNull;
  ProcessIssueTypeInDynamicProfileTest_JsonPathIsNotNull_ReadAndParseJSONReturnsNull;
  ProcessIssueTypeInDynamicProfileTest_JsonPathIsNotNull_ReadAndParseJSONReturnsNotNull_FindIssueInParsedJSONReturnsFalse;
  ProcessIssueTypeEvntTest_inDynamic_NoJson; ProcessIssueTypeEvntTest_IssueTypeWithSearchSuffix_inDynamic_NoJson;
  ProcessIssueTypeEvntTest_IssueTypeWithLogSearchSuffix_inDynamic_NoJson;
  ProcessIssueTypeEvntTest_MultipleIssueTypesWithAndWithoutSuffix; ProcessIssueTypeEvntTest_WhitespaceOnlyIssueTypeIsSkipped;
  ProcessIssueTypeEvntTest_EmptyStringIssueTypeIsSkipped; processIssueTypeTest_mdataIsNull; processIssueTypeTest_dynamicPath;
  LookupRrdProfileListTest_NullInput; LookupRrdProfileListTest_EmptyStringInput; LookupRrdProfileListTest_ExactMatchFirst;
  ExecuteCommandsTest_ReturnsTrueIfCommandIsPresentAndAllSucceed;
  CheckAppendRequestTest_ReturnsTrueAndRemovesSuffixWhenSuffixPresent; CheckAppendRequestTest_ReturnsTrueWhenSuffixIsOnlyContent;
  CheckAppendRequestTest_ReturnsFalseWhenSuffixMissing; CheckAppendRequestTest_ReturnsFalseForShortString;
  CheckAppendRequestTest_ReturnsFalseIfSuffixAtStartOnly; GetIssueCommandInfoTest_ReturnsValidStruct;
  GetIssueCommandInfoTest_UsesDefaultTimeoutIfNotSet].

Lemma unit_tests_pass : forallb id unit_tests = true.
Proof. vm_compute. reflexivity. Qed.
