(* ===== verification/UnitTestsBus.v ===== *)
(** * UnitTestsBus: the unit tests of the handlers, the decoder and the memory
    (src/unittest/rrdUnitTestRunner.cpp)

    More tests as in UnitTests: of rrdInterface.c, rrdIarmEvents.c,
    rrdMsgPackDecoder.c and rrdMain.c.  The calls a mock expects are compared
    with the calls of the model, in order.  The tests that only free are on
    memory; they leave it empty. *)

From stdpp Require Import gmap.
From S2P Require Import Prelude Types OS CJson IssueType Cache Queue MsgPack EventProcess Iarm Interface Main.
From S2P Require Import Heap CacheMem DecoderMem ThreadMem UnitTests.

Local Open Scope Z_scope.

#[local] Existing Instances test_os test_json test_device.

(** ** rrdIarm *)

(** The constants of the mocks (mocks/Client_Mock.h). *)
#[local] Instance test_iarm : Iarm := {|
  PWRMGR_PLUGIN := false; IARM_BUS_RDMMGR_NAME := #"RDMMgr"; IARM_BUS_PWRMGR_NAME := #"PWRMgr";
  IARM_BUS_RDMMGR_EVENT_APP_INSTALLATION_STATUS := 1; IARM_BUS_PWRMGR_EVENT_MODECHANGED := 0;
  IARM_BUS_PWRMGR_POWERSTATE_STANDBY_DEEP_SLEEP := 4; RDM_PKG_INSTALL_COMPLETE := 0 |}.

Definition SetBlobVersionTest_SetsGlobalVariable : bool := setBlobVersion 5 0 === (0, 5).
Definition GetBlobVersionTest_ReturnsGlobalVariable : bool := getBlobVersion 5 === 5.

Definition RRDDataBuffInitTest_InitializeDataBuff : bool :=
  let sbuf := RRD_data_buff_init EVENT_MSG RRD_DEEPSLEEP_RDM_DOWNLOAD_PKG_INITIATE in
  (mtype sbuf === EVENT_MSG) && (buf_mdata sbuf === None) && (jsonPath sbuf === None) && negb (inDynamic sbuf) &&
  (dsEvent sbuf === RRD_DEEPSLEEP_RDM_DOWNLOAD_PKG_INITIATE).
Definition RRDDataBuffInitTest_SuffixInitializedToNull : bool :=
  suffix (RRD_data_buff_init EVENT_MSG RRD_DEEPSLEEP_INVALID_DEFAULT) === None.

(** A call on memory returns and leaves nothing. *)
Definition leaves_nothing (m : MM unit) (h : list (loc * block)) : bool :=
  expect (m (list_to_map h)) (fun r => map_to_list r.2 === []).

#[local] Instance block_list_nil_dec (l : list (loc * block)) : Decision (l = []).
Proof. destruct l; [left|right]; done. Defined.

Definition test_cell (mdata jsonPath suffix : option loc) : block :=
  BBuf (BufCell DEFAULT mdata jsonPath false false RRD_DEEPSLEEP_INVALID_DEFAULT suffix).
Definition RRDDataBuffDeAllocTest_DeallocateDataBuff : bool :=
  leaves_nothing (RRD_data_buff_deAlloc (Some 1%positive))
    [(1%positive, test_cell (Some 2%positive) (Some 3%positive) None); (2%positive, BString []); (3%positive, BString [])].
Definition RRDDataBuffDeAllocTest_NullPointer : bool := leaves_nothing (RRD_data_buff_deAlloc None) [].
Definition RRDDataBuffDeAllocTest_DeallocateWithSuffixSet : bool :=
  leaves_nothing (RRD_data_buff_deAlloc (Some 1%positive))
    [(1%positive, test_cell (Some 2%positive) None (Some 3%positive)); (2%positive, BString #"IssueType");
     (3%positive, BString #"_Search-b6877385-9463-45fc-b19d-a24d77fd0790")].
Definition RRDDataBuffDeAllocTest_DeallocateWithAllFieldsNull : bool :=
  leaves_nothing (RRD_data_buff_deAlloc (Some 1%positive)) [(1%positive, test_cell None None None)].

Definition FreecacheDataCacheNodeTest_HandlesNodeNotNullAndMdataNotNullAndIssueStringNotNull : bool :=
  leaves_nothing (freecacheDataCacheNode_mem (Some 1%positive))
    [(1%positive, BEntry (EntryCell (Some 2%positive) (Some 3%positive) None None)); (2%positive, BString #"ValidMdata");
     (3%positive, BString #"ValidIssueString")].
Definition FreecacheDataCacheNodeTest_HandlesNodeNull : bool := leaves_nothing (freecacheDataCacheNode_mem None) [].
Definition FreecacheDataCacheNodeTest_HandlesNodeNotNullAndMdataNullAndIssueStringNotNull : bool :=
  leaves_nothing (freecacheDataCacheNode_mem (Some 1%positive))
    [(1%positive, BEntry (EntryCell None (Some 3%positive) None None)); (3%positive, BString #"ValidIssueString")].

(** The calls of IARM a mock expects, with the answer of the last; earlier calls
    succeed. *)
Definition iarm_calls (t : trace) : list iarm_call :=
  omap (fun e => match e with EvIarm c _ => Some c | _ => None end) t.
#[local] Instance iarm_call_eq_dec : EqDecision iarm_call.
Proof. solve_decision. Defined.
Definition iarm_os (calls : list iarm_call) (status : Z) : OS :=
  with_bus (fun _ _ => 0) (fun _ _ => None) (fun t _ => if (length (iarm_calls t) =? length calls - 1)%nat then status else 0)
    (fun _ _ => true) test_os.
Definition iarm_test (m : OS -> M Z) (calls : list iarm_call) (status : Z) : bool :=
  expect_calls (m (iarm_os calls status)) (fun r t => (r === status) && (iarm_calls t === calls)).

Definition iarm_device : Device := {| IARMBUS_SUPPORT := true; RRD_DEVICE_PROFILE := []; deviceType := None |}.
Definition RRDUnsubscribeTest (calls : list iarm_call) (status : Z) : bool :=
  iarm_test (fun o => @RRD_unsubscribe o iarm_device test_iarm false) calls status.
Definition UnRegisterRdm : iarm_call := IarmUnRegisterEventHandler #"RDMMgr" 1.
Definition UnRegisterPwr : iarm_call := IarmUnRegisterEventHandler #"PWRMgr" 0.
Definition RRDUnsubscribeTest_TestRRD_Unsubscribe_Success : bool :=
  RRDUnsubscribeTest [IarmDisconnect; IarmTerm; UnRegisterRdm; UnRegisterPwr] 0.
Definition RRDUnsubscribeTest_TestRRD_Unsubscribe_DisconnectFailure : bool := RRDUnsubscribeTest [IarmDisconnect] 1.
Definition RRDUnsubscribeTest_TestRRD_Unsubscribe_TermFailure : bool := RRDUnsubscribeTest [IarmDisconnect; IarmTerm] 1.
Definition RRDUnsubscribeTest_TestRRD_Unsubscribe_UnRegisterEventHandlerFailure : bool :=
  RRDUnsubscribeTest [IarmDisconnect; IarmTerm; UnRegisterRdm] 1.
Definition RRDUnsubscribeTest_TestRRD_Unsubscribe_UnRegisterRDMMgrEventHandlerRRDFailure : bool :=
  RRDUnsubscribeTest [IarmDisconnect; IarmTerm; UnRegisterRdm] 1.
Definition RRDUnsubscribeTest_TestRRD_Unsubscribe_UnRegisterPwrMgrEventHandlerFailure : bool :=
  RRDUnsubscribeTest [IarmDisconnect; IarmTerm; UnRegisterRdm; UnRegisterPwr] 1.

Definition WebConfigIntegrationTest_TestWebconfigFrameworkInit : bool :=
  expect_calls webconfigFrameworkInit (fun _ t => match t with [EvRegisterSubDocs _] => true | _ => false end).

(** The only call is that a message of this type and text was sent. *)
Definition sent_one (t : trace) (ty : message_type_et) (text : cstr) : bool :=
  match t with [EvMsgsnd m true] => (mtype m === ty) && (buf_mdata m === Some text) | _ => false end.
Definition deliver_buf : data_buf := DataBuf EVENT_MSG (Some #"mdata") None true false RRD_DEEPSLEEP_INVALID_DEFAULT None.
Definition RRDMsgDeliverTest_TestMessageDelivery : bool :=
  expect_calls (RRDMsgDeliver deliver_buf) (fun _ t => sent_one t EVENT_MSG #"mdata").
(** The process exits with status 1. *)
Definition RRDMsgDeliverTest_TestMessageDeliveryFailure : bool :=
  match @RRDMsgDeliver (with_bus (fun _ _ => 0) (fun _ _ => None) (fun _ _ => 0) (fun _ _ => false) test_os) deliver_buf
          (World [] 0) with
  | Exit status _ => status === 1
  | _ => false
  end.

Definition PushIssueTypesToMsgQueueTest_TestPushIssueTypesToMsgQueueSuccess : bool :=
  expect_calls (pushIssueTypesToMsgQueue (Terminated #"mdata") EVENT_MSG) (fun _ t => sent_one t EVENT_MSG #"mdata").

(** The call returns. *)
Definition RDMMgrEventHandlerTest (owner : cstr) (eventId status : Z) (c : cache) : bool :=
  expect (_rdmManagerEventHandler owner eventId (RdmEvent #"PkgData" #"/path/to/package" status) c) (fun _ => true).
Definition RDMMgrEventHandlerTest_TestInvalidOwnerName : bool := RDMMgrEventHandlerTest #"InvalidOwner" 0 0 initCache.
Definition RDMMgrEventHandlerTest_TestInvalidEventId : bool := RDMMgrEventHandlerTest #"RDMMgr" 2 0 initCache.
Definition RDMMgrEventHandlerTest_TestNotFoundInCache : bool :=
  expect (_rdmManagerEventHandler #"RDMMgr" 1 (RdmEvent #"Test package" #"/path/to/package" 0) initCache) (fun _ => true).
Definition RDMMgrEventHandlerTest_TestFoundInCacheDownloadNotComplete : bool :=
  RDMMgrEventHandlerTest #"RDMMgr" 1 1 (one_node #"PkgData" #"IssueString").
Definition RDMMgrEventHandlerTest_TestFoundInCacheDownloadIsCompleteAndDEEPSLEEPIssue : bool :=
  RDMMgrEventHandlerTest #"RDMMgr" 1 0 (one_node #"PkgData" #"DEEPSLEEP").
Definition RDMMgrEventHandlerTest_TestFoundInCacheDownloadIsCompleteAndNotDEEPSLEEPIssue : bool :=
  RDMMgrEventHandlerTest #"RDMMgr" 1 0 (one_node #"PkgData" #"NotDeepSleepIssue").

(** The bus is called so many times, and answers [status]. *)
Definition PwrMgrEventHandlerTest (owner : cstr) (cur new : Z) (status : Z) (calls : nat) : bool :=
  expect_calls (@_pwrManagerEventHandler (rbus_answers status) test_iarm owner (Some (PwrEvent cur new)))
    (fun _ t => length (omap (fun e => match e with EvRbus c _ => Some c | _ => None end) t) === calls).
Definition PwrMgrEventHandlerTest_TestInvalidOwnerName : bool := PwrMgrEventHandlerTest #"InvalidOwner" 0 0 0 0.
Definition PwrMgrEventHandlerTest_TestCurrentStateNotDeepSleep : bool := PwrMgrEventHandlerTest #"PWRMgr" 2 4 0 0.
Definition PwrMgrEventHandlerTest_TestCurrentStateDeepSleepRBusOpenSuccessRbusSetSuccess : bool :=
  PwrMgrEventHandlerTest #"PWRMgr" 4 2 0 1.
Definition PwrMgrEventHandlerTest_TestCurrentStateDeepSleepRBusOpenFail : bool := PwrMgrEventHandlerTest #"PWRMgr" 4 2 0 1.
Definition PwrMgrEventHandlerTest_TestCurrentStateDeepSleepRBusOpenSuccessRbusSetFail : bool :=
  PwrMgrEventHandlerTest #"PWRMgr" 4 2 1 1.

Definition RRDSubscribeTest (calls : list iarm_call) (status : Z) : bool :=
  iarm_test (fun o => @RRD_IARM_subscribe o test_iarm) calls status.
Definition RegisterRdm : iarm_call := IarmRegisterEventHandler #"RDMMgr" 1.
Definition RegisterPwr : iarm_call := IarmRegisterEventHandler #"PWRMgr" 0.
Definition RRDSubscribeTest_TestRRD_Subscribe_AllSuccess : bool :=
  RRDSubscribeTest [IarmInit RDK_REMOTE_DEBUGGER_NAME; IarmConnect; RegisterRdm; RegisterPwr] 0.
Definition RRDSubscribeTest_TestRRD_Subscribe_InitFail : bool := RRDSubscribeTest [IarmInit RDK_REMOTE_DEBUGGER_NAME] 1.
Definition RRDSubscribeTest_TestRRD_Subscribe_ConnectFail : bool :=
  RRDSubscribeTest [IarmInit RDK_REMOTE_DEBUGGER_NAME; IarmConnect] 1.
Definition RRDSubscribeTest_TestRRD_Subscribe_RDMMgrHandlerFail : bool :=
  RRDSubscribeTest [IarmInit RDK_REMOTE_DEBUGGER_NAME; IarmConnect; RegisterRdm] 1.
Definition RRDSubscribeTest_TestRRD_Subscribe_PwrMgrHandlerFail : bool :=
  RRDSubscribeTest [IarmInit RDK_REMOTE_DEBUGGER_NAME; IarmConnect; RegisterRdm; RegisterPwr] 1.

(** ** rrdMsgPackDecoder *)

(** A string literal: its characters and the terminating NUL. *)
Definition lit (s : cstr) : msgpack_object := MpStr (MsgpackStr (s ++ [NUL]) (length s)).

(** What msgpack-c and base64 answer to a test. *)
Definition test_msgpack (o : msgpack_object) (size : nat) (decoded : Z * cstr) : MsgPack := {|
  msgpack_unpack_next := fun _ len => (MSGPACK_UNPACK_SUCCESS, len, o); via_bits := fun _ => 0;
  b64_get_decoded_buffer_size := fun _ => size; b64_decode := fun _ => decoded;
  element_bytes := blank_elements; heap_byte := fun _ => NUL |}.

Definition TestDebuggerRollback_ValidReturn : bool := rollback_Debugger === 0.

Definition doc_block (param subdoc_name : option loc) : block := BDoc (DocCell param 0 subdoc_name 0 0).
Definition TestRRDDocDestroy_DocIsNULL : bool := leaves_nothing (remotedebuggerdoc_destroy_mem None) [].
Definition TestRRDDocDestroy_DocNotNullParamNotNullCommandListNull : bool :=
  leaves_nothing (remotedebuggerdoc_destroy_mem (Some 1%positive))
    [(1%positive, doc_block (Some 2%positive) None); (2%positive, BParam (ParamCell None 0))].
Definition TestRRDDocDestroy_DocNotNullParamNotNullCommandListNotNull : bool :=
  leaves_nothing (remotedebuggerdoc_destroy_mem (Some 1%positive))
    [(1%positive, doc_block (Some 2%positive) None); (2%positive, BParam (ParamCell (Some 3%positive) 0));
     (3%positive, BString #"sampleCommandList")].
Definition TestRRDDocDestroy_DocIsNULLSubDocNotNULL : bool :=
  leaves_nothing (remotedebuggerdoc_destroy_mem (Some 1%positive))
    [(1%positive, doc_block None (Some 2%positive)); (2%positive, BString #"sampleSubDocs")].

Definition FinderTest_MapSizeZero : bool := expect (__finder #"name" MSGPACK_OBJECT_STR []) (fun r => negb (given r)).
Definition FinderTest_KeyTypeNotStr : bool :=
  expect (__finder #"name" MSGPACK_OBJECT_STR [(MpNil, MpNil)]) (fun r => negb (given r)).
Definition found_value (r : option msgpack_object) : bool :=
  match r with Some (MpStr s) => take (str_size s) (str_mem s) === #"value" | _ => false end.
Definition FinderTest_KeyTypeStrExpectTypeMatch : bool :=
  expect (__finder #"name" MSGPACK_OBJECT_STR [(lit #"name", lit #"value")]) found_value.
Definition FinderTest_KeyTypeStrValTypeStrMatch : bool :=
  expect (__finder #"name" MSGPACK_OBJECT_NIL [(lit #"name", lit #"value")]) found_value.
Definition FinderTest_KeyTypeStrValTypeAnyMatch : bool :=
  expect (__finder #"name" MSGPACK_OBJECT_NIL [(lit #"name", MpNil)])
    (fun r => match r with Some o => msgpack_type o === MSGPACK_OBJECT_NIL | None => false end).

Definition GetMsgpackUnpackStatusTest_DecodedbufIsNullAndSizeIsZero : bool :=
  @get_msgpack_unpack_status (test_msgpack MpNil 0 (0, [])) None 0 === MSGPACK_UNPACK_NOMEM_ERROR.

Definition RemoteDebuggerDocStrErrorTest_KnownError : bool :=
  (remotedebuggerdoc_strerror 0 === #"No errors.") && (remotedebuggerdoc_strerror 1 === #"Out of memory.") &&
  (remotedebuggerdoc_strerror 2 === #"Invalid first element.") && (remotedebuggerdoc_strerror 5 === #"Invalid 'version' value.") &&
  (remotedebuggerdoc_strerror 4 === #"Invalid 'value' array.").
Definition RemoteDebuggerDocStrErrorTest_UnknownError : bool :=
  (remotedebuggerdoc_strerror 3 === #"Unknown error.") && (remotedebuggerdoc_strerror 999 === #"Unknown error.").
Definition RemoteDebuggerDocStrErrorTest_KnownErrorCodes : bool := RemoteDebuggerDocStrErrorTest_KnownError.
Definition RemoteDebuggerDocStrErrorTest_UnknownErrorCode : bool := remotedebuggerdoc_strerror 9999 === #"Unknown error.".
Definition RemoteDebuggerDocStrErrorTest_EdgeCaseZeroButNotInMap : bool := remotedebuggerdoc_strerror 0 === #"No errors.".

Definition GetReqTotalSizeOfIssueTypesStrTest_ArraySizeZero : bool := getReqTotalSizeOfIssueTypesStr [] === 1.
Definition GetReqTotalSizeOfIssueTypesStrTest_ArraySizeFiveWithNonStringTypes : bool :=
  getReqTotalSizeOfIssueTypesStr (replicate 5 (MpPositiveInteger 0)) === 6.
Definition GetReqTotalSizeOfIssueTypesStrTest_ArraySizeFiveWithStringTypes : bool :=
  let test_strs := [ #"one"; #"two"; #"three"; #"four"; #"five"] in
  getReqTotalSizeOfIssueTypesStr (lit <$> test_strs) === 1 + 5 + Z.of_nat (length (concat test_strs)).

Definition FreeResourcesRemoteDebuggerTest_NullPointerArgument : bool := leaves_nothing (FreeResources_RemoteDebugger_mem None) [].

Definition PrepareDataToPushTest_SuccessfulExecution : bool :=
  expect_calls (PrepareDataToPush (RemotedebuggerParam (Some #"12345") 5)) (fun _ t => sent_one t EVENT_MSG #"12345").

(** The mocks of the function that processes the document. *)
Definition mock_process_success (p : unit) (_ : list (option msgpack_object)) : M (Z * unit) := mret (0, p).
Definition mock_process_failure (p : unit) (_ : list (option msgpack_object)) : M (Z * unit) := mret (-1, p).
Definition HelperConvertTest (key : cstr) (process : unit -> list (option msgpack_object) -> M (Z * unit)) (found : bool) : bool :=
  expect (@helper_convert test_os (test_msgpack (MpMap [(lit key, lit #"value")]) 0 (0, [])) unit (Some #"packed") 6 tt (Some key)
    MSGPACK_OBJECT_STR false process) (fun r => given r === found).
Definition HelperConvertTest_BufIsNull : bool :=
  expect (@helper_convert test_os (test_msgpack MpNil 0 (0, [])) unit None 10 tt (Some #"wrapper") MSGPACK_OBJECT_MAP false
    mock_process_success) given.
Definition HelperConvertTest_MsgPackUnpackSuccessProcessSuccess : bool := HelperConvertTest #"parameters" mock_process_success true.
Definition HelperConvertTest_MsgPackUnpackSuccessProcessFails : bool := HelperConvertTest #"parameters" mock_process_failure false.
Definition HelperConvertTest_MsgPackWrapperConditionFalseProcessFails : bool := HelperConvertTest #"key" mock_process_failure false.
Definition HelperConvertTest_MsgPackWrapperConditionFalseProcessSuccess : bool := HelperConvertTest #"key" mock_process_success true.

Definition ProcessRemoteDebuggerParamsTest (key val : msgpack_object) (result : Z) : bool :=
  expect (process_remotedebuggerparams (RemotedebuggerParam None 0) [(key, val)]) (fun r => r.1 === result).
Definition ProcessRemoteDebuggerParamsTest_TestProcessRemDebugParams_WhileTrueCondition : bool :=
  ProcessRemoteDebuggerParamsTest (MpArray []) (lit []) (-1).
Definition ProcessRemoteDebuggerParamsTest_TestProcessRemDebugParams_WhilePassesMsgPackPassMatchFail : bool :=
  ProcessRemoteDebuggerParamsTest (lit #"NotIssueType") (MpArray []) (-1).
Definition ProcessRemoteDebuggerParamsTest_TestProcessRemDebugParams_WhilePassForPassIfPass : bool :=
  ProcessRemoteDebuggerParamsTest (lit #"IssueType") (MpArray [lit #"value"]) 0.

#[local] Instance blob_status_eq_dec : EqDecision blob_status.
Proof. solve_decision. Defined.
Definition ProcessRRDWfgReq_TestNullData : bool :=
  expect (Process_RemoteDebugger_WebConfigRequest None) (fun r => r === Some SYSCFG_FAILURE).
Definition ProcessRRDWfgReq_TestPrepAndPushToQueue : bool :=
  expect (Process_RemoteDebugger_WebConfigRequest
      (Some (RemotedebuggerDoc (Some (RemotedebuggerParam (Some #"command") 7)) 0 None 0 0))) (fun r => r === Some BLOB_EXEC_SUCCESS).

(** The mocks of base64: the size they announce and the result; what they write
    is not read. *)
Definition Base64DecodeTest (decodeMsgSize : nat) (result size : Z) : bool :=
  expect (@get_base64_decodedbuffer test_os (test_msgpack MpNil decodeMsgSize (result, [])) (Some #"test"))
    (fun r => match r with Some (_, n) => n === size | None => false end).
Definition Base64DecodeTest_PStringIsNull : bool :=
  expect (@get_base64_decodedbuffer test_os (test_msgpack MpNil 0 (0, [])) None) (fun r => negb (given r)).
Definition Base64DecodeTest_B64BuffZero_B64DecodeFalse : bool := Base64DecodeTest 0 0 0.
Definition Base64DecodeTest_B64BuffZero_B64DecodeTrue : bool := Base64DecodeTest 0 1 1.
Definition Base64DecodeTest_B64BuffNonZero_B64DecodeFalse : bool := Base64DecodeTest 1 0 0.
Definition Base64DecodeTest_B64BuffNonZero_B64DecodeTrue : bool := Base64DecodeTest 1 1 1.

Definition RemoteDebuggerDocTest_ProcessRemoteDebuggerDocSuccess : bool :=
  expect (@process_remotedebuggerdoc test_os (test_msgpack MpNil 0 (0, [])) zero_doc
      [Some (MpMap [(lit #"IssueType", MpArray [lit #"value"])]); Some (lit #"subdoc_name"); Some (MpPositiveInteger 1);
       Some (MpPositiveInteger 1)])
    (fun r => (r.1 === 0) && given (subdoc_name r.2) && (version r.2 === 1) && (transaction_id r.2 === 1) &&
              match param r.2 with Some p => given (commandList p) | None => false end).

(** The key of the subdocument is packed with two bytes behind its characters. *)
Definition RemoteDebuggerDocConvertTest_ConvertSuccess : bool :=
  expect (@remotedebuggerdoc_convert test_os (test_msgpack
      (MpMap [(MpStr (MsgpackStr (#"remotedebugger" ++ [NUL; NUL]) 16), MpMap [(lit #"IssueType", MpArray [lit #"value"])]);
              (lit #"subdoc_name", lit #"test_name"); (lit #"version", MpPositiveInteger 1);
              (lit #"transaction_id", MpPositiveInteger 123)]) 0 (0, [])) #"packed" 6)
    (fun r => match r with
              | Some d => (subdoc_name d === Some #"test_name") && (version d === 1) && (transaction_id d === 123) &&
                          match param d with Some p => commandList p === Some #"value" | None => false end
              | None => false
              end).

Definition ProcessWebCfgTypeEvntTest_RBufDataIsNull : bool :=
  expect (@processWebCfgTypeEvent test_os (test_msgpack MpNil 0 (0, [])) (test_buf None (Some #"sample-path") false)) (fun _ => true).

Definition DecodeWebCfgDataTest_Base64DecodeFails : bool :=
  expect (@decodeWebCfgData test_os (test_msgpack MpNil 0 (0, [])) None) (fun r => r.1 === -1).

(** ** rrdMain *)

(** The thread with these messages in its queue returns. *)
Definition RRDEventThreadFuncTest (queue : list data_buf) : bool :=
  expect (@RRDEventThreadFunc test_os test_json (test_msgpack MpNil 0 (0, [])) test_device queue initCache) (fun _ => true).
Definition thread_buf (ty : message_type_et) (mdata : option cstr) : data_buf :=
  DataBuf ty mdata None true false RRD_DEEPSLEEP_INVALID_DEFAULT None.
Definition RRDEventThreadFuncTest_MessageReceiveFailure : bool := RRDEventThreadFuncTest [].
Definition RRDEventThreadFuncTest_MessageReceiveSuccessDefaultType : bool :=
  RRDEventThreadFuncTest [thread_buf DEFAULT (Some #"Test Message")].
Definition RRDEventThreadFuncTest_MessageReceiveSuccessEventMsgType : bool :=
  RRDEventThreadFuncTest [set_suffix (Some #"_ab12345") (thread_buf EVENT_MSG (Some #"Test"))].
Definition RRDEventThreadFuncTest_MessageReceiveSuccessWebCfgMsgType : bool := RRDEventThreadFuncTest [thread_buf EVENT_WEBCFG_MSG None].
Definition RRDEventThreadFuncTest_MessageReceiveSuccessDeepSleepEventType : bool :=
  RRDEventThreadFuncTest [thread_buf DEEPSLEEP_EVENT_MSG None].

(** ** All of them hold *)

Definition bus_tests : list bool := [
  SetBlobVersionTest_SetsGlobalVariable; GetBlobVersionTest_ReturnsGlobalVariable; RRDDataBuffInitTest_InitializeDataBuff;
  RRDDataBuffInitTest_SuffixInitializedToNull; RRDDataBuffDeAllocTest_DeallocateDataBuff; RRDDataBuffDeAllocTest_NullPointer;
  RRDDataBuffDeAllocTest_DeallocateWithSuffixSet; RRDDataBuffDeAllocTest_DeallocateWithAllFieldsNull;
  FreecacheDataCacheNodeTest_HandlesNodeNotNullAndMdataNotNullAndIssueStringNotNull; FreecacheDataCacheNodeTest_HandlesNodeNull;
  FreecacheDataCacheNodeTest_HandlesNodeNotNullAndMdataNullAndIssueStringNotNull; RRDUnsubscribeTest_TestRRD_Unsubscribe_Success;
  RRDUnsubscribeTest_TestRRD_Unsubscribe_DisconnectFailure; RRDUnsubscribeTest_TestRRD_Unsubscribe_TermFailure;
  RRDUnsubscribeTest_TestRRD_Unsubscribe_UnRegisterEventHandlerFailure;
  RRDUnsubscribeTest_TestRRD_Unsubscribe_UnRegisterRDMMgrEventHandlerRRDFailure;
  RRDUnsubscribeTest_TestRRD_Unsubscribe_UnRegisterPwrMgrEventHandlerFailure; WebConfigIntegrationTest_TestWebconfigFrameworkInit;
  RRDMsgDeliverTest_TestMessageDelivery; RRDMsgDeliverTest_TestMessageDeliveryFailure;
  PushIssueTypesToMsgQueueTest_TestPushIssueTypesToMsgQueueSuccess; RDMMgrEventHandlerTest_TestInvalidOwnerName;
  RDMMgrEventHandlerTest_TestInvalidEventId; RDMMgrEventHandlerTest_TestNotFoundInCache;
  RDMMgrEventHandlerTest_TestFoundInCacheDownloadNotComplete;
  RDMMgrEventHandlerTest_TestFoundInCacheDownloadIsCompleteAndDEEPSLEEPIssue;
  RDMMgrEventHandlerTest_TestFoundInCacheDownloadIsCompleteAndNotDEEPSLEEPIssue; PwrMgrEventHandlerTest_TestInvalidOwnerName;
  PwrMgrEventHandlerTest_TestCurrentStateNotDeepSleep;
  PwrMgrEventHandlerTest_TestCurrentStateDeepSleepRBusOpenSuccessRbusSetSuccess;
  PwrMgrEventHandlerTest_TestCurrentStateDeepSleepRBusOpenFail;
  PwrMgrEventHandlerTest_TestCurrentStateDeepSleepRBusOpenSuccessRbusSetFail; RRDSubscribeTest_TestRRD_Subscribe_AllSuccess;
  RRDSubscribeTest_TestRRD_Subscribe_InitFail; RRDSubscribeTest_TestRRD_Subscribe_ConnectFail;
  RRDSubscribeTest_TestRRD_Subscribe_RDMMgrHandlerFail; RRDSubscribeTest_TestRRD_Subscribe_PwrMgrHandlerFail;
  TestDebuggerRollback_ValidReturn; TestRRDDocDestroy_DocIsNULL; TestRRDDocDestroy_DocNotNullParamNotNullCommandListNull;
  TestRRDDocDestroy_DocNotNullParamNotNullCommandListNotNull; TestRRDDocDestroy_DocIsNULLSubDocNotNULL; FinderTest_MapSizeZero;
  FinderTest_KeyTypeNotStr; FinderTest_KeyTypeStrExpectTypeMatch; FinderTest_KeyTypeStrValTypeStrMatch;
  FinderTest_KeyTypeStrValTypeAnyMatch; GetMsgpackUnpackStatusTest_DecodedbufIsNullAndSizeIsZero;
  RemoteDebuggerDocStrErrorTest_KnownError; RemoteDebuggerDocStrErrorTest_UnknownError;
  RemoteDebuggerDocStrErrorTest_KnownErrorCodes; RemoteDebuggerDocStrErrorTest_UnknownErrorCode;
  RemoteDebuggerDocStrErrorTest_EdgeCaseZeroButNotInMap; GetReqTotalSizeOfIssueTypesStrTest_ArraySizeZero;
  GetReqTotalSizeOfIssueTypesStrTest_ArraySizeFiveWithNonStringTypes;
  GetReqTotalSizeOfIssueTypesStrTest_ArraySizeFiveWithStringTypes; FreeResourcesRemoteDebuggerTest_NullPointerArgument;
  PrepareDataToPushTest_SuccessfulExecution; HelperConvertTest_BufIsNull; HelperConvertTest_MsgPackUnpackSuccessProcessSuccess;
  HelperConvertTest_MsgPackUnpackSuccessProcessFails; HelperConvertTest_MsgPackWrapperConditionFalseProcessFails;
  HelperConvertTest_MsgPackWrapperConditionFalseProcessSuccess;
  ProcessRemoteDebuggerParamsTest_TestProcessRemDebugParams_WhileTrueCondition;
  ProcessRemoteDebuggerParamsTest_TestProcessRemDebugParams_WhilePassesMsgPackPassMatchFail;
  ProcessRemoteDebuggerParamsTest_TestProcessRemDebugParams_WhilePassForPassIfPass; ProcessRRDWfgReq_TestNullData;
  ProcessRRDWfgReq_TestPrepAndPushToQueue; Base64DecodeTest_PStringIsNull; Base64DecodeTest_B64BuffZero_B64DecodeFalse;
  Base64DecodeTest_B64BuffZero_B64DecodeTrue; Base64DecodeTest_B64BuffNonZero_B64DecodeFalse;
  Base64DecodeTest_B64BuffNonZero_B64DecodeTrue; RemoteDebuggerDocTest_ProcessRemoteDebuggerDocSuccess;
  RemoteDebuggerDocConvertTest_ConvertSuccess; ProcessWebCfgTypeEvntTest_RBufDataIsNull; DecodeWebCfgDataTest_Base64DecodeFails;
  RRDEventThreadFuncTest_MessageReceiveFailure; RRDEventThreadFuncTest_MessageReceiveSuccessDefaultType;
  RRDEventThreadFuncTest_MessageReceiveSuccessEventMsgType; RRDEventThreadFuncTest_MessageReceiveSuccessWebCfgMsgType;
  RRDEventThreadFuncTest_MessageReceiveSuccessDeepSleepEventType].

Lemma bus_tests_pass : forallb id bus_tests = true.
Proof. vm_compute. reflexivity. Qed.
