(* ===== verification/UnitTestsUpload.v ===== *)
(** * UnitTestsUpload: the unit tests of the upload and of the two properties
    (src/unittest/rrdUnitTestRunner.cpp)

    More tests as in UnitTests: of rrd_config.c, rrd_sysinfo.c, rrd_logproc.c,
    rrd_archive.c, rrd_upload.c and uploadRRDLogs.c, on the files that the fixture
    makes, and of the two properties of rrdInterface.c, on a system that reads
    what was written before.  An answer a test does not fix is that of
    [demo_os]. *)

From S2P Require Import Prelude Types OS CJson IssueType Archive Config SysInfo Load Upload Interface UnitTests.

Local Open Scope Z_scope.

#[local] Existing Instances test_device.

(** ** The files of the tests *)

Definition lines (l : list cstr) : cstr := l ≫= (fun s => s ++ [NEWLINE]).
Definition include_properties : cstr :=
  lines [ #"LOG_SERVER=logs.example.com"; #"HTTP_UPLOAD_LINK=http://logs.example.com/upload"; #"UPLOAD_PROTOCOL=HTTP";
          #"RDK_PATH=/lib/rdk"; #"LOG_PATH=/opt/logs"; #"BUILD_TYPE=dev"].
Definition dcm_properties : cstr :=
  lines [ #"LOG_SERVER=logs.example.com"; #"HTTP_UPLOAD_LINK=http://logs.example.com/upload"; #"UPLOAD_PROTOCOL=HTTP"].

Definition lookup_path {A} (l : list (cstr * A)) (p : cstr) : option A := snd <$> List.find (fun e => streq (fst e) p) l.

Definition test_dir : cstr := #"/tmp/rrd_test_upload".
Definition upload_files : list (cstr * cstr) :=
  [(#"/tmp/test_include.properties", include_properties); (#"/etc/include.properties", include_properties);
   (#"/etc/device.properties", include_properties); (#"/opt/dcm.properties", dcm_properties);
   (test_dir ++ #"/test.log", #"Test log content 1" ++ [NEWLINE]); (test_dir ++ #"/debug.log", #"Test log content 2" ++ [NEWLINE])].
Definition directory : stat := Stat 0x41ED 0 0 4096 1709212509.
Definition regular (size : Z) : stat := Stat 0x81A4 0 0 size 1709212509.

(** [extra] are other directories with their names, [archive] is the file that
    the archive is written to. *)
Definition upload_demo (extra : list (cstr * list cstr)) (archive : list cstr) (config : bool) (lock : trace -> lock_result) : demo := {|
  demo_stat := lookup_path
    ([(test_dir, directory); (#"/tmp/rrd/", directory)] ++ ((fun e => (fst e, directory)) <$> extra) ++
     ((fun e => (fst e, regular (Z.of_nat (length (snd e))))) <$> (if config then upload_files else drop 4 upload_files)) ++
     ((fun a => (a, regular 10240)) <$> archive));
  demo_dir := lookup_path ((test_dir, [ #"."; #".."; #"test.log"; #"debug.log"]) :: extra);
  demo_file := lookup_path (if config then upload_files else drop 4 upload_files);
  demo_popen := fun _ => None; demo_lock := lock; demo_upload := 0 |}.

Definition granted : trace -> lock_result := fun _ => LockGranted.
Definition empty_dir : cstr := #"/tmp/rrd_test_empty".
#[local] Instance upload_os : OS :=
  demo_os (upload_demo [(empty_dir, [ #"."; #".."])] [ #"/tmp/rrd//test_archive.tgz"] true granted).

(** The same system with other answers to opening a file, to opening and
    removing an archive. *)
Definition with_files (fopen : trace -> cstr -> option cstr) (gzopen remove : trace -> cstr -> bool) (o : OS) : OS := {|
  os_malloc := @os_malloc o; os_stat := @os_stat o; os_lstat := @os_lstat o; os_access := @os_access o;
  os_readdir := @os_readdir o; os_fopen := fopen; os_open := @os_open o; os_getpwuid := @os_getpwuid o;
  os_getgrgid := @os_getgrgid o; os_popen := @os_popen o; os_system := @os_system o; os_rename := @os_rename o;
  os_remove := remove; os_flock := @os_flock o; os_gzopen := gzopen; os_gzwrite := @os_gzwrite o;
  os_estb_mac := @os_estb_mac o; os_localtime := @os_localtime o; os_uploadstblogs_run := @os_uploadstblogs_run o;
  os_mkdir := @os_mkdir o; os_chdir := @os_chdir o; os_getcwd := @os_getcwd o; os_time := @os_time o;
  os_pthread_self := @os_pthread_self o; os_fopen_write := @os_fopen_write o; os_secure_popen := @os_secure_popen o;
  os_secure_system := @os_secure_system o; os_rbus := @os_rbus o; os_rbus_get := @os_rbus_get o; os_iarm := @os_iarm o;
  os_msgsnd := @os_msgsnd o; os_open_write := @os_open_write o; os_fdopen := @os_fdopen o; os_fprintf := @os_fprintf o;
  os_setpriority := @os_setpriority o; os_beyond := @os_beyond o |}.

(** A status other than, and equal to, a number. *)
Definition not_zero (r : Z) : bool := negb (r === 0).
Definition equals (n : Z) (r : Z) : bool := r === n.

(** ** The orchestration *)

Definition RRDUploadOrchestrationTest_InvalidParametersNull : bool :=
  expect (rrd_upload_orchestrate None (Some #"issue_type")) not_zero &&
  expect (rrd_upload_orchestrate (Some test_dir) None) not_zero && expect (rrd_upload_orchestrate None None) not_zero.
Definition RRDUploadOrchestrationTest_ValidOrchestrationFlow : bool :=
  expect (rrd_upload_orchestrate (Some test_dir) (Some #"cpu.high")) (fun r => -1 <=? r).
Definition RRDUploadOrchestrationTest_ConfigurationLoading : bool :=
  expect (rrd_config_parse_properties (Some #"/tmp/test_include.properties") (Some empty_config))
    (fun r => (r.1 === 0) && match r.2 with
                             | Some c => (log_server c === #"logs.example.com") &&
                                 (http_upload_link c === #"http://logs.example.com/upload") && (upload_protocol c === #"HTTP")
                             | None => false
                             end).
Definition text_of_length (n : nat) (r : Z * option cstr) : bool :=
  (r.1 === 0) && match r.2 with Some s => (n <=? length s)%nat | None => false end.
Definition RRDUploadOrchestrationTest_SystemInfoRetrieval : bool :=
  expect (rrd_sysinfo_get_mac_address true 32) (text_of_length 12) && expect (rrd_sysinfo_get_timestamp true 32) (text_of_length 10).
Definition RRDUploadOrchestrationTest_LogDirectoryValidation : bool :=
  expect (rrd_logproc_validate_source (Some test_dir)) (equals 0) &&
  expect (rrd_logproc_validate_source (Some #"/tmp/nonexistent_rrd_test_12345")) not_zero &&
  expect (rrd_logproc_validate_source (Some empty_dir)) not_zero.
Definition RRDUploadOrchestrationTest_LogPreparation : bool :=
  expect (rrd_logproc_prepare_logs (Some test_dir) (Some #"cpu.high")) (equals 0).
Definition converts (input : cstr) (size : nat) (output : cstr) : bool :=
  rrd_logproc_convert_issue_type (Some input) true size === (0, Some output).
Definition RRDUploadOrchestrationTest_IssueTypeConversion : bool :=
  converts #"cpu.high" 64 #"CPU_HIGH" && converts #"Memory.Low" 64 #"MEMORY_LOW" && converts #"DISK" 64 #"DISK" &&
  not_zero (rrd_logproc_convert_issue_type (Some #"issue") true 1).1.
Definition RRDUploadOrchestrationTest_ArchiveFilenameGeneration : bool :=
  let mac := #"00:11:22:33:44:55" in let issue := #"CPU_HIGH" in let timestamp := #"2024-12-17-14-30-45PM" in
  match rrd_archive_generate_filename (Some mac) (Some issue) (Some timestamp) true 256 with
  | (r, Some filename) =>
      (r === 0) && given (strstr filename mac) && given (strstr filename issue) && given (strstr filename timestamp) &&
      given (strstr filename #"_RRD_DEBUG_LOGS.tgz") && match strchr filename "." with Some n => drop n filename === #".tgz" | None => false end
  | _ => false
  end.
(** The archive was written, so that it has contents. *)
Definition RRDUploadOrchestrationTest_ArchiveCreation : bool :=
  expect_calls (rrd_archive_create (Some test_dir) (Some #"/tmp/rrd/") (Some #"test_archive.tgz")) (fun r t =>
    (r === 0) && existsb (fun e => match e with EvGzwrite (_ :: _) _ => true | _ => false end) t).
Definition RRDUploadOrchestrationTest_FileOperations : bool :=
  expect (rrd_sysinfo_file_exists (Some (test_dir ++ #"/test.log"))) (fun r => r) &&
  expect (rrd_sysinfo_file_exists (Some #"/tmp/nonexistent_file_12345")) negb &&
  expect (rrd_sysinfo_dir_exists (Some test_dir)) (fun r => r) &&
  expect (rrd_sysinfo_dir_exists (Some #"/tmp/nonexistent_dir_12345")) negb.
Definition RRDUploadOrchestrationTest_DirectoryEmptinessCheck : bool :=
  expect (rrd_sysinfo_dir_is_empty (Some test_dir)) negb && expect (rrd_sysinfo_dir_is_empty (Some empty_dir)) (fun r => r).
Definition RRDUploadOrchestrationTest_DirectorySizeCalculation : bool :=
  expect (rrd_sysinfo_get_dir_size 2 (Some test_dir) true) (fun r => (r.1 === 0) && (0 <? r.2)).
(** The file is removed. *)
Definition RRDUploadOrchestrationTest_ArchiveCleanup : bool :=
  expect_calls (rrd_archive_cleanup (Some #"/tmp/rrd/test_cleanup.tgz")) (fun r t =>
    (r === 0) && match t with [EvRemove p true] => p === #"/tmp/rrd/test_cleanup.tgz" | _ => false end).
Definition RRDUploadOrchestrationTest_SourceDirectoryCleanup : bool :=
  expect_calls (rrd_upload_cleanup_source_dir (Some #"/tmp/rrd_test_source_cleanup")) (fun r t =>
    (r === 0) && match t with [EvSystem cmd 0] => cmd === #"rm -rf /tmp/rrd_test_source_cleanup" | _ => false end).
Definition RRDUploadOrchestrationTest_ConfigurationCleanup : bool :=
  match rrd_config_cleanup (Some (Config #"x" #"x" #"x" #"x" #"x" #"x" true)) with
  | Some c => (log_server c === []) && (http_upload_link c === []) && (upload_protocol c === [])
  | None => false
  end.
Definition locked_os : OS := demo_os (upload_demo [] [] true (fun _ => LockWouldBlock)).
Definition RRDUploadOrchestrationTest_UploadLockCheck : bool :=
  expect (rrd_upload_check_lock true) (fun r => (r.1 === 0) && (r.2 === Some false)) &&
  expect (@rrd_upload_check_lock locked_os true) (fun r => (r.1 === 0) && (r.2 === Some true)).
Definition RRDUploadOrchestrationTest_EndToEndOrchestration : bool :=
  expect (rrd_upload_orchestrate (Some test_dir) (Some #"test.issue")) (fun r => (-11 <=? r) && (r <=? 11)).
Definition RRDUploadOrchestrationTest_InvalidDirectoryPath : bool :=
  expect (rrd_upload_orchestrate (Some #"/invalid/path/to/logs") (Some #"issue")) not_zero.
Definition RRDUploadOrchestrationTest_EmptyDirectoryFailure : bool :=
  expect (rrd_upload_orchestrate (Some empty_dir) (Some #"test_issue")) (equals 6).
Definition RRDUploadOrchestrationTest_NullParametersFailure : bool :=
  expect (rrd_upload_orchestrate None (Some #"issue")) (equals 1) && expect (rrd_upload_orchestrate (Some test_dir) None) (equals 1).
Definition RRDUploadOrchestrationTest_InvalidMacBufferFailure : bool :=
  expect (rrd_sysinfo_get_mac_address true 5) (fun r => not_zero r.1).
Definition RRDUploadOrchestrationTest_InvalidTimestampBufferFailure : bool :=
  expect (rrd_sysinfo_get_timestamp true 10) (fun r => not_zero r.1).
Definition RRDUploadOrchestrationTest_IssueTypeConversionNullFailure : bool :=
  not_zero (rrd_logproc_convert_issue_type None true 64).1 && not_zero (rrd_logproc_convert_issue_type (Some #"issue") false 64).1 &&
  not_zero (rrd_logproc_convert_issue_type (Some #"issue") true 0).1.
Definition RRDUploadOrchestrationTest_LogUploadEnableHandling : bool :=
  expect (rrd_upload_orchestrate (Some test_dir) (Some #"logupload_enable")) (fun r => 0 <=? r).
Definition upload_rejected (log_server protocol http_link working_dir archive_filename : option cstr) : bool :=
  expect (rrd_upload_execute log_server protocol http_link working_dir archive_filename) not_zero.
Definition RRDUploadOrchestrationTest_UploadInvalidParametersFailure : bool :=
  let server := Some #"server" in let http := Some #"HTTP" in let link := Some #"http://upload" in
  let dir := Some #"/tmp/rrd/" in let file := Some #"test_archive.tgz" in
  upload_rejected None http link dir file && upload_rejected (Some []) http link dir file &&
  upload_rejected server None link dir file && upload_rejected server http None dir file &&
  upload_rejected server http link None file && upload_rejected server http link dir None.
Definition RRDUploadOrchestrationTest_SpecialCharactersInIssueType : bool :=
  match rrd_logproc_convert_issue_type (Some #"test-issue.sub@special!") true 64 with
  | (r, Some s) => (r === 0) && forallb (fun c => isalnum c || chareq c "_" || chareq c "-") s
  | _ => false
  end.
Definition RRDUploadOrchestrationTest_IssueTypeWithSuffixHyphensPreserved : bool :=
  converts #"Device_DeviceIP_Search-67768-67" 128 #"DEVICE_DEVICEIP_SEARCH-67768-67".
Definition RRDUploadOrchestrationTest_ConfigurationLoadFailure : bool :=
  expect (@rrd_upload_orchestrate (demo_os (upload_demo [] [] false granted)) (Some test_dir) (Some #"cpu.high")) (equals 3).
Definition RRDUploadOrchestrationTest_MacAddressRetrievalFailure : bool :=
  expect (rrd_sysinfo_get_mac_address false 32) (fun r => not_zero r.1) &&
  expect (rrd_sysinfo_get_mac_address true 0) (fun r => not_zero r.1) &&
  expect (rrd_sysinfo_get_mac_address true 5) (fun r => not_zero r.1).
Definition RRDUploadOrchestrationTest_TimestampRetrievalFailure : bool :=
  expect (rrd_sysinfo_get_timestamp false 32) (fun r => not_zero r.1) &&
  expect (rrd_sysinfo_get_timestamp true 0) (fun r => not_zero r.1) &&
  expect (rrd_sysinfo_get_timestamp true 5) (fun r => not_zero r.1).
Definition RRDUploadOrchestrationTest_LogPreparationFailure : bool :=
  expect (rrd_logproc_prepare_logs (Some #"/nonexistent/directory") (Some #"cpu.high")) not_zero &&
  expect (rrd_logproc_prepare_logs (Some test_dir) None) not_zero.
Definition RRDUploadOrchestrationTest_IssueTypeSanitizationFailure : bool :=
  not_zero (rrd_logproc_convert_issue_type None true 64).1 && not_zero (rrd_logproc_convert_issue_type (Some #"test") false 64).1 &&
  not_zero (rrd_logproc_convert_issue_type (Some #"test") true 0).1.
Definition RRDUploadOrchestrationTest_ArchiveFilenameGenerationFailure : bool :=
  let mac := Some #"00:11:22:33:44:55" in let issue := Some #"ISSUE" in let timestamp := Some #"timestamp" in
  let rejected mac issue timestamp output size := not_zero (rrd_archive_generate_filename mac issue timestamp output size).1 in
  rejected None issue timestamp true 256%nat && rejected mac None timestamp true 256%nat && rejected mac issue None true 256%nat &&
  rejected mac issue timestamp false 256%nat && rejected mac issue timestamp true 10%nat.

(** A system on which nothing can be written below /nonexistent. *)
Definition unwritable_os : OS :=
  with_files (@os_fopen upload_os) (fun _ p => negb (starts_with #"/nonexistent" p)) (fun _ _ => false) upload_os.
Definition RRDUploadOrchestrationTest_ArchiveCreationFailure : bool :=
  let file := Some #"test_archive_fail.tgz" in
  expect (@rrd_archive_create unwritable_os (Some #"/nonexistent/directory") (Some #"/tmp/rrd/") file) not_zero &&
  expect (@rrd_archive_create unwritable_os (Some test_dir) (Some #"/tmp/rrd/") None) not_zero &&
  expect (@rrd_archive_create unwritable_os (Some test_dir) (Some #"/nonexistent/path/") file) not_zero.
Definition RRDUploadOrchestrationTest_UploadExecutionFailure : bool :=
  let server := Some #"server" in let http := Some #"HTTP" in let link := Some #"http://server/upload" in
  let dir := Some #"/tmp/rrd/" in let file := Some #"test_upload_fail.tgz" in
  upload_rejected (Some []) http (Some #"http://invalid.server/upload") dir file && upload_rejected None http link dir file &&
  upload_rejected server None link dir file && upload_rejected server http None dir file &&
  upload_rejected server http link None file && upload_rejected server http link dir None.
Definition RRDUploadOrchestrationTest_LockWaitBehavior : bool :=
  expect (@rrd_upload_wait_for_lock locked_os 2 1) not_zero && expect (rrd_upload_wait_for_lock 2 1) (equals 0).
Definition RRDUploadOrchestrationTest_ArchiveCreationNullParams : bool :=
  expect (rrd_archive_create None (Some #"/tmp/rrd/") (Some #"test.tgz")) (equals (-1)) &&
  expect (rrd_archive_create (Some test_dir) (Some #"/tmp/rrd/") None) (equals (-1)).
Definition RRDUploadOrchestrationTest_ArchiveCreationUnwritable : bool :=
  expect (@rrd_archive_create unwritable_os (Some test_dir) (Some #"/nonexistent/dir/") (Some #"test.tgz")) (equals (-2)).
Definition RRDUploadOrchestrationTest_ArchiveCleanupNullParam : bool := expect (rrd_archive_cleanup None) (equals (-1)).
Definition RRDUploadOrchestrationTest_ArchiveCleanupNonExistent : bool :=
  expect (@rrd_archive_cleanup unwritable_os (Some #"/tmp/nonexistent_archive_12345.tgz")) (equals (-2)).

(** A directory below the other. *)
Definition nested_os : OS := demo_os
  (let d := upload_demo [(test_dir ++ #"/subdir", [ #"."; #".."; #"subfile.txt"])] [ #"/tmp/rrd//subdir_test.tgz"] true granted in
   {| demo_stat := fun p => if streq p (test_dir ++ #"/subdir/subfile.txt") then Some (regular 18) else demo_stat d p;
      demo_dir := fun p => if streq p test_dir then Some [ #"."; #".."; #"test.log"; #"debug.log"; #"subdir"] else demo_dir d p;
      demo_file := fun p => if streq p (test_dir ++ #"/subdir/subfile.txt") then Some (lines [ #"subdirectory file"]) else demo_file d p;
      demo_popen := demo_popen d; demo_lock := granted; demo_upload := 0 |}).
Definition RRDUploadOrchestrationTest_ArchiveWithSubdirectories : bool :=
  expect (@rrd_archive_create nested_os (Some test_dir) (Some #"/tmp/rrd/") (Some #"subdir_test.tgz")) (equals 0).
Definition RRDUploadOrchestrationTest_ArchiveEmptyWorkingDir : bool :=
  expect (@rrd_archive_create (demo_os (upload_demo [] [ #"./empty_workdir_test.tgz"; #"empty_workdir_test.tgz"] true granted))
    (Some test_dir) (Some []) (Some #"empty_workdir_test.tgz")) (equals 0).

Definition long_filename : cstr := replicate 150 "a"%char ++ #".txt".
(** The call returns. *)
Definition RRDUploadOrchestrationTest_ArchiveVeryLongFilename : bool :=
  expect (@rrd_archive_create (demo_os
      (let d := upload_demo [] [ #"/tmp/rrd//longname_test.tgz"] true granted in
       {| demo_stat := fun p => if streq p (test_dir ++ #"/" ++ long_filename) then Some (regular 13) else demo_stat d p;
          demo_dir := fun p => if streq p test_dir then Some [ #"."; #".."; #"test.log"; long_filename; #"debug.log"] else demo_dir d p;
          demo_file := fun p => if streq p (test_dir ++ #"/" ++ long_filename) then Some (lines [ #"test content"]) else demo_file d p;
          demo_popen := demo_popen d; demo_lock := granted; demo_upload := 0 |}))
      (Some test_dir) (Some #"/tmp/rrd/") (Some #"longname_test.tgz")) (fun _ => true).

(** Fifty more files of a hundred lines, 1190 bytes each. *)
Definition log_names : list cstr := (fun i => #"log" ++ printf_dec 0 i ++ #".txt") <$> seqZ 0 50.
Definition RRDUploadOrchestrationTest_LargeDirectoryHandling : bool :=
  expect (@rrd_sysinfo_get_dir_size (demo_os
      (let d := upload_demo [] [] true granted in
       {| demo_stat := fun p => if existsb (fun n => streq p (test_dir ++ #"/" ++ n)) log_names then Some (regular 1190) else demo_stat d p;
          demo_dir := fun p => if streq p test_dir then Some ([ #"."; #".."; #"test.log"; #"debug.log"] ++ log_names) else demo_dir d p;
          demo_file := demo_file d; demo_popen := demo_popen d; demo_lock := granted; demo_upload := 0 |}))
      2 (Some test_dir) true) (fun r => (r.1 === 0) && (50 * 100 <? r.2)).

(** ** The category *)

(** What was written to a file since it was opened last. *)
Definition written (t : trace) (p : cstr) : option cstr :=
  foldl (fun text e => match e with
                       | EvOpenW q true => if streq p q then Some [] else text
                       | EvFprintf q d _ => if streq p q then (fun s => s ++ d) <$> text else text
                       | _ => text
                       end) None t.

(** [before] holds the files the test made. *)
Definition files_os (before : list (cstr * cstr)) : OS :=
  with_files (fun t p => match written t p with Some s => Some s | None => lookup_path before p end) (fun _ _ => true) (fun _ _ => true)
    upload_os.

Definition LoadProfileCategoryTest (before : list (cstr * cstr)) (result : Z) (category : cstr) : bool :=
  expect (@load_profile_category (files_os before)) (fun r => r === (result, category)).
Definition LoadProfileCategoryTest_LoadFromExistingFile : bool :=
  LoadProfileCategoryTest [(RRD_PROFILE_CATEGORY_FILE, lines [ #"Video"])] 0 #"Video".
Definition LoadProfileCategoryTest_LoadFromNonExistentFile : bool := LoadProfileCategoryTest [] (-1) #"all".
Definition LoadProfileCategoryTest_LoadFromEmptyFile : bool := LoadProfileCategoryTest [(RRD_PROFILE_CATEGORY_FILE, [])] (-1) #"all".
Definition LoadProfileCategoryTest_LoadWithNewlineHandling : bool :=
  LoadProfileCategoryTest [(RRD_PROFILE_CATEGORY_FILE, lines [ #"Network"] ++ #"extra line")] 0 #"Network".

Definition SaveProfileCategoryTest_SaveToFile : bool :=
  expect_calls (@save_profile_category (files_os []) #"Audio") (fun r t =>
    (r === 0) && (written t RRD_PROFILE_CATEGORY_FILE === Some (lines [ #"Audio"]))).
Definition SaveProfileCategoryTest_SaveToReadOnlyDirectory : bool :=
  expect (@save_profile_category (files_os []) #"Audio") (fun r => -1 <=? r).

(** Saved and read back. *)
Definition saved_and_loaded (category : cstr) : bool :=
  expect (r ← @save_profile_category (files_os []) category; l ← @load_profile_category (files_os []); mret (r, l))
    (fun r => r === (0, (0, category))).
Definition RrdSetHandlerTest_SetValidProfileCategory : bool := saved_and_loaded #"TestCategory".

(** ** The profile data *)

(** The texts of the responses. *)
#[local] Instance test_build : CJSONBuild := {|
  print_array := fun l => Some (#"[" ++ join #", " (json_quote <$> l) ++ #"]");
  print_object := fun l => Some (#"{" ++ NEWLINE :: join [","%char; NEWLINE]
    ((fun e => TAB :: json_quote (fst e) ++ ":"%char :: TAB :: #"[" ++ join #", " (json_quote <$> snd e) ++ #"]") <$> l) ++
    NEWLINE :: #"}") |}.

(** The document that is parsed from any text. *)
Definition parsed (j : option Tree.node) : CJSON := Tree.tree_CJSON (fun _ => j).
#[local] Instance tree : CJSON := parsed None.

Definition commands (s : cstr) : Tree.value := Tree.VObj [Tree.field #"Commands" (Tree.VStr s)].
Definition HasDirectCommandsTest_CategoryWithDirectCommands : bool :=
  has_direct_commands (Some (Tree.obj [Tree.field #"IssueType1" (commands #"ls -la"); Tree.field #"IssueType2" (commands #"ps aux")])).
Definition HasDirectCommandsTest_CategoryWithoutDirectCommands : bool :=
  negb (has_direct_commands (Some (Tree.obj [Tree.field #"IssueType1" (Tree.VObj [Tree.field #"Description" (Tree.VStr #"Test issue")]);
    Tree.field #"IssueType2" (Tree.VObj [Tree.field #"Timeout" (Tree.VNum 30)])]))).
Definition HasDirectCommandsTest_EmptyCategory : bool := negb (has_direct_commands (Some (Tree.obj []))).
Definition HasDirectCommandsTest_NullCategory : bool := negb (has_direct_commands None).

(** The text of a document in which ['] stands for the double quote. *)
Definition json_text (s : cstr) : cstr := (fun c => if chareq c "'" then DQUOTE else c) <$> s.
Definition profile_text : cstr := json_text #"{'Video': {'issue1': {'Commands': 'test'}}}".
Definition ReadProfileJsonFileTest_ReadValidFile : bool :=
  expect (@read_profile_json_file (files_os [(#"/tmp/test_profile.json", profile_text)]) #"/tmp/test_profile.json")
    (fun r => r === Some profile_text).
Definition ReadProfileJsonFileTest_ReadNonExistentFile : bool :=
  expect (@read_profile_json_file (files_os []) #"/tmp/nonexistent.json") (fun r => r === None).
Definition ReadProfileJsonFileTest_ReadEmptyFile : bool :=
  expect (@read_profile_json_file (files_os [(#"/tmp/test_profile.json", [])]) #"/tmp/test_profile.json") (fun r => r === None).

Definition two_categories : option json :=
  Some (Tree.obj [Tree.field #"Video" (Tree.VObj [Tree.field #"issue1" (commands #"test1"); Tree.field #"issue2" (commands #"test2")]);
                  Tree.field #"Audio" (Tree.VObj [Tree.field #"issue3" (commands #"test3")])]).
Definition GetAllCategoriesJsonTest_GetAllValidCategories : bool :=
  get_all_categories_json two_categories === print_object [(#"Video", [ #"issue1"; #"issue2"]); (#"Audio", [ #"issue3"])].
Definition GetAllCategoriesJsonTest_GetAllFromEmptyJson : bool := get_all_categories_json (Some (Tree.obj [])) === print_object [].
Definition GetAllCategoriesJsonTest_GetAllFromNullJson : bool := get_all_categories_json None === print_object [].
Definition GetSpecificCategoryJsonTest_GetExistingCategory : bool :=
  get_specific_category_json two_categories #"Video" === print_array [ #"issue1"; #"issue2"].
Definition GetSpecificCategoryJsonTest_GetNonExistentCategory : bool :=
  get_specific_category_json (Some (Tree.obj [Tree.field #"Video" (Tree.VObj [Tree.field #"issue1" (commands #"test1")])])) #"NonExistent"
    === print_object [(#"Video", [ #"issue1"])].
Definition GetSpecificCategoryJsonTest_GetFromNullJson : bool := get_specific_category_json None #"Video" === print_object [].

Definition RrdGetHandlerTest_TestProfileDataProcessing : bool :=
  expect (@read_profile_json_file (files_os [(#"/tmp/test_profile.json", profile_text)]) #"/tmp/test_profile.json") given &&
  given (get_all_categories_json two_categories) && given (get_specific_category_json two_categories #"Video").

(** ** The handlers of the properties *)

#[local] Instance rbusError_eq_dec : EqDecision rbusError_t.
Proof. solve_decision. Defined.

Definition SetHandlerTest (name : cstr) (value : rbusValue_t) (result : rbusError_t) (category : cstr) : bool :=
  expect (@rrd_SetHandler (files_os []) (Some (RbusProperty (Some name) (Some value))) #"all") (fun r => r === (result, category)).
Definition RRDProfileHandlerTest_SetHandler_ValidStringAll : bool :=
  SetHandlerTest RRD_SET_PROFILE_EVENT (RBUS_STRING (Some #"all")) RBUS_ERROR_SUCCESS #"all".
Definition RRDProfileHandlerTest_SetHandler_ValidStringCategory : bool :=
  SetHandlerTest RRD_SET_PROFILE_EVENT (RBUS_STRING (Some #"Video")) RBUS_ERROR_SUCCESS #"Video".
Definition RRDProfileHandlerTest_SetHandler_StringTooLong : bool :=
  SetHandlerTest RRD_SET_PROFILE_EVENT (RBUS_STRING (Some (replicate 300 "A"%char))) RBUS_ERROR_INVALID_INPUT #"all".
Definition RRDProfileHandlerTest_SetHandler_InvalidType : bool :=
  SetHandlerTest RRD_SET_PROFILE_EVENT RBUS_OTHER RBUS_ERROR_INVALID_INPUT #"all".
Definition RRDProfileHandlerTest_SetHandler_WrongPropertyName : bool :=
  SetHandlerTest #"wrong.property.name" (RBUS_STRING (Some #"Audio")) RBUS_ERROR_INVALID_INPUT #"all".

(** There is no profile. *)
Definition GetHandlerTest (name category : cstr) (result : rbusError_t) : bool :=
  expect (@rrd_GetHandler (files_os []) tree test_build (RbusProperty (Some name) None) category) (fun r => r.1 === result).
Definition RRDProfileHandlerTest_GetHandler_AllCategories : bool := GetHandlerTest RRD_GET_PROFILE_EVENT #"all" RBUS_ERROR_BUS_ERROR.
Definition RRDProfileHandlerTest_GetHandler_SpecificCategory : bool :=
  GetHandlerTest RRD_GET_PROFILE_EVENT #"Network" RBUS_ERROR_BUS_ERROR.
Definition RRDProfileHandlerTest_GetHandler_WrongPropertyName : bool :=
  GetHandlerTest #"wrong.property.name" #"all" RBUS_ERROR_INVALID_INPUT.

Definition RRDProfileHandlerTest_ReadProfileJsonFile_NonExistentFile : bool :=
  expect (@read_profile_json_file (files_os []) #"/nonexistent/file.json") (fun r => r === None).

Definition get_property : rbusProperty_t := RbusProperty (Some RRD_GET_PROFILE_EVENT) None.
Definition RRDProfileHandlerTest_SetRbusResponse_ValidInput : bool :=
  expect (set_rbus_response get_property (Some (json_text #"{'test': 'value'}"))) (fun r => r.1 === RBUS_ERROR_SUCCESS).
Definition RRDProfileHandlerTest_SetRbusResponse_NullInput : bool :=
  expect (set_rbus_response get_property None) (fun r => r.1 === RBUS_ERROR_BUS_ERROR).

Definition RRDProfileHandlerTest_SaveAndLoadProfileCategory : bool := saved_and_loaded #"Network".
Definition RRDProfileHandlerTest_LoadProfileCategory_NoFile : bool :=
  expect (@load_profile_category (files_os [])) (fun r => not_zero r.1 && (r.2 === #"all")).

Definition RRDProfileHandlerTest_SetAndGetWorkflow_AllCategories : bool :=
  expect (s ← @rrd_SetHandler (files_os []) (Some (RbusProperty (Some RRD_SET_PROFILE_EVENT) (Some (RBUS_STRING (Some #"all"))))) #"all";
          g ← @rrd_GetHandler (files_os []) tree test_build get_property s.2;
          mret (s, g.1)) (fun r => r === (RBUS_ERROR_SUCCESS, #"all", RBUS_ERROR_BUS_ERROR)).
Definition RRDProfileHandlerTest_SetAndGetWorkflow_SpecificCategory : bool :=
  expect (s ← @rrd_SetHandler (files_os []) (Some (RbusProperty (Some RRD_SET_PROFILE_EVENT) (Some (RBUS_STRING (Some #"System"))))) #"all";
          l ← @load_profile_category (files_os []);
          mret (s, l.2)) (fun r => r === (RBUS_ERROR_SUCCESS, #"System", #"System")).

Definition RRDProfileHandlerTest_SetHandler_EmptyString : bool :=
  SetHandlerTest RRD_SET_PROFILE_EVENT (RBUS_STRING (Some [])) RBUS_ERROR_SUCCESS [].
Definition RRDProfileHandlerTest_SetHandler_MaxLengthString : bool :=
  SetHandlerTest RRD_SET_PROFILE_EVENT (RBUS_STRING (Some (replicate 255 "A"%char))) RBUS_ERROR_SUCCESS (replicate 255 "A"%char).

(** ** All of them hold *)

Definition upload_tests : list bool := [
  RRDUploadOrchestrationTest_InvalidParametersNull; RRDUploadOrchestrationTest_ValidOrchestrationFlow;
  RRDUploadOrchestrationTest_ConfigurationLoading; RRDUploadOrchestrationTest_SystemInfoRetrieval;
  RRDUploadOrchestrationTest_LogDirectoryValidation; RRDUploadOrchestrationTest_LogPreparation;
  RRDUploadOrchestrationTest_IssueTypeConversion; RRDUploadOrchestrationTest_ArchiveFilenameGeneration;
  RRDUploadOrchestrationTest_ArchiveCreation; RRDUploadOrchestrationTest_FileOperations;
  RRDUploadOrchestrationTest_DirectoryEmptinessCheck; RRDUploadOrchestrationTest_DirectorySizeCalculation;
  RRDUploadOrchestrationTest_ArchiveCleanup; RRDUploadOrchestrationTest_SourceDirectoryCleanup;
  RRDUploadOrchestrationTest_ConfigurationCleanup; RRDUploadOrchestrationTest_UploadLockCheck;
  RRDUploadOrchestrationTest_EndToEndOrchestration; RRDUploadOrchestrationTest_InvalidDirectoryPath;
  RRDUploadOrchestrationTest_EmptyDirectoryFailure; RRDUploadOrchestrationTest_NullParametersFailure;
  RRDUploadOrchestrationTest_InvalidMacBufferFailure; RRDUploadOrchestrationTest_InvalidTimestampBufferFailure;
  RRDUploadOrchestrationTest_IssueTypeConversionNullFailure; RRDUploadOrchestrationTest_LogUploadEnableHandling;
  RRDUploadOrchestrationTest_UploadInvalidParametersFailure; RRDUploadOrchestrationTest_SpecialCharactersInIssueType;
  RRDUploadOrchestrationTest_IssueTypeWithSuffixHyphensPreserved; RRDUploadOrchestrationTest_ConfigurationLoadFailure;
  RRDUploadOrchestrationTest_MacAddressRetrievalFailure; RRDUploadOrchestrationTest_TimestampRetrievalFailure;
  RRDUploadOrchestrationTest_LogPreparationFailure; RRDUploadOrchestrationTest_IssueTypeSanitizationFailure;
  RRDUploadOrchestrationTest_ArchiveFilenameGenerationFailure; RRDUploadOrchestrationTest_ArchiveCreationFailure;
  RRDUploadOrchestrationTest_UploadExecutionFailure; RRDUploadOrchestrationTest_LockWaitBehavior;
  RRDUploadOrchestrationTest_ArchiveCreationNullParams; RRDUploadOrchestrationTest_ArchiveCreationUnwritable;
  RRDUploadOrchestrationTest_ArchiveCleanupNullParam; RRDUploadOrchestrationTest_ArchiveCleanupNonExistent;
  RRDUploadOrchestrationTest_ArchiveWithSubdirectories; RRDUploadOrchestrationTest_ArchiveEmptyWorkingDir;
  RRDUploadOrchestrationTest_ArchiveVeryLongFilename; RRDUploadOrchestrationTest_LargeDirectoryHandling;
  LoadProfileCategoryTest_LoadFromExistingFile; LoadProfileCategoryTest_LoadFromNonExistentFile;
  LoadProfileCategoryTest_LoadFromEmptyFile; LoadProfileCategoryTest_LoadWithNewlineHandling; SaveProfileCategoryTest_SaveToFile;
  SaveProfileCategoryTest_SaveToReadOnlyDirectory; RrdSetHandlerTest_SetValidProfileCategory;
  HasDirectCommandsTest_CategoryWithDirectCommands; HasDirectCommandsTest_CategoryWithoutDirectCommands;
  HasDirectCommandsTest_EmptyCategory; HasDirectCommandsTest_NullCategory; ReadProfileJsonFileTest_ReadValidFile;
  ReadProfileJsonFileTest_ReadNonExistentFile; ReadProfileJsonFileTest_ReadEmptyFile;
  GetAllCategoriesJsonTest_GetAllValidCategories; GetAllCategoriesJsonTest_GetAllFromEmptyJson;
  GetAllCategoriesJsonTest_GetAllFromNullJson; GetSpecificCategoryJsonTest_GetExistingCategory;
  GetSpecificCategoryJsonTest_GetNonExistentCategory; GetSpecificCategoryJsonTest_GetFromNullJson;
  RrdGetHandlerTest_TestProfileDataProcessing; RRDProfileHandlerTest_SetHandler_ValidStringAll;
  RRDProfileHandlerTest_SetHandler_ValidStringCategory; RRDProfileHandlerTest_SetHandler_StringTooLong;
  RRDProfileHandlerTest_SetHandler_InvalidType; RRDProfileHandlerTest_SetHandler_WrongPropertyName;
  RRDProfileHandlerTest_GetHandler_AllCategories; RRDProfileHandlerTest_GetHandler_SpecificCategory;
  RRDProfileHandlerTest_GetHandler_WrongPropertyName; RRDProfileHandlerTest_ReadProfileJsonFile_NonExistentFile;
  RRDProfileHandlerTest_SetRbusResponse_ValidInput; RRDProfileHandlerTest_SetRbusResponse_NullInput;
  RRDProfileHandlerTest_SaveAndLoadProfileCategory; RRDProfileHandlerTest_LoadProfileCategory_NoFile;
  RRDProfileHandlerTest_SetAndGetWorkflow_AllCategories; RRDProfileHandlerTest_SetAndGetWorkflow_SpecificCategory;
  RRDProfileHandlerTest_SetHandler_EmptyString; RRDProfileHandlerTest_SetHandler_MaxLengthString].

Lemma upload_tests_pass : forallb id upload_tests = true.
Proof. vm_compute. reflexivity. Qed.
